(* ===== verification/_CoqProject ===== *)
-Q . S2P
Prelude.v
Layout.v
Bitmap.v
Extent.v
State.v
Elf.v
Super.v
Mkfs.v
Fsck.v
Codec.v
File.v
Pages.v
Xattr.v
XattrSpec.v
Inode.v
InodeSpec.v
Namespace.v
Unlink.v
Links.v
Volume.v
Dir.v
Runs.v
Tools.v
Module.v
