(* ===== verification/Prelude.v ===== *)
(** * lolelffs: a verified model

    lolelffs is a small Linux file system that lives on a block device or in the
    section .lolfs.super of an ELF file.  This development models its kernel
    module, its mkfs and fsck, and two user programs, and proves what makes them
    correct.  Paths are relative to the repository (src/).

    ** The program and the files that model it

    - Prelude.v: machine integers (a C integer of width w is a [Z], truncated by
      [u8], [u16], [u32], [u64], [i32] where the C code wraps), little-endian
      encoding, byte slices, error numbers, the state-and-error monad [M], and
      the lemmas, hints and tactics the other files share.
    - Layout.v: src/src/lolelffs.h.  The on-disk structures as records with the
      functions that read them from and write them to bytes; the constants.
    - Bitmap.v: src/src/bitmap.h.  The block and inode allocators on bitmaps, and
      the interface [Allocator] with one instance for each.
    - Extent.v: src/src/extent.c.  Counting, validation and search of extents.
    - State.v: the state the module's operations share, [fs]: the superblock in
      memory, the device as a finite map from block numbers to blocks of 4096
      bytes, the inode cache, and the answers of the kernel (which allocations
      fail, the clock, the ids of the caller).  A block absent from the map is
      one whose read fails.
    - Elf.v: src/src/elf.h.  Both searches for the section.
    - Super.v: src/src/super.c and iget of inode.c.  Mount, sync, statfs, write_inode.
    - Mkfs.v: src/src/mkfs.c.    Fsck.v: src/src/fsck.lolelffs.c.
    - Codec.v: src/src/compress.c and src/src/encrypt.c.
    - File.v, Pages.v: src/src/file.c.  Block mapping and write_begin; read_folio
      and the write-back of pages.
    - Xattr.v, XattrSpec.v: src/src/xattr.c and its theorems.
    - Inode.v: src/src/inode.c.  InodeSpec.v: what a directory on disk represents
      and how its parts change.  Namespace.v: lookup and create.  Unlink.v:
      removal of files.  Links.v: hard and symbolic links.  Volume.v: a directory of files as a finite map.
    - Dir.v: src/src/dir.c.  The listing of directories and the ioctl commands.
    - Runs.v: concrete runs of the operations of Inode.v and Dir.v that show
      defects of the code.
    - Tools.v: src/src/unlock_lolelffs.c, run against the model of the ioctl, and
      src/examples/03-programmatic/c-examples/read-superblock.c.
    - Module.v: src/src/fs.c.  Loading and unloading.

    A function of the source is a definition of the same name; a loop of it is a
    [Fixpoint] next to it.  A function that changes state or fails is in [M]:
    [M S A] is [S -> result A * S], so an error keeps the changes made before it,
    as in C, and the undo code of the source is written out ([on_error],
    [attempt]).  Undefined behaviour the model can see (a write outside a buffer,
    for instance) is the error [MEMFAULT], which no C code returns.

    ** What the theorems show

    - Allocation: the run taken is the lowest that fits, the bitmap changes by
      exactly that run, and in every interleaving of allocations and releases no
      block and no inode has two owners while the counters stay exact.
    - Extents: the binary search equals the obvious search on valid indexes,
      stays in bounds on every index, and validation accepts exactly the tilings.
    - Persistence: mount after sync recovers the maps and counters, iget after
      write_inode recovers the inode (members of 32 bits), mkfs produces images that mount with exact
      maps and that fsck accepts, fsck without errors implies the invariants, and
      the superblock reader prints the counts and places of the maps.
    - Files: get_block keeps the tiling and ownership invariants, write_begin has
      no effect when it fails, and a page written back is read back, where no
      cipher is in play; with one the write-back is refused.
    - Attributes: set, get, remove and list implement a map from names to values,
      on the bytes of the blocks; the walk over entries ends on any bytes.
    - Directories: create, lookup, unlink, link and symlink are correct one by
      one, every sequence of the first three refines a finite map from names to inodes ([Volume.v]),
      and the listing delivers each entry once, to a consumer that may refuse
      entries as long as its buffer takes a block's worth of them.
    - Encryption: the key derivation is PBKDF2; any sequence of ioctl commands
      unlocks at most once and only with a derived key; the unlock tool's exit
      code says what happened.
    - Loading the module is all or nothing.
    - Negative results: theorems such as [Bitmap.put_blocks_past_end_accepted],
      [Super.mount_bitmap_size_wraps], [Mkfs.mkfs_large_image_overflows],
      [Fsck.fsck_accepts_missing_map], [File.get_block_sparse_unstable],
      [Pages.read_folio_adds_offset_twice], [Pages.coding_per_extent_corrupts],
      [Super.large_size_lost], [Dir.unlock_race_replaces_key], [Dir.any_password_unlocks],
      [XattrSpec.xattr_set_nospace_loses_count] and those of [Runs] state what
      the code does where it does not do what it means to.

    ** Bounds and fuel

    Loops over arrays recurse on the array or on the number of elements.  The
    bitmap scans recurse on the bits left; the binary search has one unit of fuel
    per extent slot and halves the interval; the walks over attribute entries have
    one unit per byte, which [XattrSpec.xattr_walks_end] proves enough (a walk that used them up would be
    the error [NOFUEL], which no C code returns); mkfs's
    map loop has 514 units for the 512 words of the block and reports [MEMFAULT]
    before they are used up; read_from_bdev has the source's own limit of 10000
    iterations.  The directory theorems hold for up to 120 entries, the capacity
    of the one extent of 8 blocks that a directory can use.  mkfs is proved
    correct up to [mkfs_max_size], 1828624 blocks (about 7 GB), and proved to
    overflow a buffer above.

    ** Parameters

    LZ4, zlib, the ciphers, HMAC, block_write_begin, dir_emit_dots and the
    consumer of directory entries are arguments.  The properties that need
    something of them say so in named hypotheses: [zlib_correct] (inflate undoes
    deflate), [needs_key] (a cipher without a key refuses requests),
    [calls_get_block], [emits_dots] and [takes] (the consumer of entries accepts
    the next n).  They have witnesses with concrete functions.  The file behind a
    loop device, in which fill_super looks for the section, is an argument apart
    from the blocks of the device, as the source reads it through another
    kernel object.

    ** Not modelled

    - The release of memory and of buffer references (leaks have no effect here),
      except for what loading the module acquires; kernel log messages, printed
      text and floating-point percentages.
    - Failures of malloc in mkfs, whose buffers are of one block.
    - The page cache and the locking of pages and buffers; concurrency other than
      the interleaving of whole allocator calls and ioctl commands, and of the two
      locked sections of the unlock command ([Dir.unlock_race_replaces_key]).
    - zstd, which the source compiles out; the compression metadata block, which
      nothing uses; mkfs's listing of ELF sections with libelf, which only prints.
    - fsck's option parsing.
    - The Rust tools under lolelffs-tools, the tests and the other examples.

    ** Possible extensions

    A theorem for rename, and link, symlink and directories inside directories
    in the refinement of Volume.v; write-back with LZ4,
    which needs the padding the code adds to be part of the statement; a crash
    model between writes of a block. *)
From stdpp Require Export base tactics numbers list list_numbers gmap.
From Stdlib Require Export ZArith Lia.

#[global] Open Scope Z_scope.
#[export] Set Warnings "-clear-no-such-hyp".

(** ** Machine integers

    A C unsigned integer of width [w] is a [Z]; every operation of the source
    that can wrap is written with the cast that truncates it. *)

Definition u8 (x : Z) : Z := x mod 2 ^ 8.
Definition u16 (x : Z) : Z := x mod 2 ^ 16.
Definition u32 (x : Z) : Z := x mod 2 ^ 32.
Definition u64 (x : Z) : Z := x mod 2 ^ 64.
(** The conversion of a uint32_t to int. *)
Definition i32 (x : Z) : Z := if u32 x <? 2 ^ 31 then u32 x else u32 x - 2 ^ 32.

Declare Scope lol_scope.
Delimit Scope lol_scope with lol.
#[global] Open Scope lol_scope.

(** uint32_t addition, subtraction and multiplication. *)
Notation "x +₃₂ y" := (u32 (x + y)) (at level 50, left associativity) : lol_scope.
Notation "x -₃₂ y" := (u32 (x - y)) (at level 50, left associativity) : lol_scope.
Notation "x *₃₂ y" := (u32 (x * y)) (at level 40, left associativity) : lol_scope.

(** A value that fits a uint32_t. *)
Abbreviation is_u32 x := (0 <= x < 2 ^ 32) (only parsing).

Lemma u32_small x : is_u32 x -> u32 x = x.
Proof. apply Z.mod_small. Qed.

Lemma u32_range x : is_u32 (u32 x).
Proof. apply Z.mod_pos_bound. lia. Qed.

Lemma u8_range x : 0 <= u8 x < 256.
Proof. apply Z.mod_pos_bound. lia. Qed.

Lemma u16_range x : 0 <= u16 x < 65536.
Proof. apply Z.mod_pos_bound. lia. Qed.

Lemma u64_range x : 0 <= u64 x < 2 ^ 64.
Proof. apply Z.mod_pos_bound. lia. Qed.

Lemma u8_small x : 0 <= x < 256 -> u8 x = x.
Proof. apply Z.mod_small. Qed.

Lemma u16_small x : 0 <= x < 65536 -> u16 x = x.
Proof. apply Z.mod_small. Qed.

Lemma u64_small x : 0 <= x < 2 ^ 64 -> u64 x = x.
Proof. apply Z.mod_small. Qed.

Lemma i32_small x : 0 <= x < 2 ^ 31 -> i32 x = x.
Proof.
  intros. unfold i32. rewrite u32_small by lia. by rewrite (proj2 (Z.ltb_lt _ _)) by lia.
Qed.

(** ** Tactics of the development *)

(** Remove the casts whose argument is provably in range. *)
Ltac nowrap :=
  repeat match goal with
  | |- context [u32 ?x] => rewrite (u32_small x) by lia
  | |- context [u64 ?x] => rewrite (u64_small x) by lia
  | H : context [u32 ?x] |- _ => rewrite (u32_small x) in H by lia
  | H : context [u64 ?x] |- _ => rewrite (u64_small x) in H by lia
  end.

(** [lia] for goals with divisions and remainders by constants. *)
Ltac dlia := Z.to_euclidean_division_equations; lia.

(** Turn boolean comparisons of [Z] and [nat] into propositions. *)
Ltac zbool :=
  repeat match goal with
  | H : (_ <? _) = true |- _ => apply Z.ltb_lt in H
  | H : (_ <? _) = false |- _ => apply Z.ltb_ge in H
  | H : (_ <=? _) = true |- _ => apply Z.leb_le in H
  | H : (_ <=? _) = false |- _ => apply Z.leb_gt in H
  | H : (_ =? _) = true |- _ => apply Z.eqb_eq in H
  | H : (_ =? _) = false |- _ => apply Z.eqb_neq in H
  | H : negb _ = true |- _ => apply negb_true_iff in H
  | H : negb _ = false |- _ => apply negb_false_iff in H
  | H : (_ && _) = true |- _ => apply andb_true_iff in H as [? ?]
  | H : (_ || _) = false |- _ => apply orb_false_iff in H as [? ?]
  end.

(** Case analysis on every [if] of the goal. *)
Ltac cases :=
  repeat match goal with
  | |- context [if ?b then _ else _] =>
      lazymatch type of b with bool => let E := fresh "E" in destruct b eqn:E end
  end.

(** The same for a hypothesis. *)
Ltac cases_in H :=
  repeat match type of H with
  | context [if ?b then _ else _] =>
      lazymatch type of b with bool => let E := fresh "E" in destruct b eqn:E end
  end.

(** ** Bytes in memory *)

(** The [n] bytes of [b] from offset [off]. *)
Definition slice (off n : nat) (b : list Z) : list Z := take n (drop off b).

(** memcpy (and memmove) of [v] over the bytes of [b] from offset [off]. *)
Definition splice (off : nat) (v b : list Z) : list Z := list_inserts off v b.

(** memset(b, 0, n). *)
Definition zeros (n : nat) : list Z := replicate n 0.

(** A byte string: every element is the value of a uint8_t. *)
Definition bytes_ok (l : list Z) : Prop := Forall (fun x => 0 <= x < 256) l.

Create HintDb mem.
Create Rewrite HintDb mem.

Lemma length_slice off n b : (off + n <= length b)%nat -> length (slice off n b) = n.
Proof. intros. unfold slice. rewrite length_take, length_drop. lia. Qed.

Lemma length_splice off v b : length (splice off v b) = length b.
Proof. apply length_inserts. Qed.

Lemma length_zeros n : length (zeros n) = n.
Proof. apply length_replicate. Qed.

#[export] Hint Rewrite length_splice length_zeros : mem.

Lemma lookup_slice off n b i :
  slice off n b !! i = if decide (i < n)%nat then b !! (off + i)%nat else None.
Proof.
  unfold slice. case_decide.
  - rewrite lookup_take_lt by done. by rewrite lookup_drop.
  - by rewrite lookup_take_ge by lia.
Qed.

Lemma lookup_splice_in off v b i :
  (off <= i < off + length v)%nat -> (off + length v <= length b)%nat ->
  splice off v b !! i = v !! (i - off)%nat.
Proof.
  intros. unfold splice. rewrite list_lookup_inserts by lia. done.
Qed.

Lemma lookup_splice_out off v b i :
  (i < off)%nat \/ (off + length v <= i)%nat -> splice off v b !! i = b !! i.
Proof.
  intros [|]; unfold splice.
  - by rewrite list_lookup_inserts_lt.
  - by rewrite list_lookup_inserts_ge.
Qed.

(** Reading inside what was just written. *)
Lemma slice_splice_in off v b o n :
  (off <= o)%nat -> (o + n <= off + length v)%nat ->
  (off + length v <= length b)%nat ->
  slice o n (splice off v b) = slice (o - off) n v.
Proof.
  intros. apply list_eq. intros i. rewrite !lookup_slice. case_decide; [|done].
  rewrite lookup_splice_in by lia. f_equal. lia.
Qed.

(** Reading back exactly what was written. *)
Lemma slice_splice off v b :
  (off + length v <= length b)%nat -> slice off (length v) (splice off v b) = v.
Proof.
  intros. rewrite slice_splice_in by lia. rewrite Nat.sub_diag.
  unfold slice. by rewrite drop_0, take_ge.
Qed.

(** Reading beside what was written. *)
Lemma slice_splice_out off v b o n :
  (o + n <= off)%nat \/ (off + length v <= o)%nat ->
  slice o n (splice off v b) = slice o n b.
Proof.
  intros Hd. apply list_eq. intros i. rewrite !lookup_slice. case_decide; [|done].
  apply lookup_splice_out. lia.
Qed.

Lemma slice_zeros o n m : (o + n <= m)%nat -> slice o n (zeros m) = zeros n.
Proof.
  intros. unfold slice, zeros. rewrite drop_replicate, take_replicate. f_equal. lia.
Qed.

Lemma slice_slice o n o' n' b :
  (o + n <= n')%nat -> slice o n (slice o' n' b) = slice (o' + o) n b.
Proof.
  intros. apply list_eq. intros i. rewrite !lookup_slice.
  destruct (decide (i < n)%nat); [|done]. rewrite decide_True by lia. f_equal. lia.
Qed.

Lemma bytes_ok_zeros n : bytes_ok (zeros n).
Proof. apply Forall_replicate. lia. Qed.

Lemma bytes_ok_slice o n b : bytes_ok b -> bytes_ok (slice o n b).
Proof. intros. by apply Forall_take, Forall_drop. Qed.

Lemma bytes_ok_splice o v b : bytes_ok v -> bytes_ok b -> bytes_ok (splice o v b).
Proof.
  intros Hv Hb. apply Forall_lookup_2. intros i x Hi.
  apply list_lookup_inserts_Some in Hi as [[_ Hi]|(_ & _ & Hi)].
  - exact (Forall_lookup_1 _ _ _ _ Hb Hi).
  - exact (Forall_lookup_1 _ _ _ _ Hv Hi).
Qed.

Lemma bytes_ok_app a b : bytes_ok a -> bytes_ok b -> bytes_ok (a ++ b).
Proof. intros. by apply Forall_app. Qed.

#[export] Hint Resolve bytes_ok_zeros bytes_ok_slice bytes_ok_splice bytes_ok_app : mem.

(** Little-endian integers in memory: the kernel runs on a little-endian
    machine, so le32_to_cpu and htole32 are the identity on the value. *)
Fixpoint le_enc (n : nat) (v : Z) : list Z :=
  match n with
  | O => []
  | S n => v mod 256 :: le_enc n (v / 256)
  end.

Fixpoint le_dec (l : list Z) : Z :=
  match l with
  | [] => 0
  | x :: l => x + 256 * le_dec l
  end.

Lemma length_le_enc n v : length (le_enc n v) = n.
Proof. revert v. induction n; intros; cbn; auto. Qed.

#[export] Hint Rewrite length_le_enc : mem.

Lemma bytes_ok_le_enc n v : bytes_ok (le_enc n v).
Proof.
  revert v. induction n as [|n IH]; intros v; cbn; constructor; [|apply IH].
  apply Z.mod_pos_bound. lia.
Qed.

#[export] Hint Resolve bytes_ok_le_enc : mem.

Lemma le_dec_enc n v : le_dec (le_enc n v) = v mod 256 ^ Z.of_nat n.
Proof.
  revert v. induction n as [|n IH]; intros v.
  - cbn. by rewrite Z.mod_1_r.
  - cbn [le_enc le_dec]. rewrite IH, Nat2Z.inj_succ, Z.pow_succ_r by lia.
    rewrite Z.rem_mul_r by lia. lia.
Qed.

Lemma le_dec_range l : bytes_ok l -> 0 <= le_dec l < 256 ^ Z.of_nat (length l).
Proof.
  induction 1 as [|x l Hx Hl IH]; [cbn; lia|].
  cbn [le_dec length]. rewrite Nat2Z.inj_succ, Z.pow_succ_r by lia. lia.
Qed.

Lemma le_enc_dec l : bytes_ok l -> le_enc (length l) (le_dec l) = l.
Proof.
  induction 1 as [|x l Hx Hl IH]; [done|].
  cbn [length le_enc le_dec]. rewrite Z.mul_comm, Z.mod_add by lia.
  rewrite Z.div_add by lia. rewrite (Z.mod_small x), (Z.div_small x), Z.add_0_l by lia.
  by f_equal.
Qed.

Lemma le_dec_zeros n : le_dec (zeros n) = 0.
Proof. induction n as [|n IH]; cbn; [done|]. unfold zeros in IH. by rewrite IH. Qed.

(** Fields of a structure laid over the bytes [b]. *)
Definition rd8 (b : list Z) (off : nat) : Z := le_dec (slice off 1 b).
Definition rd16 (b : list Z) (off : nat) : Z := le_dec (slice off 2 b).
Definition rd32 (b : list Z) (off : nat) : Z := le_dec (slice off 4 b).
Definition wr32 (off : nat) (v : Z) (b : list Z) : list Z := splice off (le_enc 4 v) b.

Lemma rd32_range b off : bytes_ok b -> (off + 4 <= length b)%nat -> is_u32 (rd32 b off).
Proof.
  intros Hb Hl. unfold rd32.
  pose proof (le_dec_range (slice off 4 b) (bytes_ok_slice _ _ _ Hb)) as H.
  rewrite length_slice in H by done. exact H.
Qed.

Lemma rd32_wr32 off v b : (off + 4 <= length b)%nat -> rd32 (wr32 off v b) off = u32 v.
Proof.
  intros. unfold rd32, wr32.
  rewrite <- (length_le_enc 4 v) at 1.
  rewrite slice_splice by (autorewrite with mem; lia). apply le_dec_enc.
Qed.

Lemma rd32_wr32_ne off off' v b :
  (off' + 4 <= off)%nat \/ (off + 4 <= off')%nat -> rd32 (wr32 off v b) off' = rd32 b off'.
Proof.
  intros. unfold rd32, wr32. rewrite slice_splice_out; [done|].
  autorewrite with mem. lia.
Qed.

(** ** Errors and effects

    A handler of the file system changes the state and returns either a value
    or an errno; what it changed before an error stays changed, so the state is
    returned on both branches. *)

Inductive errno :=
  | EPERM | EIO | ENOMEM | EFAULT | EEXIST | ENOTDIR | EINVAL | ENOTTY | EFBIG
  | ENOSPC | EMLINK | ERANGE | ENAMETOOLONG | ENOTEMPTY | ENODATA | E2BIG
  | EBADMSG | EOPNOTSUPP | ENOKEY
  | MEMFAULT   (* not a code of the source: it accesses memory outside an object here *)
  | NOFUEL.    (* not a code of the source: the loop has not ended within the steps allowed *)

#[global] Instance errno_eq_dec : EqDecision errno.
Proof. solve_decision. Defined.

Inductive result (A : Type) :=
  | Ok (a : A)
  | Err (e : errno).
Arguments Ok {A} a.
Arguments Err {A} e.

Definition M (S A : Type) : Type := S -> result A * S.

#[global] Instance M_ret {S} : MRet (M S) := fun A a s => (Ok a, s).
#[global] Instance M_bind {S} : MBind (M S) := fun A B f m s =>
  match m s with
  | (Ok a, s') => f a s'
  | (Err e, s') => (Err e, s')
  end.

Definition fail {S A} (e : errno) : M S A := fun s => (Err e, s).
Definition gets {S A} (f : S -> A) : M S A := fun s => (Ok (f s), s).
Definition modify {S} (f : S -> S) : M S unit := fun s => (Ok tt, f s).

(** Run [m] and hand its outcome to the caller, which decides what to do. *)
Definition attempt {S A} (m : M S A) : M S (result A) := fun s =>
  let '(r, s') := m s in (Ok r, s').

(** A [goto] to a clean-up label on error: run [h], then return the error. *)
Definition on_error {S A} (m : M S A) (h : M S unit) : M S A := fun s =>
  match m s with
  | (Ok a, s') => (Ok a, s')
  | (Err e, s') => (Err e, snd (h s'))
  end.

(** Inversion of a successful bind. *)
Lemma bind_Ok {S A B} (m : M S A) (f : A -> M S B) s b s' :
  (m ≫= f) s = (Ok b, s') -> exists a s1, m s = (Ok a, s1) /\ f a s1 = (Ok b, s').
Proof.
  unfold mbind, M_bind. destruct (m s) as [[a|e] s1] eqn:E; [|done]. eauto.
Qed.

Lemma bind_run {S A B} (m : M S A) (f : A -> M S B) s a s1 :
  m s = (Ok a, s1) -> (m ≫= f) s = f a s1.
Proof. unfold mbind, M_bind. by intros ->. Qed.

Lemma bind_err {S A B} (m : M S A) (f : A -> M S B) s e s1 :
  m s = (Err e, s1) -> (m ≫= f) s = (Err e, s1).
Proof. unfold mbind, M_bind. by intros ->. Qed.

Lemma bind_modify {S A} (f : S -> S) (g : unit -> M S A) s : (modify f ≫= g) s = g tt (f s).
Proof. done. Qed.

Lemma bind_gets {S A B} (f : S -> A) (g : A -> M S B) s : (gets f ≫= g) s = g (f s) s.
Proof. done. Qed.

Lemma bind_mret {S A B} (a : A) (g : A -> M S B) s : ((mret a : M S A) ≫= g) s = g a s.
Proof. done. Qed.

(** ** Sets of block numbers *)

(** The numbers [s], ..., [s + n - 1]. *)
Definition range (s n : Z) : gset Z := list_to_set (seqZ s n).

Lemma elem_of_range s n i : i ∈ range s n <-> s <= i < s + n.
Proof. unfold range. rewrite elem_of_list_to_set, elem_of_seqZ. lia. Qed.

Lemma size_range s n : 0 <= n -> Z.of_nat (size (range s n)) = n.
Proof.
  intros. unfold range. rewrite size_list_to_set by apply NoDup_seqZ.
  rewrite length_seqZ. lia.
Qed.

Lemma range_disjoint s n s' n' :
  s + n <= s' \/ s' + n' <= s -> range s n ## range s' n'.
Proof. intros H x. rewrite !elem_of_range. lia. Qed.
