(* ===== verification/Layout.v ===== *)
(** * On-disk layout (src/src/lolelffs.h)

    The constants of the header, the C structures that are laid over disk
    blocks, and their byte encodings.  A block is the list of its 4096 bytes;
    casting [bh->b_data] to a structure is decoding at the offsets the C ABI
    gives the fields, and assigning a field is writing its bytes in place. *)
From S2P Require Import Prelude.

Definition LOLELFFS_MAGIC : Z := 0x101E1FF5.
Definition LOLELFFS_SB_BLOCK_NR : Z := 0.
Definition LOLELFFS_BLOCK_SIZE : Z := Z.shiftl 1 12.
Definition LOLELFFS_MAX_BLOCKS_PER_EXTENT : Z := 2048.
Definition LOLELFFS_MAX_BLOCKS_PER_EXTENT_LARGE : Z := 524288.
Definition LOLELFFS_FILENAME_LEN : Z := 255.
Definition LOLELFFS_VERSION : Z := 1.
Definition LOLELFFS_FEATURE_LARGE_EXTENTS : Z := 0x0001.

Definition LOLELFFS_COMP_NONE : Z := 0.
Definition LOLELFFS_COMP_LZ4 : Z := 1.
Definition LOLELFFS_COMP_ZLIB : Z := 2.
Definition LOLELFFS_COMP_ZSTD : Z := 3.

Definition LOLELFFS_ENC_NONE : Z := 0.
Definition LOLELFFS_ENC_AES256_XTS : Z := 1.
Definition LOLELFFS_ENC_CHACHA20_POLY : Z := 2.

Definition LOLELFFS_KDF_NONE : Z := 0.
Definition LOLELFFS_KDF_ARGON2ID : Z := 1.
Definition LOLELFFS_KDF_PBKDF2 : Z := 2.

Definition LOLELFFS_EXT_COMPRESSED : Z := 0x0001.
Definition LOLELFFS_EXT_ENCRYPTED : Z := 0x0002.
Definition LOLELFFS_EXT_HAS_META : Z := 0x0004.
Definition LOLELFFS_EXT_MIXED : Z := 0x0008.

(** Structure sizes under the C ABI (natural alignment, 4-byte aligned). *)
Definition sizeof_uint32 : Z := 4.
Definition sizeof_extent : Z := 24.
Definition sizeof_file : Z := 260.
Definition sizeof_inode : Z := 72.
Definition sizeof_sb_info : Z := 164.
Definition sizeof_xattr_entry : Z := 12.

Definition LOLELFFS_MAX_EXTENTS : Z := (LOLELFFS_BLOCK_SIZE - sizeof_uint32) / sizeof_extent.
Definition LOLELFFS_MAX_FILESIZE : Z :=
  u64 (u64 (LOLELFFS_MAX_BLOCKS_PER_EXTENT_LARGE * LOLELFFS_BLOCK_SIZE) * LOLELFFS_MAX_EXTENTS).
Definition LOLELFFS_FILES_PER_BLOCK : Z := LOLELFFS_BLOCK_SIZE / sizeof_file.
Definition LOLELFFS_FILES_PER_EXT : Z := LOLELFFS_FILES_PER_BLOCK * LOLELFFS_MAX_BLOCKS_PER_EXTENT.
Definition LOLELFFS_MAX_SUBFILES : Z := LOLELFFS_FILES_PER_EXT * LOLELFFS_MAX_EXTENTS.
Definition LOLELFFS_INODES_PER_BLOCK : Z := LOLELFFS_BLOCK_SIZE / sizeof_inode.

(** The same sizes as lengths of byte lists. *)
Definition BLK : nat := Z.to_nat 4096.
Definition NEXT : nat := 170.
Definition NFILES : nat := 15.
Definition NINODES : nat := 56.

#[global] Arguments BLK : simpl never.
#[global] Arguments NEXT : simpl never.
#[global] Arguments NFILES : simpl never.
#[global] Arguments NINODES : simpl never.

(** The decimal values the macros of the header expand to. *)
Lemma header_constants :
  LOLELFFS_BLOCK_SIZE = 4096 /\ LOLELFFS_MAX_EXTENTS = 170 /\
  LOLELFFS_FILES_PER_BLOCK = 15 /\ LOLELFFS_FILES_PER_EXT = 30720 /\
  LOLELFFS_MAX_SUBFILES = 5222400 /\ LOLELFFS_INODES_PER_BLOCK = 56 /\
  LOLELFFS_MAX_FILESIZE = 365072220160.
Proof. repeat split; reflexivity. Qed.

(** [lia] with the sizes made numerals. *)
Ltac blia :=
  pose proof header_constants as (? & ? & ? & ? & ? & ? & ?);
  unfold BLK, NEXT, NFILES, NINODES, LOLELFFS_MAX_BLOCKS_PER_EXTENT,
    LOLELFFS_MAX_BLOCKS_PER_EXTENT_LARGE, LOLELFFS_FILENAME_LEN in *;
  autorewrite with mem in *; lia.

Abbreviation block := (list Z) (only parsing).

Definition block_ok (b : block) : Prop := length b = BLK /\ bytes_ok b.

Lemma block_ok_zeros : block_ok (zeros BLK).
Proof. split; [apply length_zeros|apply bytes_ok_zeros]. Qed.

Lemma block_ok_splice o v b : bytes_ok v -> block_ok b -> block_ok (splice o v b).
Proof. intros ? [? ?]. split; [by rewrite length_splice|auto with mem]. Qed.

#[export] Hint Resolve block_ok_zeros block_ok_splice : mem.

(** ** Arrays of structures inside a block *)

Section Arrays.
Context {A : Type} (dec : list Z -> A).

(** [n] structures of [sz] bytes from offset [base]. *)
Definition arr (base sz n : nat) (b : block) : list A :=
  map (fun i => dec (slice (base + sz * i) sz b)) (seq 0 n).

Lemma length_arr base sz n b : length (arr base sz n b) = n.
Proof. unfold arr. by rewrite length_map, length_seq. Qed.

Lemma lookup_arr base sz n b i :
  (i < n)%nat -> arr base sz n b !! i = Some (dec (slice (base + sz * i) sz b)).
Proof.
  intros. unfold arr. rewrite list_lookup_fmap, lookup_seq_lt by done. done.
Qed.

(** Two blocks with the same slices hold the same array. *)
Lemma arr_ext base sz n b b' :
  (forall i, (i < n)%nat -> dec (slice (base + sz * i) sz b) = dec (slice (base + sz * i) sz b')) ->
  arr base sz n b = arr base sz n b'.
Proof.
  intros H. apply list_eq. intros i. destruct (decide (i < n)%nat).
  - rewrite !lookup_arr by done. by rewrite H.
  - rewrite !lookup_ge_None_2; [done|rewrite length_arr; lia..].
Qed.

(** Overwriting bytes outside the array keeps it. *)
Lemma arr_splice_out base sz n off v b :
  (off + length v <= base)%nat \/ (base + sz * n <= off)%nat ->
  arr base sz n (splice off v b) = arr base sz n b.
Proof.
  intros H. apply arr_ext. intros i Hi. rewrite slice_splice_out; [done|]. nia.
Qed.

(** Overwriting bytes of one structure changes that element only. *)
Lemma arr_splice_in base sz n off v b i :
  (i < n)%nat -> (base + sz * i <= off)%nat -> (off + length v <= base + sz * i + sz)%nat ->
  arr base sz n (splice off v b) =
    <[i := dec (slice (base + sz * i) sz (splice off v b))]> (arr base sz n b).
Proof.
  intros Hi H1 H2. apply list_eq. intros j. destruct (decide (j < n)%nat).
  - rewrite lookup_arr by done. destruct (decide (i = j)) as [<-|Hne].
    + rewrite list_lookup_insert_eq by (rewrite length_arr; lia). done.
    + rewrite list_lookup_insert_ne by done. rewrite lookup_arr by done.
      rewrite slice_splice_out; [done|]. nia.
  - rewrite !lookup_ge_None_2; [done|rewrite ?length_insert, length_arr; lia..].
Qed.

(** Assigning a whole structure. *)
Lemma arr_store base sz n v b i :
  (i < n)%nat -> length v = sz -> (base + sz * n <= length b)%nat ->
  arr base sz n (splice (base + sz * i) v b) = <[i := dec v]> (arr base sz n b).
Proof.
  intros Hi <- Hb. rewrite (arr_splice_in _ _ _ _ _ _ i) by lia.
  rewrite slice_splice by nia. done.
Qed.
End Arrays.

#[export] Hint Rewrite @length_arr : mem.

(** ** struct lolelffs_extent *)

Record lolelffs_extent := Extent {
  ee_block : Z;      (* first logical block number *)
  ee_len : Z;        (* number of blocks *)
  ee_start : Z;      (* first physical block number *)
  ee_comp_algo : Z;  (* uint16_t *)
  ee_enc_algo : Z;   (* uint8_t *)
  ee_reserved : Z;   (* uint8_t *)
  ee_flags : Z;      (* uint16_t *)
  ee_reserved2 : Z;  (* uint16_t *)
  ee_meta : Z
}.

Definition extent_of_bytes (s : list Z) : lolelffs_extent :=
  Extent (rd32 s 0) (rd32 s 4) (rd32 s 8) (rd16 s 12) (rd8 s 14) (rd8 s 15)
    (rd16 s 16) (rd16 s 18) (rd32 s 20).

Definition bytes_of_extent (e : lolelffs_extent) : list Z :=
  le_enc 4 (ee_block e) ++ le_enc 4 (ee_len e) ++ le_enc 4 (ee_start e) ++
  le_enc 2 (ee_comp_algo e) ++ le_enc 1 (ee_enc_algo e) ++ le_enc 1 (ee_reserved e) ++
  le_enc 2 (ee_flags e) ++ le_enc 2 (ee_reserved2 e) ++ le_enc 4 (ee_meta e).

Definition extent_fits (e : lolelffs_extent) : Prop :=
  is_u32 (ee_block e) /\ is_u32 (ee_len e) /\ is_u32 (ee_start e) /\
  0 <= ee_comp_algo e < 65536 /\ 0 <= ee_enc_algo e < 256 /\ 0 <= ee_reserved e < 256 /\
  0 <= ee_flags e < 65536 /\ 0 <= ee_reserved2 e < 65536 /\ is_u32 (ee_meta e).

(** memset(&extents[ei], 0, sizeof(struct lolelffs_extent)). *)
Definition zero_extent : lolelffs_extent := Extent 0 0 0 0 0 0 0 0 0.

Lemma length_bytes_of_extent e : length (bytes_of_extent e) = 24%nat.
Proof. reflexivity. Qed.

Lemma bytes_ok_bytes_of_extent e : bytes_ok (bytes_of_extent e).
Proof. unfold bytes_of_extent. auto 20 with mem. Qed.

Lemma bytes_of_zero_extent : bytes_of_extent zero_extent = zeros 24.
Proof. reflexivity. Qed.

Lemma extent_of_zeros n : (24 <= n)%nat -> extent_of_bytes (zeros n) = zero_extent.
Proof.
  intros. unfold extent_of_bytes, rd32, rd16, rd8.
  rewrite !slice_zeros by lia. by rewrite !le_dec_zeros.
Qed.

(** Reading one little-endian field back out of an encoded structure. *)
Ltac field_rt n v :=
  transitivity (le_dec (le_enc n v)); [reflexivity|];
  rewrite le_dec_enc; apply Z.mod_small; cbn; lia.

Lemma extent_of_bytes_of_extent e : extent_fits e -> extent_of_bytes (bytes_of_extent e) = e.
Proof.
  destruct e as [a b c d f g h i j]. unfold extent_fits. cbn [ee_block ee_len ee_start
    ee_comp_algo ee_enc_algo ee_reserved ee_flags ee_reserved2 ee_meta]. intros (?&?&?&?&?&?&?&?&?).
  unfold extent_of_bytes. f_equal;
    [field_rt 4%nat a|field_rt 4%nat b|field_rt 4%nat c|field_rt 2%nat d|field_rt 1%nat f
    |field_rt 1%nat g|field_rt 2%nat h|field_rt 2%nat i|field_rt 4%nat j].
Qed.

Lemma extent_of_bytes_fits s : bytes_ok s -> length s = 24%nat -> extent_fits (extent_of_bytes s).
Proof.
  intros Hs Hl.
  assert (forall o n, (o + n <= 24)%nat -> 0 <= le_dec (slice o n s) < 256 ^ Z.of_nat n) as H.
  { intros o n Hn. pose proof (le_dec_range _ (bytes_ok_slice o n s Hs)) as H.
    rewrite length_slice in H by lia. exact H. }
  unfold extent_fits, extent_of_bytes, rd32, rd16, rd8. cbn [ee_block ee_len ee_start
    ee_comp_algo ee_enc_algo ee_reserved ee_flags ee_reserved2 ee_meta].
  repeat split;
    match goal with |- context [slice ?o ?n s] =>
      pose proof (H o n ltac:(lia)) as [? ?]; lia
    end.
Qed.

(** ** struct lolelffs_file_ei_block *)

Record lolelffs_file_ei_block := FileEi {
  nr_files : Z;
  extents : list lolelffs_extent
}.

Definition ei_of_block (b : block) : lolelffs_file_ei_block :=
  FileEi (rd32 b 0) (arr extent_of_bytes 4 24 NEXT b).

(** The array element [extents[i]]; the loops of the source stay below
    LOLELFFS_MAX_EXTENTS, past it the model reads zeros. *)
Definition ext (index : lolelffs_file_ei_block) (i : nat) : lolelffs_extent :=
  default zero_extent (extents index !! i).

(** extents[i] = e and nr_files = n, in place. *)
Definition put_ext (i : nat) (e : lolelffs_extent) (b : block) : block :=
  splice (4 + 24 * i) (bytes_of_extent e) b.
Definition put_nr_files (n : Z) (b : block) : block := wr32 0 n b.

Lemma extents_put_ext i e b :
  length b = BLK -> (i < NEXT)%nat -> extent_fits e ->
  ei_of_block (put_ext i e b) = FileEi (rd32 b 0) (<[i := e]> (extents (ei_of_block b))).
Proof.
  intros Hb Hi He. unfold ei_of_block, put_ext. cbn [extents]. f_equal.
  - unfold rd32. rewrite slice_splice_out; [done|]. lia.
  - rewrite arr_store by (rewrite ?length_bytes_of_extent; blia).
    by rewrite extent_of_bytes_of_extent.
Qed.

Lemma ei_put_nr_files n b :
  length b = BLK -> ei_of_block (put_nr_files n b) = FileEi (u32 n) (extents (ei_of_block b)).
Proof.
  intros Hb. unfold ei_of_block, put_nr_files. cbn [extents]. f_equal.
  - apply rd32_wr32. blia.
  - unfold wr32. apply arr_splice_out. rewrite length_le_enc. lia.
Qed.

Lemma length_put_ext i e b : length (put_ext i e b) = length b.
Proof. apply length_splice. Qed.

Lemma length_put_nr_files n b : length (put_nr_files n b) = length b.
Proof. apply length_splice. Qed.

#[export] Hint Rewrite length_put_ext length_put_nr_files : mem.

Lemma block_ok_put_ext i e b : block_ok b -> block_ok (put_ext i e b).
Proof. intros. apply block_ok_splice; [apply bytes_ok_bytes_of_extent|done]. Qed.

Lemma block_ok_put_nr_files n b : block_ok b -> block_ok (put_nr_files n b).
Proof. intros. apply block_ok_splice; auto with mem. Qed.

#[export] Hint Resolve block_ok_put_ext block_ok_put_nr_files : mem.

Lemma length_extents_ei b : length (extents (ei_of_block b)) = NEXT.
Proof. apply length_arr. Qed.

Lemma ext_ei_fits b i : block_ok b -> extent_fits (ext (ei_of_block b) i).
Proof.
  intros [Hl Hb]. unfold ext. destruct (_ !! i) eqn:E; cbn; [|repeat split; cbn; lia].
  assert (i < NEXT)%nat as Hi.
  { apply lookup_lt_Some in E. by rewrite length_extents_ei in E. }
  unfold ei_of_block in E. cbn in E. rewrite lookup_arr in E by done. injection E as <-.
  apply extent_of_bytes_fits; [auto with mem|]. apply length_slice. blia.
Qed.

(** A cleared index block has no file and no extent. *)
Lemma ei_of_zeros : ei_of_block (zeros BLK) = FileEi 0 (replicate NEXT zero_extent).
Proof. vm_compute. reflexivity. Qed.

Lemma ext_of_zeros j : ext (ei_of_block (zeros BLK)) j = zero_extent.
Proof.
  rewrite ei_of_zeros. unfold ext. cbn [extents]. destruct (decide (j < NEXT)%nat).
  - by rewrite lookup_replicate_2.
  - rewrite lookup_ge_None_2; [done|]. rewrite length_replicate. lia.
Qed.

(** ** struct lolelffs_file and struct lolelffs_dir_block *)

Record lolelffs_file := File {
  f_inode : Z;
  filename : list Z     (* char filename[255], not always NUL-terminated *)
}.

Definition file_of_bytes (s : list Z) : lolelffs_file := File (rd32 s 0) (slice 4 255 s).

Definition dir_of_block (b : block) : list lolelffs_file := arr file_of_bytes 0 260 NFILES b.

(** strncpy(dst, s, n): the string, cut or zero-padded to [n] bytes. *)
Definition strncpy (s : list Z) (n : nat) : list Z := take n s ++ zeros (n - length s).

#[global] Arguments strncpy : simpl never.

(** A C string held in [s]: the bytes before the first NUL (or all of them). *)
Fixpoint cstr (s : list Z) : list Z :=
  match s with
  | [] => []
  | c :: s => if c =? 0 then [] else c :: cstr s
  end.

(** strncmp(a, b, n) == 0. *)
Definition strncmp_eq (a b : list Z) (n : nat) : bool :=
  bool_decide (cstr (take n a) = cstr (take n b)).

(** dblock->files[fi].inode = ino; strncpy(dblock->files[fi].filename, name, 255). *)
Definition put_file (fi : nat) (ino : Z) (name : list Z) (b : block) : block :=
  splice (260 * fi) (le_enc 4 ino ++ strncpy name 255) b.

Definition zero_file : lolelffs_file := File 0 (zeros 255).

Lemma length_strncpy s n : length (strncpy s n) = n.
Proof. unfold strncpy. rewrite length_app, length_take, length_zeros. lia. Qed.

#[export] Hint Rewrite length_strncpy : mem.

Lemma strncpy_fill s n : length s = n -> strncpy s n = s.
Proof.
  intros <-. unfold strncpy. rewrite take_ge, Nat.sub_diag by done. apply app_nil_r.
Qed.

Lemma bytes_ok_strncpy s n : bytes_ok s -> bytes_ok (strncpy s n).
Proof. intros. unfold strncpy. apply bytes_ok_app; [by apply Forall_take|auto with mem]. Qed.

#[export] Hint Resolve bytes_ok_strncpy : mem.

Lemma length_dir_of_block b : length (dir_of_block b) = NFILES.
Proof. apply length_arr. Qed.

Lemma dir_put_file fi ino name b :
  length b = BLK -> (fi < NFILES)%nat ->
  dir_of_block (put_file fi ino name b) =
    <[fi := File (u32 ino) (strncpy name 255)]> (dir_of_block b).
Proof.
  intros Hb Hf. unfold dir_of_block, put_file.
  rewrite (arr_splice_in _ _ _ _ _ _ _ fi) by (rewrite ?length_app; blia).
  f_equal. unfold file_of_bytes, rd32. rewrite !slice_slice, !Nat.add_0_l by lia.
  f_equal.
  - rewrite slice_splice_in by (rewrite ?length_app; blia).
    replace (260 * fi + 0 - 260 * fi)%nat with 0%nat by lia.
    change (slice 0 4 (le_enc 4 ino ++ strncpy name 255)) with (le_enc 4 ino).
    apply le_dec_enc.
  - rewrite slice_splice_in by (rewrite ?length_app; blia).
    replace (260 * fi + 4 - 260 * fi)%nat with 4%nat by lia.
    unfold slice. rewrite drop_app_length' by (by rewrite length_le_enc).
    apply take_ge. by rewrite length_strncpy.
Qed.

Lemma block_ok_put_file fi ino name b : bytes_ok name -> block_ok b -> block_ok (put_file fi ino name b).
Proof. intros. apply block_ok_splice; auto with mem. Qed.

Lemma length_put_file fi ino name b : length (put_file fi ino name b) = length b.
Proof. apply length_splice. Qed.

#[export] Hint Rewrite length_put_file : mem.
#[export] Hint Resolve block_ok_put_file : mem.

Lemma dir_of_zeros : dir_of_block (zeros BLK) = replicate NFILES zero_file.
Proof. vm_compute. reflexivity. Qed.

(** ** struct lolelffs_inode *)

Record lolelffs_inode := DInode {
  di_mode : Z; di_uid : Z; di_gid : Z; di_size : Z; di_ctime : Z; di_atime : Z;
  di_mtime : Z; di_blocks : Z; di_nlink : Z; di_ei_block : Z; di_xattr_block : Z;
  di_data : list Z       (* char i_data[28] *)
}.

Definition inode_of_bytes (s : list Z) : lolelffs_inode :=
  DInode (rd32 s 0) (rd32 s 4) (rd32 s 8) (rd32 s 12) (rd32 s 16) (rd32 s 20)
    (rd32 s 24) (rd32 s 28) (rd32 s 32) (rd32 s 36) (rd32 s 40) (slice 44 28 s).

Definition bytes_of_inode (d : lolelffs_inode) : list Z :=
  le_enc 4 (di_mode d) ++ le_enc 4 (di_uid d) ++ le_enc 4 (di_gid d) ++
  le_enc 4 (di_size d) ++ le_enc 4 (di_ctime d) ++ le_enc 4 (di_atime d) ++
  le_enc 4 (di_mtime d) ++ le_enc 4 (di_blocks d) ++ le_enc 4 (di_nlink d) ++
  le_enc 4 (di_ei_block d) ++ le_enc 4 (di_xattr_block d) ++ di_data d.

Definition inode_fits (d : lolelffs_inode) : Prop :=
  is_u32 (di_mode d) /\ is_u32 (di_uid d) /\ is_u32 (di_gid d) /\ is_u32 (di_size d) /\
  is_u32 (di_ctime d) /\ is_u32 (di_atime d) /\ is_u32 (di_mtime d) /\
  is_u32 (di_blocks d) /\ is_u32 (di_nlink d) /\ is_u32 (di_ei_block d) /\
  is_u32 (di_xattr_block d) /\ length (di_data d) = 28%nat.

Definition inodes_of_block (b : block) : list lolelffs_inode := arr inode_of_bytes 0 72 NINODES b.

Definition put_inode_at (shift : nat) (d : lolelffs_inode) (b : block) : block :=
  splice (72 * shift) (bytes_of_inode d) b.

Lemma inode_of_bytes_of_inode d : inode_fits d -> inode_of_bytes (bytes_of_inode d) = d.
Proof.
  destruct d as [a b c d e f g h i j k l]. unfold inode_fits.
  cbn [di_mode di_uid di_gid di_size di_ctime di_atime di_mtime di_blocks di_nlink
       di_ei_block di_xattr_block di_data]. intros (?&?&?&?&?&?&?&?&?&?&?&Hl).
  unfold inode_of_bytes. f_equal;
    [field_rt 4%nat a|field_rt 4%nat b|field_rt 4%nat c|field_rt 4%nat d|field_rt 4%nat e
    |field_rt 4%nat f|field_rt 4%nat g|field_rt 4%nat h|field_rt 4%nat i|field_rt 4%nat j
    |field_rt 4%nat k|].
  transitivity (take 28 l); [reflexivity|]. apply take_ge. lia.
Qed.

Lemma length_bytes_of_inode d : length (di_data d) = 28%nat -> length (bytes_of_inode d) = 72%nat.
Proof. intros H. unfold bytes_of_inode. rewrite !length_app, !length_le_enc. lia. Qed.

Lemma inodes_put_inode_at shift d b :
  length b = BLK -> (shift < NINODES)%nat -> inode_fits d ->
  inodes_of_block (put_inode_at shift d b) = <[shift := d]> (inodes_of_block b).
Proof.
  intros Hb Hs Hd. unfold inodes_of_block, put_inode_at.
  pose proof (length_bytes_of_inode d) as Hl. destruct (Hd) as (_&_&_&_&_&_&_&_&_&_&_&Hdl).
  specialize (Hl Hdl).
  change (splice (72 * shift)) with (splice (0 + 72 * shift)).
  rewrite (arr_store inode_of_bytes 0) by blia. by rewrite inode_of_bytes_of_inode.
Qed.

Lemma bytes_ok_bytes_of_inode d : bytes_ok (di_data d) -> bytes_ok (bytes_of_inode d).
Proof. intros. unfold bytes_of_inode. auto 20 with mem. Qed.

(** ** struct lolelffs_sb_info (the part stored on disk) *)

Record sb_disk := SbDisk {
  magic : Z; nr_blocks : Z; nr_inodes : Z;
  nr_istore_blocks : Z; nr_ifree_blocks : Z; nr_bfree_blocks : Z;
  nr_free_inodes : Z; nr_free_blocks : Z;
  version : Z; comp_default_algo : Z; comp_enabled : Z; comp_min_block_size : Z;
  comp_features : Z; max_extent_blocks : Z; max_extent_blocks_large : Z;
  enc_enabled : Z; enc_default_algo : Z; enc_kdf_algo : Z; enc_kdf_iterations : Z;
  enc_kdf_memory : Z; enc_kdf_parallelism : Z;
  enc_salt : list Z;        (* uint8_t[32] *)
  enc_master_key : list Z;  (* uint8_t[32] *)
  enc_features : Z;
  sb_reserved : list Z      (* uint32_t[3], as bytes *)
}.

Definition sb_of_block (b : block) : sb_disk :=
  SbDisk (rd32 b 0) (rd32 b 4) (rd32 b 8) (rd32 b 12) (rd32 b 16) (rd32 b 20) (rd32 b 24)
    (rd32 b 28) (rd32 b 32) (rd32 b 36) (rd32 b 40) (rd32 b 44) (rd32 b 48) (rd32 b 52)
    (rd32 b 56) (rd32 b 60) (rd32 b 64) (rd32 b 68) (rd32 b 72) (rd32 b 76) (rd32 b 80)
    (slice 84 32 b) (slice 116 32 b) (rd32 b 148) (slice 152 12 b).

Definition bytes_of_sb (d : sb_disk) : list Z :=
  le_enc 4 (magic d) ++ le_enc 4 (nr_blocks d) ++ le_enc 4 (nr_inodes d) ++
  le_enc 4 (nr_istore_blocks d) ++ le_enc 4 (nr_ifree_blocks d) ++
  le_enc 4 (nr_bfree_blocks d) ++ le_enc 4 (nr_free_inodes d) ++
  le_enc 4 (nr_free_blocks d) ++ le_enc 4 (version d) ++ le_enc 4 (comp_default_algo d) ++
  le_enc 4 (comp_enabled d) ++ le_enc 4 (comp_min_block_size d) ++
  le_enc 4 (comp_features d) ++ le_enc 4 (max_extent_blocks d) ++
  le_enc 4 (max_extent_blocks_large d) ++ le_enc 4 (enc_enabled d) ++
  le_enc 4 (enc_default_algo d) ++ le_enc 4 (enc_kdf_algo d) ++
  le_enc 4 (enc_kdf_iterations d) ++ le_enc 4 (enc_kdf_memory d) ++
  le_enc 4 (enc_kdf_parallelism d) ++ enc_salt d ++ enc_master_key d ++
  le_enc 4 (enc_features d) ++ sb_reserved d.

Definition sb_fits (d : sb_disk) : Prop :=
  Forall (fun v => is_u32 v)
    [magic d; nr_blocks d; nr_inodes d; nr_istore_blocks d; nr_ifree_blocks d;
     nr_bfree_blocks d; nr_free_inodes d; nr_free_blocks d; version d; comp_default_algo d;
     comp_enabled d; comp_min_block_size d; comp_features d; max_extent_blocks d;
     max_extent_blocks_large d; enc_enabled d; enc_default_algo d; enc_kdf_algo d;
     enc_kdf_iterations d; enc_kdf_memory d; enc_kdf_parallelism d; enc_features d] /\
  length (enc_salt d) = 32%nat /\ length (enc_master_key d) = 32%nat /\
  length (sb_reserved d) = 12%nat.

Lemma slice_app_r o n a b : (length a <= o)%nat -> slice o n (a ++ b) = slice (o - length a) n b.
Proof. intros. unfold slice. by rewrite drop_app_ge. Qed.

Lemma slice_app_l o n a b : (o + n <= length a)%nat -> slice o n (a ++ b) = slice o n a.
Proof.
  intros. unfold slice. rewrite drop_app_le by lia. apply take_app_le.
  rewrite length_drop. lia.
Qed.

Lemma slice_all n b : length b = n -> slice 0 n b = b.
Proof. intros <-. unfold slice. rewrite drop_0. by apply take_ge. Qed.

Lemma sb_of_bytes_of_sb d pad : sb_fits d -> sb_of_block (bytes_of_sb d ++ pad) = d.
Proof.
  intros [Hf (Hs & Hk & Hr)]. rewrite !Forall_cons in Hf.
  destruct Hf as (?&?&?&?&?&?&?&?&?&?&?&?&?&?&?&?&?&?&?&?&?&?&_).
  destruct d as [a1 a2 a3 a4 a5 a6 a7 a8 a9 a10 a11 a12 a13 a14 a15 a16 a17 a18 a19 a20 a21
    salt key a22 res].
  cbn [magic nr_blocks nr_inodes nr_istore_blocks nr_ifree_blocks nr_bfree_blocks nr_free_inodes
    nr_free_blocks version comp_default_algo comp_enabled comp_min_block_size comp_features
    max_extent_blocks max_extent_blocks_large enc_enabled enc_default_algo enc_kdf_algo
    enc_kdf_iterations enc_kdf_memory enc_kdf_parallelism enc_salt enc_master_key enc_features
    sb_reserved] in *.
  unfold sb_of_block, bytes_of_sb.
  cbn [magic nr_blocks nr_inodes nr_istore_blocks nr_ifree_blocks nr_bfree_blocks nr_free_inodes
    nr_free_blocks version comp_default_algo comp_enabled comp_min_block_size comp_features
    max_extent_blocks max_extent_blocks_large enc_enabled enc_default_algo enc_kdf_algo
    enc_kdf_iterations enc_kdf_memory enc_kdf_parallelism enc_salt enc_master_key enc_features
    sb_reserved].
  f_equal;
    [match goal with |- rd32 _ _ = ?v => field_rt 4%nat v end..| | | |].
  - transitivity (slice 0 32 ((salt ++ key ++ le_enc 4 a22 ++ res) ++ pad)); [reflexivity|].
    rewrite <- app_assoc, slice_app_l by lia. by apply slice_all.
  - transitivity (slice 32 32 ((salt ++ key ++ le_enc 4 a22 ++ res) ++ pad)); [reflexivity|].
    rewrite <- !app_assoc, slice_app_r, slice_app_l by lia. rewrite Hs. by apply slice_all.
  - transitivity (le_dec (slice 64 4 ((salt ++ key ++ le_enc 4 a22 ++ res) ++ pad))); [reflexivity|].
    rewrite <- !app_assoc, !slice_app_r by lia. rewrite Hs, Hk. field_rt 4%nat a22.
  - transitivity (slice 68 12 ((salt ++ key ++ le_enc 4 a22 ++ res) ++ pad)); [reflexivity|].
    rewrite <- !app_assoc, !slice_app_r by (rewrite ?length_le_enc; lia).
    rewrite Hs, Hk, length_le_enc. rewrite slice_app_l by (cbn; lia). by apply slice_all.
Qed.

Lemma length_bytes_of_sb d :
  length (enc_salt d) = 32%nat -> length (enc_master_key d) = 32%nat ->
  length (sb_reserved d) = 12%nat -> length (bytes_of_sb d) = 164%nat.
Proof. intros. unfold bytes_of_sb. rewrite !length_app, !length_le_enc. lia. Qed.

(** ** struct lolelffs_xattr_ei_block and struct lolelffs_xattr_entry *)

Record lolelffs_xattr_ei_block := XattrEi {
  total_size : Z;
  xcount : Z;
  xextents : list lolelffs_extent
}.

Definition xei_of_block (b : block) : lolelffs_xattr_ei_block :=
  XattrEi (rd32 b 0) (rd32 b 4) (arr extent_of_bytes 8 24 NEXT b).

Definition xext (ei : lolelffs_xattr_ei_block) (i : nat) : lolelffs_extent :=
  default zero_extent (xextents ei !! i).

Definition put_total_size (n : Z) (b : block) : block := wr32 0 n b.
Definition put_xcount (n : Z) (b : block) : block := wr32 4 n b.
Definition put_xext (i : nat) (e : lolelffs_extent) (b : block) : block :=
  splice (8 + 24 * i) (bytes_of_extent e) b.

Lemma xei_put_total_size n b :
  length b = BLK ->
  xei_of_block (put_total_size n b) = XattrEi (u32 n) (xcount (xei_of_block b)) (xextents (xei_of_block b)).
Proof.
  intros Hb. unfold xei_of_block, put_total_size. cbn [xcount xextents]. f_equal.
  - apply rd32_wr32. blia.
  - apply rd32_wr32_ne. lia.
  - apply arr_splice_out. rewrite length_le_enc. lia.
Qed.

Lemma xei_put_xcount n b :
  length b = BLK ->
  xei_of_block (put_xcount n b) = XattrEi (total_size (xei_of_block b)) (u32 n) (xextents (xei_of_block b)).
Proof.
  intros Hb. unfold xei_of_block, put_xcount. cbn [total_size xextents]. f_equal.
  - apply rd32_wr32_ne. lia.
  - apply rd32_wr32. blia.
  - apply arr_splice_out. rewrite length_le_enc. lia.
Qed.

Lemma xei_put_xext i e b :
  length b = BLK -> (i < NEXT)%nat -> extent_fits e ->
  xei_of_block (put_xext i e b) =
    XattrEi (total_size (xei_of_block b)) (xcount (xei_of_block b))
      (<[i := e]> (xextents (xei_of_block b))).
Proof.
  intros Hb Hi He. unfold xei_of_block, put_xext. cbn [total_size xcount xextents]. f_equal.
  - unfold rd32. rewrite slice_splice_out; [done|]. lia.
  - unfold rd32. rewrite slice_splice_out; [done|]. lia.
  - rewrite arr_store by (rewrite ?length_bytes_of_extent; blia).
    by rewrite extent_of_bytes_of_extent.
Qed.
