(* ===== verification/Bitmap.v ===== *)
(** * The bitmap allocators (src/src/bitmap.h)

    The in-memory free maps are byte arrays ([unsigned long] words on a
    little-endian machine, so bit [n] is bit [n mod 8] of byte [n / 8]); a set
    bit is a free object.  The kernel's bit primitives come first, then the
    functions of the header, then the abstract allocator they implement: a set
    of free numbers from which the lowest run that fits is taken. *)
From S2P Require Import Prelude Layout.

(** ** struct lolelffs_sb_info, kernel side

    The on-disk members, then the members under [#ifdef __KERNEL__].  The two
    mutexes have no counterpart: every critical section they protect is one
    step of the model. *)
Record lolelffs_sb_info := SbInfo {
  sbd : sb_disk;
  ifree_bitmap : list Z;
  bfree_bitmap : list Z;
  fs_offset : Z;
  enc_master_key_decrypted : list Z;
  enc_unlocked : bool
}.

Definition with_free_counts (ni nb : Z) (d : sb_disk) : sb_disk :=
  SbDisk (magic d) (nr_blocks d) (nr_inodes d) (nr_istore_blocks d) (nr_ifree_blocks d)
    (nr_bfree_blocks d) ni nb (version d) (comp_default_algo d) (comp_enabled d)
    (comp_min_block_size d) (comp_features d) (max_extent_blocks d)
    (max_extent_blocks_large d) (enc_enabled d) (enc_default_algo d) (enc_kdf_algo d)
    (enc_kdf_iterations d) (enc_kdf_memory d) (enc_kdf_parallelism d) (enc_salt d)
    (enc_master_key d) (enc_features d) (sb_reserved d).

(** sbi->nr_free_inodes = n with the inode bitmap, and the same for blocks. *)
Definition set_inodes (n : Z) (bm : list Z) (s : lolelffs_sb_info) : lolelffs_sb_info :=
  SbInfo (with_free_counts n (nr_free_blocks (sbd s)) (sbd s)) bm (bfree_bitmap s)
    (fs_offset s) (enc_master_key_decrypted s) (enc_unlocked s).
Definition set_blocks (n : Z) (bm : list Z) (s : lolelffs_sb_info) : lolelffs_sb_info :=
  SbInfo (with_free_counts (nr_free_inodes (sbd s)) n (sbd s)) (ifree_bitmap s) bm
    (fs_offset s) (enc_master_key_decrypted s) (enc_unlocked s).

(** ** The kernel's bit operations on a memory bitmap *)

Definition bit_byte (bm : list Z) (n : Z) : Z := default 0 (bm !! Z.to_nat (n / 8)).
Definition test_bit (bm : list Z) (n : Z) : bool := Z.testbit (bit_byte bm n) (n mod 8).
Definition set_bit (n : Z) (bm : list Z) : list Z :=
  <[Z.to_nat (n / 8) := Z.setbit (bit_byte bm n) (n mod 8)]> bm.
Definition clear_bit (n : Z) (bm : list Z) : list Z :=
  <[Z.to_nat (n / 8) := Z.clearbit (bit_byte bm n) (n mod 8)]> bm.

Fixpoint bitmap_set (bm : list Z) (start : Z) (n : nat) : list Z :=
  match n with
  | O => bm
  | S n => bitmap_set (set_bit start bm) (start + 1) n
  end.

Fixpoint bitmap_clear (bm : list Z) (start : Z) (n : nat) : list Z :=
  match n with
  | O => bm
  | S n => bitmap_clear (clear_bit start bm) (start + 1) n
  end.

Fixpoint find_bit (fuel : nat) (bm : list Z) (i : Z) : Z :=
  match fuel with
  | O => i
  | S fuel => if test_bit bm i then i else find_bit fuel bm (i + 1)
  end.

(** The first set bit at or after [off], [size] when there is none. *)
Definition find_next_bit (bm : list Z) (size off : Z) : Z :=
  if size <=? off then size else find_bit (Z.to_nat (size - off)) bm off.
Definition find_first_bit (bm : list Z) (size : Z) : Z := find_next_bit bm size 0.

(** ** get_first_free_bits *)

(** The body of [for_each_set_bit (bit, freemap, size)]: reset the count when
    the run is broken, stop when it reaches [len].  [size] iterations are
    enough since [bit] grows by at least one at each. *)
Fixpoint scan_run (fuel : nat) (freemap : list Z) (size len bit prev count : Z) : option Z :=
  match fuel with
  | O => None
  | S fuel =>
      let bit := u32 (find_next_bit freemap size bit) in
      if bit <? size then
        let count := if prev =? bit -₃₂ 1 then count else 0 in
        let count := count +₃₂ 1 in
        if count =? len then Some bit
        else scan_run fuel freemap size len (bit +₃₂ 1) bit count
      else None
  end.

Definition get_first_free_bits (freemap : list Z) (size len : Z) : Z * list Z :=
  if len =? 1 then
    let bit := u32 (find_first_bit freemap size) in
    if bit <? size then (bit, clear_bit bit freemap) else (0, freemap)
  else
    match scan_run (Z.to_nat size) freemap size len 0 0 0 with
    | Some bit =>
        (bit -₃₂ len +₃₂ 1, bitmap_clear freemap (bit -₃₂ len +₃₂ 1) (Z.to_nat len))
    | None => (0, freemap)
    end.

(** ** get_free_bits_from_hint *)

(** The loop from the hint, with its own guard against bits below [start]. *)
Fixpoint scan_run_from (fuel : nat) (freemap : list Z) (size len start bit prev count : Z)
    : option Z :=
  match fuel with
  | O => None
  | S fuel =>
      let bit := u32 (find_next_bit freemap size bit) in
      if bit <? size then
        if bit <? start then
          scan_run_from fuel freemap size len start (start -₃₂ 1 +₃₂ 1) prev count
        else
          let count := if prev =? bit -₃₂ 1 then count else 0 in
          let count := count +₃₂ 1 in
          if count =? len then Some bit
          else scan_run_from fuel freemap size len start (bit +₃₂ 1) bit count
      else None
  end.

Definition get_free_bits_from_hint (freemap : list Z) (size len hint : Z) : Z * list Z :=
  let start := if size <=? hint then 0 else hint in
  if len =? 1 then
    let bit := u32 (find_next_bit freemap size start) in
    if bit <? size then (bit, clear_bit bit freemap)
    else if 0 <? start then
      let bit := u32 (find_first_bit freemap start) in
      if bit <? start then (bit, clear_bit bit freemap) else (0, freemap)
    else (0, freemap)
  else
    match scan_run_from (Z.to_nat size) freemap size len start start 0 0 with
    | Some bit =>
        (bit -₃₂ len +₃₂ 1, bitmap_clear freemap (bit -₃₂ len +₃₂ 1) (Z.to_nat len))
    | None =>
        if 0 <? start then
          match scan_run (Z.to_nat start) freemap start len 0 0 0 with
          | Some bit =>
              (bit -₃₂ len +₃₂ 1, bitmap_clear freemap (bit -₃₂ len +₃₂ 1) (Z.to_nat len))
          | None => (0, freemap)
          end
        else (0, freemap)
    end.

(** ** get_free_inode, get_free_blocks *)

Definition get_free_inode (sbi : lolelffs_sb_info) : Z * lolelffs_sb_info :=
  let '(ret, bm) := get_first_free_bits (ifree_bitmap sbi) (nr_inodes (sbd sbi)) 1 in
  let n := nr_free_inodes (sbd sbi) in
  (ret, set_inodes (if negb (ret =? 0) then n -₃₂ 1 else n) bm sbi).

Definition get_free_blocks (sbi : lolelffs_sb_info) (len : Z) : Z * lolelffs_sb_info :=
  let '(ret, bm) := get_first_free_bits (bfree_bitmap sbi) (nr_blocks (sbd sbi)) len in
  let n := nr_free_blocks (sbd sbi) in
  (ret, set_blocks (if negb (ret =? 0) then n -₃₂ len else n) bm sbi).

(** ** put_free_bits, put_inode, put_blocks *)

(** [None] is the -1 of the source. *)
Definition put_free_bits (freemap : list Z) (size i len : Z) : option (list Z) :=
  if size <? i +₃₂ len -₃₂ 1 then None
  else Some (bitmap_set freemap i (Z.to_nat len)).

Definition put_inode (sbi : lolelffs_sb_info) (ino : Z) : lolelffs_sb_info :=
  match put_free_bits (ifree_bitmap sbi) (nr_inodes (sbd sbi)) ino 1 with
  | None => sbi
  | Some bm => set_inodes (nr_free_inodes (sbd sbi) +₃₂ 1) bm sbi
  end.

Definition put_blocks (sbi : lolelffs_sb_info) (bno len : Z) : lolelffs_sb_info :=
  match put_free_bits (bfree_bitmap sbi) (nr_blocks (sbd sbi)) bno len with
  | None => sbi
  | Some bm => set_blocks (nr_free_blocks (sbd sbi) +₃₂ len) bm sbi
  end.

(** ** calc_optimal_extent_size *)

Definition calc_optimal_extent_size (sbi : lolelffs_sb_info) (current_blocks : Z)
    (needs_metadata : bool) : Z :=
  let max_size :=
    if needs_metadata then LOLELFFS_MAX_BLOCKS_PER_EXTENT
    else
      let max_size := max_extent_blocks_large (sbd sbi) in
      if (max_size =? 0) || (LOLELFFS_MAX_BLOCKS_PER_EXTENT_LARGE <? max_size)
      then LOLELFFS_MAX_BLOCKS_PER_EXTENT_LARGE else max_size in
  let alloc_size :=
    if current_blocks <? 8 then 2
    else if current_blocks <? 32 then 4
    else if current_blocks <? 256 then 64
    else if current_blocks <? 1024 then 256
    else max_size in
  let alloc_size :=
    if nr_free_blocks (sbd sbi) <? alloc_size then nr_free_blocks (sbd sbi) else alloc_size in
  if alloc_size =? 0 then 1 else alloc_size.

(** ** Lemmas on the bit operations *)

(** The bits the memory of a bitmap holds. *)
Abbreviation nbits bm := (8 * Z.of_nat (length bm)).

Create HintDb bitmap.

Lemma test_bit_update (f : Z -> Z -> Z) n m bm :
  0 <= n < nbits bm -> 0 <= m ->
  test_bit (<[Z.to_nat (n / 8) := f (bit_byte bm n) (n mod 8)]> bm) m =
    if decide (n / 8 = m / 8) then Z.testbit (f (bit_byte bm m) (n mod 8)) (m mod 8)
    else test_bit bm m.
Proof.
  intros Hn Hm. unfold test_bit, bit_byte. case_decide as E.
  - rewrite <- E, list_lookup_insert_eq by dlia. done.
  - rewrite list_lookup_insert_ne by dlia. done.
Qed.

Lemma test_set_bit n m bm :
  0 <= n < nbits bm -> 0 <= m ->
  test_bit (set_bit n bm) m = (n =? m) || test_bit bm m.
Proof.
  intros Hn Hm. unfold set_bit. rewrite (test_bit_update Z.setbit) by done.
  case_decide as E.
  - rewrite Z.setbit_eqb by dlia. unfold test_bit. f_equal.
    destruct (Z.eqb_spec (n mod 8) (m mod 8)), (Z.eqb_spec n m); dlia || done.
  - destruct (Z.eqb_spec n m); [congruence|done].
Qed.

Lemma test_clear_bit n m bm :
  0 <= n < nbits bm -> 0 <= m ->
  test_bit (clear_bit n bm) m = negb (n =? m) && test_bit bm m.
Proof.
  intros Hn Hm. unfold clear_bit. rewrite (test_bit_update Z.clearbit) by done.
  case_decide as E.
  - rewrite Z.clearbit_eqb by dlia. unfold test_bit. rewrite andb_comm. f_equal.
    destruct (Z.eqb_spec (n mod 8) (m mod 8)), (Z.eqb_spec n m); dlia || done.
  - destruct (Z.eqb_spec n m); [congruence|done].
Qed.

Lemma length_set_bit n bm : length (set_bit n bm) = length bm.
Proof. apply length_insert. Qed.
Lemma length_clear_bit n bm : length (clear_bit n bm) = length bm.
Proof. apply length_insert. Qed.

Lemma length_bitmap_set n : forall bm s, length (bitmap_set bm s n) = length bm.
Proof. induction n as [|n IH]; intros; cbn; [done|]. by rewrite IH, length_set_bit. Qed.
Lemma length_bitmap_clear n : forall bm s, length (bitmap_clear bm s n) = length bm.
Proof. induction n as [|n IH]; intros; cbn; [done|]. by rewrite IH, length_clear_bit. Qed.

#[export] Hint Rewrite length_set_bit length_clear_bit length_bitmap_set length_bitmap_clear : mem.

(** Membership of the half-open range [s, s + n). *)
Definition in_range (s n i : Z) : bool := (s <=? i) && (i <? s + n).

Lemma test_bitmap_set n : forall bm s m,
  0 <= s -> s + Z.of_nat n <= nbits bm -> 0 <= m ->
  test_bit (bitmap_set bm s n) m = in_range s (Z.of_nat n) m || test_bit bm m.
Proof.
  induction n as [|n IH]; intros bm s m Hs Hb Hm; cbn [bitmap_set].
  - unfold in_range. destruct (Z.leb_spec s m), (Z.ltb_spec m (s + Z.of_nat 0)); lia || done.
  - rewrite IH by (rewrite ?length_set_bit; lia). rewrite test_set_bit by lia.
    unfold in_range. destruct (Z.leb_spec (s + 1) m), (Z.leb_spec s m), (Z.eqb_spec s m),
      (Z.ltb_spec m (s + 1 + Z.of_nat n)), (Z.ltb_spec m (s + Z.of_nat (S n))); lia || done.
Qed.

Lemma test_bitmap_clear n : forall bm s m,
  0 <= s -> s + Z.of_nat n <= nbits bm -> 0 <= m ->
  test_bit (bitmap_clear bm s n) m = negb (in_range s (Z.of_nat n) m) && test_bit bm m.
Proof.
  induction n as [|n IH]; intros bm s m Hs Hb Hm; cbn [bitmap_clear].
  - unfold in_range. destruct (Z.leb_spec s m), (Z.ltb_spec m (s + Z.of_nat 0)); lia || done.
  - rewrite IH by (rewrite ?length_clear_bit; lia). rewrite test_clear_bit by lia.
    unfold in_range. destruct (Z.leb_spec (s + 1) m), (Z.leb_spec s m), (Z.eqb_spec s m),
      (Z.ltb_spec m (s + 1 + Z.of_nat n)), (Z.ltb_spec m (s + Z.of_nat (S n))); lia || done.
Qed.

Lemma find_bit_spec fuel : forall bm i,
  let r := find_bit fuel bm i in
  i <= r <= i + Z.of_nat fuel /\
  (forall j, i <= j < r -> test_bit bm j = false) /\
  (r < i + Z.of_nat fuel -> test_bit bm r = true).
Proof.
  induction fuel as [|fuel IH]; intros bm i; cbn [find_bit].
  - repeat split; intros; lia.
  - destruct (test_bit bm i) eqn:E.
    + repeat split; intros; try lia. done.
    + specialize (IH bm (i + 1)) as (H1 & H2 & H3). repeat split; try lia.
      * intros j Hj. destruct (decide (j = i)) as [->|]; [done|]. apply H2. lia.
      * intros. apply H3. lia.
Qed.

Lemma find_next_bit_spec bm size off :
  off <= size ->
  let r := find_next_bit bm size off in
  off <= r <= size /\
  (forall j, off <= j < r -> test_bit bm j = false) /\
  (r < size -> test_bit bm r = true).
Proof.
  intros H. unfold find_next_bit. cases; zbool.
  - repeat split; intros; lia.
  - destruct (find_bit_spec (Z.to_nat (size - off)) bm off) as (H1 & H2 & H3).
    repeat split; try lia; [done|]. intros. apply H3. lia.
Qed.

(** ** Runs of free bits *)

(** The bits [s], ..., [s + len - 1] are all free. *)
Definition free_run (bm : list Z) (s len : Z) : Prop :=
  forall i, s <= i < s + len -> test_bit bm i = true.

(** What a scan that reached [bit] with a run of [count] bits behind it knows. *)
Definition scan_inv (bm : list Z) (lo size len bit prev count : Z) : Prop :=
  0 <= lo <= bit - count /\ 0 <= count < len /\ bit <= size /\
  (count = 0 \/ prev = bit - 1) /\
  free_run bm (bit - count) count /\
  (forall s, lo <= s < bit - count -> exists j, s <= j < s + len /\ j < bit /\ test_bit bm j = false).

Lemma scan_inv_init bm lo size len prev : 0 <= lo <= size -> 1 <= len -> scan_inv bm lo size len lo prev 0.
Proof.
  intros. unfold scan_inv, free_run. split_and!; intros; lia.
Qed.

(** One iteration of the loop either completes a run or keeps the invariant. *)
Lemma scan_inv_step bm lo size len bit prev count r count' :
  is_u32 size -> 1 <= len -> scan_inv bm lo size len bit prev count ->
  r = find_next_bit bm size bit -> r < size ->
  count' = (if prev =? r -₃₂ 1 then count else 0) + 1 ->
  1 <= count' <= len /\ lo <= r + 1 - count' /\
  free_run bm (r + 1 - count') count' /\
  (forall s, lo <= s < r + 1 - count' ->
     exists j, s <= j < s + len /\ j < r + 1 /\ test_bit bm j = false).
Proof.
  intros Hsz Hlen (Hlo & Hc & Hb & Hprev & Hrun & Hno) Hr Hrs Hc'.
  destruct (find_next_bit_spec bm size bit Hb) as (H1 & H2 & H3). rewrite <- Hr in *.
  specialize (H3 Hrs).
  assert ((r = bit /\ count' = count + 1) \/ count' = 1 /\ (count = 0 \/ bit < r)) as Hcase.
  { destruct (Z.eqb_spec prev (r -₃₂ 1)) as [E|E]; [|right; split; [lia|]].
    - destruct Hprev as [-> | ->]; [right; lia|].
      destruct (decide (r = 0)) as [->|]; [left; lia|].
      rewrite u32_small in E by lia. left. lia.
    - destruct (decide (count = 0)) as [|Hne]; [by left|]. right.
      destruct Hprev as [|Hprev]; [done|]. rewrite u32_small in E by lia. lia. }
  destruct Hcase as [[-> ->]|[-> Hgap]].
  - split; [lia|]. split; [lia|]. replace (bit + 1 - (count + 1)) with (bit - count) by lia. split.
    + intros i Hi. destruct (decide (i = bit)) as [->|]; [done|]. apply Hrun. lia.
    + intros s Hs. destruct (Hno s Hs) as (j & ? & ? & ?). exists j. auto with lia.
  - split; [lia|]. split; [lia|]. replace (r + 1 - 1) with r by lia. split.
    + intros i Hi. by replace i with r by lia.
    + intros s Hs. destruct (decide (s < bit - count)).
      * destruct (Hno s) as (j & ? & ? & ?); [lia|]. exists j. repeat split; lia || done.
      * exists (Z.max s bit). repeat split; try lia. apply H2. lia.
Qed.

Lemma scan_run_spec fuel : forall bm lo size len bit prev count,
  is_u32 size -> 1 <= len < 2 ^ 32 -> scan_inv bm lo size len bit prev count ->
  (Z.to_nat (size - bit) <= fuel)%nat ->
  match scan_run fuel bm size len bit prev count with
  | Some e =>
      let s := e - len + 1 in
      lo <= s /\ s + len <= size /\ free_run bm s len /\
      (forall s', lo <= s' < s -> ~ free_run bm s' len)
  | None => forall s', lo <= s' -> s' + len <= size -> ~ free_run bm s' len
  end.
Proof.
  assert (forall bm lo len x, (forall s, lo <= s < x -> exists j, s <= j < s + len /\ test_bit bm j = false) ->
    forall s, lo <= s < x -> ~ free_run bm s len) as Hblock.
  { intros bm lo len x H s Hs Hrun. destruct (H s Hs) as (j & Hj & Hf).
    specialize (Hrun j Hj). congruence. }
  assert (forall bm lo size len bit prev count, scan_inv bm lo size len bit prev count ->
    (forall j, bit <= j < size -> test_bit bm j = false) ->
    forall s', lo <= s' -> s' + len <= size -> ~ free_run bm s' len) as Hnone.
  { intros bm lo size len bit prev count (Hlo & Hc & Hb & _ & _ & Hno) Hclear s' Hs' Hfit Hrun.
    destruct (decide (s' < bit - count)).
    - destruct (Hno s') as (j & ? & ? & Hf); [lia|]. rewrite Hrun in Hf by lia. done.
    - specialize (Hclear (Z.max s' bit) ltac:(lia)). by rewrite Hrun in Hclear by lia. }
  induction fuel as [|fuel IH]; intros bm lo size len bit prev count Hsz Hlen Hinv Hfuel;
    cbn [scan_run]; pose proof Hinv as (Hlo & Hc & Hb & _).
  - eapply Hnone; [done|]. intros. lia.
  - destruct (find_next_bit_spec bm size bit Hb) as (H1 & H2 & H3).
    rewrite (u32_small (find_next_bit _ _ _)) by lia.
    set (r := find_next_bit bm size bit) in *. destruct (Z.ltb_spec r size) as [Hlt|Hge].
    + pose proof (scan_inv_step bm lo size len bit prev count r _ Hsz ltac:(lia) Hinv eq_refl Hlt eq_refl)
        as (Hc' & Hlo' & Hrun' & Hno').
      set (count' := (if prev =? r -₃₂ 1 then count else 0) + 1) in *.
      rewrite (u32_small count') by lia. destruct (Z.eqb_spec count' len) as [E|E].
      * rewrite E in *. replace (r - len + 1) with (r + 1 - len) by lia.
        repeat split; try lia; [done|]. eapply Hblock. intros s Hs.
        destruct (Hno' s Hs) as (j & ? & ? & ?). eauto.
      * rewrite (u32_small (r + 1)) by lia. apply IH; try lia.
        repeat split; try lia; done.
    + eapply Hnone; [done|]. intros j Hj. apply H2. lia.
Qed.

(** ** The abstract allocator: a set of free numbers, lowest fit first *)

(** The numbers below [size] whose bit says free. *)
Definition free_set (bm : list Z) (size : Z) : gset Z :=
  list_to_set (filter (fun i => test_bit bm i = true) (seqZ 0 size)).

Lemma elem_of_free_set bm size i : i ∈ free_set bm size <-> 0 <= i < size /\ test_bit bm i = true.
Proof.
  unfold free_set. rewrite elem_of_list_to_set, list_elem_of_filter, elem_of_seqZ. lia || intuition lia.
Qed.

(** The lowest [s] in [lo, hi - len] with [s, s + len) inside [F]. *)
Fixpoint fit_from (fuel : nat) (F : gset Z) (s len : Z) : option Z :=
  match fuel with
  | O => None
  | S fuel => if decide (range s len ⊆ F) then Some s else fit_from fuel F (s + 1) len
  end.
Definition first_fit (F : gset Z) (lo hi len : Z) : option Z :=
  fit_from (Z.to_nat (hi - len + 1 - lo)) F lo len.

Lemma fit_from_spec fuel : forall F s len r,
  fit_from fuel F s len = r ->
  match r with
  | Some x => s <= x < s + Z.of_nat fuel /\ range x len ⊆ F /\
              (forall y, s <= y < x -> ~ range y len ⊆ F)
  | None => forall y, s <= y < s + Z.of_nat fuel -> ~ range y len ⊆ F
  end.
Proof.
  induction fuel as [|fuel IH]; intros F s len r <-; cbn [fit_from]; [intros; lia|].
  case_decide as Hd.
  - split; [lia|]. split; [done|]. intros; lia.
  - specialize (IH F (s + 1) len _ eq_refl). destruct (fit_from fuel F (s + 1) len).
    + destruct IH as (? & ? & H). split; [lia|]. split; [done|]. intros y Hy.
      destruct (decide (y = s)) as [->|]; [done|]. apply H. lia.
    + intros y Hy. destruct (decide (y = s)) as [->|]; [done|]. apply IH. lia.
Qed.

Lemma first_fit_inv F lo hi len r :
  first_fit F lo hi len = r ->
  match r with
  | Some x => lo <= x /\ x + len <= hi /\ range x len ⊆ F /\
              (forall y, lo <= y < x -> ~ range y len ⊆ F)
  | None => forall y, lo <= y -> y + len <= hi -> ~ range y len ⊆ F
  end.
Proof.
  intros E. pose proof (fit_from_spec _ F lo len _ E) as H. destruct r as [x|].
  - destruct H as (? & ? & ?). split; [lia|]. split; [lia|]. done.
  - intros y ??. apply H. lia.
Qed.

Lemma first_fit_Some F lo hi len x :
  lo <= x -> x + len <= hi -> range x len ⊆ F -> (forall y, lo <= y < x -> ~ range y len ⊆ F) ->
  first_fit F lo hi len = Some x.
Proof.
  intros H1 H2 H3 H4. pose proof (first_fit_inv F lo hi len _ eq_refl) as H.
  destruct (first_fit F lo hi len) as [y|].
  - destruct H as (Ha & _ & Hb & Hc). destruct (Z.lt_trichotomy x y) as [Hlt|[->|Hgt]]; [|done|].
    + by destruct (Hc x).
    + by destruct (H4 y).
  - by destruct (H x H1 H2).
Qed.

Lemma first_fit_None F lo hi len :
  (forall y, lo <= y -> y + len <= hi -> ~ range y len ⊆ F) -> first_fit F lo hi len = None.
Proof.
  intros H1. pose proof (first_fit_inv F lo hi len _ eq_refl) as H.
  destruct (first_fit F lo hi len) as [y|]; [|done]. destruct H as (? & ? & ? & _).
  by destruct (H1 y).
Qed.

(** Runs of free bits are ranges inside the free set. *)
Lemma free_run_subset bm size s len :
  0 <= s -> s + len <= size -> free_run bm s len <-> range s len ⊆ free_set bm size.
Proof.
  intros. unfold free_run. rewrite elem_of_subseteq. setoid_rewrite elem_of_range.
  setoid_rewrite elem_of_free_set. split; intros Hf i Hi.
  - split; [lia|]. by apply Hf.
  - by apply Hf.
Qed.

Lemma free_set_clear bm size s n :
  0 <= s -> s + Z.of_nat n <= nbits bm ->
  free_set (bitmap_clear bm s n) size = free_set bm size ∖ range s (Z.of_nat n).
Proof.
  intros Hs Hn. apply set_eq. intros i.
  rewrite elem_of_difference, !elem_of_free_set, elem_of_range. split.
  - intros [Hi Ht]. rewrite test_bitmap_clear in Ht by lia. unfold in_range in Ht.
    destruct (Z.leb_spec s i), (Z.ltb_spec i (s + Z.of_nat n)); cbn in Ht; done || (split; [done|lia]).
  - intros [[Hi Ht] Hr]. split; [done|]. rewrite test_bitmap_clear by lia. unfold in_range.
    destruct (Z.leb_spec s i), (Z.ltb_spec i (s + Z.of_nat n)); cbn; lia || done.
Qed.

Lemma free_set_set bm size s n :
  0 <= s -> s + Z.of_nat n <= size -> size <= nbits bm ->
  free_set (bitmap_set bm s n) size = free_set bm size ∪ range s (Z.of_nat n).
Proof.
  intros Hs Hn Hz. apply set_eq. intros i.
  rewrite elem_of_union, !elem_of_free_set, elem_of_range. split.
  - intros [Hi Ht]. rewrite test_bitmap_set in Ht by lia. unfold in_range in Ht.
    destruct (Z.leb_spec s i), (Z.ltb_spec i (s + Z.of_nat n)); cbn in Ht; (right; lia) || by left.
  - intros [[Hi Ht]|Hr]; (split; [lia|]); rewrite test_bitmap_set by lia; unfold in_range;
      destruct (Z.leb_spec s i), (Z.ltb_spec i (s + Z.of_nat n)); cbn; lia || done.
Qed.

(** The scans compute the lowest fit. *)
Lemma scan_run_first_fit bm lo size len prev :
  is_u32 size -> 0 <= lo <= size -> 1 <= len < 2 ^ 32 ->
  forall fuel, (Z.to_nat (size - lo) <= fuel)%nat ->
  first_fit (free_set bm size) lo size len =
    option_map (fun e => e - len + 1) (scan_run fuel bm size len lo prev 0) /\
  (forall e, scan_run fuel bm size len lo prev 0 = Some e -> 0 <= e - len + 1 /\ e < size).
Proof.
  intros Hsz Hlo Hlen fuel Hf.
  pose proof (scan_inv_init bm lo size len prev Hlo (proj1 Hlen)) as Hi.
  pose proof (scan_run_spec fuel bm lo size len lo prev 0 Hsz Hlen Hi Hf) as H.
  destruct (scan_run fuel bm size len lo prev 0) as [e|] eqn:E; cbn [option_map].
  - destruct H as (H1 & H2 & H3 & H4). split.
    + apply first_fit_Some; [done|done| |].
      * apply free_run_subset; [lia..|done].
      * intros y Hy. rewrite <- free_run_subset by lia. by apply H4.
    + intros ? [= <-]. lia.
  - split; [|done]. apply first_fit_None. intros y Hy1 Hy2.
    rewrite <- free_run_subset by lia. by apply H.
Qed.

(** The fast path for one bit computes it too. *)
Lemma find_next_first_fit bm lo size :
  0 <= lo <= size ->
  first_fit (free_set bm size) lo size 1 =
    if find_next_bit bm size lo <? size then Some (find_next_bit bm size lo) else None.
Proof.
  intros Hlo. destruct (find_next_bit_spec bm size lo ltac:(lia)) as (H1 & H2 & H3).
  assert (forall y, lo <= y -> y + 1 <= find_next_bit bm size lo -> ~ range y 1 ⊆ free_set bm size) as Hno.
  { intros y ?? Hs. apply free_run_subset in Hs; [|lia..]. specialize (Hs y ltac:(lia)).
    rewrite H2 in Hs by lia. done. }
  destruct (Z.ltb_spec (find_next_bit bm size lo) size).
  - apply first_fit_Some; [lia..| |].
    + apply free_run_subset; [lia..|]. intros i Hi.
      replace i with (find_next_bit bm size lo) by lia. by apply H3.
    + intros y Hy. apply Hno; lia.
  - apply first_fit_None. intros y ??. apply Hno; lia.
Qed.

(** What the two search routines return, in terms of the lowest fit. *)
Definition take_fit (bm : list Z) (len : Z) (fit : option Z) : Z * list Z :=
  match fit with
  | Some s => (s, bitmap_clear bm s (Z.to_nat len))
  | None => (0, bm)
  end.

Lemma take_scan bm len e size :
  is_u32 size -> 1 <= len < 2 ^ 32 -> 0 <= e - len + 1 -> e < size ->
  (e -₃₂ len +₃₂ 1, bitmap_clear bm (e -₃₂ len +₃₂ 1) (Z.to_nat len)) =
  take_fit bm len (Some (e - len + 1)).
Proof.
  intros. assert (e -₃₂ len +₃₂ 1 = e - len + 1) as ->; [|done].
  destruct (decide (e - len = -1)) as [E|E]; [by rewrite E|]. by nowrap.
Qed.

Lemma get_first_free_bits_first_fit bm size len :
  is_u32 size -> 1 <= len < 2 ^ 32 ->
  get_first_free_bits bm size len = take_fit bm len (first_fit (free_set bm size) 0 size len).
Proof.
  intros Hsz Hlen. unfold get_first_free_bits. destruct (Z.eqb_spec len 1) as [->|Hne].
  - rewrite find_next_first_fit by lia. unfold find_first_bit.
    destruct (find_next_bit_spec bm size 0 ltac:(lia)) as (H1 & _). nowrap. cases; done.
  - destruct (scan_run_first_fit bm 0 size len 0 Hsz ltac:(lia) Hlen (Z.to_nat size) ltac:(lia))
      as [-> Hb].
    destruct (scan_run _ _ _ _ _ _ _) as [e|]; [|done]. cbn [option_map].
    destruct (Hb e eq_refl). by eapply take_scan.
Qed.

Lemma scan_run_from_eq fuel : forall bm size len start bit prev count,
  is_u32 size -> start <= bit <= size ->
  0 <= bit -> scan_run_from fuel bm size len start bit prev count = scan_run fuel bm size len bit prev count.
Proof.
  induction fuel as [|fuel IH]; intros bm size len start bit prev count Hsz Hb H0; [done|].
  cbn [scan_run_from scan_run].
  destruct (find_next_bit_spec bm size bit ltac:(lia)) as (H1 & _). nowrap.
  destruct (Z.ltb_spec (find_next_bit bm size bit) size); [|done].
  rewrite (proj2 (Z.ltb_ge _ start)) by lia.
  rewrite (u32_small (find_next_bit bm size bit + 1)) by lia. rewrite IH by lia. done.
Qed.

(** The lowest fit at or after the hint, else the lowest fit below it. *)
Definition hint_fit (bm : list Z) (size len start : Z) : option Z :=
  match first_fit (free_set bm size) start size len with
  | Some s => Some s
  | None => first_fit (free_set bm start) 0 start len
  end.

Lemma get_free_bits_from_hint_fit bm size len hint :
  is_u32 size -> is_u32 hint -> 1 <= len < 2 ^ 32 ->
  get_free_bits_from_hint bm size len hint =
    take_fit bm len (hint_fit bm size len (if size <=? hint then 0 else hint)).
Proof.
  intros Hsz Hh Hlen. unfold get_free_bits_from_hint, hint_fit.
  set (start := if size <=? hint then 0 else hint).
  assert (0 <= start <= size) as Hst by (subst start; cases; zbool; lia).
  assert (start = 0 -> first_fit (free_set bm start) 0 start len = None) as H0.
  { intros ->. apply first_fit_None. intros y ??. lia. }
  destruct (Z.eqb_spec len 1) as [->|Hne].
  - rewrite find_next_first_fit by lia.
    destruct (find_next_bit_spec bm size start ltac:(lia)) as (H1 & _). nowrap.
    destruct (Z.ltb_spec (find_next_bit bm size start) size); [done|].
    destruct (Z.ltb_spec 0 start); [|by rewrite H0 by lia].
    rewrite find_next_first_fit by lia. unfold find_first_bit.
    destruct (find_next_bit_spec bm start 0 ltac:(lia)) as (Hs0 & _). nowrap. cases; done.
  - rewrite scan_run_from_eq by lia.
    destruct (scan_run_first_fit bm start size len 0 Hsz Hst Hlen (Z.to_nat size) ltac:(lia))
      as [-> Hb].
    destruct (scan_run _ _ size _ _ _ _) as [e|]; cbn [option_map].
    { destruct (Hb e eq_refl). by apply (take_scan bm len e size). }
    destruct (Z.ltb_spec 0 start); [|by rewrite H0 by lia].
    destruct (scan_run_first_fit bm 0 start len 0 ltac:(lia) ltac:(lia) Hlen (Z.to_nat start) ltac:(lia))
      as [-> Hb'].
    destruct (scan_run _ _ start _ _ _ _) as [e|]; [|done]. cbn [option_map].
    destruct (Hb' e eq_refl). by apply (take_scan bm len e start); [lia|..].
Qed.

(** ** The invariant of the free maps and the operations on it *)

Definition free_blocks (s : lolelffs_sb_info) : gset Z := free_set (bfree_bitmap s) (nr_blocks (sbd s)).
Definition free_inodes (s : lolelffs_sb_info) : gset Z := free_set (ifree_bitmap s) (nr_inodes (sbd s)).

(** A map of [size] objects with [cnt] free ones, object 0 never free. *)
Definition map_inv (bm : list Z) (size cnt : Z) : Prop :=
  is_u32 size /\ size <= nbits bm /\ (0 ∉ free_set bm size) /\ cnt = Z.of_nat (base.size (free_set bm size)).

Definition block_inv (s : lolelffs_sb_info) : Prop :=
  map_inv (bfree_bitmap s) (nr_blocks (sbd s)) (nr_free_blocks (sbd s)).
Definition inode_inv (s : lolelffs_sb_info) : Prop :=
  map_inv (ifree_bitmap s) (nr_inodes (sbd s)) (nr_free_inodes (sbd s)).

Lemma free_set_bound bm size : 0 <= size -> Z.of_nat (base.size (free_set bm size)) <= size.
Proof.
  intros. rewrite <- (size_range 0 size) at 2 by done. apply inj_le, subseteq_size.
  intros i. rewrite elem_of_free_set, elem_of_range. lia.
Qed.

(** Taking a run keeps the invariant: the counter and the set move together. *)
Lemma map_inv_take bm size cnt len s :
  map_inv bm size cnt -> 1 <= len < 2 ^ 32 -> 0 <= s -> s + len <= size ->
  range s len ⊆ free_set bm size ->
  map_inv (bitmap_clear bm s (Z.to_nat len)) size (cnt -₃₂ len) /\
  free_set (bitmap_clear bm s (Z.to_nat len)) size = free_set bm size ∖ range s len.
Proof.
  intros (Hu & Hn & H0 & Hc) Hl Hs Hsl Hsub.
  assert (free_set (bitmap_clear bm s (Z.to_nat len)) size = free_set bm size ∖ range s len) as HF.
  { rewrite free_set_clear by lia. by rewrite Z2Nat.id by lia. }
  split; [|done]. pose proof (free_set_bound bm size ltac:(lia)).
  pose proof (subseteq_size _ _ Hsub) as Hsz. pose proof (size_range s len ltac:(lia)).
  repeat split; try lia.
  - by rewrite length_bitmap_clear.
  - rewrite HF, elem_of_difference. by intros [? _].
  - rewrite HF, size_difference by done. nowrap. lia.
Qed.

(** Giving back a used run keeps it too. *)
Lemma map_inv_give bm size cnt len s :
  map_inv bm size cnt -> 1 <= len -> 1 <= s -> s + len <= size ->
  range s len ## free_set bm size ->
  map_inv (bitmap_set bm s (Z.to_nat len)) size (cnt +₃₂ len) /\
  free_set (bitmap_set bm s (Z.to_nat len)) size = free_set bm size ∪ range s len.
Proof.
  intros (Hu & Hn & H0 & Hc) Hl Hs Hsl Hdis.
  assert (free_set (bitmap_set bm s (Z.to_nat len)) size = free_set bm size ∪ range s len) as HF.
  { rewrite free_set_set by lia. by rewrite Z2Nat.id by lia. }
  split; [|done].
  pose proof (free_set_bound (bitmap_set bm s (Z.to_nat len)) size ltac:(lia)) as Hb.
  rewrite HF, size_union in Hb by done. pose proof (size_range s len ltac:(lia)).
  repeat split; try lia.
  - by rewrite length_bitmap_set.
  - rewrite HF, elem_of_union, elem_of_range. intros [|]; [done|lia].
  - rewrite HF, size_union by done. nowrap. lia.
Qed.

(** ** The interface of an allocator

    What the file, directory and extended-attribute code relies on. *)
Class Allocator (S : Type) := {
  al_inv : S -> Prop;
  al_univ : S -> gset Z;                 (* the numbers it manages, 0 excluded *)
  al_free : S -> gset Z;
  al_len_ok : Z -> Prop;
  al_get : S -> Z -> Z * S;              (* 0 when nothing fits *)
  al_put : S -> Z -> Z -> S;
  al_len_pos len : al_len_ok len -> 1 <= len;
  al_free_univ s : al_inv s -> al_free s ⊆ al_univ s;
  al_get_ok s len r s' :
    al_inv s -> al_len_ok len -> al_get s len = (r, s') ->
    al_inv s' /\ al_univ s' = al_univ s /\
    (r <> 0 /\ range r len ⊆ al_free s /\ al_free s' = al_free s ∖ range r len \/
     r = 0 /\ al_free s' = al_free s /\ forall x, ~ range x len ⊆ al_free s);
  al_put_ok s r len :
    al_inv s -> al_len_ok len -> range r len ⊆ al_univ s ∖ al_free s ->
    al_inv (al_put s r len) /\ al_univ (al_put s r len) = al_univ s /\
    al_free (al_put s r len) = al_free s ∪ range r len
}.

Section TakeFit.
Context (bm : list Z) (size cnt len : Z).
Context (Hinv : map_inv bm size cnt) (Hlen : 1 <= len < 2 ^ 32).

(** The shape of every allocation: all or nothing. *)
Lemma get_first_free_bits_cases r bm' :
  get_first_free_bits bm size len = (r, bm') ->
  r <> 0 /\ range r len ⊆ free_set bm size /\
    map_inv bm' size (cnt -₃₂ len) /\ free_set bm' size = free_set bm size ∖ range r len \/
  r = 0 /\ bm' = bm /\ forall x, ~ range x len ⊆ free_set bm size.
Proof using All.
  destruct (Hinv) as (Hu & Hn & H0 & Hc).
  rewrite get_first_free_bits_first_fit by done.
  pose proof (first_fit_inv (free_set bm size) 0 size len _ eq_refl) as Hf.
  destruct (first_fit (free_set bm size) 0 size len) as [s|]; cbn [take_fit]; intros [= <- <-].
  - destruct Hf as (Hs & Hsl & Hsub & _). left.
    assert (s <> 0) by (intros ->; apply H0, Hsub, elem_of_range; lia).
    pose proof (map_inv_take bm size cnt len s Hinv Hlen Hs Hsl Hsub) as [? ?]. done.
  - right. split; [done|]. split; [done|]. intros x Hx.
    assert (x ∈ free_set bm size) as H1 by (apply Hx, elem_of_range; lia).
    assert (x + len - 1 ∈ free_set bm size) as H2 by (apply Hx, elem_of_range; lia).
    apply elem_of_free_set in H1 as [? _], H2 as [? _]. by apply (Hf x); [lia..|].
Qed.
End TakeFit.

Lemma put_free_bits_cases bm size cnt r len :
  map_inv bm size cnt -> 1 <= len -> 1 <= r -> r + len <= size ->
  put_free_bits bm size r len = Some (bitmap_set bm r (Z.to_nat len)).
Proof.
  intros (Hu & _). intros. unfold put_free_bits. nowrap.
  rewrite (proj2 (Z.ltb_ge _ _)) by lia. done.
Qed.

(** The numbers 1, ..., [n - 1]. *)
Definition univ (n : Z) : gset Z := range 1 (n - 1).

Lemma range_univ_bounds n r len : 1 <= len -> range r len ⊆ univ n -> 1 <= r /\ r + len <= n.
Proof.
  intros Hl H. assert (r ∈ univ n) as H1 by (apply H, elem_of_range; lia).
  assert (r + len - 1 ∈ univ n) as H2 by (apply H, elem_of_range; lia).
  unfold univ in *. rewrite elem_of_range in *. lia.
Qed.

Lemma map_inv_univ bm size cnt : map_inv bm size cnt -> free_set bm size ⊆ univ size.
Proof.
  intros (_ & _ & H0 & _) i Hi. unfold univ. rewrite elem_of_range.
  destruct (decide (i = 0)) as [->|]; [done|]. apply elem_of_free_set in Hi. lia.
Qed.

(** bitmap.h implements the interface, for blocks and for inodes. *)
#[refine, export] Instance block_allocator : Allocator lolelffs_sb_info := {
  al_inv := block_inv;
  al_univ s := univ (nr_blocks (sbd s));
  al_free := free_blocks;
  al_len_ok len := 1 <= len < 2 ^ 32;
  al_get := get_free_blocks;
  al_put := put_blocks
}.
Proof.
  - intros. lia.
  - intros s. apply map_inv_univ.
  - intros s len r s' Hinv Hlen. unfold get_free_blocks.
    destruct (get_first_free_bits _ _ _) as [r0 bm] eqn:E.
    apply (get_first_free_bits_cases _ _ _ _ Hinv Hlen) in E. intros [= <- <-].
    unfold block_inv, free_blocks. cbn.
    destruct E as [(Hr & Hsub & Hi & HF)|(-> & -> & Hno)].
    + rewrite (proj2 (Z.eqb_neq _ _) Hr). cbn. split; [done|]. split; [done|]. by left.
    + cbn. split; [done|]. split; [done|]. by right.
  - intros s r len Hinv Hlen Hsub.
    destruct (range_univ_bounds (nr_blocks (sbd s)) r len) as [? ?]; [lia|set_solver|].
    unfold put_blocks. erewrite put_free_bits_cases by (done || lia).
    destruct (map_inv_give _ _ _ len r Hinv) as [Hi HF]; [lia..|set_solver|].
    unfold block_inv, free_blocks. cbn. auto.
Defined.

#[refine, local] Instance inode_allocator : Allocator lolelffs_sb_info := {
  al_inv := inode_inv;
  al_univ s := univ (nr_inodes (sbd s));
  al_free := free_inodes;
  al_len_ok len := len = 1;
  al_get s _ := get_free_inode s;
  al_put s r _ := put_inode s r
}.
Proof.
  - intros. lia.
  - intros s. apply map_inv_univ.
  - intros s len r s' Hinv ->. unfold get_free_inode.
    destruct (get_first_free_bits _ _ _) as [r0 bm] eqn:E.
    apply (get_first_free_bits_cases _ _ _ 1 Hinv ltac:(lia)) in E. intros [= <- <-].
    unfold inode_inv, free_inodes. cbn.
    destruct E as [(Hr & Hsub & Hi & HF)|(-> & -> & Hno)].
    + rewrite (proj2 (Z.eqb_neq _ _) Hr). cbn. split; [done|]. split; [done|]. by left.
    + cbn. split; [done|]. split; [done|]. by right.
  - intros s r len Hinv -> Hsub.
    destruct (range_univ_bounds (nr_inodes (sbd s)) r 1) as [? ?]; [lia|set_solver|].
    unfold put_inode. erewrite put_free_bits_cases by (done || lia).
    destruct (map_inv_give _ _ _ 1 r Hinv) as [Hi HF]; [lia..|set_solver|].
    unfold inode_inv, free_inodes. cbn. auto.
Defined.

(** ** Any interleaving of critical sections

    Every thread enters the allocator under [sbi->lock], so a run of the
    system is a sequence of whole operations; [held] maps the start of each
    outstanding run to its length. *)
Section Interleaving.
Context {S : Type} `{Allocator S}.

Inductive al_step : S * gmap Z Z -> S * gmap Z Z -> Prop :=
  | step_get s held len r s' :
      al_len_ok len -> al_get s len = (r, s') -> r <> 0 ->
      al_step (s, held) (s', <[r := len]> held)
  | step_get_fail s held len s' :
      al_len_ok len -> al_get s len = (0, s') -> al_step (s, held) (s', held)
  | step_put s held r len :
      held !! r = Some len -> al_step (s, held) (al_put s r len, delete r held).

(** Nothing is handed out twice and nothing is lost. *)
Definition held_inv (F0 : gset Z) (c : S * gmap Z Z) : Prop :=
  let '(s, held) := c in
  al_inv s /\
  (forall r len, held !! r = Some len -> al_len_ok len /\ range r len ⊆ al_univ s ∖ al_free s) /\
  (forall r len r' len', held !! r = Some len -> held !! r' = Some len' -> r <> r' ->
     range r len ## range r' len') /\
  (forall i, i ∈ F0 <-> i ∈ al_free s \/ exists r len, held !! r = Some len /\ i ∈ range r len).

Lemma al_step_get_inv F0 s held len r s' :
  held_inv F0 (s, held) -> al_len_ok len -> al_get s len = (r, s') -> r <> 0 ->
  held_inv F0 (s', <[r := len]> held).
Proof.
  intros (Hi & Hh & Hd & Hc) Hl Hg Hr.
  destruct (al_get_ok s len r s' Hi Hl Hg) as (Hi' & Hu & [(_ & Hsub & HF)|(-> & _)]); [|done].
  pose proof (al_free_univ s Hi) as Hfu. pose proof (al_len_pos len Hl) as Hp.
  assert (held !! r = None) as Hnew.
  { destruct (held !! r) as [l'|] eqn:E; [|done]. destruct (Hh _ _ E) as [Hl' Hx].
    assert (r ∈ range r len) by (apply elem_of_range; lia).
    assert (r ∈ range r l') by (apply elem_of_range; pose proof (al_len_pos _ Hl'); lia).
    set_solver. }
  assert (forall r' l', held !! r' = Some l' -> range r len ## range r' l') as Hdis.
  { intros r' l' E. destruct (Hh _ _ E) as [_ Hx]. set_solver. }
  split; [done|]. rewrite Hu, HF. split_and!.
  - intros r' l' [[<- <-]|[Hne E]]%lookup_insert_Some; [set_solver|].
    destruct (Hh _ _ E) as [? Hx]. split; [done|]. set_solver.
  - intros r1 l1 r2 l2 [[<- <-]|[? E1]]%lookup_insert_Some [[<- <-]|[? E2]]%lookup_insert_Some Hne;
      [done|by apply Hdis|symmetry; by apply Hdis|by eapply Hd].
  - intros i. rewrite Hc, elem_of_difference. split.
    + intros [Hf|(r' & l' & E & Hin)].
      * destruct (decide (i ∈ range r len)); [|by left].
        right. exists r, len. by rewrite lookup_insert_eq.
      * right. exists r', l'. rewrite lookup_insert_ne; [done|]. intros ->. congruence.
    + intros [[Hf _]|(r' & l' & [[<- <-]|[_ E]]%lookup_insert_Some & Hin)];
        [by left|left; by apply Hsub|right; eauto].
Qed.

Lemma al_step_put_inv F0 s held r len :
  held_inv F0 (s, held) -> held !! r = Some len ->
  held_inv F0 (al_put s r len, delete r held).
Proof.
  intros (Hi & Hh & Hd & Hc) E. destruct (Hh _ _ E) as [Hl Hsub].
  destruct (al_put_ok s r len Hi Hl Hsub) as (Hi' & Hu & HF).
  split; [done|]. rewrite Hu, HF. split_and!.
  - intros r' l' [Hne E']%lookup_delete_Some. destruct (Hh _ _ E') as [? Hx].
    split; [done|]. pose proof (Hd _ _ _ _ E E' Hne). set_solver.
  - intros r1 l1 r2 l2 [? E1]%lookup_delete_Some [? E2]%lookup_delete_Some Hne. by eapply Hd.
  - intros i. rewrite Hc, elem_of_union. split.
    + intros [Hf|(r' & l' & E' & Hin)]; [by left; left|].
      destruct (decide (r = r')) as [<-|Hne]; [left; right; congruence|].
      right. exists r', l'. by rewrite lookup_delete_ne.
    + intros [[Hf|Hin]|(r' & l' & [_ E']%lookup_delete_Some & Hin)]; eauto.
Qed.

Lemma al_steps_inv F0 c c' : rtc al_step c c' -> held_inv F0 c -> held_inv F0 c'.
Proof.
  induction 1 as [|c1 c2 c3 Hstep _ IH]; [done|]. intros Hc. apply IH. destruct Hstep.
  - by eapply al_step_get_inv.
  - destruct Hc as (Hi & Hh & Hd & Hc).
    destruct (al_get_ok s len 0 s' Hi) as (Hi' & Hu & [(? & _)|(_ & HF & _)]); [done..|].
    unfold held_inv. rewrite Hu, HF. done.
  - by apply al_step_put_inv.
Qed.

Lemma held_inv_init s : al_inv s -> held_inv (al_free s) (s, ∅).
Proof.
  intros Hi. split; [done|]. split_and!.
  - intros r len E. by rewrite lookup_empty in E.
  - intros r len r' len' E. by rewrite lookup_empty in E.
  - intros i. split; [by left|]. intros [|(r & len & E & _)]; [done|].
    by rewrite lookup_empty in E.
Qed.
End Interleaving.

(** A small file system for the witnesses: 16 blocks and 16 inodes, of which
    number 0 is in use. *)
Definition ex_sbd : sb_disk :=
  SbDisk LOLELFFS_MAGIC 16 16 1 1 1 15 15 LOLELFFS_VERSION LOLELFFS_COMP_LZ4 1 128 1 2048 524288
    0 0 1 3 65536 4 (zeros 32) (zeros 32) 0 (zeros 12).
Definition ex_sbi : lolelffs_sb_info := SbInfo ex_sbd [254; 255] [254; 255] 0 (zeros 32) false.

Lemma ex_block_inv : block_inv ex_sbi.
Proof.
  split; [vm_compute; intuition congruence|]. split; [vm_compute; congruence|].
  split; [|vm_compute; reflexivity]. apply (bool_decide_unpack _). vm_compute. exact I.
Qed.

(** The last two steps of calc_optimal_extent_size are a clamp. *)
Lemma clamp_free nf n :
  0 <= nf -> 1 <= n ->
  (if (if nf <? n then nf else n) =? 0 then 1 else if nf <? n then nf else n) =
  Z.max 1 (Z.min nf n).
Proof.
  intros. destruct (Z.ltb_spec nf n);
    match goal with |- context [?x =? 0] => destruct (Z.eqb_spec x 0) end; lia.
Qed.

(** ** Properties *)

(** C17 [get_first_free_bits] allocates the lowest run of [len] free bits below
    [size], clears exactly those bits, and returns 0 with the map unchanged
    when no run fits: its word-at-a-time and run-scanning paths agree with the
    abstract first-fit search over the set of free numbers. *)
Theorem get_first_free_bits_lowest_fit bm size len :
  is_u32 size -> size <= nbits bm -> 1 <= len < 2 ^ 32 ->
  let '(r, bm') := get_first_free_bits bm size len in
  match first_fit (free_set bm size) 0 size len with
  | Some s =>
      r = s /\ free_set bm' size = free_set bm size ∖ range s len /\
      forall i, 0 <= i -> test_bit bm' i = negb (in_range s len i) && test_bit bm i
  | None => r = 0 /\ bm' = bm
  end.
Proof.
  intros Hsz Hn Hlen. rewrite get_first_free_bits_first_fit by done.
  pose proof (first_fit_inv (free_set bm size) 0 size len _ eq_refl) as Hf.
  destruct (first_fit (free_set bm size) 0 size len) as [s|]; cbn [take_fit]; [|done].
  destruct Hf as (Hs & Hsl & _). split; [done|]. split.
  - rewrite free_set_clear by lia. by rewrite Z2Nat.id by lia.
  - intros i Hi. rewrite test_bitmap_clear by lia. by rewrite Z2Nat.id by lia.
Qed.

Lemma get_first_free_bits_lowest_fit_witness :
  first_fit (free_set [0xEE; 0x0F] 16) 0 16 4 = Some 5 /\
  fst (get_first_free_bits [0xEE; 0x0F] 16 4) = 5.
Proof.
  assert (first_fit (free_set [0xEE; 0x0F] 16) 0 16 4 = Some 5) as E by (vm_compute; reflexivity).
  split; [exact E|].
  pose proof (get_first_free_bits_lowest_fit [0xEE; 0x0F] 16 4 ltac:(lia) ltac:(cbn; lia) ltac:(lia)) as H.
  rewrite E in H. destruct (get_first_free_bits _ _ _) as [r bm']. apply H.
Defined.

(** C36 [get_free_bits_from_hint] takes the lowest run that fits at or after the
    hint (0 when the hint is out of range), else the lowest run below it, and
    returns 0 with the map unchanged when neither exists; the guard
    [bit < start] inside its loop is never taken. *)
Theorem get_free_bits_from_hint_spec bm size len hint :
  is_u32 size -> size <= nbits bm -> 1 <= len < 2 ^ 32 -> is_u32 hint ->
  let start := if size <=? hint then 0 else hint in
  let '(r, bm') := get_free_bits_from_hint bm size len hint in
  match hint_fit bm size len start with
  | Some s =>
      r = s /\ free_run bm s len /\
      forall i, 0 <= i -> test_bit bm' i = negb (in_range s len i) && test_bit bm i
  | None => r = 0 /\ bm' = bm
  end.
Proof.
  intros Hsz Hn Hlen Hh start. rewrite get_free_bits_from_hint_fit by done. fold start.
  assert (0 <= start <= size) as Hst by (subst start; cases; zbool; lia).
  unfold hint_fit.
  pose proof (first_fit_inv (free_set bm size) start size len _ eq_refl) as Hf.
  pose proof (first_fit_inv (free_set bm start) 0 start len _ eq_refl) as Hg.
  destruct (first_fit (free_set bm size) start size len) as [s|];
    [|destruct (first_fit (free_set bm start) 0 start len) as [s|]; [clear Hf; rename Hg into Hf|done]];
    destruct Hf as (Hs & Hsl & Hsub & _); cbn [take_fit];
    (split; [done|]; split; [apply free_run_subset in Hsub; lia || done|]);
    intros i Hi; rewrite test_bitmap_clear by lia; by rewrite Z2Nat.id by lia.
Qed.

Lemma get_free_bits_from_hint_spec_witness :
  hint_fit [0xEE; 0x0F] 16 2 9 = Some 9 /\
  fst (get_free_bits_from_hint [0xEE; 0x0F] 16 2 9) = 9.
Proof.
  assert (hint_fit [0xEE; 0x0F] 16 2 9 = Some 9) as E by (vm_compute; reflexivity).
  split; [exact E|].
  pose proof (get_free_bits_from_hint_spec [0xEE; 0x0F] 16 2 9 ltac:(lia) ltac:(cbn; lia)
    ltac:(lia) ltac:(lia)) as H. cbn [Z.leb Z.compare Pos.compare Pos.compare_cont] in H.
  rewrite E in H. destruct (get_free_bits_from_hint _ _ _ _) as [r bm']. apply H.
Defined.

(** C2 Block allocation is exclusive under any interleaving: in every state
    reached from a consistent one by whole [get_free_blocks] and [put_blocks]
    operations (each runs under sbi->lock), the outstanding runs are pairwise
    disjoint, inside the device and not free, the counter equals the number of
    free bits, and the free blocks are exactly those of the start minus the
    outstanding runs. *)
Theorem block_allocation_exclusive s0 s held :
  block_inv s0 -> rtc (al_step (H := block_allocator)) (s0, ∅) (s, held) ->
  nr_free_blocks (sbd s) = Z.of_nat (base.size (free_blocks s)) /\
  (forall r len, held !! r = Some len ->
     1 <= r /\ r + len <= nr_blocks (sbd s) /\ range r len ## free_blocks s) /\
  (forall r len r' len', held !! r = Some len -> held !! r' = Some len' -> r <> r' ->
     range r len ## range r' len') /\
  (forall i, i ∈ free_blocks s0 <-> i ∈ free_blocks s \/
     exists r len, held !! r = Some len /\ i ∈ range r len).
Proof.
  intros Hi Hs. apply (al_steps_inv (H := block_allocator) (free_blocks s0)) in Hs;
    [|exact (held_inv_init (H := block_allocator) s0 Hi)].
  destruct Hs as ((_ & _ & _ & Hcnt) & Hh & Hd & Hc). split; [done|]. split; [|done].
  intros r len E. destruct (Hh r len E) as [Hl Hsub]. cbn in Hl, Hsub.
  destruct (range_univ_bounds (nr_blocks (sbd s)) r len) as [? ?]; [lia|set_solver|].
  split; [done|]. split; [done|]. set_solver.
Qed.

Lemma block_allocation_exclusive_witness :
  let s1 := snd (get_free_blocks ex_sbi 4) in
  nr_free_blocks (sbd s1) = 11 /\
  nr_free_blocks (sbd s1) = Z.of_nat (base.size (free_blocks s1)).
Proof.
  intros s1. split; [vm_compute; reflexivity|].
  apply (block_allocation_exclusive ex_sbi s1 (<[1 := 4]> ∅)); [apply ex_block_inv|].
  apply rtc_once, (step_get (H := block_allocator) ex_sbi ∅ 4 1 s1); [cbn; lia|vm_compute; reflexivity|lia].
Defined.

(** C18 The inode map behaves the same way: an inode number is never handed out
    twice while it is held, number 0 (the root) is never handed out, and the
    counter tracks the map. *)
Theorem inode_allocation_exclusive s0 s held :
  inode_inv s0 -> rtc (al_step (H := inode_allocator)) (s0, ∅) (s, held) ->
  nr_free_inodes (sbd s) = Z.of_nat (base.size (free_inodes s)) /\
  (forall ino len, held !! ino = Some len -> 1 <= ino < nr_inodes (sbd s) /\ ino ∉ free_inodes s) /\
  (forall i, i ∈ free_inodes s0 <-> i ∈ free_inodes s \/ exists len, held !! i = Some len).
Proof.
  intros Hi Hs. apply (al_steps_inv (H := inode_allocator) (free_inodes s0)) in Hs;
    [|exact (held_inv_init (H := inode_allocator) s0 Hi)].
  destruct Hs as ((_ & _ & _ & Hcnt) & Hh & Hd & Hc). cbn in Hh, Hc. split; [done|]. split.
  - intros ino len E. destruct (Hh ino len E) as [-> Hsub].
    destruct (range_univ_bounds (nr_inodes (sbd s)) ino 1) as [? ?]; [lia|set_solver|].
    split; [lia|]. assert (ino ∈ range ino 1) by (apply elem_of_range; lia). set_solver.
  - intros i. rewrite Hc. split; (intros [|H]; [by left|right]).
    + destruct H as (r & len & E & Hin). exists len. destruct (Hh r len E) as [-> _].
      apply elem_of_range in Hin. by replace i with r by lia.
    + destruct H as (len & E). exists i, len. destruct (Hh i len E) as [-> _].
      split; [done|]. apply elem_of_range. lia.
Qed.

Lemma inode_allocation_exclusive_witness :
  let s1 := snd (get_free_inode ex_sbi) in
  nr_free_inodes (sbd s1) = 14 /\
  nr_free_inodes (sbd s1) = Z.of_nat (base.size (free_inodes s1)).
Proof.
  intros s1. split; [vm_compute; reflexivity|].
  apply (inode_allocation_exclusive ex_sbi s1 (<[1 := 1]> ∅)); [exact ex_block_inv|].
  apply rtc_once, (step_get (H := inode_allocator) ex_sbi ∅ 1 1 s1);
    [reflexivity|vm_compute; reflexivity|lia].
Defined.

(** C35 Freeing what was just allocated restores every bit and the counter. *)
Theorem get_put_blocks_restores s len r s' :
  block_inv s -> 1 <= len < 2 ^ 32 -> get_free_blocks s len = (r, s') -> r <> 0 ->
  let s'' := put_blocks s' r len in
  nr_free_blocks (sbd s'') = nr_free_blocks (sbd s) /\ free_blocks s'' = free_blocks s /\
  forall i, 0 <= i -> test_bit (bfree_bitmap s'') i = test_bit (bfree_bitmap s) i.
Proof.
  intros Hi Hlen Hg Hr s''. pose proof Hi as (Hu & Hn & H0 & Hc). unfold get_free_blocks in Hg.
  rewrite get_first_free_bits_first_fit in Hg by done.
  pose proof (first_fit_inv (free_blocks s) 0 (nr_blocks (sbd s)) len _ eq_refl) as Hf.
  fold (free_blocks s) in Hg.
  destruct (first_fit (free_blocks s) 0 (nr_blocks (sbd s)) len) as [x|];
    cbn [take_fit] in Hg; injection Hg as <- <-; [|done].
  destruct Hf as (Hs & Hsl & Hsub & _).
  destruct (map_inv_take _ _ _ len x Hi Hlen Hs Hsl Hsub) as [Hi' HF'].
  assert (1 <= x) by lia. assert (range x len ## free_blocks s ∖ range x len) as Hdis by set_solver.
  subst s''. rewrite (proj2 (Z.eqb_neq x 0) Hr). unfold put_blocks. cbn.
  erewrite put_free_bits_cases by (done || lia). cbn.
  unfold free_blocks in Hdis. rewrite <- HF' in Hdis.
  destruct (map_inv_give _ _ _ len x Hi') as [(_ & _ & _ & Hc') HF'']; [lia..|done|].
  assert (free_set (bitmap_set (bitmap_clear (bfree_bitmap s) x (Z.to_nat len)) x (Z.to_nat len))
    (nr_blocks (sbd s)) = free_blocks s) as HE.
  { rewrite HF'', HF'. fold (free_blocks s). apply set_eq. intros i.
    rewrite elem_of_union, elem_of_difference. destruct (decide (i ∈ range x len)); set_solver. }
  split; [rewrite Hc', HE, Hc; done|]. split; [exact HE|].
  intros i Hi0. rewrite test_bitmap_set, test_bitmap_clear by (rewrite ?length_bitmap_clear; lia).
  rewrite Z2Nat.id by lia. destruct (in_range x len i) eqn:E; [|done].
  unfold in_range in E. zbool. symmetry.
  apply (proj2 (free_run_subset _ _ x len Hs Hsl) Hsub). lia.
Qed.

Lemma get_put_blocks_restores_witness :
  nr_free_blocks (sbd (put_blocks (snd (get_free_blocks ex_sbi 4)) 1 4)) = 15.
Proof.
  destruct (get_put_blocks_restores ex_sbi 4 1 (snd (get_free_blocks ex_sbi 4))) as (H & _);
    [apply ex_block_inv|lia|vm_compute; reflexivity|lia|].
  rewrite H. reflexivity.
Defined.

(** The most blocks an extent may have: the constant with per-block metadata,
    else the limit of the superblock where that is usable. *)
Definition extent_limit (s : lolelffs_sb_info) (meta : bool) : Z :=
  if meta then LOLELFFS_MAX_BLOCKS_PER_EXTENT
  else if (max_extent_blocks_large (sbd s) =? 0) || (LOLELFFS_MAX_BLOCKS_PER_EXTENT_LARGE <? max_extent_blocks_large (sbd s))
  then LOLELFFS_MAX_BLOCKS_PER_EXTENT_LARGE else max_extent_blocks_large (sbd s).

Lemma extent_limit_range s meta : 0 <= max_extent_blocks_large (sbd s) ->
  1 <= extent_limit s meta <= LOLELFFS_MAX_BLOCKS_PER_EXTENT_LARGE.
Proof.
  intros Hm. unfold extent_limit, LOLELFFS_MAX_BLOCKS_PER_EXTENT, LOLELFFS_MAX_BLOCKS_PER_EXTENT_LARGE.
  destruct meta; [lia|]. destruct (Z.eqb_spec (max_extent_blocks_large (sbd s)) 0),
    (Z.ltb_spec 524288 (max_extent_blocks_large (sbd s))); cbn; lia.
Qed.

(** C37 The adaptive extent size, for every superblock: it is at least one block;
    at most the number of free blocks when there are any, and exactly 1 when
    there are none, so that the allocation which follows fails; at most 256
    blocks for a file of fewer than 1024 and at most the limit of an extent
    for a larger one (a limit below 256 in the superblock is not respected for
    the smaller files); and it does not shrink as a file grows, up to 1024
    blocks always and beyond when the limit is at least 256. *)
Theorem calc_optimal_extent_size_bounds s cur cur' meta :
  is_u32 (max_extent_blocks_large (sbd s)) -> is_u32 (nr_free_blocks (sbd s)) -> cur <= cur' ->
  let n := calc_optimal_extent_size s cur meta in
  1 <= n /\ (0 < nr_free_blocks (sbd s) -> n <= nr_free_blocks (sbd s)) /\ (nr_free_blocks (sbd s) = 0 -> n = 1) /\
  n <= (if cur <? 1024 then 256 else extent_limit s meta) /\
  (cur' < 1024 \/ 256 <= extent_limit s meta -> n <= calc_optimal_extent_size s cur' meta).
Proof.
  intros Hm Hf Hc. pose proof (extent_limit_range s meta (proj1 Hm)) as Hmx.
  unfold LOLELFFS_MAX_BLOCKS_PER_EXTENT_LARGE in Hmx. unfold calc_optimal_extent_size. cbv zeta.
  fold (extent_limit s meta). set (mx := extent_limit s meta) in *. clearbody mx.
  destruct (Z.ltb_spec cur 8), (Z.ltb_spec cur 32), (Z.ltb_spec cur 256), (Z.ltb_spec cur 1024),
    (Z.ltb_spec cur' 8), (Z.ltb_spec cur' 32), (Z.ltb_spec cur' 256), (Z.ltb_spec cur' 1024);
    try lia; rewrite !clamp_free by lia; lia.
Qed.

Lemma calc_optimal_extent_size_bounds_witness :
  calc_optimal_extent_size ex_sbi 40 false = 15 /\
  1 <= calc_optimal_extent_size ex_sbi 0 false <= calc_optimal_extent_size ex_sbi 40 false.
Proof.
  split; [vm_compute; reflexivity|].
  destruct (calc_optimal_extent_size_bounds ex_sbi 0 40 false) as (? & _ & _ & _ & Hmono); [cbn; lia..|].
  specialize (Hmono ltac:(left; lia)). lia.
Defined.

(** The bound check of [put_free_bits] is off by one: giving back the block
    number [nr_blocks], which does not exist, is accepted; it counts one free
    block more than the map has, so the invariant of the counter is lost. *)
Theorem put_blocks_past_end_accepted s :
  block_inv s -> nr_blocks (sbd s) < nbits (bfree_bitmap s) -> nr_blocks (sbd s) + 1 < 2 ^ 32 ->
  let s' := put_blocks s (nr_blocks (sbd s)) 1 in
  free_blocks s' = free_blocks s /\
  nr_free_blocks (sbd s') = nr_free_blocks (sbd s) + 1 /\ ~ block_inv s'.
Proof.
  intros (Hu & Hn & H0 & Hc) Hlt H32 s'.
  assert (0 <= nr_free_blocks (sbd s) <= nr_blocks (sbd s)) as Hcb.
  { rewrite Hc. pose proof (free_set_bound (bfree_bitmap s) (nr_blocks (sbd s)) ltac:(lia)). lia. }
  assert (free_blocks s' = free_blocks s /\ nr_free_blocks (sbd s') = nr_free_blocks (sbd s) + 1) as [HF Hn'].
  { subst s'. unfold put_blocks, put_free_bits. nowrap.
    rewrite (proj2 (Z.ltb_ge _ _)) by lia. unfold free_blocks.
    cbn [sbd bfree_bitmap set_blocks nr_blocks with_free_counts nr_free_blocks].
    split; [|by nowrap].
    apply set_eq. intros i. rewrite !elem_of_free_set. split; intros [Hi Ht]; (split; [done|]).
    - rewrite test_bitmap_set in Ht by lia. unfold in_range in Ht.
      rewrite (proj2 (Z.leb_gt _ _)) in Ht by lia. exact Ht.
    - rewrite test_bitmap_set, Ht by lia. apply orb_true_r. }
  split; [done|]. split; [done|]. intros (_ & _ & _ & Hc'). fold (free_blocks s') in Hc'.
  rewrite Hn', HF, Hc in Hc'. unfold free_blocks in Hc'. lia.
Qed.

(** The same file system with room in the map behind the last block. *)
Definition ex_sbi3 : lolelffs_sb_info := SbInfo ex_sbd [254; 255] [254; 255; 0] 0 (zeros 32) false.

Lemma put_blocks_past_end_accepted_witness :
  nr_free_blocks (sbd (put_blocks ex_sbi3 16 1)) = 16.
Proof.
  destruct (put_blocks_past_end_accepted ex_sbi3) as (_ & H & _); [|cbn; lia|cbn; lia|exact H].
  split; [vm_compute; intuition congruence|]. split; [vm_compute; congruence|].
  split; [|vm_compute; reflexivity]. apply (bool_decide_unpack _). vm_compute. exact I.
Defined.
