(* ===== verification/Extent.v ===== *)
(** * Extent lists (src/src/extent.c)

    Counting, validating and searching the extents of an index block.  The
    binary search is shown to find the extent that holds a logical block on
    every list the validator accepts, and to stay inside the array on every
    list at all. *)
From S2P Require Import Prelude Layout.

(** ** lolelffs_count_extents *)

Fixpoint count_from (fuel : nat) (index : lolelffs_file_ei_block) (i : nat) : nat :=
  match fuel with
  | O => i
  | S fuel => if ee_start (ext index i) =? 0 then i else count_from fuel index (S i)
  end.

Definition lolelffs_count_extents (index : lolelffs_file_ei_block) : nat :=
  count_from NEXT index 0.

(** ** lolelffs_validate_extents *)

Definition extent_max_blocks (e : lolelffs_extent) : Z :=
  if negb (Z.land (ee_flags e) LOLELFFS_EXT_HAS_META =? 0)
  then LOLELFFS_MAX_BLOCKS_PER_EXTENT else LOLELFFS_MAX_BLOCKS_PER_EXTENT_LARGE.

Fixpoint validate_from (n : nat) (index : lolelffs_file_ei_block) (i : nat)
    (expected_block : Z) : result unit :=
  match n with
  | O => Ok tt
  | S n =>
      let e := ext index i in
      if (ee_len e =? 0) || (extent_max_blocks e <? ee_len e) then Err EINVAL
      else if negb (ee_block e =? expected_block) then Err EINVAL
      else if ee_start e =? 0 then Err EINVAL
      else validate_from n index (S i) (expected_block +₃₂ ee_len e)
  end.

Definition lolelffs_validate_extents (index : lolelffs_file_ei_block) : result unit :=
  validate_from (lolelffs_count_extents index) index 0 0.

(** ** lolelffs_extents_total_blocks *)

Fixpoint total_from (fuel : nat) (index : lolelffs_file_ei_block) (i : nat) (total : Z) : Z :=
  match fuel with
  | O => total
  | S fuel =>
      let e := ext index i in
      if ee_start e =? 0 then total
      else total_from fuel index (S i) (total +₃₂ ee_len e)
  end.

Definition lolelffs_extents_total_blocks (index : lolelffs_file_ei_block) : Z :=
  total_from NEXT index 0 0.

(** ** lolelffs_ext_search *)

(** The while loop; [right - left] shrinks at every iteration, so LOLELFFS_MAX_EXTENTS
    iterations are enough. *)
Fixpoint ext_bsearch (fuel : nat) (index : lolelffs_file_ei_block) (iblock : Z)
    (left right : nat) : option nat :=
  match fuel with
  | O => None
  | S fuel =>
      if (left <? right)%nat then
        let mid := (left + (right - left) / 2)%nat in
        let block := ee_block (ext index mid) in
        let len := ee_len (ext index mid) in
        if iblock <? block then ext_bsearch fuel index iblock left mid
        else if block +₃₂ len <=? iblock then ext_bsearch fuel index iblock (S mid) right
        else Some mid
      else None
  end.

(** (uint32_t)-1 *)
Definition EXT_NONE : Z := u32 (-1).

Definition lolelffs_ext_search (index : lolelffs_file_ei_block) (iblock : Z) : Z :=
  let nr_extents := lolelffs_count_extents index in
  if (nr_extents =? 0)%nat then 0
  else
    match ext_bsearch (S NEXT) index iblock 0 nr_extents with
    | Some mid => Z.of_nat mid
    | None => if Z.of_nat nr_extents <? LOLELFFS_MAX_EXTENTS then Z.of_nat nr_extents else EXT_NONE
    end.

(** ** lolelffs_ext_search_with_hint *)

Definition in_extent (e : lolelffs_extent) (iblock : Z) : bool :=
  (ee_block e <=? iblock) && (iblock <? ee_block e +₃₂ ee_len e).

Definition lolelffs_ext_search_with_hint (index : lolelffs_file_ei_block) (iblock hint : Z) : Z :=
  let nr_extents := lolelffs_count_extents index in
  if (nr_extents =? 0)%nat then 0
  else if hint <? Z.of_nat nr_extents then
    if in_extent (ext index (Z.to_nat hint)) iblock then hint
    else if (hint +₃₂ 1 <? Z.of_nat nr_extents) &&
            in_extent (ext index (Z.to_nat (hint +₃₂ 1))) iblock then hint +₃₂ 1
    else lolelffs_ext_search index iblock
  else lolelffs_ext_search index iblock.

(** ** Lemmas *)

Lemma count_from_spec fuel : forall index i,
  let n := count_from fuel index i in
  (i <= n <= i + fuel)%nat /\
  (forall j, (i <= j < n)%nat -> ee_start (ext index j) <> 0) /\
  ((n < i + fuel)%nat -> ee_start (ext index n) = 0).
Proof.
  induction fuel as [|fuel IH]; intros index i; cbn [count_from].
  - split_and!; intros; lia.
  - destruct (Z.eqb_spec (ee_start (ext index i)) 0) as [E|E].
    + split_and!; intros; lia || done.
    + destruct (IH index (S i)) as (H1 & H2 & H3). split; [lia|]. split; [|intros; apply H3; lia].
      intros j Hj. destruct (decide (j = i)) as [->|]; [done|]. apply H2. lia.
Qed.

Lemma count_extents_spec index :
  let n := lolelffs_count_extents index in
  (n <= NEXT)%nat /\
  (forall j, (j < n)%nat -> ee_start (ext index j) <> 0) /\
  ((n < NEXT)%nat -> ee_start (ext index n) = 0).
Proof.
  unfold lolelffs_count_extents. destruct (count_from_spec NEXT index 0) as (H1 & H2 & H3).
  split; [lia|]. split; [intros; apply H2; lia|]. intros. apply H3. lia.
Qed.

(** Past the 170 slots the model reads the zero extent. *)
Lemma ext_past_end index i : (length (extents index) <= i)%nat -> ext index i = zero_extent.
Proof. intros. unfold ext. by rewrite lookup_ge_None_2. Qed.

(** The sum of the lengths of the first [i] extents. *)
Fixpoint prefix_len (index : lolelffs_file_ei_block) (i : nat) : Z :=
  match i with
  | O => 0
  | S i => prefix_len index i + ee_len (ext index i)
  end.

(** What the validator accepts: the used extents tile the logical blocks from
    0 without gap or overlap, none is empty or longer than its limit. *)
Definition extents_valid (index : lolelffs_file_ei_block) : Prop :=
  forall i, (i < lolelffs_count_extents index)%nat ->
  1 <= ee_len (ext index i) <= extent_max_blocks (ext index i) /\
  ee_block (ext index i) = prefix_len index i.

Lemma extent_max_blocks_le e : extent_max_blocks e <= 524288.
Proof. unfold extent_max_blocks, LOLELFFS_MAX_BLOCKS_PER_EXTENT, LOLELFFS_MAX_BLOCKS_PER_EXTENT_LARGE. cases; lia. Qed.

Lemma prefix_len_bound index i :
  extents_valid index -> (i <= lolelffs_count_extents index)%nat ->
  Z.of_nat i <= prefix_len index i <= 524288 * Z.of_nat i.
Proof.
  intros Hv. induction i as [|i IH]; intros Hi; cbn [prefix_len]; [lia|].
  destruct (Hv i ltac:(lia)) as [? _]. pose proof (extent_max_blocks_le (ext index i)). lia.
Qed.

Lemma prefix_len_mono index i j :
  extents_valid index -> (i < j <= lolelffs_count_extents index)%nat ->
  prefix_len index i + ee_len (ext index i) <= prefix_len index j.
Proof.
  intros Hv Hij. destruct Hij as [Hlt Hle]. induction j as [|j IH]; [lia|]. cbn [prefix_len].
  destruct (Hv j ltac:(lia)) as [? _].
  destruct (decide (i = j)) as [->|]; [lia|]. lia.
Qed.

Lemma valid_no_overflow index i :
  extents_valid index -> (i <= lolelffs_count_extents index)%nat -> is_u32 (prefix_len index i).
Proof.
  intros Hv Hi. pose proof (prefix_len_bound index i Hv Hi).
  destruct (count_extents_spec index) as [Hn _]. blia.
Qed.

Lemma validate_from_spec n : forall index i,
  (i + n = lolelffs_count_extents index)%nat ->
  (forall j, (j < i)%nat -> 1 <= ee_len (ext index j) <= extent_max_blocks (ext index j) /\
     ee_block (ext index j) = prefix_len index j) ->
  (forall j, 0 <= ee_len (ext index j)) ->
  validate_from n index i (u32 (prefix_len index i)) = Ok tt <-> extents_valid index.
Proof.
  induction n as [|n IH]; intros index i Hn Hpre Hnn; cbn [validate_from].
  { split; [|done]. intros _ j Hj. apply Hpre. lia. }
  destruct (count_extents_spec index) as (HN & Hst & _).
  assert (is_u32 (prefix_len index i)) as Hp.
  { assert (forall k, (k <= i)%nat -> 0 <= prefix_len index k <= 524288 * Z.of_nat k) as Hb.
    { induction k as [|k IHk]; intros Hk; cbn [prefix_len]; [lia|].
      destruct (Hpre k ltac:(lia)) as [? _]. pose proof (extent_max_blocks_le (ext index k)). lia. }
    specialize (Hb i ltac:(lia)). blia. }
  rewrite (u32_small (prefix_len index i)) by done.
  specialize (Hst i ltac:(lia)).
  destruct (Z.eqb_spec (ee_len (ext index i)) 0) as [E1|E1]; cbn [orb].
  { split; [done|]. intros Hv. destruct (Hv i ltac:(lia)). lia. }
  destruct (Z.ltb_spec (extent_max_blocks (ext index i)) (ee_len (ext index i))) as [E2|E2]; cbn [orb].
  { split; [done|]. intros Hv. destruct (Hv i ltac:(lia)). lia. }
  destruct (Z.eqb_spec (ee_block (ext index i)) (prefix_len index i)) as [E3|E3]; cbn [negb].
  2: { split; [done|]. intros Hv. destruct (Hv i ltac:(lia)). lia. }
  rewrite (proj2 (Z.eqb_neq _ _) Hst).
  change (prefix_len index i + ee_len (ext index i)) with (prefix_len index (S i)).
  apply IH; [lia| |done]. intros j Hj. destruct (decide (j = i)) as [->|]; [|apply Hpre; lia].
  specialize (Hnn i). split; [lia|done].
Qed.

Lemma validate_extents_valid index :
  (forall j, 0 <= ee_len (ext index j)) ->
  lolelffs_validate_extents index = Ok tt <-> extents_valid index.
Proof.
  intros Hnn. unfold lolelffs_validate_extents.
  change 0 with (u32 (prefix_len index 0)) at 1.
  apply validate_from_spec; [lia|intros; lia|done].
Qed.

(** ** The search *)

(** The extent [i] is in use and holds logical block [iblock]. *)
Definition holds (index : lolelffs_file_ei_block) (iblock : Z) (i : nat) : Prop :=
  (i < lolelffs_count_extents index)%nat /\
  ee_block (ext index i) <= iblock < ee_block (ext index i) + ee_len (ext index i).

Lemma holds_unique index iblock i j :
  extents_valid index -> holds index iblock i -> holds index iblock j -> i = j.
Proof.
  intros Hv [Hi Hbi] [Hj Hbj]. destruct (Hv i Hi) as [_ Ei], (Hv j Hj) as [_ Ej].
  destruct (Nat.lt_trichotomy i j) as [Hlt|[->|Hlt]]; [|done|].
  - pose proof (prefix_len_mono index i j Hv ltac:(lia)). lia.
  - pose proof (prefix_len_mono index j i Hv ltac:(lia)). lia.
Qed.

(** Every block below the total is held by some extent. *)
Lemma holds_exists index iblock :
  extents_valid index -> 0 <= iblock < prefix_len index (lolelffs_count_extents index) ->
  exists i, holds index iblock i.
Proof.
  intros Hv. unfold holds.
  assert (forall n, (n <= lolelffs_count_extents index)%nat -> 0 <= iblock < prefix_len index n ->
    exists i, (i < n)%nat /\ prefix_len index i <= iblock < prefix_len index i + ee_len (ext index i)) as H.
  { induction n as [|n IH]; intros Hn Hb; cbn [prefix_len] in Hb; [lia|].
    destruct (decide (iblock < prefix_len index n)).
    - destruct (IH ltac:(lia) ltac:(lia)) as (i & ? & ?). exists i. split; [lia|done].
    - exists n. split; [lia|]. lia. }
  intros Hb. destruct (H _ ltac:(reflexivity) Hb) as (i & Hi & ?). exists i. split; [done|].
  destruct (Hv i Hi) as [_ ->]. done.
Qed.

(** Whatever the list, an index the loop returns is in use and holds the block. *)
Lemma ext_bsearch_sound fuel : forall index iblock left right mid,
  ext_bsearch fuel index iblock left right = Some mid ->
  (left <= mid < right)%nat /\ in_extent (ext index mid) iblock = true.
Proof.
  induction fuel as [|fuel IH]; intros index iblock left right mid; cbn [ext_bsearch]; [done|].
  destruct (Nat.ltb_spec left right) as [Hlt|]; [|done].
  pose proof (Nat.div_lt (right - left) 2 ltac:(lia) ltac:(lia)) as Hd.
  set (m := (left + (right - left) / 2)%nat) in *.
  assert (left <= m < right)%nat by lia.
  unfold in_extent. destruct (Z.ltb_spec iblock (ee_block (ext index m))) as [E|E].
  - intros H'. apply IH in H' as [? ?]. split; [lia|done].
  - destruct (Z.leb_spec (ee_block (ext index m) +₃₂ ee_len (ext index m)) iblock) as [E'|E'].
    + intros H'. apply IH in H' as [? ?]. split; [lia|done].
    + intros [= <-]. split; [lia|].
      apply andb_true_intro. split; [apply Z.leb_le|apply Z.ltb_lt]; lia.
Qed.

(** On a valid list the loop does not miss. *)
Lemma ext_bsearch_complete fuel : forall index iblock left right i,
  extents_valid index -> (right <= lolelffs_count_extents index)%nat ->
  (right - left <= fuel)%nat -> (left <= i < right)%nat -> holds index iblock i ->
  ext_bsearch fuel index iblock left right = Some i.
Proof.
  induction fuel as [|fuel IH]; intros index iblock left right i Hv Hr Hf Hi Hh; [lia|].
  cbn [ext_bsearch]. rewrite (proj2 (Nat.ltb_lt left right)) by lia.
  pose proof (Nat.div_lt (right - left) 2 ltac:(lia) ltac:(lia)) as Hd.
  set (m := (left + (right - left) / 2)%nat) in *.
  assert (left <= m < right)%nat as Hm by lia. destruct (Hh) as [Hi' Hb].
  destruct (Hv i Hi') as [Hli Ei]. destruct (Hv m ltac:(lia)) as [Hlm Em].
  assert (is_u32 (ee_block (ext index m) + ee_len (ext index m))) as Hu.
  { rewrite Em. apply (valid_no_overflow index (S m) Hv). lia. }
  rewrite (u32_small _ Hu).
  destruct (Nat.lt_trichotomy i m) as [Hlt|[->|Hlt]].
  - pose proof (prefix_len_mono index i m Hv ltac:(lia)).
    rewrite (proj2 (Z.ltb_lt _ _)) by lia. apply IH; lia || done.
  - rewrite (proj2 (Z.ltb_ge _ _)), (proj2 (Z.leb_gt _ _)) by lia. done.
  - pose proof (prefix_len_mono index m i Hv ltac:(lia)).
    rewrite (proj2 (Z.ltb_ge _ _)), (proj2 (Z.leb_le _ _)) by lia. apply IH; lia || done.
Qed.

Lemma in_extent_holds index iblock i :
  extents_valid index -> (i < lolelffs_count_extents index)%nat ->
  in_extent (ext index i) iblock = true <-> holds index iblock i.
Proof.
  intros Hv Hi. destruct (Hv i Hi) as [_ E].
  pose proof (valid_no_overflow index (S i) Hv ltac:(lia)) as Hu. cbn [prefix_len] in Hu.
  unfold in_extent, holds. rewrite E, (u32_small _ Hu). rewrite andb_true_iff, Z.leb_le, Z.ltb_lt. tauto.
Qed.

(** The result of the search on a valid list. *)
Lemma ext_search_valid index iblock :
  extents_valid index -> 0 <= iblock ->
  let n := lolelffs_count_extents index in
  (iblock < prefix_len index n ->
     exists i, holds index iblock i /\ lolelffs_ext_search index iblock = Z.of_nat i) /\
  (prefix_len index n <= iblock ->
     lolelffs_ext_search index iblock =
       if Z.of_nat n <? LOLELFFS_MAX_EXTENTS then Z.of_nat n else EXT_NONE).
Proof.
  intros Hv Hb n. unfold lolelffs_ext_search. fold n.
  destruct (count_extents_spec index) as [Hn _]. fold n in Hn. split.
  - intros Hlt. destruct (holds_exists index iblock Hv ltac:(fold n; lia)) as (i & Hh).
    pose proof Hh as [Hi _]. fold n in Hi. exists i. split; [done|].
    destruct (Nat.eqb_spec n 0); [lia|].
    rewrite (ext_bsearch_complete (S NEXT) index iblock 0 n i) by (done || lia). reflexivity.
  - intros Hge. destruct (Nat.eqb_spec n 0) as [E0|Hn0]; [rewrite E0; reflexivity|].
    destruct (ext_bsearch _ index iblock 0 n) as [mid|] eqn:E; [|done].
    apply ext_bsearch_sound in E as [Hm Hin].
    apply (in_extent_holds index iblock mid Hv) in Hin as [Hi Hm']; [|fold n; lia].
    destruct (Hv mid Hi) as [_ Em]. pose proof (prefix_len_mono index mid n Hv).
    fold n in Hi. lia.
Qed.

Lemma total_from_spec fuel : forall index i total,
  let n := count_from fuel index i in
  total_from fuel index i total =
    fold_left (fun t j => t +₃₂ ee_len (ext index j)) (seq i (n - i)) total.
Proof.
  induction fuel as [|fuel IH]; intros index i total; cbn [total_from count_from].
  - by rewrite Nat.sub_diag.
  - destruct (Z.eqb_spec (ee_start (ext index i)) 0); [by rewrite Nat.sub_diag|].
    rewrite IH. destruct (count_from_spec fuel index (S i)) as [Hn _].
    replace (count_from fuel index (S i) - i)%nat
      with (S (count_from fuel index (S i) - S i)) by lia. done.
Qed.

Lemma total_blocks_valid index :
  extents_valid index ->
  lolelffs_extents_total_blocks index = prefix_len index (lolelffs_count_extents index).
Proof.
  intros Hv. unfold lolelffs_extents_total_blocks. rewrite total_from_spec, Nat.sub_0_r.
  fold (lolelffs_count_extents index).
  assert (forall n, (n <= lolelffs_count_extents index)%nat ->
    fold_left (fun t j => t +₃₂ ee_len (ext index j)) (seq 0 n) 0 = prefix_len index n) as H.
  { induction n as [|n IH]; intros Hn; [done|]. rewrite seq_S, fold_left_app. cbn [fold_left].
    rewrite IH by lia. cbn [prefix_len]. rewrite Nat.add_0_l. apply u32_small.
    apply (valid_no_overflow index (S n) Hv Hn). }
  by apply H.
Qed.

(** An index with two extents: blocks 0-1 at 20 and blocks 2-5 at 40. *)
Definition ex_index : lolelffs_file_ei_block :=
  FileEi 0 ([Extent 0 2 20 0 0 0 0 0 0; Extent 2 4 40 0 0 0 0 0 0] ++ replicate 168 zero_extent).

Lemma ex_index_len j : 0 <= ee_len (ext ex_index j).
Proof.
  unfold ext, ex_index. cbn [extents]. destruct (_ !! j) as [e|] eqn:E; cbn; [|lia].
  apply lookup_app_Some in E as [E|[_ [-> _]%lookup_replicate]]; [|cbn; lia].
  destruct j as [|[|j]]; cbn in E; [injection E as <-; cbn; lia..|done].
Qed.

Lemma ex_index_valid : extents_valid ex_index.
Proof. apply (validate_extents_valid _ ex_index_len). vm_compute. reflexivity. Qed.

(** ** Properties *)

(** C11 The binary search is correct on every index the validator accepts: a
    logical block below the total is found in the one extent that holds it, a
    block at or past the total gives the first unused slot, or -1 when all 170
    slots are used. *)
Theorem ext_search_correct index iblock :
  (forall j, 0 <= ee_len (ext index j)) -> lolelffs_validate_extents index = Ok tt -> is_u32 iblock ->
  let n := lolelffs_count_extents index in
  (iblock < lolelffs_extents_total_blocks index ->
     exists i, lolelffs_ext_search index iblock = Z.of_nat i /\ holds index iblock i /\
       forall j, holds index iblock j -> j = i) /\
  (lolelffs_extents_total_blocks index <= iblock ->
     lolelffs_ext_search index iblock =
       if Z.of_nat n <? LOLELFFS_MAX_EXTENTS then Z.of_nat n else EXT_NONE).
Proof.
  intros Hnn Hval Hb n. apply (validate_extents_valid _ Hnn) in Hval as Hv.
  rewrite (total_blocks_valid _ Hv).
  destruct (ext_search_valid index iblock Hv ltac:(lia)) as [H1 H2]. split; [|exact H2].
  intros Hlt. destruct (H1 Hlt) as (i & Hh & E). exists i. split; [done|]. split; [done|].
  intros j Hj. by eapply holds_unique.
Qed.

Lemma ext_search_correct_witness :
  lolelffs_ext_search ex_index 3 = 1 /\ lolelffs_ext_search ex_index 6 = 2.
Proof.
  split.
  - destruct (ext_search_correct ex_index 3) as [H _]; [apply ex_index_len|vm_compute; reflexivity|lia|].
    destruct H as (i & -> & _ & Hu); [vm_compute; reflexivity|].
    rewrite <- (Hu 1%nat); [done|]. split; [vm_compute; lia|]. vm_compute. intuition congruence.
  - destruct (ext_search_correct ex_index 6) as [_ H]; [apply ex_index_len|vm_compute; reflexivity|lia|].
    rewrite H; vm_compute; [reflexivity|congruence].
Defined.

(** C38 The search never leaves the array, whatever bytes the index block
    holds: its result is -1 or below LOLELFFS_MAX_EXTENTS, and an index below
    the number of used extents is one whose range holds the block. *)
Theorem ext_search_in_bounds index iblock :
  let r := lolelffs_ext_search index iblock in
  let n := Z.of_nat (lolelffs_count_extents index) in
  (r = EXT_NONE /\ n = LOLELFFS_MAX_EXTENTS \/ 0 <= r < LOLELFFS_MAX_EXTENTS /\ r <= n) /\
  (r < n -> in_extent (ext index (Z.to_nat r)) iblock = true).
Proof.
  intros r n. subst r n. unfold lolelffs_ext_search.
  destruct (count_extents_spec index) as [Hn _].
  assert (LOLELFFS_MAX_EXTENTS = 170) as -> by reflexivity. unfold NEXT in Hn.
  destruct (Nat.eqb_spec (lolelffs_count_extents index) 0) as [->|Hn0]; [cbn; lia|].
  destruct (ext_bsearch _ _ _ _ _) as [mid|] eqn:E.
  - apply ext_bsearch_sound in E as [? Hin]. rewrite Nat2Z.id. split; [lia|]. by intros.
  - assert (EXT_NONE = 2 ^ 32 - 1) as -> by reflexivity.
    destruct (Z.ltb_spec (Z.of_nat (lolelffs_count_extents index)) 170); lia.
Qed.

(** C29 The hinted search is only an optimisation: on a valid index it returns
    what the binary search returns, for every hint. *)
Theorem ext_search_with_hint_equiv index iblock hint :
  (forall j, 0 <= ee_len (ext index j)) -> lolelffs_validate_extents index = Ok tt ->
  is_u32 iblock -> is_u32 hint ->
  lolelffs_ext_search_with_hint index iblock hint = lolelffs_ext_search index iblock.
Proof.
  intros Hnn Hval Hb Hh. apply (validate_extents_valid _ Hnn) in Hval as Hv.
  assert (forall i, holds index iblock i -> lolelffs_ext_search index iblock = Z.of_nat i) as Hs.
  { intros i Hi. destruct (ext_search_valid index iblock Hv ltac:(lia)) as [H1 _].
    pose proof Hi as [Hin ?]. destruct (Hv i Hin) as [_ Ei].
    pose proof (prefix_len_mono index i _ Hv (conj Hin (le_n _))).
    destruct (H1 ltac:(lia)) as (j & Hj & ->). by rewrite (holds_unique index iblock i j). }
  destruct (count_extents_spec index) as [Hn _].
  unfold lolelffs_ext_search_with_hint.
  destruct (Nat.eqb_spec (lolelffs_count_extents index) 0) as [E0|Hn0].
  { unfold lolelffs_ext_search. by rewrite E0. }
  destruct (Z.ltb_spec hint (Z.of_nat (lolelffs_count_extents index))); [|done].
  destruct (in_extent (ext index (Z.to_nat hint)) iblock) eqn:E1.
  { apply in_extent_holds in E1; [|done|lia]. rewrite (Hs _ E1). lia. }
  unfold NEXT in Hn. nowrap.
  destruct (Z.ltb_spec (hint + 1) (Z.of_nat (lolelffs_count_extents index))); cbn [andb]; [|done].
  destruct (in_extent (ext index (Z.to_nat (hint + 1))) iblock) eqn:E2; [|done].
  apply in_extent_holds in E2; [|done|lia]. rewrite (Hs _ E2). lia.
Qed.

Lemma ext_search_with_hint_equiv_witness :
  lolelffs_ext_search_with_hint ex_index 3 0 = lolelffs_ext_search ex_index 3.
Proof.
  apply ext_search_with_hint_equiv; [apply ex_index_len|vm_compute; reflexivity|lia|lia].
Defined.

(** C30 What the validator accepts, exactly: the used extents tile the logical
    blocks from 0 without gap or overlap and respect their length limits; the
    32-bit sums it and [lolelffs_extents_total_blocks] compute cannot wrap on
    such a list. *)
Theorem validate_extents_exact index :
  (forall j, 0 <= ee_len (ext index j)) ->
  (lolelffs_validate_extents index = Ok tt <-> extents_valid index) /\
  (lolelffs_validate_extents index = Ok tt ->
   lolelffs_extents_total_blocks index = prefix_len index (lolelffs_count_extents index) /\
   lolelffs_extents_total_blocks index <= 170 * 524288).
Proof.
  intros Hnn. split; [by apply validate_extents_valid|]. intros Hval.
  apply (validate_extents_valid _ Hnn) in Hval as Hv. rewrite (total_blocks_valid _ Hv).
  split; [done|]. pose proof (prefix_len_bound index _ Hv (le_n _)).
  destruct (count_extents_spec index) as [Hn _]. unfold NEXT in Hn. lia.
Qed.

Lemma validate_extents_exact_witness : lolelffs_extents_total_blocks ex_index = 6.
Proof.
  destruct (validate_extents_exact ex_index ex_index_len) as [_ H].
  destruct (H ltac:(vm_compute; reflexivity)) as [-> _]. vm_compute. reflexivity.
Defined.
