(* ===== verification/State.v ===== *)
(** * The state of a mounted file system

    What the handlers of the module share: the superblock information, the
    blocks of the device as the buffer cache shows them, and the VFS inodes in
    memory.  The buffer cache is coherent: [LOLELFFS_SB_BREAD] of a block gives
    the one buffer of that block, so a write through one [buffer_head] is seen
    by every later read.  A block the device cannot deliver is absent from the
    map and reading it is the [NULL] of sb_bread. *)
From S2P Require Import Prelude Layout Bitmap.

(** File types of a mode. *)
Definition S_IFMT : Z := 0xF000.
Definition S_IFDIR : Z := 0x4000.
Definition S_IFREG : Z := 0x8000.
Definition S_IFLNK : Z := 0xA000.
Definition S_IRWXUGO : Z := 0x1FF.
Definition S_ISDIR (m : Z) : bool := Z.land m S_IFMT =? S_IFDIR.
Definition S_ISREG (m : Z) : bool := Z.land m S_IFMT =? S_IFREG.
Definition S_ISLNK (m : Z) : bool := Z.land m S_IFMT =? S_IFLNK.

(** struct lolelffs_inode_info with the members of its struct inode the module
    uses; times are in seconds. *)
Record vinode := VInode {
  i_ino : Z;
  i_mode : Z;            (* umode_t, 16 bits *)
  i_uid : Z; i_gid : Z;
  i_size : Z;            (* loff_t *)
  i_ctime : Z; i_atime : Z; i_mtime : Z;
  i_blocks : Z;          (* blkcnt_t *)
  i_nlink : Z;           (* unsigned int *)
  i_link : bool;         (* inode->i_link points to ci->i_data (else NULL) *)
  ei_block : Z;
  xattr_block : Z;
  i_data : list Z        (* char i_data[28] *)
}.

(** The places where the module allocates memory. *)
Inductive alloc :=
  | A_sb_info | A_ifree_bitmap | A_bfree_bitmap | A_root_dentry | A_inode
  | A_xattr_data | A_xattr_new_data | A_kmap | A_work_buf | A_comp_buf | A_enc_buf | A_decrypt_buf.

(** What the module gets from the kernel and cannot see into: the clock,
    which memory allocations fail, the bytes a fresh slab object holds,
    and inode_init_owner, which gives the owner and the mode of a new inode
    from its parent and the requested mode. *)
Record kernel := Kernel {
  current_time : Z;
  oom : alloc -> bool;
  slab_ei_block : Z;
  slab_xattr_block : Z;
  slab_i_data : list Z;
  inode_init_owner : option vinode -> Z -> Z * Z * Z   (* uid, gid, mode *)
}.

Record fs := Fs {
  fs_sbi : lolelffs_sb_info;
  fs_disk : gmap Z block;
  fs_icache : gmap Z vinode;
  fs_k : kernel
}.

Definition set_sbi (x : lolelffs_sb_info) (s : fs) : fs := Fs x (fs_disk s) (fs_icache s) (fs_k s).
Definition set_disk (x : gmap Z block) (s : fs) : fs := Fs (fs_sbi s) x (fs_icache s) (fs_k s).
Definition set_icache (x : gmap Z vinode) (s : fs) : fs := Fs (fs_sbi s) (fs_disk s) x (fs_k s).

(** ** Primitive effects *)

(** LOLELFFS_SB_BREAD(sb, block): the macro adds the ELF offset. *)
Definition LOLELFFS_SB_BREAD (blk : Z) : M fs block := fun s =>
  match fs_disk s !! (blk + fs_offset (fs_sbi s)) with
  | Some b => (Ok b, s)
  | None => (Err EIO, s)
  end.

(** A write to bh->b_data of that block (then mark_buffer_dirty). *)
Definition bwrite (blk : Z) (b : block) : M fs unit :=
  modify (fun s => set_disk (<[blk + fs_offset (fs_sbi s) := b]> (fs_disk s)) s).

Definition bupdate (blk : Z) (f : block -> block) : M fs unit :=
  b ← LOLELFFS_SB_BREAD blk; bwrite blk (f b).

(** A [struct inode *] is the number of an inode in the cache. *)
Definition no_inode : vinode := VInode 0 0 0 0 0 0 0 0 0 0 false 0 0 [].
Definition inode_at (ino : Z) : M fs vinode :=
  gets (fun s => default no_inode (fs_icache s !! ino)).
Definition inode_put (ino : Z) (v : vinode) : M fs unit :=
  modify (fun s => set_icache (<[ino := v]> (fs_icache s)) s).
Definition inode_upd (ino : Z) (f : vinode -> vinode) : M fs unit :=
  v ← inode_at ino; inode_put ino (f v).

(** Lift an operation of the allocators. *)
Definition with_sbi {A} (f : lolelffs_sb_info -> A * lolelffs_sb_info) : M fs A := fun s =>
  let '(a, sbi') := f (fs_sbi s) in (Ok a, set_sbi sbi' s).
Definition upd_sbi (f : lolelffs_sb_info -> lolelffs_sb_info) : M fs unit :=
  modify (fun s => set_sbi (f (fs_sbi s)) s).

(** ** Setters of struct inode *)

Definition set_times (c a m : Z) (v : vinode) : vinode :=
  VInode (i_ino v) (i_mode v) (i_uid v) (i_gid v) (i_size v) c a m (i_blocks v) (i_nlink v)
    (i_link v) (ei_block v) (xattr_block v) (i_data v).
Definition set_owner (o : Z * Z * Z) (v : vinode) : vinode :=
  VInode (i_ino v) (snd o) (fst (fst o)) (snd (fst o)) (i_size v) (i_ctime v) (i_atime v) (i_mtime v)
    (i_blocks v) (i_nlink v) (i_link v) (ei_block v) (xattr_block v) (i_data v).
Definition set_size (n : Z) (v : vinode) : vinode :=
  VInode (i_ino v) (i_mode v) (i_uid v) (i_gid v) n (i_ctime v) (i_atime v) (i_mtime v)
    (i_blocks v) (i_nlink v) (i_link v) (ei_block v) (xattr_block v) (i_data v).
Definition set_i_blocks (n : Z) (v : vinode) : vinode :=
  VInode (i_ino v) (i_mode v) (i_uid v) (i_gid v) (i_size v) (i_ctime v) (i_atime v) (i_mtime v)
    n (i_nlink v) (i_link v) (ei_block v) (xattr_block v) (i_data v).
Definition set_nlink (n : Z) (v : vinode) : vinode :=
  VInode (i_ino v) (i_mode v) (i_uid v) (i_gid v) (i_size v) (i_ctime v) (i_atime v) (i_mtime v)
    (i_blocks v) n (i_link v) (ei_block v) (xattr_block v) (i_data v).
Definition set_ei_block (n : Z) (v : vinode) : vinode :=
  VInode (i_ino v) (i_mode v) (i_uid v) (i_gid v) (i_size v) (i_ctime v) (i_atime v) (i_mtime v)
    (i_blocks v) (i_nlink v) (i_link v) n (xattr_block v) (i_data v).
Definition set_xattr_block (n : Z) (v : vinode) : vinode :=
  VInode (i_ino v) (i_mode v) (i_uid v) (i_gid v) (i_size v) (i_ctime v) (i_atime v) (i_mtime v)
    (i_blocks v) (i_nlink v) (i_link v) (ei_block v) n (i_data v).
Definition set_link (d : list Z) (v : vinode) : vinode :=
  VInode (i_ino v) (i_mode v) (i_uid v) (i_gid v) (i_size v) (i_ctime v) (i_atime v) (i_mtime v)
    (i_blocks v) (i_nlink v) true (ei_block v) (xattr_block v) d.

(** inc_nlink and drop_nlink on an unsigned int. *)
Definition inc_nlink (v : vinode) : vinode := set_nlink (i_nlink v +₃₂ 1) v.
Definition drop_nlink (v : vinode) : vinode := set_nlink (i_nlink v -₃₂ 1) v.

(** ** Reading back what was written *)

Lemma bread_run s blk b :
  fs_disk s !! (blk + fs_offset (fs_sbi s)) = Some b -> LOLELFFS_SB_BREAD blk s = (Ok b, s).
Proof. unfold LOLELFFS_SB_BREAD. by intros ->. Qed.

Lemma bread_err s blk :
  fs_disk s !! (blk + fs_offset (fs_sbi s)) = None -> LOLELFFS_SB_BREAD blk s = (Err EIO, s).
Proof. unfold LOLELFFS_SB_BREAD. by intros ->. Qed.

Lemma bread_inv s blk b s' :
  LOLELFFS_SB_BREAD blk s = (Ok b, s') ->
  s' = s /\ fs_disk s !! (blk + fs_offset (fs_sbi s)) = Some b.
Proof. unfold LOLELFFS_SB_BREAD. destruct (_ !! _) eqn:E; intros [= <- <-]. done. Qed.

(** The device blocks a file-system block number denotes. *)
Definition blk_at (s : fs) (blk : Z) : option block := fs_disk s !! (blk + fs_offset (fs_sbi s)).

Lemma blk_at_bwrite s blk b blk' :
  blk_at (snd (bwrite blk b s)) blk' = if decide (blk = blk') then Some b else blk_at s blk'.
Proof.
  unfold blk_at, bwrite, modify. cbn. destruct (decide (blk = blk')) as [->|Hne].
  - by rewrite lookup_insert_eq.
  - rewrite lookup_insert_ne by lia. done.
Qed.
