(* ===== verification/Elf.v ===== *)
(** * Finding the file system inside an ELF binary (src/src/elf.h)

    The section header walk over the backing file of a loop device, and the
    same walk over 512-byte sectors of a block device. *)
From S2P Require Import Prelude Layout.

(** Elf64_Ehdr and Elf64_Shdr: 64 bytes each. *)
Record Elf64_Ehdr := Ehdr {
  e_ident : list Z; e_shoff : Z; e_shnum : Z; e_shstrndx : Z
}.
Record Elf64_Shdr := Shdr { sh_name : Z; sh_offset : Z; sh_size : Z }.

Definition rd64 (b : list Z) (off : nat) : Z := le_dec (slice off 8 b).
Definition ehdr_of_bytes (b : list Z) : Elf64_Ehdr :=
  Ehdr (slice 0 16 b) (rd64 b 40) (rd16 b 60) (rd16 b 62).
Definition shdr_of_bytes (b : list Z) : Elf64_Shdr := Shdr (rd32 b 0) (rd64 b 24) (rd64 b 32).

Definition ELFMAG : list Z := [0x7f; 69; 76; 70].
Definition ELFCLASS64 : Z := 2.
Definition SHN_UNDEF : Z := 0.
Definition sizeof_Shdr : Z := 64.

(** The bytes of ".lolfs.super". *)
Definition LOLELFFS_SECTION : list Z := [46; 108; 111; 108; 102; 115; 46; 115; 117; 112; 101; 114].

(** A 64-bit value read as a signed loff_t. *)
Definition loff_t (x : Z) : Z := if x <? 2 ^ 63 then x else x - 2 ^ 64.

(** ** kernel_read on the backing file *)

(** The bytes kernel_read delivers: fewer than asked for at the end of the
    file, none for a negative offset (its -EINVAL). *)
Definition kernel_read (file : list Z) (off n : Z) : list Z :=
  if off <? 0 then [] else slice (Z.to_nat off) (Z.to_nat n) file.

Section Find.
(** kmalloc(n) succeeds; and the bytes that happen to follow the string
    table in memory, which strcmp reads when the table is not terminated. *)
Context (kmalloc : Z -> bool) (after : list Z).

(** strcmp(shstrtab + sh_name, LOLELFFS_SECTION) == 0 *)
Definition section_name_matches (shstrtab : list Z) (name : Z) : bool :=
  bool_decide (cstr (drop (Z.to_nat name) shstrtab ++ after) = LOLELFFS_SECTION).

(** The loop over the section headers; [read] reads one header, [None] when
    the read is short (the [continue] of the source). *)
Fixpoint find_section_loop (read : Z -> option (list Z)) (e_shoff shstrtab_size : Z)
    (shstrtab : list Z) (n : nat) (i : Z) : Z :=
  match n with
  | O => 0
  | S n =>
      match read (u64 (e_shoff + i * sizeof_Shdr)) with
      | None => find_section_loop read e_shoff shstrtab_size shstrtab n (i + 1)
      | Some b =>
          let shdr := shdr_of_bytes b in
          if (sh_name shdr <? shstrtab_size) && section_name_matches shstrtab (sh_name shdr)
          then loff_t (sh_offset shdr)
          else find_section_loop read e_shoff shstrtab_size shstrtab n (i + 1)
      end
  end.

Definition read_full (file : list Z) (n : Z) (off : Z) : option (list Z) :=
  let b := kernel_read file (loff_t off) n in
  if Z.of_nat (length b) =? n then Some b else None.

Definition find_lolelffs_section (file : list Z) : Z :=
  match read_full file 64 0 with
  | None => 0
  | Some eb =>
      let ehdr := ehdr_of_bytes eb in
      if negb (bool_decide (take 4 (e_ident ehdr) = ELFMAG)) then 0
      else if negb (default 0 (e_ident ehdr !! 4%nat) =? ELFCLASS64) then 0
      else if (e_shstrndx ehdr =? SHN_UNDEF) || (e_shnum ehdr <=? e_shstrndx ehdr) then 0
      else
        match read_full file 64 (u64 (e_shoff ehdr + e_shstrndx ehdr * sizeof_Shdr)) with
        | None => 0
        | Some sb =>
            let shstrtab_shdr := shdr_of_bytes sb in
            if negb (kmalloc (sh_size shstrtab_shdr)) then 0
            else
              match read_full file (sh_size shstrtab_shdr) (sh_offset shstrtab_shdr) with
              | None => 0
              | Some shstrtab =>
                  find_section_loop (read_full file 64) (e_shoff ehdr) (sh_size shstrtab_shdr)
                    shstrtab (Z.to_nat (e_shnum ehdr)) 0
              end
        end
  end.
End Find.

(** ** The same walk on a block device *)

Section Bdev.
(** __bread_gfp of a 512-byte sector. *)
Context (bread_sector : Z -> option (list Z)).

(** The loop of read_from_bdev: [n] iterations are left of the 10000 it allows. *)
Fixpoint read_sectors (n : nat) (offset left : Z) : option (list Z) :=
  if left <=? 0 then Some []
  else
    match n with
    | O => None
    | S n =>
        let sector_offset := offset mod 512 in
        let to_read := Z.min left (512 - sector_offset) in
        match bread_sector (offset / 512) with
        | None => None
        | Some b =>
            match read_sectors n (u64 (offset + to_read)) (left - to_read) with
            | None => None
            | Some rest => Some (slice (Z.to_nat sector_offset) (Z.to_nat to_read) b ++ rest)
            end
        end
    end.

Definition read_from_bdev (offset size : Z) : option (list Z) := read_sectors (Z.to_nat 10000) offset size.

Definition find_lolelffs_section_from_bdev (kmalloc : Z -> bool) (after : list Z) : Z :=
  match read_from_bdev 0 64 with
  | None => 0
  | Some eb =>
      let ehdr := ehdr_of_bytes eb in
      if negb (bool_decide (take 4 (e_ident ehdr) = ELFMAG)) then 0
      else if negb (default 0 (e_ident ehdr !! 4%nat) =? ELFCLASS64) then 0
      else if (e_shstrndx ehdr =? SHN_UNDEF) || (e_shnum ehdr <=? e_shstrndx ehdr) then 0
      else
        match read_from_bdev (u64 (e_shoff ehdr + e_shstrndx ehdr * sizeof_Shdr)) 64 with
        | None => 0
        | Some sb =>
            let shstrtab_shdr := shdr_of_bytes sb in
            if 1024 * 1024 <? sh_size shstrtab_shdr then 0
            else if negb (kmalloc (sh_size shstrtab_shdr)) then 0
            else
              match read_from_bdev (sh_offset shstrtab_shdr) (sh_size shstrtab_shdr) with
              | None => 0
              | Some shstrtab =>
                  find_section_loop after (fun off => read_from_bdev off 64) (e_shoff ehdr) (sh_size shstrtab_shdr)
                    shstrtab (Z.to_nat (e_shnum ehdr)) 0
              end
        end
  end.
End Bdev.

(** The sectors of a device that holds [dev]. *)
Definition sector_of (dev : list Z) (k : Z) : option (list Z) :=
  if (0 <=? k) && (512 * (k + 1) <=? Z.of_nat (length dev)) then Some (slice (Z.to_nat (512 * k)) 512 dev) else None.

Lemma slice_split o n m (b : list Z) : slice o n b ++ slice (o + n) m b = slice o (n + m) b.
Proof. unfold slice. by rewrite <- drop_drop, take_take_drop. Qed.

Section Device.
Context (dev : list Z) (Hlen : Z.of_nat (length dev) < 2 ^ 63) (Hsec : (Z.of_nat (length dev)) mod 512 = 0).

(** Reading sector by sector gives the bytes of the range, if they are there. *)
Lemma read_sectors_spec n : forall offset left,
  0 <= offset < 2 ^ 64 -> 0 < left -> left <= 512 * Z.of_nat n - offset mod 512 ->
  read_sectors (sector_of dev) n offset left =
    if offset + left <=? Z.of_nat (length dev) then Some (slice (Z.to_nat offset) (Z.to_nat left) dev) else None.
Proof using Hlen Hsec.
  induction n as [|n IH]; intros offset left Ho Hl Hn; cbn [read_sectors];
    pose proof (Z.mod_pos_bound offset 512); pose proof (Z.div_mod offset 512); [lia|].
  destruct (Z.leb_spec left 0); [lia|]. unfold sector_of at 1. set (q := offset / 512) in *. set (r := offset mod 512) in *.
  pose proof (Z.div_mod (Z.of_nat (length dev)) 512 ltac:(lia)) as Hd. rewrite Hsec in Hd.
  rewrite (proj2 (Z.leb_le 0 q)) by lia. cbn [andb].
  destruct (Z.leb_spec (512 * (q + 1)) (Z.of_nat (length dev))) as [Hin|Hout].
  2:{ destruct (Z.leb_spec (offset + left) (Z.of_nat (length dev))); [lia|done]. }
  set (t := Z.min left (512 - r)). assert (slice (Z.to_nat r) (Z.to_nat t) (slice (Z.to_nat (512 * q)) 512 dev) =
    slice (Z.to_nat offset) (Z.to_nat t) dev) as Hs.
  { rewrite slice_slice by lia. f_equal. lia. }
  destruct (Z.leb_spec left (512 - r)) as [Hle|Hgt].
  - replace (left - t) with 0 by lia. assert (read_sectors (sector_of dev) n (u64 (offset + t)) 0 = Some []) as ->
      by (by destruct n). rewrite app_nil_r, Hs. replace t with left by lia.
    destruct (Z.leb_spec (offset + left) (Z.of_nat (length dev))); [done|lia].
  - assert (offset + t = 512 * (q + 1)) as Et by lia. unfold u64. rewrite Et, Z.mod_small by lia.
    rewrite IH; [|lia..|]. 2:{ rewrite (Z.mul_comm 512 (q + 1)), Z.mod_mul by lia. lia. }
    replace (512 * (q + 1) + (left - t)) with (offset + left) by lia.
    destruct (offset + left <=? Z.of_nat (length dev)); [|done]. rewrite Hs.
    replace (Z.to_nat (512 * (q + 1))) with (Z.to_nat offset + Z.to_nat t)%nat by lia.
    rewrite slice_split. do 2 f_equal. lia.
Qed.

(** Up to the limit of the string table, read_from_bdev reads what kernel_read
    of the backing file reads. *)
Lemma read_from_bdev_file offset size :
  0 <= offset < 2 ^ 64 -> 0 <= size <= 1024 * 1024 ->
  read_from_bdev (sector_of dev) offset size = read_full dev size offset.
Proof using Hlen Hsec.
  intros Ho Hsz. unfold read_from_bdev, read_full, kernel_read. destruct (Z.eqb_spec size 0) as [->|Hnz].
  { destruct (_ <? 0); [done|]. unfold slice. by rewrite take_0. }
  rewrite read_sectors_spec; [|lia..|pose proof (Z.mod_pos_bound offset 512); lia].
  unfold loff_t. destruct (Z.ltb_spec offset (2 ^ 63)) as [Hs|Hs].
  - rewrite (proj2 (Z.ltb_ge offset 0)) by lia. unfold slice at 2. rewrite length_take, length_drop.
    destruct (Z.leb_spec (offset + size) (Z.of_nat (length dev))) as [Hin|Hout];
      destruct (Z.eqb_spec (Z.of_nat (Nat.min (Z.to_nat size) (length dev - Z.to_nat offset))) size); done || lia.
  - rewrite (proj2 (Z.ltb_lt (offset - 2 ^ 64) 0)) by lia. cbn [length].
    destruct (Z.leb_spec (offset + size) (Z.of_nat (length dev))); [lia|].
    destruct (Z.eqb_spec (Z.of_nat 0) size); [lia|done].
Qed.
End Device.

Lemma find_section_loop_ext after read read' e_shoff size tab n : forall i,
  (forall off, 0 <= off < 2 ^ 64 -> read off = read' off) ->
  find_section_loop after read e_shoff size tab n i = find_section_loop after read' e_shoff size tab n i.
Proof.
  induction n as [|n IH]; intros i H; cbn [find_section_loop]; [done|].
  rewrite H by (apply Z.mod_pos_bound; lia). destruct (read' _); [|by apply IH]. by rewrite IH.
Qed.

Lemma rd64_range b off : bytes_ok b -> 0 <= rd64 b off < 2 ^ 64.
Proof.
  intros Hb. unfold rd64. pose proof (le_dec_range _ (bytes_ok_slice off 8 b Hb)) as H.
  assert (256 ^ Z.of_nat (length (slice off 8 b)) <= 2 ^ 64); [|lia].
  change (2 ^ 64) with (256 ^ Z.of_nat 8). apply Z.pow_le_mono_r; [lia|]. unfold slice. rewrite length_take. lia.
Qed.

Lemma read_full_ok dev n off b : bytes_ok dev -> read_full dev n off = Some b -> bytes_ok b.
Proof.
  intros Hd. unfold read_full, kernel_read. destruct (_ =? n); [|done]. intros [= <-].
  destruct (_ <? 0); [constructor|]. by apply bytes_ok_slice.
Qed.

(** The section header that names the string table, as the walk reads it. *)
Definition strtab_header (dev : list Z) : option Elf64_Shdr :=
  match read_full dev 64 0 with
  | None => None
  | Some eb =>
      let ehdr := ehdr_of_bytes eb in
      shdr_of_bytes <$> read_full dev 64 (u64 (e_shoff ehdr + e_shstrndx ehdr * sizeof_Shdr))
  end.

(** C26 The two ways of finding the file system in an ELF binary agree: on a
    device of whole 512-byte sectors that holds the bytes of the backing file,
    the walk over sectors gives the offset that the walk over the file gives,
    for every content, well-formed or not, unless the string table is larger
    than 1 MiB, where the walk over sectors gives up and returns 0. *)
Theorem bdev_finds_same_section kmalloc after dev :
  bytes_ok dev -> Z.of_nat (length dev) < 2 ^ 63 -> (Z.of_nat (length dev)) mod 512 = 0 ->
  find_lolelffs_section_from_bdev (sector_of dev) kmalloc after = find_lolelffs_section kmalloc after dev \/
  find_lolelffs_section_from_bdev (sector_of dev) kmalloc after = 0 /\
    exists h, strtab_header dev = Some h /\ 1024 * 1024 < sh_size h.
Proof.
  intros Hb Hl Hs. pose proof (read_from_bdev_file dev Hl Hs) as Hrd. assert (forall x, 0 <= u64 x < 2 ^ 64) as Hu
    by (intros; apply Z.mod_pos_bound; lia).
  unfold find_lolelffs_section_from_bdev, find_lolelffs_section, strtab_header. rewrite (Hrd 0 64) by lia.
  destruct (read_full dev 64 0) as [eb|]; [|by left]. cbv zeta. set (ehdr := ehdr_of_bytes eb).
  destruct (negb _); [by left|]. destruct (negb _); [by left|]. destruct (_ || _); [by left|].
  rewrite Hrd by (apply Hu || lia). destruct (read_full dev 64 (u64 _)) as [sb|] eqn:Esb; [|by left].
  apply (read_full_ok _ _ _ _ Hb) in Esb. cbn [fmap option_fmap option_map]. set (h := shdr_of_bytes sb).
  pose proof (rd64_range sb 24 Esb : 0 <= sh_offset h < 2 ^ 64) as Ho. pose proof (rd64_range sb 32 Esb : 0 <= sh_size h < 2 ^ 64) as Hz.
  destruct (Z.ltb_spec (1024 * 1024) (sh_size h)) as [Hbig|Hok]; [right; split; [done|by exists h]|left].
  destruct (negb _); [done|]. rewrite Hrd by lia. destruct (read_full dev (sh_size h) (sh_offset h)); [|done].
  apply find_section_loop_ext. intros off Hoff. by apply Hrd; [|lia].
Qed.

(** A device with a two-section ELF file: the table of names and .lolfs.super
    at offset 4096. *)
Definition ex_strtab : list Z := 0 :: LOLELFFS_SECTION ++ [0].
Definition ex_shdr (name off size : Z) : list Z :=
  le_enc 4 name ++ zeros 20 ++ le_enc 8 off ++ le_enc 8 size ++ zeros 24.
Definition ex_elf : list Z :=
  let ehdr := ELFMAG ++ [2] ++ zeros 35 ++ le_enc 8 64 ++ zeros 12 ++ le_enc 2 2 ++ le_enc 2 0 in
  let ehdr := splice 62 (le_enc 2 1) ehdr in
  let b := ehdr ++ ex_shdr 1 4096 8192 ++ ex_shdr 0 192 14 ++ ex_strtab in
  b ++ zeros (512 - length b).

Lemma bdev_finds_same_section_witness :
  find_lolelffs_section_from_bdev (sector_of ex_elf) (fun _ => true) [] = 4096.
Proof.
  destruct (bdev_finds_same_section (fun _ => true) [] ex_elf) as [E|[_ (h & Hh & Hbig)]].
  - unfold bytes_ok. apply (bool_decide_unpack _). vm_compute. exact I.
  - vm_compute. reflexivity.
  - vm_compute. reflexivity.
  - rewrite E. vm_compute. reflexivity.
  - vm_compute in Hh. injection Hh as <-. vm_compute in Hbig. discriminate Hbig.
Defined.

(** C34 The section the walk returns is the first one with the name: the loop over
    the section headers returns the offset of the first header it can read
    whose name, inside the table of names, is .lolfs.super, and 0 when no
    header qualifies. *)
Theorem find_section_first after read e_shoff size tab n :
  let hit j := exists b, read (u64 (e_shoff + Z.of_nat j * sizeof_Shdr)) = Some b /\
    sh_name (shdr_of_bytes b) < size /\ section_name_matches after tab (sh_name (shdr_of_bytes b)) = true in
  (exists j b, (j < n)%nat /\ hit j /\ (forall i, (i < j)%nat -> ~ hit i) /\
     read (u64 (e_shoff + Z.of_nat j * sizeof_Shdr)) = Some b /\
     find_section_loop after read e_shoff size tab n 0 = loff_t (sh_offset (shdr_of_bytes b))) \/
  ((forall j, (j < n)%nat -> ~ hit j) /\ find_section_loop after read e_shoff size tab n 0 = 0).
Proof.
  intros hit. enough (forall m k, (forall i, (i < k)%nat -> ~ hit i) ->
    (exists j b, (k <= j < k + m)%nat /\ hit j /\ (forall i, (i < j)%nat -> ~ hit i) /\
      read (u64 (e_shoff + Z.of_nat j * sizeof_Shdr)) = Some b /\
      find_section_loop after read e_shoff size tab m (Z.of_nat k) = loff_t (sh_offset (shdr_of_bytes b))) \/
    ((forall j, (j < k + m)%nat -> ~ hit j) /\ find_section_loop after read e_shoff size tab m (Z.of_nat k) = 0)) as Hgen.
  { destruct (Hgen n 0%nat ltac:(lia)) as [(j & b & Hj & H)|H]; [left; exists j, b; split; [lia|exact H]|right; exact H]. }
  induction m as [|m IH]; intros k Hno; cbn [find_section_loop].
  { right. split; [|done]. intros j Hj. apply Hno. lia. }
  destruct (read (u64 (e_shoff + Z.of_nat k * sizeof_Shdr))) as [b|] eqn:Er.
  - destruct ((sh_name (shdr_of_bytes b) <? size) && section_name_matches after tab (sh_name (shdr_of_bytes b))) eqn:Em.
    + apply andb_true_iff in Em as [Hn%Z.ltb_lt Hm]. left. exists k, b. split; [lia|]. split; [by exists b|]. done.
    + assert (~ hit k) as Hk by (intros (b' & Hb' & Hn & Hm); simplify_eq; rewrite Hm, (proj2 (Z.ltb_lt _ _) Hn) in Em; done).
      replace (Z.of_nat k + 1) with (Z.of_nat (S k)) by lia.
      destruct (IH (S k)) as [(j & b' & Hj & H)|[H1 H2]]; [|left; exists j, b'; split; [lia|done]|right; split; [|done]].
      * intros i Hi. destruct (decide (i = k)) as [->|]; [done|apply Hno; lia].
      * intros j Hj. apply H1. lia.
  - assert (~ hit k) as Hk by (intros (b' & Hb' & _); congruence).
    replace (Z.of_nat k + 1) with (Z.of_nat (S k)) by lia.
    destruct (IH (S k)) as [(j & b' & Hj & H)|[H1 H2]]; [|left; exists j, b'; split; [lia|done]|right; split; [|done]].
    + intros i Hi. destruct (decide (i = k)) as [->|]; [done|apply Hno; lia].
    + intros j Hj. apply H1. lia.
Qed.
