(* ===== verification/Super.v ===== *)
(** * Superblock operations (src/src/super.c) and reading inodes
      (lolelffs_iget of src/src/inode.c)

    Writing an inode back, flushing the counters and the free maps, mounting,
    and statfs. *)
From S2P Require Import Prelude Layout Bitmap State Elf.

(** ** lolelffs_write_inode *)

Definition inode_block_of (ino : Z) : Z := ino / LOLELFFS_INODES_PER_BLOCK +₃₂ 1.
Definition inode_shift_of (ino : Z) : nat := Z.to_nat (ino mod LOLELFFS_INODES_PER_BLOCK).

(** The on-disk inode: every member truncated to its 32-bit field. *)
Definition disk_inode_of (v : vinode) : lolelffs_inode :=
  DInode (u32 (i_mode v)) (u32 (i_uid v)) (u32 (i_gid v)) (u32 (i_size v)) (u32 (i_ctime v))
    (u32 (i_atime v)) (u32 (i_mtime v)) (u32 (i_blocks v)) (u32 (i_nlink v)) (u32 (ei_block v))
    (u32 (xattr_block v)) (strncpy (cstr (i_data v)) 28).

Definition lolelffs_write_inode (inode : Z) : M fs unit :=
  v ← inode_at inode;
  s ← gets fs_sbi;
  let ino := u32 (i_ino v) in
  if nr_inodes (sbd s) <=? ino then mret tt
  else bupdate (inode_block_of ino) (put_inode_at (inode_shift_of ino) (disk_inode_of v)).

(** ** lolelffs_iget *)

(** The inode that the fields of the on-disk one initialise in a fresh slab
    object: which of ei_block and i_data is set depends on the file type. *)
Definition vinode_of_disk (k : kernel) (ino : Z) (d : lolelffs_inode) : vinode :=
  let mode := u16 (di_mode d) in
  let reg_or_dir := S_ISDIR mode || S_ISREG mode in
  let lnk := negb reg_or_dir && S_ISLNK mode in
  VInode ino mode (di_uid d) (di_gid d) (di_size d) (di_ctime d) (di_atime d) (di_mtime d)
    (di_blocks d) (di_nlink d) lnk
    (if reg_or_dir then di_ei_block d else slab_ei_block k)
    (di_xattr_block d)
    (if lnk then strncpy (cstr (di_data d)) 28 else slab_i_data k).

Definition disk_inode_at (b : block) (shift : nat) : lolelffs_inode :=
  default (inode_of_bytes (zeros 72)) (inodes_of_block b !! shift).

Definition lolelffs_iget (ino : Z) : M fs Z :=
  s ← gets id;
  if nr_inodes (sbd (fs_sbi s)) <=? ino then fail EINVAL
  else
    match fs_icache s !! ino with
    | Some _ => mret ino
    | None =>
        if oom (fs_k s) A_inode then fail ENOMEM
        else
          b ← LOLELFFS_SB_BREAD (inode_block_of ino);
          inode_put ino (vinode_of_disk (fs_k s) ino (disk_inode_at b (inode_shift_of ino)));;
          mret ino
    end.

(** ** lolelffs_sync_fs *)

(** The superblock fields sync_fs stores, in place. *)
Definition sync_superblock (d : sb_disk) (b : block) : block :=
  wr32 28 (nr_free_blocks d) (wr32 24 (nr_free_inodes d) (wr32 20 (nr_bfree_blocks d)
    (wr32 16 (nr_ifree_blocks d) (wr32 12 (nr_istore_blocks d) (wr32 8 (nr_inodes d)
      (wr32 4 (nr_blocks d) b)))))).

(** The [i]-th block of an in-memory bitmap. *)
Definition bitmap_block (bm : list Z) (i : nat) : block := slice (BLK * i) BLK bm.

(** [i * LOLELFFS_BLOCK_SIZE], an int, addresses a block of a buffer of [size] bytes. *)
Definition bitmap_access_ok (size : Z) (i : nat) : bool :=
  (Z.of_nat i <? 2 ^ 19) && (4096 * (Z.of_nat i + 1) <=? size).

(** for (i = 0; i < n; i++): copy bitmap block i to disk block [first + i]. *)
Fixpoint flush_bitmap (n : nat) (i : nat) (first : Z) (bm : list Z) : M fs unit :=
  match n with
  | O => mret tt
  | S n =>
      LOLELFFS_SB_BREAD (i32 (first + Z.of_nat i));;
      if negb (bitmap_access_ok (Z.of_nat (length bm)) i) then fail MEMFAULT
      else
        bwrite (i32 (first + Z.of_nat i)) (bitmap_block bm i);;
        flush_bitmap n (S i) first bm
  end.

Definition lolelffs_sync_fs : M fs unit :=
  s ← gets fs_sbi;
  let d := sbd s in
  bupdate 0 (sync_superblock d);;
  flush_bitmap (Z.to_nat (nr_ifree_blocks d)) 0 (nr_istore_blocks d + 1) (ifree_bitmap s);;
  flush_bitmap (Z.to_nat (nr_bfree_blocks d)) 0 (nr_istore_blocks d + nr_ifree_blocks d + 1)
    (bfree_bitmap s).

(** ** lolelffs_statfs *)

Record kstatfs := KStatfs {
  f_type : Z; f_bsize : Z; f_blocks : Z; f_bfree : Z; f_bavail : Z; f_files : Z; f_ffree : Z;
  f_namelen : Z
}.

Definition lolelffs_statfs (s : lolelffs_sb_info) : kstatfs :=
  KStatfs LOLELFFS_MAGIC LOLELFFS_BLOCK_SIZE (nr_blocks (sbd s)) (nr_free_blocks (sbd s))
    (nr_free_blocks (sbd s)) (nr_inodes (sbd s) -₃₂ nr_free_inodes (sbd s))
    (nr_free_inodes (sbd s)) LOLELFFS_FILENAME_LEN.

(** ** lolelffs_fill_super *)

(** for (i = 0; i < n; i++): copy disk block [first + i] to the bitmap, which
    has [size] bytes. *)
Fixpoint load_bitmap (size : Z) (n : nat) (i : nat) (first : Z) : M fs (list Z) :=
  match n with
  | O => mret []
  | S n =>
      b ← LOLELFFS_SB_BREAD (i32 (first + Z.of_nat i));
      if negb (bitmap_access_ok size i) then fail MEMFAULT
      else
        rest ← load_bitmap size n (S i) first;
        mret (b ++ rest)
  end.

(** kzalloc(n * LOLELFFS_BLOCK_SIZE): a product of 32-bit integers. *)
Definition bitmap_size (n : Z) : Z := n *₃₂ LOLELFFS_BLOCK_SIZE.

(** kzalloc of struct lolelffs_sb_info, then the members copied from disk: the
    compression and encryption settings stay zero. *)
Definition mount_sbd (csb : sb_disk) : sb_disk :=
  SbDisk 0 (nr_blocks csb) (nr_inodes csb) (nr_istore_blocks csb) (nr_ifree_blocks csb)
    (nr_bfree_blocks csb) (nr_free_inodes csb) (nr_free_blocks csb)
    0 0 0 0 0 0 0 0 0 0 0 0 0 (zeros 32) (zeros 32) 0 (zeros 12).

Section FillSuper.
Context (kmalloc : Z -> bool) (after : list Z).

(** [bdev_file] is the file behind the block device when it can be opened. *)
Definition detect_offset (bdev_file : option (list Z)) : Z :=
  match bdev_file with
  | Some f => find_lolelffs_section kmalloc after f
  | None => 0
  end.

(** Mount: the state before holds the device and the kernel; on success the
    superblock information is filled and the root inode is cached. *)
Definition lolelffs_fill_super (bdev_file : option (list Z)) : M fs unit :=
  let off := Z.quot (detect_offset bdev_file) LOLELFFS_BLOCK_SIZE in
  s ← gets id;
  match fs_disk s !! (LOLELFFS_SB_BLOCK_NR + off) with
  | None => fail EIO
  | Some b =>
      let csb := sb_of_block b in
      if negb (magic csb =? LOLELFFS_MAGIC) then fail EINVAL
      else if oom (fs_k s) A_sb_info then fail ENOMEM
      else
        modify (set_sbi (SbInfo (mount_sbd csb) [] [] off (zeros 32) false));;
        if oom (fs_k s) A_ifree_bitmap then fail ENOMEM
        else
          ifree ← load_bitmap (bitmap_size (nr_ifree_blocks csb)) (Z.to_nat (nr_ifree_blocks csb)) 0
                    (nr_istore_blocks csb + 1);
          if oom (fs_k s) A_bfree_bitmap then fail ENOMEM
          else
            bfree ← load_bitmap (bitmap_size (nr_bfree_blocks csb)) (Z.to_nat (nr_bfree_blocks csb)) 0
                      (nr_istore_blocks csb + nr_ifree_blocks csb + 1);
            modify (set_sbi (SbInfo (mount_sbd csb) ifree bfree off (zeros 32) false));;
            root ← lolelffs_iget 0;
            v ← inode_at root;
            inode_put root (set_owner (inode_init_owner (fs_k s) None (i_mode v)) v);;
            if oom (fs_k s) A_root_dentry then fail ENOMEM else mret tt
  end.
End FillSuper.

(** ** Lemmas on the inode table *)

Lemma inode_shift_lt ino : (inode_shift_of ino < NINODES)%nat.
Proof.
  unfold inode_shift_of, NINODES. change LOLELFFS_INODES_PER_BLOCK with 56. dlia.
Qed.

Lemma disk_inode_of_fits v : inode_fits (disk_inode_of v).
Proof.
  unfold inode_fits, disk_inode_of. cbn. rewrite length_strncpy.
  repeat split; apply Z.mod_pos_bound; lia.
Qed.

Lemma disk_inode_at_put b shift shift' d :
  length b = BLK -> (shift < NINODES)%nat -> inode_fits d ->
  disk_inode_at (put_inode_at shift d b) shift' =
    if decide (shift = shift') then d else disk_inode_at b shift'.
Proof.
  intros Hb Hs Hd. unfold disk_inode_at. rewrite inodes_put_inode_at by done.
  case_decide as E; [subst|].
  - rewrite list_lookup_insert_eq; [done|]. unfold inodes_of_block. by rewrite length_arr.
  - by rewrite list_lookup_insert_ne.
Qed.

(** Two inode numbers share a slot of the inode store only if they are equal. *)
Lemma inode_slot_inj i j :
  is_u32 i -> is_u32 j -> inode_block_of i = inode_block_of j ->
  inode_shift_of i = inode_shift_of j -> i = j.
Proof.
  unfold inode_block_of, inode_shift_of. change LOLELFFS_INODES_PER_BLOCK with 56.
  intros Hi Hj. rewrite !u32_small by dlia. dlia.
Qed.

(** The inode stored on disk under a number. *)
Definition stored_inode (s : fs) (ino : Z) : option lolelffs_inode :=
  b ← blk_at s (inode_block_of ino); Some (disk_inode_at b (inode_shift_of ino)).

(** write_inode stores the inode in its slot and touches no other slot. *)
Lemma write_inode_spec s ino v b :
  fs_icache s !! ino = Some v -> i_ino v = ino -> 0 <= ino < nr_inodes (sbd (fs_sbi s)) ->
  is_u32 (nr_inodes (sbd (fs_sbi s))) ->
  blk_at s (inode_block_of ino) = Some b -> length b = BLK ->
  exists d, lolelffs_write_inode ino s = (Ok tt, set_disk d s) /\
    stored_inode (set_disk d s) ino = Some (disk_inode_of v) /\
    (forall j, 0 <= j < nr_inodes (sbd (fs_sbi s)) -> j <> ino ->
       stored_inode (set_disk d s) j = stored_inode s j) /\
    (forall blk, blk <> inode_block_of ino -> blk_at (set_disk d s) blk = blk_at s blk).
Proof.
  intros Hc Hi Hr Hn Hb Hl.
  set (b' := put_inode_at (inode_shift_of ino) (disk_inode_of v) b).
  exists (<[inode_block_of ino + fs_offset (fs_sbi s) := b']> (fs_disk s)).
  assert (forall blk, blk_at (set_disk (<[inode_block_of ino + fs_offset (fs_sbi s) := b']> (fs_disk s)) s) blk
    = if decide (inode_block_of ino = blk) then Some b' else blk_at s blk) as Hat.
  { intros blk. exact (blk_at_bwrite s (inode_block_of ino) b' blk). }
  split_and!.
  - unfold lolelffs_write_inode, inode_at, gets, bupdate, mbind, M_bind. rewrite Hc.
    cbn [default from_option id]. rewrite Hi, u32_small by lia.
    rewrite (proj2 (Z.leb_gt _ _)) by lia. rewrite (bread_run _ _ b) by done. done.
  - unfold stored_inode. rewrite Hat. rewrite decide_True by done. unfold mbind, option_bind. f_equal. unfold b'.
    rewrite disk_inode_at_put by auto using inode_shift_lt, disk_inode_of_fits.
    by rewrite decide_True.
  - intros j Hj Hne. unfold stored_inode. rewrite Hat. case_decide as E; [|done].
    rewrite <- E, Hb. unfold mbind, option_bind. f_equal. unfold b'.
    rewrite disk_inode_at_put by auto using inode_shift_lt, disk_inode_of_fits.
    rewrite decide_False; [done|]. intros E'. apply Hne. symmetry.
    apply inode_slot_inj; done || lia.
  - intros blk Hne. rewrite Hat. by rewrite decide_False.
Qed.

(** An inode not in the cache is read from its slot. *)
Lemma iget_spec s ino d :
  0 <= ino < nr_inodes (sbd (fs_sbi s)) -> fs_icache s !! ino = None ->
  oom (fs_k s) A_inode = false -> stored_inode s ino = Some d ->
  lolelffs_iget ino s = (Ok ino, set_icache (<[ino := vinode_of_disk (fs_k s) ino d]> (fs_icache s)) s).
Proof.
  intros Hr Hc Ho Hd. unfold lolelffs_iget, gets, mbind, M_bind. cbn.
  rewrite (proj2 (Z.leb_gt _ _)) by lia. rewrite Hc, Ho.
  unfold stored_inode in Hd. destruct (blk_at s (inode_block_of ino)) as [b|] eqn:E; [|done].
  injection Hd as <-. rewrite (bread_run _ _ b) by done. done.
Qed.

Lemma iget_cached s ino v :
  0 <= ino < nr_inodes (sbd (fs_sbi s)) -> fs_icache s !! ino = Some v ->
  lolelffs_iget ino s = (Ok ino, s).
Proof.
  intros Hr Hc. unfold lolelffs_iget, gets, mbind, M_bind. cbn.
  rewrite (proj2 (Z.leb_gt _ _)) by lia. by rewrite Hc.
Qed.

(** ** Lemmas on flushing and loading the free maps *)

Lemma bitmap_access_ok_true size i :
  (Z.of_nat i < 2 ^ 19) -> 4096 * (Z.of_nat i + 1) <= size -> bitmap_access_ok size i = true.
Proof.
  intros. unfold bitmap_access_ok. by rewrite (proj2 (Z.ltb_lt _ _)), (proj2 (Z.leb_le _ _)) by lia.
Qed.

Lemma flush_bitmap_spec n : forall i first bm s,
  0 <= first -> first + Z.of_nat (i + n) < 2 ^ 31 -> Z.of_nat (i + n) <= 2 ^ 19 ->
  (BLK * (i + n) <= length bm)%nat ->
  (forall k, (i <= k < i + n)%nat -> is_Some (blk_at s (first + Z.of_nat k))) ->
  exists d, flush_bitmap n i first bm s = (Ok tt, set_disk d s) /\
    (forall k, (i <= k < i + n)%nat ->
       blk_at (set_disk d s) (first + Z.of_nat k) = Some (bitmap_block bm k)) /\
    (forall j, j < first + Z.of_nat i \/ first + Z.of_nat (i + n) <= j ->
       blk_at (set_disk d s) j = blk_at s j).
Proof.
  induction n as [|n IH]; intros i first bm s Hf Hlt Hn Hlen Hb.
  { exists (fs_disk s). replace (set_disk (fs_disk s) s) with s by (by destruct s).
    split_and!; [done|lia|done]. }
  destruct (Hb i ltac:(lia)) as [b Hi].
  set (s1 := snd (bwrite (first + Z.of_nat i) (bitmap_block bm i) s)).
  destruct (IH (S i) first bm s1) as (d & Hrun & Hin & Hout); [lia..| |].
  { intros k Hk. subst s1. rewrite blk_at_bwrite. case_decide; [eauto|]. apply Hb. lia. }
  exists d. change (set_disk d s1) with (set_disk d s) in *. split_and!.
  - cbn [flush_bitmap]. rewrite i32_small by lia. rewrite (bind_run _ _ _ _ _ (bread_run _ _ b Hi)).
    rewrite bitmap_access_ok_true by (unfold BLK in Hlen; lia). exact Hrun.
  - intros k Hk. destruct (decide (k = i)) as [->|]; [|apply Hin; lia].
    rewrite Hout by lia. subst s1. rewrite blk_at_bwrite. by rewrite decide_True.
  - intros j Hj. rewrite Hout by lia. subst s1. rewrite blk_at_bwrite. rewrite decide_False by lia. done.
Qed.

Lemma load_bitmap_spec n : forall size i first bm s,
  0 <= first -> first + Z.of_nat (i + n) < 2 ^ 31 -> Z.of_nat (i + n) <= 2 ^ 19 ->
  4096 * Z.of_nat (i + n) <= size -> (BLK * (i + n) <= length bm)%nat ->
  (forall k, (i <= k < i + n)%nat -> blk_at s (first + Z.of_nat k) = Some (bitmap_block bm k)) ->
  load_bitmap size n i first s = (Ok (slice (BLK * i) (BLK * n) bm), s).
Proof.
  induction n as [|n IH]; intros size i first bm s Hf Hlt Hn Hsz Hlen Hb.
  { cbn [load_bitmap]. rewrite Nat.mul_0_r. done. }
  cbn [load_bitmap]. rewrite i32_small by lia.
  rewrite (bind_run _ _ _ _ _ (bread_run _ _ _ (Hb i ltac:(lia)))).
  rewrite bitmap_access_ok_true by lia. cbn [negb].
  rewrite (bind_run _ _ _ _ _ (IH size (S i) first bm s ltac:(lia) ltac:(lia) ltac:(lia) ltac:(lia)
    ltac:(lia) ltac:(intros; apply Hb; lia))).
  unfold mret, M_ret, bitmap_block. do 2 f_equal. unfold slice.
  rewrite (Nat.mul_succ_r BLK n), (Nat.add_comm (BLK * n)), <- take_take_drop, drop_drop.
  by replace (BLK * i + BLK)%nat with (BLK * S i)%nat by lia.
Qed.

(** ** Lemmas on the superblock *)

(** The sizes of a file system that 32-bit and int arithmetic can handle, with
    free maps as long as the superblock says. *)
Record sbi_wf (s : lolelffs_sb_info) : Prop := {
  wf_counts : Forall (fun v => is_u32 v)
    [nr_blocks (sbd s); nr_inodes (sbd s); nr_istore_blocks (sbd s); nr_ifree_blocks (sbd s);
     nr_bfree_blocks (sbd s); nr_free_inodes (sbd s); nr_free_blocks (sbd s)];
  wf_layout : nr_istore_blocks (sbd s) + nr_ifree_blocks (sbd s) + nr_bfree_blocks (sbd s) + 1 < 2 ^ 31;
  wf_ifree : nr_ifree_blocks (sbd s) < 2 ^ 19 /\
    Z.of_nat (length (ifree_bitmap s)) = 4096 * nr_ifree_blocks (sbd s);
  wf_bfree : nr_bfree_blocks (sbd s) < 2 ^ 19 /\
    Z.of_nat (length (bfree_bitmap s)) = 4096 * nr_bfree_blocks (sbd s)
}.

(** The counters of a superblock. *)
Definition sb_counts (d : sb_disk) : list Z :=
  [nr_blocks d; nr_inodes d; nr_istore_blocks d; nr_ifree_blocks d; nr_bfree_blocks d;
   nr_free_inodes d; nr_free_blocks d].

(** sync_fs stores the counters and keeps every other byte of the superblock. *)
Lemma sync_superblock_spec d b :
  length b = BLK -> Forall (fun v => is_u32 v) (sb_counts d) ->
  sb_counts (sb_of_block (sync_superblock d b)) = sb_counts d /\
  magic (sb_of_block (sync_superblock d b)) = magic (sb_of_block b) /\
  forall o n, (32 <= o)%nat -> slice o n (sync_superblock d b) = slice o n b.
Proof.
  intros Hl Hf. unfold sb_counts in *. rewrite !Forall_cons in Hf.
  destruct Hf as (?&?&?&?&?&?&?&_). unfold sync_superblock. split_and!.
  - cbn [sb_of_block nr_blocks nr_inodes nr_istore_blocks nr_ifree_blocks nr_bfree_blocks
      nr_free_inodes nr_free_blocks]. unfold BLK in Hl.
    repeat f_equal;
      repeat first
        [ rewrite rd32_wr32 by (unfold wr32; autorewrite with mem; lia)
        | rewrite rd32_wr32_ne by lia ]; by apply u32_small.
  - cbn [sb_of_block magic]. repeat rewrite rd32_wr32_ne by lia. done.
  - intros o n Ho. unfold wr32.
    repeat rewrite slice_splice_out by (autorewrite with mem; lia). done.
Qed.

Lemma bitmap_size_small n : 0 <= n < 2 ^ 19 -> bitmap_size n = 4096 * n.
Proof. intros. unfold bitmap_size. change LOLELFFS_BLOCK_SIZE with 4096. rewrite u32_small; lia. Qed.

(** sync_fs writes the counters and both maps, and nothing else. *)
Lemma sync_fs_spec s b :
  sbi_wf (fs_sbi s) -> blk_at s 0 = Some b -> length b = BLK ->
  (forall j, 0 <= j < nr_istore_blocks (sbd (fs_sbi s)) + nr_ifree_blocks (sbd (fs_sbi s))
               + nr_bfree_blocks (sbd (fs_sbi s)) + 1 -> is_Some (blk_at s j)) ->
  let sb := sbd (fs_sbi s) in
  exists d, lolelffs_sync_fs s = (Ok tt, set_disk d s) /\
    blk_at (set_disk d s) 0 = Some (sync_superblock sb b) /\
    (forall k, (k < Z.to_nat (nr_ifree_blocks sb))%nat ->
      blk_at (set_disk d s) (nr_istore_blocks sb + 1 + Z.of_nat k) =
        Some (bitmap_block (ifree_bitmap (fs_sbi s)) k)) /\
    (forall k, (k < Z.to_nat (nr_bfree_blocks sb))%nat ->
      blk_at (set_disk d s) (nr_istore_blocks sb + nr_ifree_blocks sb + 1 + Z.of_nat k) =
        Some (bitmap_block (bfree_bitmap (fs_sbi s)) k)) /\
    (forall j, j <> 0 -> j < nr_istore_blocks sb + 1 \/
        nr_istore_blocks sb + nr_ifree_blocks sb + nr_bfree_blocks sb + 1 <= j ->
      blk_at (set_disk d s) j = blk_at s j).
Proof.
  intros [Hc Hlay [Hi1 Hi2] [Hb1 Hb2]] H0 Hl Hblk sb. fold sb in Hc, Hlay, Hi1, Hi2, Hb1, Hb2, Hblk.
  rewrite !Forall_cons in Hc. destruct Hc as (?&?&?&?&?&?&?&_).
  set (s1 := snd (bwrite 0 (sync_superblock sb b) s)).
  assert (forall j, blk_at s1 j = if decide (0 = j) then Some (sync_superblock sb b) else blk_at s j) as Hs1
    by (intros; apply blk_at_bwrite).
  destruct (flush_bitmap_spec (Z.to_nat (nr_ifree_blocks sb)) 0 (nr_istore_blocks sb + 1)
    (ifree_bitmap (fs_sbi s)) s1) as (d1 & Hr1 & Hin1 & Hout1); [unfold BLK; lia..| |].
  { intros k Hk. rewrite Hs1. case_decide; [eauto|]. apply Hblk. lia. }
  set (s2 := set_disk d1 s1) in *.
  destruct (flush_bitmap_spec (Z.to_nat (nr_bfree_blocks sb)) 0
    (nr_istore_blocks sb + nr_ifree_blocks sb + 1)
    (bfree_bitmap (fs_sbi s)) s2) as (d2 & Hr2 & Hin2 & Hout2); [unfold BLK; lia..| |].
  { intros k Hk. rewrite Hout1 by lia. rewrite Hs1. case_decide; [eauto|]. apply Hblk. lia. }
  exists d2. change (set_disk d2 s2) with (set_disk d2 s) in *. split_and!.
  - unfold lolelffs_sync_fs. rewrite bind_gets.
    fold sb. unfold bupdate. rewrite (bind_run _ _ s tt s1); [|by rewrite (bind_run _ _ _ _ _ (bread_run s 0 b H0))].
    rewrite (bind_run _ _ _ _ _ Hr1). exact Hr2.
  - rewrite Hout2, Hout1 by lia. rewrite Hs1. by rewrite decide_True.
  - intros k Hk. rewrite Hout2 by lia. apply Hin1. lia.
  - intros k Hk. apply Hin2. lia.
  - intros j Hj0 Hj. rewrite Hout2, Hout1 by lia. rewrite Hs1. by rewrite decide_False.
Qed.

(** ** Mounting *)

Section Mounting.
Context (kmalloc : Z -> bool) (after : list Z).

(** What mounting a sound image does. *)
Lemma fill_super_spec bdev_file s b bmI bmB root :
  let off := Z.quot (detect_offset kmalloc after bdev_file) LOLELFFS_BLOCK_SIZE in
  let csb := sb_of_block b in
  let s1 := set_sbi (SbInfo (mount_sbd csb) bmI bmB off (zeros 32) false) s in
  fs_disk s !! off = Some b -> magic csb = LOLELFFS_MAGIC -> (forall a, oom (fs_k s) a = false) ->
  sbi_wf (fs_sbi s1) -> 0 < nr_inodes csb ->
  (forall k, (k < Z.to_nat (nr_ifree_blocks csb))%nat ->
    blk_at s1 (nr_istore_blocks csb + 1 + Z.of_nat k) = Some (bitmap_block bmI k)) ->
  (forall k, (k < Z.to_nat (nr_bfree_blocks csb))%nat ->
    blk_at s1 (nr_istore_blocks csb + nr_ifree_blocks csb + 1 + Z.of_nat k) =
      Some (bitmap_block bmB k)) ->
  fs_icache s !! 0 = None -> stored_inode s1 0 = Some root ->
  let v := vinode_of_disk (fs_k s) 0 root in
  lolelffs_fill_super kmalloc after bdev_file s =
    (Ok tt, set_icache (<[0 := set_owner (inode_init_owner (fs_k s) None (i_mode v)) v]>
              (fs_icache s)) s1).
Proof.
  intros off csb s1 Hb Hm Ho [Hc Hlay [Hi1 Hi2] [Hb1 Hb2]] Hni HI HB Hroot Hst v.
  change (sbd (fs_sbi s1)) with (mount_sbd csb) in *.
  change (ifree_bitmap (fs_sbi s1)) with bmI in *. change (bfree_bitmap (fs_sbi s1)) with bmB in *.
  cbn [mount_sbd nr_blocks nr_inodes nr_istore_blocks nr_ifree_blocks nr_bfree_blocks
    nr_free_inodes nr_free_blocks] in Hc, Hlay, Hi1, Hi2, Hb1, Hb2.
  rewrite !Forall_cons in Hc.
  destruct Hc as (?&?&?&?&?&?&?&_).
  set (sm := set_sbi (SbInfo (mount_sbd csb) [] [] off (zeros 32) false) s).
  assert (load_bitmap (bitmap_size (nr_ifree_blocks csb)) (Z.to_nat (nr_ifree_blocks csb)) 0
    (nr_istore_blocks csb + 1) sm = (Ok bmI, sm)) as HlI.
  { rewrite (load_bitmap_spec _ _ _ _ bmI); try (rewrite ?bitmap_size_small by lia; unfold BLK; lia).
    - do 2 f_equal. apply slice_all. unfold BLK. lia.
    - intros k Hk. apply HI. lia. }
  assert (load_bitmap (bitmap_size (nr_bfree_blocks csb)) (Z.to_nat (nr_bfree_blocks csb)) 0
    (nr_istore_blocks csb + nr_ifree_blocks csb + 1) sm = (Ok bmB, sm)) as HlB.
  { rewrite (load_bitmap_spec _ _ _ _ bmB); try (rewrite ?bitmap_size_small by lia; unfold BLK; lia).
    - do 2 f_equal. apply slice_all. unfold BLK. lia.
    - intros k Hk. apply HB. lia. }
  unfold lolelffs_fill_super. fold off. rewrite bind_gets. unfold id.
  change (LOLELFFS_SB_BLOCK_NR + off) with (0 + off). rewrite Z.add_0_l, Hb. fold csb.
  rewrite (proj2 (Z.eqb_eq _ _) Hm). cbn [negb]. rewrite !Ho.
  rewrite bind_modify. fold sm.
  rewrite (bind_run _ _ _ _ _ HlI), (bind_run _ _ _ _ _ HlB).
  rewrite bind_modify. change (set_sbi _ sm) with s1.
  assert (lolelffs_iget 0 s1 = (Ok 0, set_icache (<[0 := v]> (fs_icache s1)) s1)) as Hg
    by (apply (iget_spec s1); done || apply Ho || (cbn; lia)).
  rewrite (bind_run _ _ _ _ _ Hg).
  unfold inode_at, gets, mbind, M_bind, inode_put, modify, mret, M_ret. cbn [set_icache fs_icache].
  rewrite lookup_insert_eq. cbn [default from_option id]. unfold set_icache. cbn.
  by rewrite insert_insert_eq.
Qed.
End Mounting.

(** A kernel in which every allocation succeeds. *)
Definition ex_kernel : kernel :=
  Kernel 1000 (fun _ => false) 0 0 (zeros 28) (fun _ m => (0, 0, m)).

(** A small image: 16 blocks, 56 inodes, blocks 5 to 15 free. *)
Definition ex_sb : sb_disk :=
  SbDisk LOLELFFS_MAGIC 16 56 1 1 1 55 11 1 1 1 128 1 2048 524288 0 0 1 3 65536 4
    (zeros 32) (zeros 32) 0 (zeros 12).
Definition ex_root : lolelffs_inode := DInode 0x41FD 0 0 4096 0 0 0 1 2 4 0 (zeros 28).
Definition ex_ifree : list Z := 254 :: replicate 4095 255.
Definition ex_bfree : list Z := 224 :: replicate 4095 255.
Definition ex_disk : gmap Z block :=
  <[0 := bytes_of_sb ex_sb ++ zeros (BLK - 164)]> (<[1 := put_inode_at 0 ex_root (zeros BLK)]>
    (<[2 := ex_ifree]> (<[3 := ex_bfree]>
      (list_to_map (map (fun i => (i, zeros BLK)) (seqZ 4 12)))))).
Definition no_sbi : lolelffs_sb_info := SbInfo (mount_sbd ex_sb) [] [] 0 (zeros 32) false.
Definition ex_unmounted : fs := Fs no_sbi ex_disk ∅ ex_kernel.
Definition ex_fs : fs := snd (lolelffs_fill_super (fun _ => true) [] None ex_unmounted).

(** load_bitmap gives the blocks of the disk in order, or fails. *)
Lemma load_bitmap_inv size n : forall i first s bm s',
  load_bitmap size n i first s = (Ok bm, s') ->
  s' = s /\ exists bs, length bs = n /\ bm = concat bs /\
    forall k, (k < n)%nat -> blk_at s (i32 (first + Z.of_nat (i + k))) = bs !! k.
Proof.
  induction n as [|n IH]; intros i first s bm s' H; cbn [load_bitmap] in H.
  { injection H as <- <-. split; [done|]. exists []. split_and!; [done|done|]. intros; lia. }
  apply bind_Ok in H as (b & s1 & H1 & H). apply bread_inv in H1 as [-> Hb].
  destruct (bitmap_access_ok size i); [|done]. cbn [negb] in H.
  apply bind_Ok in H as (rest & s1 & H1 & H). injection H as <- <-.
  apply IH in H1 as (-> & bs & Hl & -> & Hbs). split; [done|]. exists (b :: bs).
  split_and!; [cbn; lia|done|]. intros [|k] Hk; cbn [lookup list_lookup].
  - by rewrite Nat.add_0_r.
  - replace (i + S k)%nat with (S i + k)%nat by lia. apply Hbs. lia.
Qed.

(** Inversion of a successful mount. *)
Lemma fill_super_inv kmalloc after bdev_file s s' :
  lolelffs_fill_super kmalloc after bdev_file s = (Ok tt, s') ->
  let off := Z.quot (detect_offset kmalloc after bdev_file) LOLELFFS_BLOCK_SIZE in
  exists b bi bb,
    fs_disk s !! off = Some b /\ magic (sb_of_block b) = LOLELFFS_MAGIC /\ fs_disk s' = fs_disk s /\
    fs_sbi s' = SbInfo (mount_sbd (sb_of_block b)) (concat bi) (concat bb) off (zeros 32) false /\
    length bi = Z.to_nat (nr_ifree_blocks (sb_of_block b)) /\
    length bb = Z.to_nat (nr_bfree_blocks (sb_of_block b)) /\
    (forall k, (k < length bi)%nat ->
      blk_at s' (i32 (nr_istore_blocks (sb_of_block b) + 1 + Z.of_nat k)) = bi !! k) /\
    (forall k, (k < length bb)%nat ->
      blk_at s' (i32 (nr_istore_blocks (sb_of_block b) + nr_ifree_blocks (sb_of_block b) + 1
                        + Z.of_nat k)) = bb !! k) /\
    is_Some (fs_icache s' !! 0).
Proof.
  intros H off. revert H. unfold lolelffs_fill_super. fold off. rewrite bind_gets. unfold id.
  change (LOLELFFS_SB_BLOCK_NR + off) with (0 + off). rewrite Z.add_0_l.
  destruct (fs_disk s !! off) as [b|] eqn:Hb; [|done]. set (csb := sb_of_block b).
  destruct (magic csb =? LOLELFFS_MAGIC) eqn:Hm; [|done]. cbn [negb]. zbool.
  destruct (oom (fs_k s) A_sb_info); [done|]. rewrite bind_modify.
  destruct (oom (fs_k s) A_ifree_bitmap); [done|]. intros H.
  apply bind_Ok in H as (ifree & s1 & H1 & H). apply load_bitmap_inv in H1 as (-> & bi & Hli & -> & Hbi).
  destruct (oom (fs_k s) A_bfree_bitmap); [done|].
  apply bind_Ok in H as (bfree & s1 & H1 & H). apply load_bitmap_inv in H1 as (-> & bb & Hlb & -> & Hbb).
  rewrite bind_modify in H. set (s2 := set_sbi _ _) in H.
  apply bind_Ok in H as (root & s3 & Hg & H).
  assert (fs_disk s3 = fs_disk s /\ fs_sbi s3 = fs_sbi s2 /\ root = 0) as (Hd & Hs & ->).
  { unfold lolelffs_iget in Hg. rewrite bind_gets in Hg. cbn [id] in Hg.
    destruct (_ <=? 0); [done|]. destruct (fs_icache s2 !! 0); [by injection Hg as <- <-|].
    destruct (oom _ A_inode); [done|].
    apply bind_Ok in Hg as (? & ? & H1 & Hg). apply bread_inv in H1 as [-> _].
    unfold inode_put in Hg. rewrite bind_modify in Hg. by injection Hg as <- <-. }
  unfold inode_at in H. rewrite bind_gets in H. unfold inode_put in H. rewrite bind_modify in H.
  destruct (oom (fs_k s) A_root_dentry); [done|]. injection H as <-.
  exists b, bi, bb. unfold blk_at. cbn [set_icache fs_icache fs_disk fs_sbi]. rewrite Hs, Hd. cbn.
  split_and!; try done.
  - intros k Hk. rewrite Hli in Hk. by apply Hbi.
  - intros k Hk. rewrite Hlb in Hk. by apply Hbb.
  - rewrite lookup_insert_eq. eauto.
Qed.

(** C28 What a successful mount establishes, for any image: the superblock has
    the magic number, the seven counters of the file system are the ones on
    disk, the two free maps are the map blocks of the disk in order, the root
    inode is in the cache, the key is locked; and the compression and
    encryption settings of the image are not taken over: both are off. *)
Theorem mount_success_inv kmalloc after bdev_file s s' :
  lolelffs_fill_super kmalloc after bdev_file s = (Ok tt, s') ->
  exists b bi bb,
    fs_disk s !! (fs_offset (fs_sbi s')) = Some b /\
    magic (sb_of_block b) = LOLELFFS_MAGIC /\ fs_disk s' = fs_disk s /\
    sb_counts (sbd (fs_sbi s')) = sb_counts (sb_of_block b) /\
    ifree_bitmap (fs_sbi s') = concat bi /\ length bi = Z.to_nat (nr_ifree_blocks (sb_of_block b)) /\
    bfree_bitmap (fs_sbi s') = concat bb /\ length bb = Z.to_nat (nr_bfree_blocks (sb_of_block b)) /\
    (forall k, (k < length bi)%nat ->
      blk_at s' (i32 (nr_istore_blocks (sb_of_block b) + 1 + Z.of_nat k)) = bi !! k) /\
    (forall k, (k < length bb)%nat ->
      blk_at s' (i32 (nr_istore_blocks (sb_of_block b) + nr_ifree_blocks (sb_of_block b) + 1
                        + Z.of_nat k)) = bb !! k) /\
    is_Some (fs_icache s' !! 0) /\
    enc_unlocked (fs_sbi s') = false /\
    comp_enabled (sbd (fs_sbi s')) = 0 /\ enc_enabled (sbd (fs_sbi s')) = 0.
Proof.
  intros (b & bi & bb & Hb & Hm & Hd & Hs & Hli & Hlb & Hbi & Hbb & Hr)%fill_super_inv.
  exists b, bi, bb. rewrite Hs. cbn [fs_offset sbd ifree_bitmap bfree_bitmap enc_unlocked mount_sbd
    comp_enabled enc_enabled]. by split_and!.
Qed.

Lemma mount_success_inv_witness :
  comp_enabled ex_sb = 1 /\ comp_enabled (sbd (fs_sbi ex_fs)) = 0.
Proof.
  split; [reflexivity|].
  destruct (mount_success_inv (fun _ => true) [] None ex_unmounted ex_fs)
    as (b & bi & bb & H); [vm_compute; reflexivity|].
  exact (proj1 (proj2 (proj2 (proj2 (proj2 (proj2 (proj2 (proj2 (proj2 (proj2 (proj2 (proj2 (proj2 H))))))))))))).
Defined.

(** The inode leaves the cache (memory pressure, or unmount). *)
Definition evict (ino : Z) (s : fs) : fs := set_icache (delete ino (fs_icache s)) s.

(** The members of an inode that its on-disk fields can hold. *)
Definition vinode_fits (v : vinode) : Prop :=
  0 <= i_mode v < 2 ^ 16 /\ is_u32 (i_uid v) /\ is_u32 (i_gid v) /\ is_u32 (i_size v) /\
  is_u32 (i_ctime v) /\ is_u32 (i_atime v) /\ is_u32 (i_mtime v) /\ is_u32 (i_blocks v) /\
  is_u32 (i_nlink v) /\ is_u32 (ei_block v) /\ is_u32 (xattr_block v).

(** What is left of an inode after a trip to the disk: the index block of a
    symbolic link and the inline data of anything else come from the slab. *)
Definition kept (k : kernel) (v : vinode) : vinode :=
  let lnk := S_ISLNK (i_mode v) in
  VInode (i_ino v) (i_mode v) (i_uid v) (i_gid v) (i_size v) (i_ctime v) (i_atime v) (i_mtime v)
    (i_blocks v) (i_nlink v) lnk (if lnk then slab_ei_block k else ei_block v) (xattr_block v)
    (if lnk then strncpy (cstr (i_data v)) 28 else slab_i_data k).

(** The members cut to their 32-bit fields on disk, the 64-bit size and times
    among them. *)
Definition cut32 (v : vinode) : vinode :=
  VInode (i_ino v) (i_mode v) (u32 (i_uid v)) (u32 (i_gid v)) (u32 (i_size v)) (u32 (i_ctime v)) (u32 (i_atime v))
    (u32 (i_mtime v)) (u32 (i_blocks v)) (u32 (i_nlink v)) (i_link v) (u32 (ei_block v)) (u32 (xattr_block v)) (i_data v).

Lemma cut32_fits v : vinode_fits v -> cut32 v = v.
Proof.
  intros (_&?&?&?&?&?&?&?&?&?&?). unfold cut32. rewrite !u32_small by done. by destruct v.
Qed.

Lemma cstr_zeros l n : cstr (l ++ zeros n) = cstr l.
Proof.
  induction l as [|c l IH]; cbn; [destruct n; done|]. by rewrite IH.
Qed.

Lemma cstr_idem l : cstr (cstr l) = cstr l.
Proof. induction l as [|c l IH]; cbn; [done|]. destruct (c =? 0) eqn:E; [done|]. cbn. by rewrite E, IH. Qed.

(** A bounded copy of a C string that was already copied. *)
Lemma strncpy_cstr_idem l n : strncpy (cstr (strncpy (cstr l) n)) n = strncpy (cstr l) n.
Proof.
  unfold strncpy at 2. rewrite cstr_zeros.
  destruct (decide (length (cstr l) <= n)%nat) as [Hl|Hl].
  - rewrite take_ge by done. by rewrite cstr_idem.
  - assert (forall m x, (length x <= m)%nat -> cstr (take n (cstr x)) = take n (cstr x)) as Ht.
    { clear. induction n as [|n IH]; intros m x Hx; [by rewrite !take_0|].
      destruct x as [|c x]; [done|]. cbn. destruct (c =? 0) eqn:E; [done|]. cbn. rewrite E.
      f_equal. by apply (IH (length x)). }
    rewrite (Ht (length l) l) by done. unfold strncpy. rewrite take_take, Nat.min_id, length_take.
    by replace (n - Nat.min n (length (cstr l)))%nat with (n - length (cstr l))%nat by lia.
Qed.

Lemma vinode_of_disk_inode_of k v :
  0 <= i_mode v < 2 ^ 16 -> S_ISDIR (i_mode v) || S_ISREG (i_mode v) || S_ISLNK (i_mode v) = true ->
  vinode_of_disk k (i_ino v) (disk_inode_of v) = kept k (cut32 v).
Proof.
  intros Hm Ht. unfold vinode_of_disk, disk_inode_of, kept, cut32. cbn.
  rewrite (u32_small (i_mode v)) by lia. unfold u16. rewrite Z.mod_small by lia. cbn.
  rewrite strncpy_cstr_idem.
  assert (S_ISDIR (i_mode v) || S_ISREG (i_mode v) = negb (S_ISLNK (i_mode v))) as ->.
  { unfold S_ISDIR, S_ISREG, S_ISLNK, S_IFDIR, S_IFREG, S_IFLNK in *.
    destruct (Z.eqb_spec (Z.land (i_mode v) S_IFMT) 0xA000) as [->|]; [done|].
    by rewrite orb_false_r in Ht. }
  rewrite negb_involutive. destruct (S_ISLNK (i_mode v)); done.
Qed.

Lemma write_inode_reload s ino v b :
  fs_icache s !! ino = Some v -> i_ino v = ino -> 0 <= ino < nr_inodes (sbd (fs_sbi s)) ->
  is_u32 (nr_inodes (sbd (fs_sbi s))) -> blk_at s (inode_block_of ino) = Some b -> length b = BLK ->
  0 <= i_mode v < 2 ^ 16 -> S_ISDIR (i_mode v) || S_ISREG (i_mode v) || S_ISLNK (i_mode v) = true ->
  oom (fs_k s) A_inode = false ->
  exists s1 s2,
    lolelffs_write_inode ino s = (Ok tt, s1) /\ lolelffs_iget ino (evict ino s1) = (Ok ino, s2) /\
    fs_icache s2 = <[ino := kept (fs_k s) (cut32 v)]> (fs_icache s) /\
    forall j, 0 <= j < nr_inodes (sbd (fs_sbi s)) -> j <> ino -> stored_inode s2 j = stored_inode s j.
Proof.
  intros Hc Hi Hr Hn Hb Hl Hm Ht Ho.
  destruct (write_inode_spec s ino v b Hc Hi Hr Hn Hb Hl) as (d & Hw & Hst & Hother & _).
  exists (set_disk d s). eexists. split; [done|]. split.
  - apply (iget_spec (evict ino (set_disk d s))); [done| |done|exact Hst].
    apply lookup_delete_eq.
  - split.
    + cbn. rewrite insert_delete_eq. f_equal. rewrite <- Hi. by apply vinode_of_disk_inode_of.
    + intros j Hj Hne. rewrite <- (Hother j Hj Hne). done.
Qed.

(** C16 Writing an inode back and reading it again after it left the cache: for an
    inode of any type and any size, the inode read has every stored member
    modulo 2^32, the width of its field on disk, so that a size of 4 GiB or
    more comes back cut; when the members fit, it is the same inode except
    the member its type does not store; and the inodes in the other slots of
    the store are unchanged in either case. *)
Theorem write_inode_iget_roundtrip s ino v b :
  fs_icache s !! ino = Some v -> i_ino v = ino -> 0 <= ino < nr_inodes (sbd (fs_sbi s)) ->
  is_u32 (nr_inodes (sbd (fs_sbi s))) -> blk_at s (inode_block_of ino) = Some b -> length b = BLK ->
  0 <= i_mode v < 2 ^ 16 -> S_ISDIR (i_mode v) || S_ISREG (i_mode v) || S_ISLNK (i_mode v) = true ->
  oom (fs_k s) A_inode = false ->
  exists s1 s2,
    lolelffs_write_inode ino s = (Ok tt, s1) /\
    lolelffs_iget ino (evict ino s1) = (Ok ino, s2) /\
    fs_icache s2 = <[ino := kept (fs_k s) (cut32 v)]> (fs_icache s) /\
    (vinode_fits v -> fs_icache s2 = <[ino := kept (fs_k s) v]> (fs_icache s)) /\
    forall j, 0 <= j < nr_inodes (sbd (fs_sbi s)) -> j <> ino -> stored_inode s2 j = stored_inode s j.
Proof.
  intros Hc Hi Hr Hn Hb Hl Hm Ht Ho.
  destruct (write_inode_reload s ino v b Hc Hi Hr Hn Hb Hl Hm Ht Ho) as (s1 & s2 & H1 & H2 & H3 & H4).
  exists s1, s2. split_and!; [done..| |done]. intros Hf. by rewrite H3, cut32_fits.
Qed.

(** The size of a file of 4 GiB or more, which s_maxbytes allows, is lost when
    its inode leaves the cache. *)
Theorem large_size_lost s ino v b :
  fs_icache s !! ino = Some v -> i_ino v = ino -> 0 <= ino < nr_inodes (sbd (fs_sbi s)) ->
  is_u32 (nr_inodes (sbd (fs_sbi s))) -> blk_at s (inode_block_of ino) = Some b -> length b = BLK ->
  0 <= i_mode v < 2 ^ 16 -> S_ISREG (i_mode v) = true -> oom (fs_k s) A_inode = false ->
  2 ^ 32 <= i_size v <= LOLELFFS_MAX_FILESIZE ->
  exists s1 s2 w, lolelffs_write_inode ino s = (Ok tt, s1) /\ lolelffs_iget ino (evict ino s1) = (Ok ino, s2) /\
    fs_icache s2 !! ino = Some w /\ i_size w = i_size v mod 2 ^ 32 /\ i_size w < i_size v.
Proof.
  intros Hc Hi Hr Hn Hb Hl Hm Ht Ho [Hsz _].
  destruct (write_inode_reload s ino v b Hc Hi Hr Hn Hb Hl Hm ltac:(rewrite Ht; by rewrite orb_true_r) Ho)
    as (s1 & s2 & H1 & H2 & H3 & _).
  exists s1, s2, (kept (fs_k s) (cut32 v)). rewrite H3, lookup_insert_eq. split_and!; [done..|].
  change (u32 (i_size v) < i_size v). pose proof (u32_range (i_size v)). lia.
Qed.

(** The root inode of the small image after a chmod. *)
Definition ex_root_v : vinode := default no_inode (fs_icache ex_fs !! 0).
Lemma write_inode_iget_roundtrip_witness :
  exists s1 s2, lolelffs_write_inode 0 ex_fs = (Ok tt, s1) /\
    lolelffs_iget 0 (evict 0 s1) = (Ok 0, s2) /\
    i_mode <$> (fs_icache s2 !! 0) = Some 0x41FD.
Proof.
  destruct (write_inode_iget_roundtrip ex_fs 0 ex_root_v (put_inode_at 0 ex_root (zeros BLK)))
    as (s1 & s2 & H1 & H2 & H3 & H4 & _); [vm_compute; repeat split; done || discriminate..|].
  exists s1, s2. split; [done|]. split; [done|]. rewrite H3, lookup_insert_eq. vm_compute. done.
Defined.

(** C3 Unmounting cleanly and mounting again loses no allocation: after sync_fs,
    fill_super on the same device succeeds and gives back the same two free
    maps and the same seven counters; no block outside the superblock and the
    maps changed. *)
Theorem sync_mount_roundtrip kmalloc after bdev_file s b root :
  fs_offset (fs_sbi s) = Z.quot (detect_offset kmalloc after bdev_file) LOLELFFS_BLOCK_SIZE ->
  sbi_wf (fs_sbi s) -> 1 <= nr_istore_blocks (sbd (fs_sbi s)) -> 0 < nr_inodes (sbd (fs_sbi s)) ->
  blk_at s 0 = Some b -> length b = BLK -> magic (sb_of_block b) = LOLELFFS_MAGIC ->
  (forall j, 0 <= j < nr_istore_blocks (sbd (fs_sbi s)) + nr_ifree_blocks (sbd (fs_sbi s))
               + nr_bfree_blocks (sbd (fs_sbi s)) + 1 -> is_Some (blk_at s j)) ->
  stored_inode s 0 = Some root -> (forall a, oom (fs_k s) a = false) ->
  exists s1 s2,
    lolelffs_sync_fs s = (Ok tt, s1) /\
    lolelffs_fill_super kmalloc after bdev_file (set_icache ∅ s1) = (Ok tt, s2) /\
    ifree_bitmap (fs_sbi s2) = ifree_bitmap (fs_sbi s) /\
    bfree_bitmap (fs_sbi s2) = bfree_bitmap (fs_sbi s) /\
    sb_counts (sbd (fs_sbi s2)) = sb_counts (sbd (fs_sbi s)) /\
    forall j, j <> 0 -> j < nr_istore_blocks (sbd (fs_sbi s)) + 1 \/
        nr_istore_blocks (sbd (fs_sbi s)) + nr_ifree_blocks (sbd (fs_sbi s))
          + nr_bfree_blocks (sbd (fs_sbi s)) + 1 <= j ->
      blk_at s2 j = blk_at s j.
Proof.
  intros Hoff Hwf Hst Hni H0 Hl Hm Hblk Hroot Ho.
  destruct (sync_fs_spec s b Hwf H0 Hl Hblk) as (d & Hrun & Hsb & HI & HB & Hother).
  destruct (sync_superblock_spec (sbd (fs_sbi s)) b Hl (wf_counts _ Hwf)) as (Hcnt & Hmag & _).
  set (csb := sb_of_block (sync_superblock (sbd (fs_sbi s)) b)) in *.
  set (s1 := set_icache ∅ (set_disk d s)).
  exists (set_disk d s).
  pose proof (fill_super_spec kmalloc after bdev_file s1 (sync_superblock (sbd (fs_sbi s)) b)
    (ifree_bitmap (fs_sbi s)) (bfree_bitmap (fs_sbi s)) root) as Hfill.
  cbv zeta in Hfill. rewrite <- Hoff in Hfill. fold csb in Hfill.
  clearbody csb. injection Hcnt as E1 E2 E3 E4 E5 E6 E7.
  eexists. split; [done|]. split; [apply Hfill|].
  - exact Hsb.
  - by rewrite Hmag.
  - done.
  - destruct Hwf as [W1 W2 W3 W4]. split; cbn [set_sbi fs_sbi sbd mount_sbd ifree_bitmap bfree_bitmap
      nr_blocks nr_inodes nr_istore_blocks nr_ifree_blocks nr_bfree_blocks nr_free_inodes nr_free_blocks];
      rewrite ?E1, ?E2, ?E3, ?E4, ?E5, ?E6, ?E7; assumption.
  - by rewrite E2.
  - intros k Hk. rewrite E4 in Hk. rewrite E3. by apply HI.
  - intros k Hk. rewrite E5 in Hk. rewrite E3, E4. by apply HB.
  - apply lookup_empty.
  - rewrite <- Hroot. unfold stored_inode.
    change (inode_block_of 0) with 1. rewrite <- (Hother 1) by lia. done.
  - cbn [set_icache set_sbi fs_sbi ifree_bitmap bfree_bitmap sbd]. split_and!; [done..| |].
    + unfold sb_counts. cbn [mount_sbd nr_blocks nr_inodes nr_istore_blocks nr_ifree_blocks
        nr_bfree_blocks nr_free_inodes nr_free_blocks]. congruence.
    + exact Hother.
Qed.

Lemma sb_counts_free_blocks d d' : sb_counts d = sb_counts d' -> nr_free_blocks d = nr_free_blocks d'.
Proof. unfold sb_counts. congruence. Qed.

(** The small image after allocating two blocks. *)
Definition ex_fs2 : fs := set_sbi (snd (get_free_blocks (fs_sbi ex_fs) 2)) ex_fs.
Lemma sync_mount_roundtrip_witness :
  exists s1 s2, lolelffs_sync_fs ex_fs2 = (Ok tt, s1) /\
    lolelffs_fill_super (fun _ => true) [] None (set_icache ∅ s1) = (Ok tt, s2) /\
    nr_free_blocks (sbd (fs_sbi s2)) = 9.
Proof.
  destruct (sync_mount_roundtrip (fun _ => true) [] None ex_fs2
    (bytes_of_sb ex_sb ++ zeros (BLK - 164)) ex_root) as (s1 & s2 & H1 & H2 & _ & _ & H3 & _).
  - vm_compute. done.
  - split; apply (bool_decide_unpack _); vm_compute; exact I.
  - vm_compute. discriminate.
  - vm_compute. done.
  - vm_compute. done.
  - vm_compute. done.
  - vm_compute. done.
  - intros j Hj. assert (0 <= j < 4) as Hj' by exact Hj.
    assert (j = 0 \/ j = 1 \/ j = 2 \/ j = 3) as [->|[->|[->| ->]]] by lia;
      (eexists; vm_compute; reflexivity).
  - vm_compute. done.
  - done.
  - exists s1, s2. split; [done|]. split; [done|].
    rewrite (sb_counts_free_blocks _ _ H3). vm_compute. done.
Defined.

(** A superblock whose map of inodes has 2^20 blocks is accepted, and the
    product that sizes the buffer wraps to zero: the first copy of a map block
    writes outside the buffer. *)
Theorem mount_bitmap_size_wraps kmalloc after bdev_file s b b1 :
  let off := Z.quot (detect_offset kmalloc after bdev_file) LOLELFFS_BLOCK_SIZE in
  fs_disk s !! off = Some b -> magic (sb_of_block b) = LOLELFFS_MAGIC ->
  nr_ifree_blocks (sb_of_block b) = 2 ^ 20 ->
  fs_disk s !! (i32 (nr_istore_blocks (sb_of_block b) + 1) + off) = Some b1 ->
  (forall a, oom (fs_k s) a = false) ->
  fst (lolelffs_fill_super kmalloc after bdev_file s) = Err MEMFAULT.
Proof.
  intros off Hb Hm Hn Hb1 Ho. unfold lolelffs_fill_super. fold off. rewrite bind_gets. unfold id.
  change (LOLELFFS_SB_BLOCK_NR + off) with (0 + off). rewrite Z.add_0_l, Hb.
  rewrite (proj2 (Z.eqb_eq _ _) Hm). cbn [negb]. rewrite !Ho, bind_modify, Hn.
  set (s1 := set_sbi _ s).
  change (bitmap_size (2 ^ 20)) with 0.
  assert (Z.to_nat (2 ^ 20) = S (Z.to_nat (2 ^ 20 - 1))) as -> by lia.
  unfold mbind at 1, M_bind at 1. cbn [load_bitmap].
  change (Z.of_nat 0) with 0. rewrite Z.add_0_r. rewrite (bind_run _ _ _ b1 _ (bread_run s1 _ b1 Hb1)).
  change (bitmap_access_ok 0 0) with false. done.
Qed.

(** The small image with the size of its inode map corrupted. *)
Definition ex_wrapped : fs :=
  set_disk (<[0 := wr32 16 (2 ^ 20) (bytes_of_sb ex_sb ++ zeros (BLK - 164))]> ex_disk) ex_unmounted.
Lemma mount_bitmap_size_wraps_witness :
  fst (lolelffs_fill_super (fun _ => true) [] None ex_wrapped) = Err MEMFAULT.
Proof.
  apply (mount_bitmap_size_wraps (fun _ => true) [] None ex_wrapped
    (wr32 16 (2 ^ 20) (bytes_of_sb ex_sb ++ zeros (BLK - 164))) ex_ifree); vm_compute; done.
Defined.

(** C39 statfs reports the two free maps exactly: the blocks and inodes it calls
    free are as many as the maps have free, and the files it counts are the
    inodes in use, not the inodes of the file system. *)
Theorem statfs_counts_free_maps s :
  block_inv s -> inode_inv s -> 1 <= nr_blocks (sbd s) ->
  let st := lolelffs_statfs s in
  f_bfree st = Z.of_nat (size (free_blocks s)) /\ f_bavail st = f_bfree st /\
  f_bfree st < f_blocks st /\
  f_ffree st = Z.of_nat (size (free_inodes s)) /\
  f_files st + f_ffree st = nr_inodes (sbd s).
Proof.
  intros Hb (Hi1 & Hi2 & Hi3 & Hi4) Hn. pose proof (map_inv_univ _ _ _ Hb) as Hu.
  destruct Hb as (Hb1 & Hb2 & Hb3 & Hb4). cbn.
  pose proof (free_set_bound (ifree_bitmap s) (nr_inodes (sbd s)) ltac:(lia)).
  apply subseteq_size, inj_le in Hu. unfold univ in Hu. rewrite size_range in Hu by lia.
  unfold free_blocks, free_inodes. rewrite u32_small by lia. split_and!; lia.
Qed.

Lemma statfs_counts_free_maps_witness : f_bfree (lolelffs_statfs ex_sbi) = 15.
Proof.
  destruct (statfs_counts_free_maps ex_sbi ex_block_inv) as (H & _);
    [exact ex_block_inv|vm_compute; discriminate|]. rewrite H. vm_compute. done.
Defined.
