(* ===== verification/Mkfs.v ===== *)
(** * mkfs.lolelffs (src/src/mkfs.c)

    Computing the geometry from the size of the image and writing the
    superblock, the inode store, the two free maps and the index block of the
    root directory. *)
From S2P Require Import Prelude Layout Bitmap State Elf Super.

(** The output file: its blocks, the block position of the descriptor (every
    write is one whole block), and whether the write at a position succeeds. *)
Record image := Image {
  img_blocks : gmap Z block;
  img_pos : Z;
  img_writable : Z -> bool
}.

Definition write_block (b : block) : M image unit := fun f =>
  if img_writable f (img_pos f)
  then (Ok tt, Image (<[img_pos f := b]> (img_blocks f)) (img_pos f + 1) (img_writable f))
  else (Err EIO, f).

(** for (i = from; i < n; i++) write(fd, block, LOLELFFS_BLOCK_SIZE) *)
Fixpoint write_copies (n : nat) (b : block) : M image unit :=
  match n with
  | O => mret tt
  | S n => write_block b;; write_copies n b
  end.

(** ** idiv_ceil and the geometry of write_superblock *)

Definition idiv_ceil (a b : Z) : Z :=
  let ret := a / b in
  if negb (a mod b =? 0) then ret +₃₂ 1 else ret.

(** The struct lolelffs_sb_info write_superblock fills in. *)
Definition mkfs_sb (st_size : Z) : sb_disk :=
  let nr_blocks := u32 (st_size / LOLELFFS_BLOCK_SIZE) in
  let nr_inodes := nr_blocks in
  let m := nr_inodes mod LOLELFFS_INODES_PER_BLOCK in
  let nr_inodes :=
    if negb (m =? 0) then u32 (nr_inodes + (LOLELFFS_INODES_PER_BLOCK - m)) else nr_inodes in
  let nr_istore_blocks := idiv_ceil nr_inodes LOLELFFS_INODES_PER_BLOCK in
  let nr_ifree_blocks := idiv_ceil nr_inodes (LOLELFFS_BLOCK_SIZE * 8) in
  let nr_bfree_blocks := idiv_ceil nr_blocks (LOLELFFS_BLOCK_SIZE * 8) in
  let nr_data_blocks :=
    nr_blocks -₃₂ 1 -₃₂ nr_istore_blocks -₃₂ nr_ifree_blocks -₃₂ nr_bfree_blocks in
  SbDisk LOLELFFS_MAGIC nr_blocks nr_inodes nr_istore_blocks nr_ifree_blocks nr_bfree_blocks
    (nr_inodes -₃₂ 1) (nr_data_blocks -₃₂ 1) LOLELFFS_VERSION LOLELFFS_COMP_LZ4 1 128
    LOLELFFS_FEATURE_LARGE_EXTENTS LOLELFFS_MAX_BLOCKS_PER_EXTENT
    LOLELFFS_MAX_BLOCKS_PER_EXTENT_LARGE 0 LOLELFFS_ENC_NONE LOLELFFS_KDF_ARGON2ID 3 65536 4
    (zeros 32) (zeros 32) 0 (zeros 12).

(** struct superblock: the information, padded to a block. *)
Definition superblock_block (d : sb_disk) : block := bytes_of_sb d ++ zeros (BLK - 164).

Definition write_superblock (st_size : Z) : M image sb_disk :=
  let d := mkfs_sb st_size in
  write_block (superblock_block d);; mret d.

(** ** write_inode_store *)

Definition first_data_block (d : sb_disk) : Z :=
  1 +₃₂ nr_bfree_blocks d +₃₂ nr_ifree_blocks d +₃₂ nr_istore_blocks d.

(** S_IFDIR | S_IRUSR | S_IRGRP | S_IROTH | S_IWUSR | S_IWGRP | S_IXUSR | S_IXGRP | S_IXOTH *)
Definition root_mode : Z := Z.lor S_IFDIR 0x1FD.

Definition root_inode (d : sb_disk) : lolelffs_inode :=
  DInode root_mode 0 0 LOLELFFS_BLOCK_SIZE 0 0 0 1 2 (first_data_block d) 0 (zeros 28).

Definition write_inode_store (d : sb_disk) : M image unit :=
  write_block (put_inode_at 0 (root_inode d) (zeros BLK));;
  write_copies (Z.to_nat (nr_istore_blocks d - 1)) (zeros BLK).

(** ** write_ifree_blocks *)

Definition ones_block : block := replicate BLK 255.

Definition write_ifree_blocks (d : sb_disk) : M image unit :=
  write_block (splice 0 (le_enc 8 0xfffffffffffffffe) ones_block);;
  write_copies (Z.to_nat (nr_ifree_blocks d - 1)) (splice 0 (le_enc 8 0xffffffffffffffff) ones_block).

(** ** write_bfree_blocks *)

(** for (mask = 1; mask; mask <<= 1): clear one bit of the line per used block. *)
Fixpoint clear_line (fuel : nat) (mask line nr_used : Z) : Z * Z :=
  match fuel with
  | O => (line, nr_used)
  | S fuel =>
      if mask =? 0 then (line, nr_used)
      else
        let line := Z.land line (u64 (Z.lnot mask)) in
        let nr_used := nr_used -₃₂ 1 in
        if nr_used =? 0 then (line, nr_used)
        else clear_line fuel (u64 (Z.shiftl mask 1)) line nr_used
  end.

(** while (nr_used): store one 64-bit line.  The buffer has 512 of them; the
    model stops where the source writes past it. *)
Fixpoint mark_used (fuel : nat) (i : nat) (nr_used : Z) (b : block) : option block :=
  match fuel with
  | O => None
  | S fuel =>
      if nr_used =? 0 then Some b
      else if (512 <=? i)%nat then None
      else
        let '(line, nr_used) := clear_line 64 1 0xffffffffffffffff nr_used in
        mark_used fuel (S i) nr_used (splice (8 * i) (le_enc 8 line) b)
  end.

Definition nr_used_blocks (d : sb_disk) : Z :=
  nr_istore_blocks d +₃₂ nr_ifree_blocks d +₃₂ nr_bfree_blocks d +₃₂ 2.

Definition write_bfree_blocks (d : sb_disk) : M image unit :=
  match mark_used 514 0 (nr_used_blocks d) ones_block with
  | None => fail MEMFAULT
  | Some b =>
      write_block b;;
      write_copies (Z.to_nat (nr_bfree_blocks d - 1)) ones_block
  end.

(** ** write_data_blocks *)

Definition write_data_blocks : M image unit := write_block (put_nr_files 0 (zeros BLK)).

(** ** main, from the size check on *)

Definition mkfs_min_size : Z := 100 * LOLELFFS_BLOCK_SIZE.

Definition mkfs_main (st_size : Z) : M image sb_disk :=
  if st_size <=? mkfs_min_size then fail EINVAL
  else
    sb ← write_superblock st_size;
    write_inode_store sb;;
    write_ifree_blocks sb;;
    write_bfree_blocks sb;;
    write_data_blocks;;
    mret sb.

(** main: [st_size] is what fstat gives ([None] if it fails), [blkdev] what
    BLKGETSIZE64 answers when the file is a block device.  check_elf_file only
    prints and its result is not used.  The exit code. *)
Definition mkfs_command (argc : Z) (opened : bool) (st_size : option Z) (blkdev : option (option Z)) : M image Z :=
  if negb (argc =? 2) then mret 1
  else if negb opened then mret 1
  else
    match st_size, blkdev with
    | None, _ | Some _, Some None => mret 1
    | Some n, None | Some _, Some (Some n) =>
        r ← attempt (mkfs_main n);
        mret match r with Ok _ => 0 | Err _ => 1 end
    end.

(** ** Lemmas on the geometry *)

(** The largest image for which the used blocks fit the first map block: 1828624
    blocks and less than a block more (mkfs_over_max). *)
Definition mkfs_max_size : Z := 1828625 * 4096 - 1.

(** What the other files need to know about a superblock written by mkfs. *)
Record geometry (n : Z) (d : sb_disk) : Prop := {
  geo_magic : magic d = LOLELFFS_MAGIC;
  geo_blocks : nr_blocks d = n;
  geo_min : 100 <= n <= 1828624;
  geo_inodes : nr_inodes d = 56 * nr_istore_blocks d;
  geo_inodes_le : n <= nr_inodes d < n + 56;
  geo_ifree : 1 <= nr_ifree_blocks d <= 56 /\ nr_inodes d <= 32768 * nr_ifree_blocks d;
  geo_bfree : 1 <= nr_bfree_blocks d <= 56 /\ nr_blocks d <= 32768 * nr_bfree_blocks d;
  geo_used : nr_used_blocks d = nr_istore_blocks d + nr_ifree_blocks d + nr_bfree_blocks d + 2;
  geo_used_le : nr_used_blocks d <= 32768 /\ nr_used_blocks d <= n;
  geo_free_blocks : nr_free_blocks d = n - nr_used_blocks d;
  geo_free_inodes : nr_free_inodes d = nr_inodes d - 1;
  geo_first : first_data_block d = nr_used_blocks d - 1;
  geo_settings : version d = LOLELFFS_VERSION /\ comp_default_algo d = LOLELFFS_COMP_LZ4 /\
    max_extent_blocks d = LOLELFFS_MAX_BLOCKS_PER_EXTENT /\
    max_extent_blocks_large d = LOLELFFS_MAX_BLOCKS_PER_EXTENT_LARGE /\
    enc_default_algo d = LOLELFFS_ENC_NONE /\ enc_kdf_algo d = LOLELFFS_KDF_ARGON2ID /\
    enc_kdf_iterations d = 3 /\ enc_kdf_memory d = 65536 /\ enc_kdf_parallelism d = 4;
  geo_fits : sb_fits d
}.

Lemma idiv_ceil_spec a b : is_u32 a -> 1 < b -> idiv_ceil a b * b - b < a <= idiv_ceil a b * b.
Proof.
  intros Ha Hb. unfold idiv_ceil. pose proof (Z.mod_pos_bound a b ltac:(lia)).
  pose proof (Z.div_mod a b ltac:(lia)).
  assert (0 <= a / b) by (apply Z.div_pos; lia).
  assert (a / b <= a / 2) by (apply Z.div_le_compat_l; lia).
  assert (a / 2 < 2 ^ 31) by (apply Z.div_lt_upper_bound; lia).
  destruct (Z.eqb_spec (a mod b) 0); cbn [negb]; [|nowrap]; nia.
Qed.

Lemma mkfs_geometry st_size :
  mkfs_min_size < st_size <= mkfs_max_size -> geometry (st_size / 4096) (mkfs_sb st_size).
Proof.
  unfold mkfs_min_size, mkfs_max_size. assert (LOLELFFS_BLOCK_SIZE = 4096) as E1 by reflexivity.
  assert (LOLELFFS_INODES_PER_BLOCK = 56) as E2 by reflexivity. rewrite E1. intros Hsz.
  assert (100 <= st_size / 4096 <= 1828624) as Hn by dlia.
  unfold mkfs_sb. rewrite E1, E2. rewrite (u32_small (st_size / 4096)) by lia.
  set (n := st_size / 4096) in *. clearbody n. cbv zeta.
  set (ni := if negb (n mod 56 =? 0) then _ else n).
  assert (n <= ni < n + 56 /\ ni mod 56 = 0) as [Hni Hmod].
  { subst ni. destruct (Z.eqb_spec (n mod 56) 0); cbn [negb]; [lia|].
    rewrite u32_small by dlia. dlia. }
  clearbody ni.
  pose proof (idiv_ceil_spec ni 56 ltac:(lia) ltac:(lia)) as Hi.
  pose proof (idiv_ceil_spec ni (4096 * 8) ltac:(lia) ltac:(lia)) as Hf.
  pose proof (idiv_ceil_spec n (4096 * 8) ltac:(lia) ltac:(lia)) as Hb.
  set (ist := idiv_ceil ni 56) in *. set (ifr := idiv_ceil ni (4096 * 8)) in *.
  set (bfr := idiv_ceil n (4096 * 8)) in *. clearbody ist ifr bfr.
  assert (ni = 56 * ist) as Hist by dlia.
  assert (1 <= ifr <= 56) by lia. assert (1 <= bfr <= 56) by lia.
  assert (ist + ifr + bfr + 2 <= 32768 /\ ist + ifr + bfr + 2 <= n) as [Hu1 Hu2] by lia.
  split; unfold nr_used_blocks, first_data_block; cbn; nowrap; try lia; try done.
  split; [|done]. cbn. rewrite !Forall_cons. unfold LOLELFFS_MAGIC, LOLELFFS_COMP_LZ4, LOLELFFS_VERSION,
    LOLELFFS_FEATURE_LARGE_EXTENTS, LOLELFFS_MAX_BLOCKS_PER_EXTENT, LOLELFFS_MAX_BLOCKS_PER_EXTENT_LARGE,
    LOLELFFS_ENC_NONE, LOLELFFS_KDF_ARGON2ID.
  repeat split; lia || constructor.
Qed.

(** ** Lemmas on the words of a map *)

Lemma lookup_le_enc n : forall v k, (k < n)%nat ->
  le_enc n v !! k = Some ((v / 256 ^ Z.of_nat k) mod 256).
Proof.
  induction n as [|n IH]; intros v k Hk; [lia|]. cbn [le_enc]. destruct k as [|k].
  - cbn. by rewrite Z.div_1_r.
  - cbn [lookup list_lookup]. rewrite IH by lia.
    rewrite Nat2Z.inj_succ, Z.pow_succ_r by lia. by rewrite Zdiv.Zdiv_Zdiv by lia.
Qed.

(** Bit [j] of the encoded word is bit [j] of its value. *)
Lemma test_bit_le_enc n v j :
  0 <= j < 8 * Z.of_nat n -> test_bit (le_enc n v) j = Z.testbit v j.
Proof.
  intros Hj. unfold test_bit, bit_byte. rewrite lookup_le_enc by dlia.
  cbn [default from_option id].
  rewrite Z2Nat.id by dlia. change 256 with (2 ^ 8).
  rewrite <- Z.pow_mul_r, Z.mod_pow2_bits_low, Z.div_pow2_bits by dlia.
  f_equal. dlia.
Qed.

Lemma test_bit_splice off w b j :
  (off + length w <= length b)%nat -> 0 <= j ->
  test_bit (splice off w b) j =
    if in_range (8 * Z.of_nat off) (8 * Z.of_nat (length w)) j
    then test_bit w (j - 8 * Z.of_nat off) else test_bit b j.
Proof.
  intros Hl Hj. unfold test_bit, bit_byte, in_range.
  destruct (Z.leb_spec (8 * Z.of_nat off) j),
    (Z.ltb_spec j (8 * Z.of_nat off + 8 * Z.of_nat (length w))); cbn [andb].
  - rewrite lookup_splice_in by dlia.
    replace ((j - 8 * Z.of_nat off) / 8) with (j / 8 - Z.of_nat off) by dlia.
    replace ((j - 8 * Z.of_nat off) mod 8) with (j mod 8) by dlia.
    do 3 f_equal. dlia.
  - rewrite lookup_splice_out by dlia. done.
  - rewrite lookup_splice_out by dlia. done.
  - rewrite lookup_splice_out by dlia. done.
Qed.

Lemma test_bit_replicate n x j :
  0 <= j < 8 * Z.of_nat n -> test_bit (replicate n x) j = Z.testbit x (j mod 8).
Proof. intros. unfold test_bit, bit_byte. rewrite lookup_replicate_2 by dlia. done. Qed.

Lemma test_bit_ones j : 0 <= j < 32768 -> test_bit ones_block j = true.
Proof.
  intros. unfold ones_block. rewrite test_bit_replicate by (unfold BLK; lia).
  change 255 with (2 ^ 8 - 1). rewrite Z.sub_1_r, <- Z.ones_equiv.
  apply Z.ones_spec_low. dlia.
Qed.

Lemma length_ones : length ones_block = BLK.
Proof. apply length_replicate. Qed.

(** [clear_line] from bit [k] on clears the next [nr] bits of the line. *)
Lemma clear_line_spec m : forall k line nr,
  (k + m = 64)%nat -> 1 <= nr < 2 ^ 32 ->
  let '(line', nr') := clear_line m (u64 (2 ^ Z.of_nat k)) line nr in
  nr' = Z.max 0 (nr - Z.of_nat m) /\
  forall j, 0 <= j < 64 ->
    Z.testbit line' j = Z.testbit line j && negb (in_range (Z.of_nat k) (Z.min nr (Z.of_nat m)) j).
Proof.
  induction m as [|m IH]; intros k line nr Hk Hnr; cbn [clear_line].
  { split; [lia|]. intros j Hj. unfold in_range. rewrite (proj2 (Z.leb_gt _ _)) by lia.
    cbn. by rewrite andb_true_r. }
  assert (2 ^ Z.of_nat k < 2 ^ 64) as Hp by (apply Z.pow_lt_mono_r; lia).
  rewrite (u64_small (2 ^ _)) by lia.
  destruct (Z.eqb_spec (2 ^ Z.of_nat k) 0) as [E|_]; [lia|].
  assert (forall j, 0 <= j < 64 ->
    Z.testbit (Z.land line (u64 (Z.lnot (2 ^ Z.of_nat k)))) j = Z.testbit line j && negb (j =? Z.of_nat k)) as Hl.
  { intros j Hj. rewrite Z.land_spec. unfold u64.
    rewrite Z.mod_pow2_bits_low, Z.lnot_spec by lia. f_equal. f_equal.
    rewrite Z.pow2_bits_eqb by lia. apply Z.eqb_sym. }
  set (line1 := Z.land _ _) in *. clearbody line1. nowrap.
  destruct (Z.eqb_spec (nr - 1) 0) as [E|E].
  - split; [lia|]. intros j Hj. rewrite Hl by done. unfold in_range.
    destruct (Z.eqb_spec j (Z.of_nat k)), (Z.leb_spec (Z.of_nat k) j),
      (Z.ltb_spec j (Z.of_nat k + Z.min nr (Z.of_nat (S m)))); lia || done.
  - rewrite Z.shiftl_mul_pow2 by lia.
    replace (2 ^ Z.of_nat k * 2 ^ 1) with (2 ^ Z.of_nat (S k))
      by (rewrite Nat2Z.inj_succ, Z.pow_succ_r by lia; lia).
    specialize (IH (S k) line1 (nr - 1) ltac:(lia) ltac:(lia)).
    destruct (clear_line m _ line1 (nr - 1)) as [line' nr']. destruct IH as [-> IH].
    split; [lia|]. intros j Hj. rewrite IH, Hl by done. unfold in_range.
    destruct (Z.eqb_spec j (Z.of_nat k)), (Z.leb_spec (Z.of_nat k) j), (Z.leb_spec (Z.of_nat (S k)) j),
      (Z.ltb_spec j (Z.of_nat k + Z.min nr (Z.of_nat (S m)))),
      (Z.ltb_spec j (Z.of_nat (S k) + Z.min (nr - 1) (Z.of_nat m)));
      cbn; rewrite ?andb_false_r, ?andb_true_r; lia || done.
Qed.

(** The loop over the lines marks exactly the first [nr] blocks used. *)
Lemma mark_used_spec fuel : forall i nr b,
  length b = BLK -> (i <= 512)%nat -> (513 <= i + fuel)%nat -> 0 <= nr <= 64 * (512 - Z.of_nat i) ->
  exists b', mark_used fuel i nr b = Some b' /\ length b' = BLK /\
    forall j, 0 <= j < 32768 ->
      test_bit b' j = if in_range (64 * Z.of_nat i) (64 * ((nr + 63) / 64)) j
                      then 64 * Z.of_nat i + nr <=? j else test_bit b j.
Proof.
  induction fuel as [|fuel IH]; intros i nr b Hb Hi Hf Hnr; [lia|]. cbn [mark_used].
  destruct (Z.eqb_spec nr 0) as [->|Hnz].
  { exists b. split; [done|]. split; [done|]. intros j Hj. unfold in_range.
    change (64 * ((0 + 63) / 64)) with 0.
    destruct (Z.leb_spec (64 * Z.of_nat i) j), (Z.ltb_spec j (64 * Z.of_nat i + 0)); lia || done. }
  rewrite (proj2 (Nat.leb_gt 512 i)) by lia.
  pose proof (clear_line_spec 64 0 0xffffffffffffffff nr ltac:(lia) ltac:(lia)) as Hc.
  change (u64 (2 ^ Z.of_nat 0)) with 1 in Hc.
  destruct (clear_line 64 1 _ nr) as [line nr']. destruct Hc as [-> Hline].
  assert (length (splice (8 * i) (le_enc 8 line) b) = BLK) as Hlen by (by rewrite length_splice).
  destruct (IH (S i) (Z.max 0 (nr - Z.of_nat 64)) (splice (8 * i) (le_enc 8 line) b))
    as (b' & E & Hb' & Ht); [done|lia|lia|lia|].
  exists b'. split; [done|]. split; [done|]. intros j Hj. rewrite (Ht j Hj).
  rewrite test_bit_splice by (rewrite ?length_le_enc, ?Hb; unfold BLK; lia).
  rewrite length_le_enc.
  assert (in_range (8 * Z.of_nat (8 * i)) (8 * Z.of_nat 8) j = true ->
    test_bit (le_enc 8 line) (j - 8 * Z.of_nat (8 * i)) = (64 * Z.of_nat i + nr <=? j)) as Hword.
  { intros Hin. unfold in_range in Hin. zbool. rewrite test_bit_le_enc by lia. rewrite Hline by lia.
    change 0xffffffffffffffff with (Z.ones 64). rewrite Z.ones_spec_low by lia. unfold in_range.
    destruct (Z.leb_spec (Z.of_nat 0) (j - 8 * Z.of_nat (8 * i))),
      (Z.ltb_spec (j - 8 * Z.of_nat (8 * i)) (Z.of_nat 0 + Z.min nr (Z.of_nat 64))),
      (Z.leb_spec (64 * Z.of_nat i + nr) j); cbn; lia || done. }
  destruct (in_range (8 * Z.of_nat (8 * i)) (8 * Z.of_nat 8) j) eqn:E8;
    [rewrite Hword by done|]; unfold in_range in *.
  - zbool. rewrite (proj2 (Z.leb_gt (64 * Z.of_nat (S i)) j)) by lia. cbn [andb].
    rewrite (proj2 (Z.leb_le (64 * Z.of_nat i) j)), (proj2 (Z.ltb_lt j _)) by dlia. done.
  - destruct (Z.leb_spec (64 * Z.of_nat (S i)) j), (Z.leb_spec (64 * Z.of_nat i) j); try lia;
      destruct (Z.leb_spec (8 * Z.of_nat (8 * i)) j),
        (Z.ltb_spec j (8 * Z.of_nat (8 * i) + 8 * Z.of_nat 8)); try lia; cbn in E8; try done; cbn [andb].
    destruct (decide (nr <= 64)).
    + rewrite (proj2 (Z.ltb_ge j _)) by dlia. rewrite (proj2 (Z.ltb_ge j _)) by dlia. done.
    + rewrite Z.max_r by lia.
      replace (64 * Z.of_nat (S i) + 64 * ((nr - Z.of_nat 64 + 63) / 64))
        with (64 * Z.of_nat i + 64 * ((nr + 63) / 64)) by dlia.
      replace (64 * Z.of_nat (S i) + (nr - Z.of_nat 64)) with (64 * Z.of_nat i + nr) by lia. done.
Qed.

(** ** Sequential writes *)

(** [m] writes the blocks [bs] at the position of the file and returns [a],
    provided the file accepts them. *)
Definition writes {A} (m : M image A) (bs : list block) (a : A) : Prop :=
  forall f, (forall j, img_pos f <= j < img_pos f + Z.of_nat (length bs) -> img_writable f j = true) ->
    m f = (Ok a, Image (map_seqZ (img_pos f) bs ∪ img_blocks f) (img_pos f + Z.of_nat (length bs))
                   (img_writable f)).

Lemma writes_ret {A} (a : A) : writes (mret a) [] a.
Proof.
  intros [m p w] _. unfold mret, M_ret. cbn. rewrite (left_id_L ∅ (∪)). by rewrite Z.add_0_r.
Qed.

Lemma writes_bind {A B} (m : M image A) (k : A -> M image B) bs bs' a b :
  writes m bs a -> writes (k a) bs' b -> writes (m ≫= k) (bs ++ bs') b.
Proof.
  intros H1 H2 f Hw. rewrite length_app in Hw.
  rewrite (bind_run _ _ _ _ _ (H1 f ltac:(intros; apply Hw; lia))).
  rewrite H2 by (intros; apply Hw; cbn in *; lia). cbn. rewrite length_app.
  do 2 f_equal; [|lia]. rewrite (assoc_L (∪)), map_seqZ_app. f_equal.
  apply map_union_comm. apply map_disjoint_spec. intros i x y Hx Hy.
  apply lookup_map_seqZ_Some in Hx as [? _]. apply lookup_map_seqZ_Some in Hy as [_ Hy].
  apply lookup_lt_Some in Hy. lia.
Qed.

Lemma writes_block b : writes (write_block b) [b] tt.
Proof.
  intros f Hw. unfold write_block. rewrite Hw by (cbn; lia). cbn. do 2 f_equal.
  by rewrite insert_union_singleton_l.
Qed.

Lemma writes_copies n b : writes (write_copies n b) (replicate n b) tt.
Proof.
  induction n as [|n IH]; [apply writes_ret|]. cbn [write_copies replicate].
  change (b :: replicate n b) with ([b] ++ replicate n b). apply (writes_bind _ _ _ _ tt); [apply writes_block|apply IH].
Qed.

(** A block followed by [n - 1] others. *)
Lemma writes_block_copies n b b' :
  writes (write_block b;; write_copies n b') (b :: replicate n b') tt.
Proof.
  change (b :: replicate n b') with ([b] ++ replicate n b').
  apply (writes_bind _ _ _ _ tt); [apply writes_block|apply writes_copies].
Qed.

(** ** The image mkfs writes *)

Definition istore_layout (d : sb_disk) : list block :=
  put_inode_at 0 (root_inode d) (zeros BLK) :: replicate (Z.to_nat (nr_istore_blocks d - 1)) (zeros BLK).
Definition ifree_layout (d : sb_disk) : list block :=
  splice 0 (le_enc 8 0xfffffffffffffffe) ones_block ::
  replicate (Z.to_nat (nr_ifree_blocks d - 1)) (splice 0 (le_enc 8 0xffffffffffffffff) ones_block).
Definition bfree_layout (d : sb_disk) (first : block) : list block :=
  first :: replicate (Z.to_nat (nr_bfree_blocks d - 1)) ones_block.
Definition mkfs_layout (d : sb_disk) (first : block) : list block :=
  [superblock_block d] ++ istore_layout d ++ ifree_layout d ++ bfree_layout d first ++
  [put_nr_files 0 (zeros BLK)].

Lemma mark_used_first nr :
  0 <= nr <= 32768 -> exists b, mark_used 514 0 nr ones_block = Some b /\ length b = BLK /\
    forall j, 0 <= j < 32768 -> test_bit b j = (nr <=? j).
Proof.
  intros Hnr. destruct (mark_used_spec 514 0 nr ones_block length_ones) as (b & E & Hb & Ht); [lia..|].
  exists b. split; [done|]. split; [done|]. intros j Hj. rewrite Ht by done. unfold in_range.
  rewrite test_bit_ones by done.
  destruct (Z.leb_spec (64 * Z.of_nat 0) j), (Z.ltb_spec j (64 * Z.of_nat 0 + 64 * ((nr + 63) / 64)));
    cbn [andb]; [done| |lia|lia].
  symmetry. apply Z.leb_le. dlia.
Qed.

Lemma mkfs_main_writes st_size :
  mkfs_min_size < st_size <= mkfs_max_size ->
  let d := mkfs_sb st_size in
  exists first, writes (mkfs_main st_size) (mkfs_layout d first) d /\ length first = BLK /\
    forall j, 0 <= j < 32768 -> test_bit first j = (nr_used_blocks d <=? j).
Proof.
  intros Hsz d. pose proof (mkfs_geometry st_size Hsz) as G. fold d in G.
  destruct (mark_used_first (nr_used_blocks d)) as (first & E & Hl & Ht).
  { pose proof (geo_used_le _ _ G). pose proof (geo_used _ _ G).
    pose proof (geo_ifree _ _ G). pose proof (geo_bfree _ _ G). pose proof (geo_min _ _ G).
    pose proof (geo_inodes _ _ G). pose proof (geo_inodes_le _ _ G). lia. }
  exists first. split; [|done]. unfold mkfs_main. rewrite (proj2 (Z.leb_gt _ _)) by lia.
  unfold mkfs_layout. apply (writes_bind _ _ _ _ d).
  { unfold write_superblock. fold d. rewrite <- (app_nil_r [superblock_block d]).
    apply (writes_bind _ _ _ _ tt); [apply writes_block|apply writes_ret]. }
  apply (writes_bind _ _ _ _ tt); [apply writes_block_copies|].
  apply (writes_bind _ _ _ _ tt); [apply writes_block_copies|].
  apply (writes_bind _ _ _ _ tt); [unfold write_bfree_blocks; rewrite E; apply writes_block_copies|].
  rewrite <- (app_nil_r [put_nr_files _ _]).
  apply (writes_bind _ _ _ _ tt); [apply writes_block|apply writes_ret].
Qed.

(** ** Free maps that span several blocks *)

Lemma length_concat_blocks bs :
  Forall (fun b : block => length b = BLK) bs -> length (concat bs) = (BLK * length bs)%nat.
Proof.
  induction 1 as [|b bs Hb Hbs IH]; [by rewrite Nat.mul_0_r|].
  cbn [concat]. rewrite length_app, IH, Hb, length_cons. lia.
Qed.

Lemma bitmap_block_concat bs : forall k b,
  Forall (fun b : block => length b = BLK) bs -> bs !! k = Some b -> bitmap_block (concat bs) k = b.
Proof.
  unfold bitmap_block. induction bs as [|b0 bs IH]; intros k b Hall Hk; [done|].
  apply Forall_cons in Hall as [Hb0 Hall]. cbn [concat]. destruct k as [|k].
  - injection Hk as ->. rewrite Nat.mul_0_r, slice_app_l by lia. by apply slice_all.
  - rewrite slice_app_r by lia. rewrite Hb0.
    replace (BLK * S k - BLK)%nat with (BLK * k)%nat by lia. by apply IH.
Qed.

Lemma test_bit_concat bs : forall k b j,
  Forall (fun b : block => length b = BLK) bs -> bs !! k = Some b -> 0 <= j < 32768 ->
  test_bit (concat bs) (32768 * Z.of_nat k + j) = test_bit b j.
Proof.
  intros k b j Hall Hk Hj.
  pose proof (bitmap_block_concat bs k b Hall Hk) as Hb. rewrite <- Hb.
  unfold bitmap_block, test_bit, bit_byte. rewrite lookup_slice.
  assert (Z.to_nat (j / 8) < BLK)%nat by (unfold BLK; dlia). rewrite decide_True by done.
  replace (Z.to_nat ((32768 * Z.of_nat k + j) / 8)) with (BLK * k + Z.to_nat (j / 8))%nat
    by (unfold BLK; dlia).
  f_equal. dlia.
Qed.

(** A map whose bits from [used] on are set: the free numbers are a range. *)
Lemma free_set_threshold bm size used :
  0 <= used <= size -> (forall j, 0 <= j < size -> test_bit bm j = (used <=? j)) ->
  free_set bm size = range used (size - used).
Proof.
  intros Hu Ht. apply set_eq. intros i. rewrite elem_of_free_set, elem_of_range. split.
  - intros [Hi Hb]. rewrite Ht in Hb by done. apply Z.leb_le in Hb. lia.
  - intros Hi. split; [lia|]. rewrite Ht by lia. apply Z.leb_le. lia.
Qed.

Lemma map_inv_threshold bm size used :
  is_u32 size -> size <= nbits bm -> 1 <= used <= size ->
  (forall j, 0 <= j < size -> test_bit bm j = (used <=? j)) -> map_inv bm size (size - used).
Proof.
  intros Hs Hn Hu Ht. unfold map_inv. rewrite (free_set_threshold bm size used) by (done || lia).
  split_and!; [lia..| |].
  - rewrite elem_of_range. lia.
  - by rewrite size_range by lia.
Qed.

(** A first block with its bits from [used] on set, then full blocks. *)
Lemma threshold_map first rest m used :
  length first = BLK -> length rest = BLK -> 0 <= used <= 32768 ->
  (forall j, 0 <= j < 32768 -> test_bit first j = (used <=? j)) ->
  (forall j, 0 <= j < 32768 -> test_bit rest j = true) ->
  let bs := first :: replicate m rest in
  Forall (fun b : block => length b = BLK) bs /\
  forall j, 0 <= j < 32768 * (Z.of_nat m + 1) -> test_bit (concat bs) j = (used <=? j).
Proof.
  intros Hf Hr Hu Hft Hrt bs.
  assert (Forall (fun b : block => length b = BLK) bs) as Hall
    by (constructor; [done|by apply Forall_replicate]).
  split; [done|]. intros j Hj. set (k := Z.to_nat (j / 32768)).
  replace j with (32768 * Z.of_nat k + j mod 32768) at 1 by dlia.
  assert (0 <= j mod 32768 < 32768) by dlia. destruct k as [|k'] eqn:E.
  - rewrite (test_bit_concat _ 0 first), Hft by done. f_equal. dlia.
  - rewrite (test_bit_concat _ (S k') rest); [|done| |done].
    + rewrite Hrt by done. symmetry. apply Z.leb_le. dlia.
    + cbn [bs lookup list_lookup]. apply lookup_replicate_2. dlia.
Qed.

(** The two maps as mkfs writes them, read as a whole. *)
Lemma ifree_map_bits d n :
  geometry n d ->
  Forall (fun b : block => length b = BLK) (ifree_layout d) /\
  forall j, 0 <= j < nr_inodes d -> test_bit (concat (ifree_layout d)) j = (1 <=? j).
Proof.
  intros G. pose proof (geo_ifree _ _ G). unfold ifree_layout.
  destruct (threshold_map (splice 0 (le_enc 8 0xfffffffffffffffe) ones_block)
    (splice 0 (le_enc 8 0xffffffffffffffff) ones_block) (Z.to_nat (nr_ifree_blocks d - 1)) 1)
    as [H1 H2]; [by rewrite length_splice|by rewrite length_splice|lia| | |].
  - intros j Hj. rewrite test_bit_splice by (rewrite ?length_ones, ?length_le_enc; unfold BLK; lia).
    rewrite length_le_enc. unfold in_range. cases; zbool.
    + rewrite test_bit_le_enc by lia. change (8 * Z.of_nat 0) with 0. rewrite Z.sub_0_r.
      change 0xfffffffffffffffe with (Z.ldiff (Z.ones 64) 1).
      rewrite Z.ldiff_spec, Z.ones_spec_low by lia. change 1 with (2 ^ 0) at 1.
      rewrite Z.pow2_bits_eqb by lia. destruct (Z.eqb_spec 0 j), (Z.leb_spec 1 j); lia || done.
    + rewrite test_bit_ones by done. symmetry. apply Z.leb_le.
      apply andb_false_iff in E as [E|E]; zbool; lia.
  - intros j Hj. rewrite test_bit_splice by (rewrite ?length_ones, ?length_le_enc; unfold BLK; lia).
    rewrite length_le_enc. unfold in_range. cases; zbool; [|by apply test_bit_ones].
    rewrite test_bit_le_enc by lia. change 0xffffffffffffffff with (Z.ones 64).
    apply Z.ones_spec_low. lia.
  - split; [done|]. intros j Hj. apply H2. lia.
Qed.

Lemma bfree_map_bits d n first :
  geometry n d -> length first = BLK ->
  (forall j, 0 <= j < 32768 -> test_bit first j = (nr_used_blocks d <=? j)) ->
  Forall (fun b : block => length b = BLK) (bfree_layout d first) /\
  forall j, 0 <= j < n -> test_bit (concat (bfree_layout d first)) j = (nr_used_blocks d <=? j).
Proof.
  intros G Hl Ht. pose proof (geo_bfree _ _ G). pose proof (geo_used_le _ _ G).
  pose proof (geo_used _ _ G). pose proof (geo_ifree _ _ G). pose proof (geo_blocks _ _ G).
  pose proof (geo_inodes _ _ G). pose proof (geo_inodes_le _ _ G). pose proof (geo_min _ _ G).
  destruct (threshold_map first ones_block (Z.to_nat (nr_bfree_blocks d - 1)) (nr_used_blocks d))
    as [Hall Hbits]; [done|apply length_ones|lia|done|apply test_bit_ones|].
  split; [done|]. intros j Hj. apply Hbits. lia.
Qed.

(** ** Where the blocks are *)

Lemma image_lookup (l : list block) m k b :
  l !! k = Some b -> (map_seqZ 0 l ∪ m : gmap Z block) !! Z.of_nat k = Some b.
Proof.
  intros H. apply lookup_union_Some_l, lookup_map_seqZ_Some. split; [lia|].
  by rewrite Z.sub_0_r, Nat2Z.id.
Qed.

Section Placement.
Context (d : sb_disk) (n : Z) (G : geometry n d) (first : block).

Lemma layout_pos :
  1 <= nr_istore_blocks d /\ 1 <= nr_ifree_blocks d /\ 1 <= nr_bfree_blocks d.
Proof using G.
  pose proof (geo_ifree _ _ G). pose proof (geo_bfree _ _ G). pose proof (geo_min _ _ G).
  pose proof (geo_inodes _ _ G). pose proof (geo_inodes_le _ _ G). lia.
Qed.

Lemma length_istore : Z.of_nat (length (istore_layout d)) = nr_istore_blocks d.
Proof using G. unfold istore_layout. cbn. rewrite length_replicate. pose proof layout_pos. lia. Qed.

Lemma length_ifree : Z.of_nat (length (ifree_layout d)) = nr_ifree_blocks d.
Proof using G. unfold ifree_layout. cbn. rewrite length_replicate. pose proof layout_pos. lia. Qed.

Lemma length_bfree : Z.of_nat (length (bfree_layout d first)) = nr_bfree_blocks d.
Proof using G. unfold bfree_layout. cbn. rewrite length_replicate. pose proof layout_pos. lia. Qed.

Lemma layout_superblock : mkfs_layout d first !! 0%nat = Some (superblock_block d).
Proof using. done. Qed.

Lemma layout_root : mkfs_layout d first !! 1%nat = Some (put_inode_at 0 (root_inode d) (zeros BLK)).
Proof using. done. Qed.

Lemma layout_ifree k b :
  ifree_layout d !! k = Some b ->
  mkfs_layout d first !! Z.to_nat (nr_istore_blocks d + 1 + Z.of_nat k) = Some b.
Proof using G.
  intros H. pose proof length_istore. pose proof (lookup_lt_Some _ _ _ H).
  unfold mkfs_layout. do 2 rewrite lookup_app_r by (cbn [length]; lia).
  rewrite lookup_app_l by (cbn [length]; lia). rewrite <- H. f_equal. cbn [length]. lia.
Qed.

Lemma layout_bfree k b :
  bfree_layout d first !! k = Some b ->
  mkfs_layout d first !! Z.to_nat (nr_istore_blocks d + nr_ifree_blocks d + 1 + Z.of_nat k) = Some b.
Proof using G.
  intros H. pose proof length_istore. pose proof length_ifree. pose proof (lookup_lt_Some _ _ _ H).
  unfold mkfs_layout. do 3 rewrite lookup_app_r by (cbn [length]; lia).
  rewrite lookup_app_l by (cbn [length]; lia). rewrite <- H. f_equal. cbn [length]. lia.
Qed.

Lemma layout_data :
  mkfs_layout d first !! Z.to_nat (nr_used_blocks d - 1) = Some (put_nr_files 0 (zeros BLK)).
Proof using G.
  pose proof length_istore. pose proof length_ifree. pose proof length_bfree. pose proof (geo_used _ _ G).
  unfold mkfs_layout. do 4 rewrite lookup_app_r by (cbn [length]; lia).
  replace (Z.to_nat (nr_used_blocks d - 1) - length [superblock_block d] - length (istore_layout d)
    - length (ifree_layout d) - length (bfree_layout d first))%nat with 0%nat by (cbn [length]; lia).
  done.
Qed.

Lemma root_inode_fits : inode_fits (root_inode d).
Proof using G.
  pose proof (geo_first _ _ G). pose proof (geo_used_le _ _ G). pose proof (geo_used _ _ G).
  pose proof layout_pos. unfold inode_fits, root_inode. cbn [di_mode di_uid di_gid di_size di_ctime
    di_atime di_mtime di_blocks di_nlink di_ei_block di_xattr_block di_data].
  change root_mode with 0x41FD. change LOLELFFS_BLOCK_SIZE with 4096.
  rewrite length_zeros. lia.
Qed.
End Placement.

Lemma empty_dir_index : ei_of_block (put_nr_files 0 (zeros BLK)) = FileEi 0 (replicate NEXT zero_extent).
Proof. rewrite <- ei_of_zeros. reflexivity. Qed.

(** Superblock information of a fresh image. *)
Definition fresh_sbi (d : sb_disk) (first : block) : lolelffs_sb_info :=
  SbInfo (mount_sbd d) (concat (ifree_layout d)) (concat (bfree_layout d first)) 0 (zeros 32) false.

Section Fresh.
Context (d : sb_disk) (n : Z) (G : geometry n d) (first : block) (Hl : length first = BLK)
  (Ht : forall j, 0 <= j < 32768 -> test_bit first j = (nr_used_blocks d <=? j)).

Lemma length_fresh_maps :
  Z.of_nat (length (concat (ifree_layout d))) = 4096 * nr_ifree_blocks d /\
  Z.of_nat (length (concat (bfree_layout d first))) = 4096 * nr_bfree_blocks d.
Proof using G Hl Ht.
  destruct (ifree_map_bits d n G) as [HI _]. destruct (bfree_map_bits d n first G Hl Ht) as [HB _].
  pose proof (length_ifree d n G). pose proof (length_bfree d n G first).
  rewrite !length_concat_blocks by done. unfold BLK. lia.
Qed.

Lemma fresh_sbi_wf : sbi_wf (fresh_sbi d first).
Proof using G Hl Ht.
  destruct length_fresh_maps as [HI HB].
  pose proof (layout_pos d n G). pose proof (geo_ifree _ _ G). pose proof (geo_bfree _ _ G).
  pose proof (geo_used _ _ G). pose proof (geo_used_le _ _ G).
  destruct (geo_fits _ _ G) as [Hf _]. rewrite !Forall_cons in Hf.
  destruct Hf as (?&?&?&?&?&?&?&?&_).
  split; cbn [fresh_sbi sbd mount_sbd ifree_bitmap bfree_bitmap nr_blocks nr_inodes nr_istore_blocks
    nr_ifree_blocks nr_bfree_blocks nr_free_inodes nr_free_blocks]; [repeat constructor|..]; lia.
Qed.

(** The allocators of a fresh image. *)
Lemma fresh_sbi_inv :
  block_inv (fresh_sbi d first) /\ inode_inv (fresh_sbi d first) /\
  free_blocks (fresh_sbi d first) = range (nr_used_blocks d) (n - nr_used_blocks d) /\
  free_inodes (fresh_sbi d first) = range 1 (nr_inodes d - 1).
Proof using G Hl Ht.
  destruct length_fresh_maps as [HI HB]. destruct (ifree_map_bits d n G) as [_ HIbits].
  destruct (bfree_map_bits d n first G Hl Ht) as [_ HBbits].
  pose proof (layout_pos d n G). pose proof (geo_used _ _ G). pose proof (geo_used_le _ _ G).
  pose proof (geo_blocks _ _ G) as Enb. pose proof (geo_min _ _ G).
  pose proof (geo_inodes_le _ _ G). pose proof (geo_ifree _ _ G). pose proof (geo_bfree _ _ G).
  unfold block_inv, inode_inv, free_blocks, free_inodes.
  cbn [fresh_sbi sbd mount_sbd ifree_bitmap bfree_bitmap nr_blocks nr_inodes nr_free_inodes nr_free_blocks].
  rewrite (geo_free_blocks _ _ G), (geo_free_inodes _ _ G), Enb.
  split_and!; apply map_inv_threshold || apply free_set_threshold; lia || done.
Qed.

(** Mounting a device that holds the image. *)
Lemma fresh_mount kmalloc after bdev_file m s :
  detect_offset kmalloc after bdev_file = 0 -> (forall a, oom (fs_k s) a = false) ->
  fs_icache s !! 0 = None -> fs_disk s = map_seqZ 0 (mkfs_layout d first) ∪ m ->
  exists s', lolelffs_fill_super kmalloc after bdev_file s = (Ok tt, s') /\
    fs_sbi s' = fresh_sbi d first /\ fs_disk s' = fs_disk s /\
    exists v, fs_icache s' !! 0 = Some v /\ ei_block v = nr_used_blocks d - 1.
Proof using G Hl Ht.
  intros Hoff Ho Hc Hd. set (s1 := set_sbi (fresh_sbi d first) s).
  assert (sb_of_block (superblock_block d) = d) as Esb by apply sb_of_bytes_of_sb, (geo_fits _ _ G).
  destruct (ifree_map_bits d n G) as [HIall _]. destruct (bfree_map_bits d n first G Hl Ht) as [HBall _].
  assert (forall k b, 0 <= k -> mkfs_layout d first !! Z.to_nat k = Some b -> blk_at s1 k = Some b) as Hat.
  { intros k b Hk Hb. unfold blk_at. cbn [s1 fresh_sbi set_sbi fs_disk fs_sbi fs_offset].
    rewrite Hd, Z.add_0_r, <- (Z2Nat.id k Hk). by apply image_lookup. }
  pose proof (layout_pos d n G). pose proof (geo_inodes_le _ _ G). pose proof (geo_min _ _ G).
  pose proof (fill_super_spec kmalloc after bdev_file s (superblock_block d)
    (concat (ifree_layout d)) (concat (bfree_layout d first)) (root_inode d)) as Hfill.
  cbv zeta in Hfill. rewrite Hoff, Esb in Hfill. change (Z.quot 0 LOLELFFS_BLOCK_SIZE) with 0 in Hfill.
  change (set_sbi _ s) with s1 in Hfill.
  eexists. split; [apply Hfill; try done|split; [done|split; [done|]]].
  - apply (Hat 0); [lia|]. apply layout_superblock.
  - apply (geo_magic _ _ G).
  - apply fresh_sbi_wf.
  - lia.
  - intros k Hk. apply Hat; [lia|].
    destruct (lookup_lt_is_Some_2 (ifree_layout d) k) as [b Hb];
      [pose proof (length_ifree d n G); lia|].
    rewrite (bitmap_block_concat _ _ _ HIall Hb). by apply (layout_ifree d n G).
  - intros k Hk. apply Hat; [lia|].
    destruct (lookup_lt_is_Some_2 (bfree_layout d first) k) as [b Hb];
      [pose proof (length_bfree d n G first); lia|].
    rewrite (bitmap_block_concat _ _ _ HBall Hb). by apply (layout_bfree d n G).
  - unfold stored_inode. rewrite (Hat (inode_block_of 0) _ ltac:(done) (layout_root d first)).
    unfold mbind, option_bind. f_equal.
    rewrite disk_inode_at_put; [done|apply length_zeros|unfold NINODES; lia|by apply (root_inode_fits d n)].
  - cbn [set_icache fs_icache]. rewrite lookup_insert_eq. eexists. split; [done|]. apply (geo_first _ _ G).
Qed.
End Fresh.

(** C12 An image that mkfs formats can be mounted, whatever was in the file: for
    every size from the minimum to mkfs_max_size mkfs succeeds, the mount
    succeeds, the two allocators satisfy their invariant, the free blocks are
    exactly the ones after the root directory's index block, the free inodes
    are all but the root, and the root directory is empty. *)
Theorem mkfs_then_mount kmalloc after bdev_file st_size f s :
  mkfs_min_size < st_size <= mkfs_max_size ->
  img_pos f = 0 -> (forall j, img_writable f j = true) ->
  detect_offset kmalloc after bdev_file = 0 ->
  (forall a, oom (fs_k s) a = false) -> fs_icache s !! 0 = None ->
  let d := mkfs_sb st_size in
  exists f' s',
    mkfs_main st_size f = (Ok d, f') /\
    lolelffs_fill_super kmalloc after bdev_file (set_disk (img_blocks f') s) = (Ok tt, s') /\
    block_inv (fs_sbi s') /\ inode_inv (fs_sbi s') /\
    free_blocks (fs_sbi s') = range (nr_used_blocks d) (st_size / 4096 - nr_used_blocks d) /\
    free_inodes (fs_sbi s') = range 1 (nr_inodes d - 1) /\
    exists v b, fs_icache s' !! 0 = Some v /\ ei_block v = nr_used_blocks d - 1 /\
      blk_at s' (ei_block v) = Some b /\ ei_of_block b = FileEi 0 (replicate NEXT zero_extent).
Proof.
  intros Hsz Hpos Hw Hoff Ho Hc d. pose proof (mkfs_geometry st_size Hsz) as G.
  destruct (mkfs_main_writes st_size Hsz) as (first & Hrun & Hl & Ht). fold d in G, Hrun, Ht. set (n := st_size / 4096) in *.
  specialize (Hrun f ltac:(intros; apply Hw)). rewrite Hpos in Hrun.
  set (f' := Image _ _ _) in Hrun.
  destruct (fresh_mount d n G first Hl Ht kmalloc after bdev_file (img_blocks f)
    (set_disk (img_blocks f') s)) as (s' & Hmount & Esbi & Edisk & v & Hv & Eei); try done.
  exists f', s'. rewrite Esbi. pose proof (fresh_sbi_inv d n G first Hl Ht) as (HB & HI & HFB & HFI).
  split_and!; try done. exists v, (put_nr_files 0 (zeros BLK)).
  split_and!; [done..| |apply empty_dir_index].
  unfold blk_at. rewrite Esbi, Edisk, Eei. cbn [set_disk fs_disk f' img_blocks fresh_sbi fs_offset].
  pose proof (geo_used _ _ G). pose proof (layout_pos d n G).
  rewrite Z.add_0_r, <- (Z2Nat.id (nr_used_blocks d - 1)) by lia. apply image_lookup, (layout_data d n G).
Qed.

(** An empty file of 120 blocks. *)
Definition ex_image : image := Image ∅ 0 (fun _ => true).
Lemma mkfs_then_mount_witness :
  exists d f' s', mkfs_main (120 * 4096) ex_image = (Ok d, f') /\
    lolelffs_fill_super (fun _ => true) [] None (set_disk (img_blocks f') ex_unmounted) = (Ok tt, s') /\
    free_blocks (fs_sbi s') = range 7 113.
Proof.
  destruct (mkfs_then_mount (fun _ => true) [] None (120 * 4096) ex_image ex_unmounted)
    as (f' & s' & H1 & H2 & _ & _ & H3 & _); try done.
  exists (mkfs_sb (120 * 4096)), f', s'. split; [exact H1|]. split; [exact H2|]. rewrite H3. reflexivity.
Defined.

(** ** The free map of a large image *)

Lemma mark_used_overflow fuel : forall i nr b,
  (i <= 512)%nat -> 64 * (512 - Z.of_nat i) < nr < 2 ^ 32 -> mark_used fuel i nr b = None.
Proof.
  induction fuel as [|fuel IH]; intros i nr b Hi Hnr; [done|]. cbn [mark_used].
  rewrite (proj2 (Z.eqb_neq nr 0)) by lia. destruct (Nat.leb_spec 512 i); [done|].
  pose proof (clear_line_spec 64 0 0xffffffffffffffff nr ltac:(lia) ltac:(lia)) as Hc.
  change (u64 (2 ^ Z.of_nat 0)) with 1 in Hc.
  destruct (clear_line 64 1 _ nr) as [line nr']. destruct Hc as [-> _]. apply IH; lia.
Qed.

(** Above mkfs_max_size the blocks in use do not fit the first block of the map,
    up to the sizes for which the 32-bit counts wrap. *)
Lemma mkfs_over_max st_size :
  mkfs_max_size < st_size -> st_size / 4096 + 56 <= 2 ^ 32 -> 32768 < nr_used_blocks (mkfs_sb st_size).
Proof.
  unfold mkfs_max_size. assert (LOLELFFS_BLOCK_SIZE = 4096) as E1 by reflexivity.
  assert (LOLELFFS_INODES_PER_BLOCK = 56) as E2 by reflexivity. intros Hsz H32.
  assert (1828625 <= st_size / 4096) as Hn by dlia.
  unfold mkfs_sb. rewrite E1, E2. rewrite (u32_small (st_size / 4096)) by lia.
  set (n := st_size / 4096) in *. clearbody n. cbv zeta.
  set (ni := if negb (n mod 56 =? 0) then _ else n).
  assert (n <= ni < n + 56 /\ ni mod 56 = 0) as [Hni Hmod].
  { subst ni. destruct (Z.eqb_spec (n mod 56) 0); cbn [negb]; [lia|].
    rewrite u32_small by dlia. dlia. }
  clearbody ni.
  pose proof (idiv_ceil_spec ni 56 ltac:(lia) ltac:(lia)) as Hi.
  pose proof (idiv_ceil_spec ni (4096 * 8) ltac:(lia) ltac:(lia)) as Hf.
  pose proof (idiv_ceil_spec n (4096 * 8) ltac:(lia) ltac:(lia)) as Hb.
  unfold nr_used_blocks. cbn [nr_istore_blocks nr_ifree_blocks nr_bfree_blocks].
  set (ist := idiv_ceil ni 56) in *. set (ifr := idiv_ceil ni (4096 * 8)) in *.
  set (bfr := idiv_ceil n (4096 * 8)) in *. clearbody ist ifr bfr. nowrap; lia.
Qed.

(** When the blocks in use do not fit the first block of the map, mkfs writes
    past the end of its 4096-byte buffer. *)
Theorem mkfs_large_image_overflows st_size f :
  mkfs_min_size < st_size -> 32768 < nr_used_blocks (mkfs_sb st_size) ->
  (forall j, img_writable f j = true) -> fst (mkfs_main st_size f) = Err MEMFAULT.
Proof.
  intros Hsz Hu Hw. unfold mkfs_main. rewrite (proj2 (Z.leb_gt _ _)) by lia.
  set (d := mkfs_sb st_size) in *.
  assert (forall A (m : M image A) bs (a : A) g, (forall j, img_writable g j = true) -> writes m bs a ->
    exists g', m g = (Ok a, g') /\ forall j, img_writable g' j = true) as Hstep.
  { intros A m bs a g Hg Hm. rewrite (Hm g) by (intros; apply Hg). eauto. }
  destruct (Hstep _ (write_superblock st_size) [superblock_block d] d f Hw) as (f1 & E1 & Hw1).
  { rewrite <- (app_nil_r [superblock_block d]).
    apply (writes_bind _ _ _ _ tt); [apply writes_block|apply writes_ret]. }
  rewrite (bind_run _ _ _ _ _ E1).
  destruct (Hstep _ (write_inode_store d) _ tt f1 Hw1 (writes_block_copies _ _ _)) as (f2 & E2 & Hw2).
  rewrite (bind_run _ _ _ _ _ E2).
  destruct (Hstep _ (write_ifree_blocks d) _ tt f2 Hw2 (writes_block_copies _ _ _)) as (f3 & E3 & Hw3).
  rewrite (bind_run _ _ _ _ _ E3). unfold write_bfree_blocks.
  rewrite mark_used_overflow; [done|lia|]. pose proof (u32_range (nr_istore_blocks d +₃₂ nr_ifree_blocks d
    +₃₂ nr_bfree_blocks d + 2)). unfold nr_used_blocks in *. lia.
Qed.

Lemma mkfs_large_image_overflows_witness : fst (mkfs_main (2 ^ 33) ex_image) = Err MEMFAULT.
Proof. apply mkfs_large_image_overflows; vm_compute; done. Defined.
