(* ===== verification/Fsck.v ===== *)
(** * fsck.lolelffs (src/src/fsck.lolelffs.c)

    The checks of the superblock, the root inode, the root directory's index
    block and the two free maps.  A report is the numbers of errors and
    warnings; a check that returns -1 is an [Err]. *)
From S2P Require Import Prelude Layout Bitmap Extent State Elf Super Mkfs.

Record report := Report { errors : Z; warnings : Z }.

Definition ERROR : M report unit := modify (fun r => Report (errors r + 1) (warnings r)).
Definition WARN : M report unit := modify (fun r => Report (errors r) (warnings r + 1)).
Definition when (c : bool) (m : M report unit) : M report unit := if c then m else mret tt.

(** return -1 *)
Definition return_m1 {A} : M report A := fail EINVAL.

Section Fsck.
(** The image: the blocks that can be read. *)
Context (img : gmap Z block).

Definition read_block (block_num : Z) : option block := img !! block_num.

(** ** check_superblock *)

Definition check_kdf (sb : sb_disk) : M report unit :=
  if negb (enc_kdf_algo sb =? LOLELFFS_KDF_NONE) then
    when (enc_kdf_iterations sb =? 0) WARN;;
    when (1000000 <? enc_kdf_iterations sb) WARN;;
    if enc_kdf_algo sb =? LOLELFFS_KDF_ARGON2ID then
      when (enc_kdf_memory sb <? 1024) WARN;;
      when (4194304 <? enc_kdf_memory sb) WARN;;
      when ((enc_kdf_parallelism sb =? 0) || (256 <? enc_kdf_parallelism sb)) WARN
    else mret tt
  else mret tt.

Definition check_layout (sb : sb_disk) : M report unit :=
  let expected_istore := nr_inodes sb / LOLELFFS_INODES_PER_BLOCK in
  when (negb (nr_istore_blocks sb =? expected_istore)) ERROR;;
  when (nr_inodes sb <? nr_free_inodes sb) ERROR;;
  when (nr_blocks sb <? nr_free_blocks sb) ERROR;;
  let metadata := 1 +₃₂ nr_istore_blocks sb +₃₂ nr_ifree_blocks sb +₃₂ nr_bfree_blocks sb in
  let used_blocks := nr_blocks sb -₃₂ nr_free_blocks sb in
  when (used_blocks <? metadata) ERROR.

Definition check_superblock : M report sb_disk :=
  match read_block 0 with
  | None => ERROR;; return_m1
  | Some block =>
      let sb := sb_of_block block in
      if negb (magic sb =? LOLELFFS_MAGIC) then ERROR;; return_m1
      else if nr_blocks sb <? 100 then ERROR;; return_m1
      else if nr_inodes sb =? 0 then ERROR;; return_m1
      else
        when (negb (nr_inodes sb mod LOLELFFS_INODES_PER_BLOCK =? 0)) WARN;;
        if negb (version sb =? LOLELFFS_VERSION) then ERROR;; return_m1
        else if LOLELFFS_COMP_ZSTD <? comp_default_algo sb then ERROR;; return_m1
        else
          when (negb (max_extent_blocks sb =? LOLELFFS_MAX_BLOCKS_PER_EXTENT)) WARN;;
          when (LOLELFFS_MAX_BLOCKS_PER_EXTENT_LARGE <? max_extent_blocks_large sb) (ERROR;; ERROR);;
          if LOLELFFS_ENC_CHACHA20_POLY <? enc_default_algo sb then ERROR;; return_m1
          else if LOLELFFS_KDF_PBKDF2 <? enc_kdf_algo sb then ERROR;; return_m1
          else check_kdf sb;; check_layout sb;; mret sb
  end.

(** ** check_root_inode *)

Definition S_IRUSR : Z := 0x100.
Definition S_IXUSR : Z := 0x40.

Definition metadata_end (sb : sb_disk) : Z :=
  1 +₃₂ nr_istore_blocks sb +₃₂ nr_ifree_blocks sb +₃₂ nr_bfree_blocks sb.

Definition check_root_inode (sb : sb_disk) : M report unit :=
  match read_block 1 with
  | None => ERROR;; return_m1
  | Some block =>
      let inode := disk_inode_at block 0 in
      let outside blk := (blk <? metadata_end sb) || (nr_blocks sb <=? blk) in
      if negb (Z.land (di_mode inode) S_IFMT =? S_IFDIR) then ERROR;; return_m1
      else
        when (Z.land (di_mode inode) S_IRUSR =? 0) WARN;;
        when (Z.land (di_mode inode) S_IXUSR =? 0) WARN;;
        when (di_nlink inode <? 2) ERROR;;
        when (negb (di_size inode =? LOLELFFS_BLOCK_SIZE)) WARN;;
        when (di_blocks inode =? 0) ERROR;;
        if outside (di_ei_block inode) then ERROR;; return_m1
        else if negb (di_xattr_block inode =? 0) then
          if outside (di_xattr_block inode) then ERROR;; return_m1 else mret tt
        else mret tt
  end.

(** ** check_root_extent_block *)

Definition check_extent (sb : sb_disk) (e : lolelffs_extent) : M report unit :=
  when (ee_len e =? 0) ERROR;;
  let max_blocks :=
    if negb (Z.land (ee_flags e) LOLELFFS_EXT_HAS_META =? 0) then LOLELFFS_MAX_BLOCKS_PER_EXTENT
    else if negb (max_extent_blocks_large sb =? 0) then max_extent_blocks_large sb
    else LOLELFFS_MAX_BLOCKS_PER_EXTENT in
  when (max_blocks <? ee_len e) ERROR;;
  when (nr_blocks sb <? ee_start e +₃₂ ee_len e) ERROR;;
  when (LOLELFFS_COMP_ZSTD <? ee_comp_algo e) ERROR;;
  when (LOLELFFS_ENC_CHACHA20_POLY <? ee_enc_algo e) ERROR;;
  when (negb (Z.land (ee_flags e) LOLELFFS_EXT_COMPRESSED =? 0)
        && (ee_comp_algo e =? LOLELFFS_COMP_NONE)) WARN;;
  when (negb (Z.land (ee_flags e) LOLELFFS_EXT_ENCRYPTED =? 0)
        && (ee_enc_algo e =? LOLELFFS_ENC_NONE)) WARN.

Fixpoint check_extents (sb : sb_disk) (es : list lolelffs_extent) : M report unit :=
  match es with
  | [] => mret tt
  | e :: es => if ee_start e =? 0 then mret tt else check_extent sb e;; check_extents sb es
  end.

Definition check_root_extent_block (sb : sb_disk) : M report unit :=
  match read_block 1 with
  | None => ERROR;; return_m1
  | Some block =>
      match read_block (di_ei_block (disk_inode_at block 0)) with
      | None => ERROR;; return_m1
      | Some block =>
          let eblock := ei_of_block block in
          when (LOLELFFS_MAX_SUBFILES <? nr_files eblock) ERROR;;
          if 0 <? nr_files eblock then check_extents sb (extents eblock) else mret tt
      end
  end.

(** ** check_inode_bitmap and check_block_bitmap *)

(** for (bit = 0; bit < 8; bit++), with the break at the end of the map. *)
Fixpoint count_bits (fuel : nat) (byte base nr bit free_count : Z) : Z :=
  match fuel with
  | O => free_count
  | S fuel =>
      if nr <=? base +₃₂ bit then free_count
      else count_bits fuel byte base nr (bit + 1)
             (if negb (Z.land byte (Z.shiftl 1 bit) =? 0) then free_count +₃₂ 1 else free_count)
  end.

(** for (i = 0; i < LOLELFFS_BLOCK_SIZE; i++) over the bytes of block [b]. *)
Fixpoint count_bytes (bytes : list Z) (b i nr free_count : Z) : Z :=
  match bytes with
  | [] => free_count
  | byte :: bytes =>
      count_bytes bytes b (i + 1) nr
        (count_bits 8 byte (b *₃₂ LOLELFFS_BLOCK_SIZE *₃₂ 8 +₃₂ i *₃₂ 8) nr 0 free_count)
  end.

(** for (b = 0; b < nr_map_blocks; b++) *)
Fixpoint count_map (n : nat) (b bitmap_start nr free_count : Z) : M report Z :=
  match n with
  | O => mret free_count
  | S n =>
      match read_block (bitmap_start +₃₂ b) with
      | None => ERROR;; return_m1
      | Some block => count_map n (b + 1) bitmap_start nr (count_bytes block b 0 nr free_count)
      end
  end.

Definition check_bitmap (nr nr_free bitmap_start nr_map_blocks : Z) : M report unit :=
  free_count ← count_map (Z.to_nat nr_map_blocks) 0 bitmap_start nr 0;
  when (negb (free_count =? nr_free)) ERROR;;
  match read_block bitmap_start with
  | None => ERROR;; return_m1
  | Some block => when (negb (Z.land (default 0 (block !! 0%nat)) 1 =? 0)) ERROR
  end.

Definition check_inode_bitmap (sb : sb_disk) : M report unit :=
  check_bitmap (nr_inodes sb) (nr_free_inodes sb) (1 +₃₂ nr_istore_blocks sb) (nr_ifree_blocks sb).

Definition check_block_bitmap (sb : sb_disk) : M report unit :=
  check_bitmap (nr_blocks sb) (nr_free_blocks sb)
    (1 +₃₂ nr_istore_blocks sb +₃₂ nr_ifree_blocks sb) (nr_bfree_blocks sb).

(** ** main: the report, and the exit status *)

Definition fsck_main : report :=
  snd ((r ← attempt check_superblock;
        match r with
        | Err _ => mret tt
        | Ok sb =>
            attempt (check_root_inode sb);; attempt (check_root_extent_block sb);;
            attempt (check_inode_bitmap sb);; attempt (check_block_bitmap sb);; mret tt
        end) (Report 0 0)).

Definition fsck_status : Z := if 0 <? errors fsck_main then 1 else 0.
End Fsck.

(** ** Counting the bits of a map *)

(** How many numbers from [lo] up to [hi] satisfy [p]. *)
Definition cnt (p : Z -> bool) (lo hi : Z) : Z :=
  Z.of_nat (length (filter (fun i => p i = true) (seqZ lo (hi - lo)))).

Lemma cnt_empty p lo hi : hi <= lo -> cnt p lo hi = 0.
Proof. intros. unfold cnt. by rewrite seqZ_nil by lia. Qed.

Lemma cnt_split p lo mid hi : lo <= mid <= hi -> cnt p lo hi = cnt p lo mid + cnt p mid hi.
Proof.
  intros. unfold cnt. replace (hi - lo) with ((mid - lo) + (hi - mid)) by lia.
  rewrite seqZ_app by lia. rewrite filter_app, length_app.
  replace (lo + (mid - lo)) with mid by lia. lia.
Qed.

Lemma cnt_one p i : cnt p i (i + 1) = if p i then 1 else 0.
Proof.
  unfold cnt. rewrite seqZ_cons by lia. rewrite seqZ_nil by lia.
  rewrite filter_cons. destruct (p i); by case_decide.
Qed.

Lemma cnt_bounds p lo hi : lo <= hi -> 0 <= cnt p lo hi <= hi - lo.
Proof.
  intros. unfold cnt. pose proof (length_filter (fun i => p i = true) (seqZ lo (hi - lo))).
  rewrite length_seqZ in *. lia.
Qed.

Lemma cnt_free_set bm size : 0 <= size -> cnt (test_bit bm) 0 size = Z.of_nat (base.size (free_set bm size)).
Proof.
  intros. unfold cnt, free_set. rewrite Z.sub_0_r. f_equal.
  rewrite size_list_to_set; [done|]. apply NoDup_filter, NoDup_seqZ.
Qed.

Lemma land_bit_test byte bit :
  0 <= bit -> negb (Z.land byte (Z.shiftl 1 bit) =? 0) = Z.testbit byte bit.
Proof.
  intros Hb. rewrite Z.shiftl_1_l. destruct (Z.testbit byte bit) eqn:E.
  - apply negb_true_iff, Z.eqb_neq. intros H0.
    apply (f_equal (fun x => Z.testbit x bit)) in H0.
    rewrite Z.land_spec, E, Z.pow2_bits_true, Z.bits_0 in H0 by done. done.
  - apply negb_false_iff, Z.eqb_eq, Z.bits_inj'. intros i Hi.
    rewrite Z.land_spec, Z.bits_0, Z.pow2_bits_eqb by done.
    destruct (Z.eqb_spec bit i) as [<-|]; [by rewrite E|apply andb_false_r].
Qed.

Section Counting.
Context (p : Z -> bool) (nr : Z) (Hnr : is_u32 nr).

Lemma count_bits_spec fuel : forall byte base bit fc,
  0 <= bit -> bit + Z.of_nat fuel = 8 -> 0 <= base -> base + 8 <= 2 ^ 32 ->
  (forall t, 0 <= t < 8 -> base + t < nr -> Z.testbit byte t = p (base + t)) ->
  0 <= fc -> fc + (8 - bit) < 2 ^ 32 ->
  count_bits fuel byte base nr bit fc = fc + cnt p (Z.min nr (base + bit)) (Z.min nr (base + 8)).
Proof using Hnr.
  induction fuel as [|fuel IH]; intros byte base bit fc Hb Hf Hbase Hmax Hp Hfc Hlim; cbn [count_bits].
  { rewrite cnt_empty by lia. lia. }
  rewrite (u32_small (base + bit)) by lia. destruct (Z.leb_spec nr (base + bit)) as [Hle|Hgt].
  { rewrite cnt_empty by lia. lia. }
  rewrite land_bit_test, Hp by lia.
  rewrite (cnt_split p _ (base + bit + 1)), (Z.min_r nr (base + bit)), cnt_one by lia.
  destruct (p (base + bit)).
  - rewrite u32_small by lia. rewrite IH by (done || lia).
    replace (Z.min nr (base + (bit + 1))) with (base + bit + 1) by lia. lia.
  - rewrite IH by (done || lia).
    replace (Z.min nr (base + (bit + 1))) with (base + bit + 1) by lia. lia.
Qed.

Lemma count_bytes_spec bytes : forall b i fc,
  0 <= b -> 0 <= i -> i + Z.of_nat (length bytes) <= 4096 -> 32768 * (b + 1) <= 2 ^ 32 ->
  (forall t, 0 <= t < 8 * Z.of_nat (length bytes) -> 32768 * b + 8 * i + t < nr ->
     test_bit bytes t = p (32768 * b + 8 * i + t)) ->
  0 <= fc -> fc + 8 * Z.of_nat (length bytes) < 2 ^ 32 ->
  count_bytes bytes b i nr fc =
    fc + cnt p (Z.min nr (32768 * b + 8 * i)) (Z.min nr (32768 * b + 8 * i + 8 * Z.of_nat (length bytes))).
Proof using Hnr.
  induction bytes as [|byte bytes IH]; intros b i fc Hb Hi Hl Hmax Hp Hfc Hlim; cbn [count_bytes].
  { rewrite cnt_empty by (cbn; lia). lia. }
  rewrite length_cons in *. change LOLELFFS_BLOCK_SIZE with 4096.
  rewrite !(u32_small (b * 4096)), !(u32_small (b * 4096 * 8)), !(u32_small (i * 8)) by lia.
  rewrite (u32_small (b * 4096 * 8 + i * 8)) by lia.
  replace (b * 4096 * 8 + i * 8) with (32768 * b + 8 * i) by lia.
  rewrite count_bits_spec; try lia.
  2:{ intros t Ht Hlt. rewrite <- (Hp t) by lia. unfold test_bit, bit_byte.
      rewrite Z.div_small, Z.mod_small by lia. done. }
  rewrite Z.add_0_r.
  pose proof (cnt_bounds p (Z.min nr (32768 * b + 8 * i)) (Z.min nr (32768 * b + 8 * i + 8)) ltac:(lia)).
  rewrite IH; try lia.
  - replace (32768 * b + 8 * (i + 1)) with (32768 * b + 8 * i + 8) by lia.
    rewrite (cnt_split p _ (Z.min nr (32768 * b + 8 * i + 8)) (Z.min nr (_ + _ * Z.of_nat (S _)))) by lia.
    replace (32768 * b + 8 * i + 8 + 8 * Z.of_nat (length bytes))
      with (32768 * b + 8 * i + 8 * Z.of_nat (S (length bytes))) by lia. lia.
  - intros t Ht Hlt. replace (32768 * b + 8 * (i + 1) + t) with (32768 * b + 8 * i + (t + 8)) in * by lia.
    rewrite <- Hp by lia. unfold test_bit, bit_byte.
    replace ((t + 8) / 8) with (t / 8 + 1) by dlia. replace ((t + 8) mod 8) with (t mod 8) by dlia.
    by replace (Z.to_nat (t / 8 + 1)) with (S (Z.to_nat (t / 8))) by dlia.
Qed.
End Counting.

(** The three loops count the free numbers of the map. *)
Lemma count_map_spec img bs start nr n : forall b fc r,
  is_u32 nr -> Forall (fun b : block => length b = BLK) bs -> 0 <= start ->
  start + Z.of_nat (length bs) < 2 ^ 32 -> 32768 * Z.of_nat (length bs) < 2 ^ 32 ->
  (forall k blk, bs !! k = Some blk -> img !! (start + Z.of_nat k) = Some blk) ->
  (b + n = length bs)%nat -> 0 <= fc <= 32768 * Z.of_nat b ->
  count_map img n (Z.of_nat b) start nr fc r =
    (Ok (fc + cnt (test_bit (concat bs)) (Z.min nr (32768 * Z.of_nat b))
                (Z.min nr (32768 * Z.of_nat (length bs)))), r).
Proof.
  induction n as [|n IH]; intros b fc r Hnr Hall Hs Hs2 Hmax Hrd Hb Hfc; cbn [count_map].
  { rewrite cnt_empty by lia. rewrite Z.add_0_r. done. }
  destruct (lookup_lt_is_Some_2 bs b ltac:(lia)) as [blk Hblk].
  rewrite (u32_small (start + Z.of_nat b)) by lia.
  unfold read_block. rewrite (Hrd _ _ Hblk).
  pose proof (Forall_lookup_1 _ _ _ _ Hall Hblk) as Hlen. cbn beta in Hlen.
  rewrite (count_bytes_spec (test_bit (concat bs)) nr Hnr blk) ; rewrite ?Hlen; unfold BLK in *; try lia.
  2:{ intros t Ht Hlt. replace (32768 * Z.of_nat b + 8 * 0 + t) with (32768 * Z.of_nat b + t) by lia.
      symmetry. apply test_bit_concat; done || lia. }
  replace (8 * Z.of_nat (Z.to_nat 4096)) with 32768 by lia.
  replace (32768 * Z.of_nat b + 8 * 0) with (32768 * Z.of_nat b) by lia.
  pose proof (cnt_bounds (test_bit (concat bs)) (Z.min nr (32768 * Z.of_nat b))
    (Z.min nr (32768 * Z.of_nat b + 32768)) ltac:(lia)).
  replace (Z.of_nat b + 1) with (Z.of_nat (S b)) by lia. rewrite IH; try done; try lia.
  do 2 f_equal. rewrite (cnt_split _ (Z.min nr (32768 * Z.of_nat b)) (Z.min nr (32768 * Z.of_nat b + 32768))
    (Z.min nr (32768 * Z.of_nat (length bs)))) by lia.
  replace (32768 * Z.of_nat (S b)) with (32768 * Z.of_nat b + 32768) by lia. lia.
Qed.

(** What check_bitmap reports on a map that can be read. *)
Lemma check_bitmap_spec img bs nr nr_free start r :
  is_u32 nr -> Forall (fun b : block => length b = BLK) bs -> bs <> [] -> 0 <= start ->
  start + Z.of_nat (length bs) < 2 ^ 32 -> 32768 * Z.of_nat (length bs) < 2 ^ 32 ->
  nr <= 32768 * Z.of_nat (length bs) ->
  (forall k blk, bs !! k = Some blk -> img !! (start + Z.of_nat k) = Some blk) ->
  check_bitmap img nr nr_free start (Z.of_nat (length bs)) r =
    (Ok tt, Report (errors r
       + (if Z.of_nat (size (free_set (concat bs) nr)) =? nr_free then 0 else 1)
       + (if test_bit (concat bs) 0 then 1 else 0)) (warnings r)).
Proof.
  intros Hnr Hall Hne Hs Hs2 Hmax Hsz Hrd. destruct bs as [|b0 bs]; [done|].
  unfold check_bitmap. rewrite Nat2Z.id.
  rewrite (bind_run _ _ _ _ _ (count_map_spec img (b0 :: bs) start nr (length (b0 :: bs)) 0 0 r
    Hnr Hall Hs Hs2 Hmax Hrd eq_refl ltac:(lia))).
  rewrite Z.add_0_l, Z.min_r, Z.min_l by lia. change (32768 * Z.of_nat 0) with 0.
  rewrite cnt_free_set by lia.
  unfold read_block. pose proof (Hrd 0%nat b0 eq_refl) as H0. rewrite Z.add_0_r in H0. rewrite H0.
  pose proof (test_bit_concat (b0 :: bs) 0 b0 0 Hall eq_refl ltac:(lia)) as Ht.
  change (32768 * Z.of_nat 0 + 0) with 0 in Ht.
  change (Z.land (default 0 (b0 !! 0%nat)) 1) with (Z.land (default 0 (b0 !! 0%nat)) (Z.shiftl 1 0)).
  rewrite land_bit_test by done.
  change (Z.testbit (default 0 (b0 !! 0%nat)) 0) with (test_bit b0 0). rewrite Ht.
  destruct r as [e w].
  destruct (_ =? nr_free), (test_bit b0 0); unfold when, ERROR, modify, mbind, M_bind, mret, M_ret; cbn;
    do 2 f_equal; lia.
Qed.

(** ** No check takes a report back *)

Definition mono {A} (m : M report A) : Prop := forall r, errors r <= errors (snd (m r)).

Lemma mono_ret {A} (a : A) : mono (mret a).
Proof. intros r. cbn. lia. Qed.
Lemma mono_m1 {A} : mono (return_m1 : M report A).
Proof. intros r. cbn. lia. Qed.
Lemma mono_bind {A B} (m : M report A) (f : A -> M report B) :
  mono m -> (forall a, mono (f a)) -> mono (m ≫= f).
Proof.
  intros H1 H2 r. unfold mbind, M_bind. specialize (H1 r). destruct (m r) as [[a|e] r1]; cbn in *; [|lia].
  specialize (H2 a r1). lia.
Qed.
Lemma mono_ERROR : mono ERROR.
Proof. intros r. cbn. lia. Qed.
Lemma mono_WARN : mono WARN.
Proof. intros r. cbn. lia. Qed.
Lemma mono_when c m : mono m -> mono (when c m).
Proof. intros H. unfold when. destruct c; [done|apply mono_ret]. Qed.
Lemma mono_attempt {A} (m : M report A) : mono m -> mono (attempt m).
Proof. intros H r. unfold attempt. specialize (H r). by destruct (m r). Qed.

Create HintDb fsck.
#[export] Hint Resolve mono_ret mono_m1 mono_bind mono_ERROR mono_WARN mono_when mono_attempt : fsck.

Ltac mono_tac :=
  repeat first
    [ progress (intros; eauto with fsck)
    | apply mono_bind
    | match goal with
      | |- mono (if ?c then _ else _) => destruct c
      | |- mono (match ?x with _ => _ end) => destruct x
      end ].

Lemma mono_check_superblock img : mono (check_superblock img).
Proof. unfold check_superblock, check_kdf, check_layout. mono_tac. Qed.
Lemma mono_check_root_inode img sb : mono (check_root_inode img sb).
Proof. unfold check_root_inode. mono_tac. Qed.
Lemma mono_check_extents sb es : mono (check_extents sb es).
Proof. induction es as [|e es IH]; cbn [check_extents]; unfold check_extent; mono_tac. Qed.
#[export] Hint Resolve mono_check_superblock mono_check_root_inode mono_check_extents : fsck.
Lemma mono_check_root_extent_block img sb : mono (check_root_extent_block img sb).
Proof. unfold check_root_extent_block. mono_tac. Qed.
Lemma mono_count_map img n : forall b s nr fc, mono (count_map img n b s nr fc).
Proof. induction n as [|n IH]; intros; cbn [count_map]; mono_tac. Qed.
#[export] Hint Resolve mono_check_root_extent_block mono_count_map : fsck.
Lemma mono_check_bitmap img a b c d : mono (check_bitmap img a b c d).
Proof. unfold check_bitmap. mono_tac. Qed.
#[export] Hint Resolve mono_check_bitmap : fsck.

(** ** fsck on a fresh image *)

Lemma when_false c m : c = false -> when c m = mret tt.
Proof. by intros ->. Qed.

Section FreshImage.
Context (d : sb_disk) (n : Z) (G : geometry n d) (first : block) (Hl : length first = BLK)
  (Ht : forall j, 0 <= j < 32768 -> test_bit first j = (nr_used_blocks d <=? j))
  (img : gmap Z block)
  (Himg : forall k b, mkfs_layout d first !! k = Some b -> img !! Z.of_nat k = Some b).

Lemma fresh_read k b : 0 <= k -> mkfs_layout d first !! Z.to_nat k = Some b -> img !! k = Some b.
Proof using G Hl Ht Himg. intros Hk H. rewrite <- (Z2Nat.id k Hk). by apply Himg. Qed.

(** The layout checks of the superblock compare what mkfs computed. *)
Lemma fresh_check_layout r : check_layout d r = (Ok tt, r).
Proof using G Hl Ht Himg.
  pose proof (layout_pos d n G). pose proof (geo_used _ _ G). pose proof (geo_used_le _ _ G).
  pose proof (geo_inodes _ _ G). pose proof (geo_inodes_le _ _ G). pose proof (geo_blocks _ _ G).
  pose proof (geo_free_blocks _ _ G). pose proof (geo_free_inodes _ _ G). pose proof (geo_min _ _ G).
  unfold check_layout. change LOLELFFS_INODES_PER_BLOCK with 56.
  rewrite !(u32_small (1 + nr_istore_blocks d)), !(u32_small (1 + nr_istore_blocks d + nr_ifree_blocks d)),
    !(u32_small (1 + nr_istore_blocks d + nr_ifree_blocks d + nr_bfree_blocks d)),
    !(u32_small (nr_blocks d - nr_free_blocks d)) by lia.
  rewrite !when_false; [done|..];
    (apply Z.ltb_ge; lia) || (apply negb_false_iff, Z.eqb_eq; dlia).
Qed.

Lemma fresh_check_superblock r : check_superblock img r = (Ok d, r).
Proof using G Hl Ht Himg.
  pose proof (geo_min _ _ G). pose proof (geo_blocks _ _ G). pose proof (geo_inodes _ _ G).
  pose proof (geo_inodes_le _ _ G).
  destruct (geo_settings _ _ G) as (E1 & E2 & E3 & E4 & E5 & E6 & E7 & E8 & E9).
  unfold check_superblock, read_block.
  rewrite (fresh_read 0 (superblock_block d)) by (done || apply layout_superblock).
  assert (sb_of_block (superblock_block d) = d) as -> by apply sb_of_bytes_of_sb, (geo_fits _ _ G).
  unfold check_kdf. rewrite (geo_magic _ _ G), E1, E2, E3, E4, E5, E6, E7, E8, E9.
  change LOLELFFS_INODES_PER_BLOCK with 56. rewrite Z.eqb_refl. cbn [negb].
  rewrite (proj2 (Z.ltb_ge (nr_blocks d) 100)), (proj2 (Z.eqb_neq (nr_inodes d) 0)) by lia.
  rewrite (proj2 (Z.eqb_eq (nr_inodes d mod 56) 0)) by dlia.
  change (LOLELFFS_VERSION =? LOLELFFS_VERSION) with true.
  unfold mbind, M_bind. cbn -[check_layout]. by rewrite fresh_check_layout.
Qed.

Lemma fresh_root_block :
  img !! 1 = Some (put_inode_at 0 (root_inode d) (zeros BLK)) /\
  disk_inode_at (put_inode_at 0 (root_inode d) (zeros BLK)) 0 = root_inode d.
Proof using G Hl Ht Himg.
  split; [apply fresh_read; [lia|apply layout_root]|].
  by rewrite disk_inode_at_put
    by (apply length_zeros || (unfold NINODES; lia) || by apply (root_inode_fits d n)).
Qed.

Lemma fresh_check_root_inode r : check_root_inode img d r = (Ok tt, r).
Proof using G Hl Ht Himg.
  destruct fresh_root_block as [H1 H2]. unfold check_root_inode, read_block. rewrite H1, H2.
  pose proof (layout_pos d n G). pose proof (geo_used _ _ G). pose proof (geo_used_le _ _ G).
  pose proof (geo_first _ _ G). pose proof (geo_blocks _ _ G).
  cbn [root_inode di_mode di_nlink di_size di_blocks di_ei_block di_xattr_block].
  rewrite (proj2 (Z.ltb_ge (first_data_block d) (metadata_end d))),
    (proj2 (Z.leb_gt (nr_blocks d) (first_data_block d))).
  - done.
  - lia.
  - unfold metadata_end. nowrap. lia.
Qed.

Lemma fresh_check_root_extent_block r : check_root_extent_block img d r = (Ok tt, r).
Proof using G Hl Ht Himg.
  destruct fresh_root_block as [H1 H2]. unfold check_root_extent_block, read_block. rewrite H1, H2.
  cbn [root_inode di_ei_block]. rewrite (geo_first _ _ G).
  pose proof (layout_pos d n G). pose proof (geo_used _ _ G).
  rewrite (fresh_read (nr_used_blocks d - 1) _ ltac:(lia) (layout_data d n G first)).
  rewrite empty_dir_index. done.
Qed.

Lemma fresh_check_inode_bitmap r : check_inode_bitmap img d r = (Ok tt, r).
Proof using G Hl Ht Himg.
  destruct (ifree_map_bits d n G) as [Hall Hbits]. pose proof (length_ifree d n G) as Hlen.
  pose proof (layout_pos d n G). pose proof (geo_used _ _ G). pose proof (geo_used_le _ _ G).
  pose proof (geo_ifree _ _ G). pose proof (geo_inodes_le _ _ G). pose proof (geo_min _ _ G).
  unfold check_inode_bitmap. rewrite u32_small by lia.
  rewrite <- Hlen, (check_bitmap_spec img (ifree_layout d)); try done; try lia.
  - rewrite (free_set_threshold _ _ 1) by (done || lia). rewrite size_range by lia.
    rewrite (geo_free_inodes _ _ G), Z.eqb_refl, Hbits by lia. destruct r as [e w]. cbn. do 2 f_equal. lia.
  - intros k blk Hk. apply fresh_read; [lia|].
    replace (1 + nr_istore_blocks d + Z.of_nat k) with (nr_istore_blocks d + 1 + Z.of_nat k) by lia.
    by apply (layout_ifree d n G).
Qed.

Lemma fresh_check_block_bitmap r : check_block_bitmap img d r = (Ok tt, r).
Proof using G Hl Ht Himg.
  destruct (bfree_map_bits d n first G Hl Ht) as [Hall Hbits]. pose proof (length_bfree d n G first) as Hlen.
  pose proof (layout_pos d n G). pose proof (geo_used _ _ G). pose proof (geo_used_le _ _ G).
  pose proof (geo_ifree _ _ G). pose proof (geo_bfree _ _ G). pose proof (geo_min _ _ G).
  pose proof (geo_blocks _ _ G) as Enb.
  unfold check_block_bitmap. rewrite (u32_small (1 + nr_istore_blocks d)), u32_small by lia.
  rewrite <- Hlen, (check_bitmap_spec img (bfree_layout d first)); try done; try lia.
  - rewrite (free_set_threshold _ _ (nr_used_blocks d)) by (rewrite ?Enb; done || lia).
    rewrite size_range by lia. rewrite (geo_free_blocks _ _ G), Enb, Z.eqb_refl, Hbits by lia.
    rewrite (proj2 (Z.leb_gt _ _)) by lia. destruct r as [e w]. cbn. do 2 f_equal. lia.
  - intros k blk Hk. apply fresh_read; [lia|].
    replace (1 + nr_istore_blocks d + nr_ifree_blocks d + Z.of_nat k)
      with (nr_istore_blocks d + nr_ifree_blocks d + 1 + Z.of_nat k) by lia.
    by apply (layout_bfree d n G).
Qed.
End FreshImage.

(** On the sizes mkfs handles, fsck finds the image it made clean. *)
Lemma fsck_accepts_fresh st_size f :
  mkfs_min_size < st_size <= mkfs_max_size -> img_pos f = 0 -> (forall j, img_writable f j = true) ->
  exists f', mkfs_main st_size f = (Ok (mkfs_sb st_size), f') /\
    fsck_main (img_blocks f') = Report 0 0 /\ fsck_status (img_blocks f') = 0.
Proof.
  intros Hsz Hpos Hw. pose proof (mkfs_geometry st_size Hsz) as G.
  destruct (mkfs_main_writes st_size Hsz) as (first & Hrun & Hl & Ht).
  specialize (Hrun f ltac:(intros; apply Hw)). rewrite Hpos in Hrun. eexists. split; [exact Hrun|].
  cbn [img_blocks]. set (img := map_seqZ _ _ ∪ _).
  assert (forall k b, mkfs_layout (mkfs_sb st_size) first !! k = Some b -> img !! Z.of_nat k = Some b) as Himg
    by (intros; by apply image_lookup).
  assert (fsck_main img = Report 0 0) as E; [|unfold fsck_status; by rewrite E].
  unfold fsck_main, attempt, mbind, M_bind.
  rewrite (fresh_check_superblock _ _ G first Hl Ht img Himg), (fresh_check_root_inode _ _ G first Hl Ht img Himg),
    (fresh_check_root_extent_block _ _ G first Hl Ht img Himg), (fresh_check_inode_bitmap _ _ G first Hl Ht img Himg),
    (fresh_check_block_bitmap _ _ G first Hl Ht img Himg). done.
Qed.

(** C27 What mkfs followed by fsck gives, by the size of the image, for every size
    whose block count fits its 32-bit field (up to 16 TiB): at most 100 blocks
    are refused with nothing written; from there to mkfs_max_size (1828624
    blocks, about 7 GB) mkfs succeeds and fsck has nothing to say about the
    image, no error, no warning, exit status 0; above, the run of mkfs stops where
    it writes past its 4096-byte map buffer. *)
Theorem fsck_accepts_mkfs st_size f :
  st_size / 4096 + 56 <= 2 ^ 32 -> img_pos f = 0 -> (forall j, img_writable f j = true) ->
  if st_size <=? mkfs_min_size then mkfs_main st_size f = (Err EINVAL, f)
  else if st_size <=? mkfs_max_size then
    exists f', mkfs_main st_size f = (Ok (mkfs_sb st_size), f') /\
      fsck_main (img_blocks f') = Report 0 0 /\ fsck_status (img_blocks f') = 0
  else fst (mkfs_main st_size f) = Err MEMFAULT.
Proof.
  intros H32 Hpos Hw. destruct (Z.leb_spec st_size mkfs_min_size) as [Hmin|Hmin].
  - unfold mkfs_main. by rewrite (proj2 (Z.leb_le _ _) Hmin).
  - destruct (Z.leb_spec st_size mkfs_max_size) as [Hmax|Hmax].
    + by apply fsck_accepts_fresh.
    + apply mkfs_large_image_overflows; [done| |done]. by apply mkfs_over_max.
Qed.

Lemma fsck_accepts_mkfs_witness :
  (exists f', mkfs_main (300 * 4096) ex_image = (Ok (mkfs_sb (300 * 4096)), f') /\
    fsck_main (img_blocks f') = Report 0 0 /\ fsck_status (img_blocks f') = 0) /\
  fst (mkfs_main (1828625 * 4096) ex_image) = Err MEMFAULT.
Proof.
  split.
  - apply (fsck_accepts_mkfs (300 * 4096) ex_image); done.
  - apply (fsck_accepts_mkfs (1828625 * 4096) ex_image); done.
Defined.

(** ** What a clean report says *)

Lemma attempt_bind {A B} (m : M report A) (f : result A -> M report B) r :
  (attempt m ≫= f) r = f (fst (m r)) (snd (m r)).
Proof. unfold attempt, mbind, M_bind. by destruct (m r). Qed.

(** The superblock that was checked is the one of block 0. *)
Lemma check_superblock_reads img r sb r' :
  check_superblock img r = (Ok sb, r') -> exists b, img !! 0 = Some b /\ sb = sb_of_block b.
Proof.
  unfold check_superblock, read_block. destruct (img !! 0) as [b|]; [|done]. intros H. exists b.
  split; [done|]. cases_in H; try done; repeat (apply bind_Ok in H as (?&?&_&H)); cases_in H; try done;
    repeat (apply bind_Ok in H as (?&?&_&H)); cases_in H; try done;
    repeat (apply bind_Ok in H as (?&?&_&H)); by injection H.
Qed.

(** A check that returns -1 has reported an error. *)
Definition strict {A} (m : M report A) : Prop :=
  mono m /\ forall r e r', m r = (Err e, r') -> errors r < errors r'.

Lemma strict_m1 {A} : strict (ERROR;; (return_m1 : M report A)).
Proof. split; [mono_tac|]. intros r e r' [= _ <-]. cbn. lia. Qed.
Lemma strict_ret {A} (a : A) : strict (mret a).
Proof. split; [mono_tac|done]. Qed.
Lemma strict_bind {A B} (m : M report A) (f : A -> M report B) :
  strict m -> (forall a, strict (f a)) -> strict (m ≫= f).
Proof.
  intros [M1 S1] H2. split; [apply mono_bind; [done|apply H2]|].
  intros r e r'. unfold mbind, M_bind. specialize (M1 r). destruct (m r) as [[a|e1] r1] eqn:E; cbn in M1.
  - intros H. apply H2 in H. lia.
  - intros [= -> ->]. by apply S1 in E.
Qed.
Lemma strict_when c m : strict m -> strict (when c m).
Proof. unfold when. destruct c; [done|intros; apply strict_ret]. Qed.
Lemma strict_ERROR : strict ERROR.
Proof. split; [mono_tac|done]. Qed.
Lemma strict_WARN : strict WARN.
Proof. split; [mono_tac|done]. Qed.

#[export] Hint Resolve strict_m1 strict_ret strict_when strict_ERROR strict_WARN : fsck.

Lemma strict_check_superblock img : strict (check_superblock img).
Proof.
  unfold check_superblock, check_kdf, check_layout.
  repeat first
    [ progress (intros; eauto with fsck)
    | apply strict_m1
    | apply strict_when
    | apply strict_bind
    | match goal with
      | |- strict (if ?c then _ else _) => destruct c
      | |- strict (match ?x with _ => _ end) => destruct x
      end ].
Qed.

(** A clean report: the superblock was readable, and both map checks were run
    from a clean report and left it clean. *)
Lemma fsck_clean_inv img :
  errors (fsck_main img) = 0 ->
  exists b r1 r2, img !! 0 = Some b /\
    errors r1 = 0 /\ errors (snd (check_inode_bitmap img (sb_of_block b) r1)) = 0 /\
    errors r2 = 0 /\ errors (snd (check_block_bitmap img (sb_of_block b) r2)) = 0.
Proof.
  unfold fsck_main. rewrite attempt_bind.
  destruct (strict_check_superblock img) as [Hm Hs]. specialize (Hm (Report 0 0)).
  destruct (check_superblock img (Report 0 0)) as [[sb|e] r0] eqn:E; cbn [fst snd].
  2:{ intros H. apply Hs in E. cbn [snd mret M_ret] in H. cbn in E. lia. }
  apply check_superblock_reads in E as (b & Hb & ->). cbn in Hm. set (sb := sb_of_block b).
  rewrite !attempt_bind. cbn [snd mret M_ret].
  set (r1 := snd (check_root_inode img sb r0)).
  set (r2 := snd (check_root_extent_block img sb r1)).
  set (r3 := snd (check_inode_bitmap img sb r2)).
  pose proof (mono_check_root_inode img sb r0 : _ <= errors r1).
  pose proof (mono_check_root_extent_block img sb r1 : _ <= errors r2).
  pose proof (mono_check_bitmap img _ _ _ _ r2 : _ <= errors r3).
  pose proof (mono_check_bitmap img _ _ _ _ r3 : _ <= errors (snd (check_block_bitmap img sb r3))).
  intros Hend. exists b, r2, r3. fold sb. change (snd (check_inode_bitmap img sb r2)) with r3.
  split_and!; try done; lia.
Qed.

(** A map that passed its check. *)
Lemma check_bitmap_clean img bs nr nr_free start r :
  is_u32 nr -> Forall (fun b : block => length b = BLK) bs -> 0 < nr -> 0 <= start ->
  start + Z.of_nat (length bs) < 2 ^ 32 -> 32768 * Z.of_nat (length bs) < 2 ^ 32 ->
  nr <= 32768 * Z.of_nat (length bs) ->
  (forall k blk, bs !! k = Some blk -> img !! (start + Z.of_nat k) = Some blk) ->
  errors r = 0 -> errors (snd (check_bitmap img nr nr_free start (Z.of_nat (length bs)) r)) = 0 ->
  map_inv (concat bs) nr nr_free.
Proof.
  intros Hnr Hall Hpos Hs Hs2 Hmax Hsz Hrd Hr. assert (bs <> []) by (intros ->; cbn in Hsz; lia).
  rewrite check_bitmap_spec by done. cbn [snd errors]. rewrite Hr. intros He.
  unfold map_inv. rewrite elem_of_free_set, length_concat_blocks by done.
  destruct (Z.eqb_spec (Z.of_nat (size (free_set (concat bs) nr))) nr_free) as [<-|];
    destruct (test_bit (concat bs) 0); try lia.
  unfold BLK. split_and!; [lia..| |done]. by intros [_ ?].
Qed.

(** The blocks a mount loads for a map are the ones fsck reads. *)
Lemma loaded_blocks (m : gmap Z block) bs start n :
  (forall k b, m !! k = Some b -> length b = BLK) ->
  length bs = Z.to_nat n -> 0 <= n -> 0 <= start -> start + n < 2 ^ 31 ->
  (forall k, (k < length bs)%nat -> m !! (i32 (start + Z.of_nat k) + 0) = bs !! k) ->
  Forall (fun b : block => length b = BLK) bs /\
  forall k b, bs !! k = Some b -> m !! (start + Z.of_nat k) = Some b.
Proof.
  intros Hok Hlen Hn Hs Hlt Hrd.
  assert (forall k b, bs !! k = Some b -> m !! (start + Z.of_nat k) = Some b) as Hk.
  { intros k b Hb. pose proof (lookup_lt_Some _ _ _ Hb). rewrite <- Hb, <- Hrd by done.
    rewrite Z.add_0_r, i32_small by lia. done. }
  split; [|done]. apply Forall_lookup_2. intros k b Hb. eauto.
Qed.

(** C15 fsck is sound for the allocators: if it reports no error on an image whose
    maps are long enough for the counts, then mounting the image gives two
    allocators that satisfy their invariant: the counters agree with the maps
    and number 0 is in use in both. *)
Theorem fsck_clean_gives_invariants kmalloc after bdev_file s s' :
  errors (fsck_main (fs_disk s)) = 0 ->
  (forall k b, fs_disk s !! k = Some b -> length b = BLK) ->
  detect_offset kmalloc after bdev_file = 0 ->
  lolelffs_fill_super kmalloc after bdev_file s = (Ok tt, s') -> sbi_wf (fs_sbi s') ->
  0 < nr_inodes (sbd (fs_sbi s')) <= 32768 * nr_ifree_blocks (sbd (fs_sbi s')) ->
  0 < nr_blocks (sbd (fs_sbi s')) <= 32768 * nr_bfree_blocks (sbd (fs_sbi s')) ->
  nr_ifree_blocks (sbd (fs_sbi s')) < 2 ^ 17 -> nr_bfree_blocks (sbd (fs_sbi s')) < 2 ^ 17 ->
  block_inv (fs_sbi s') /\ inode_inv (fs_sbi s').
Proof.
  intros He Hok Hoff (b & bi & bb & Hb & _ & Hd & Hs & Hli & Hlb & Hbi & Hbb & _)%fill_super_inv Hwf.
  rewrite Hoff in Hb, Hs. change (Z.quot 0 LOLELFFS_BLOCK_SIZE) with 0 in Hb, Hs.
  apply fsck_clean_inv in He as (b' & r1 & r2 & Hb' & Hr1 & HI & Hr2 & HB).
  assert (b' = b) as -> by congruence. set (csb := sb_of_block b) in *.
  unfold blk_at in Hbi, Hbb. rewrite Hs, Hd in *. cbn [fs_offset] in Hbi, Hbb.
  destruct Hwf as [Hc Hlay _ _]. unfold block_inv, inode_inv.
  cbn [sbd mount_sbd ifree_bitmap bfree_bitmap nr_blocks nr_inodes nr_istore_blocks nr_ifree_blocks
    nr_bfree_blocks nr_free_inodes nr_free_blocks] in *.
  rewrite !Forall_cons in Hc. destruct Hc as (?&?&?&?&?&?&?&_). intros Hni Hnb Hl1 Hl2.
  destruct (loaded_blocks _ bi (nr_istore_blocks csb + 1) _ Hok Hli ltac:(lia) ltac:(lia) ltac:(lia) Hbi) as [HaI HrI].
  destruct (loaded_blocks _ bb (nr_istore_blocks csb + nr_ifree_blocks csb + 1) _ Hok Hlb ltac:(lia) ltac:(lia) ltac:(lia) Hbb) as [HaB HrB].
  assert (Z.of_nat (length bi) = nr_ifree_blocks csb) as EI by lia.
  assert (Z.of_nat (length bb) = nr_bfree_blocks csb) as EB by lia.
  unfold check_inode_bitmap in HI. unfold check_block_bitmap in HB. rewrite <- EI in HI. rewrite <- EB in HB.
  rewrite (u32_small (1 + nr_istore_blocks csb)) in HI, HB by lia. rewrite u32_small in HB by lia.
  split.
  - apply (check_bitmap_clean (fs_disk s) bb _ _ (1 + nr_istore_blocks csb + nr_ifree_blocks csb) r2);
      try done; try lia.
    intros k blk Hk. replace (1 + nr_istore_blocks csb + nr_ifree_blocks csb + Z.of_nat k)
      with (nr_istore_blocks csb + nr_ifree_blocks csb + 1 + Z.of_nat k) by lia. by apply HrB.
  - apply (check_bitmap_clean (fs_disk s) bi _ _ (1 + nr_istore_blocks csb) r1); try done; try lia.
    intros k blk Hk. replace (1 + nr_istore_blocks csb + Z.of_nat k)
      with (nr_istore_blocks csb + 1 + Z.of_nat k) by lia. by apply HrI.
Qed.

(** A device that holds a fresh image of 120 blocks. *)
Definition ex_device : fs := set_disk (img_blocks (snd (mkfs_main (120 * 4096) ex_image))) ex_unmounted.
Definition ex_mounted : fs := snd (lolelffs_fill_super (fun _ => true) [] None ex_device).

Lemma fsck_clean_gives_invariants_witness : block_inv (fs_sbi ex_mounted).
Proof.
  apply (fsck_clean_gives_invariants (fun _ => true) [] None ex_device ex_mounted).
  - vm_compute. reflexivity.
  - apply (bool_decide_unpack (map_Forall (fun _ b => length b = BLK) (fs_disk ex_device))).
    vm_compute. exact I.
  - reflexivity.
  - vm_compute. reflexivity.
  - split; apply (bool_decide_unpack _); vm_compute; exact I.
  - vm_compute. split; [reflexivity|discriminate].
  - vm_compute. split; [reflexivity|discriminate].
  - vm_compute. reflexivity.
  - vm_compute. reflexivity.
Defined.

(** An image of 100 blocks whose superblock claims no block map at all. *)
Definition ex_no_map : gmap Z block :=
  let sb := SbDisk LOLELFFS_MAGIC 100 112 2 1 0 111 0 1 1 1 128 1 2048 524288 0 0 1 3 65536 4
              (zeros 32) (zeros 32) 0 (zeros 12) in
  <[0 := superblock_block sb]>
    (<[1 := put_inode_at 0 (DInode 0x41FD 0 0 4096 0 0 0 1 2 4 0 (zeros 28)) (zeros BLK)]>
      (<[3 := ex_ifree]> (list_to_map (map (fun i => (i, zeros BLK)) (2 :: seqZ 4 96))))).

(** fsck does not check that the maps cover the blocks: it reports nothing on
    this image of 100 blocks, whose map of free blocks has no block; mounting
    it gives an empty bitmap for 100 block numbers, so the allocator invariant
    does not hold. *)
Theorem fsck_accepts_missing_map :
  exists s', fsck_main ex_no_map = Report 0 0 /\
    lolelffs_fill_super (fun _ => true) [] None (set_disk ex_no_map ex_unmounted) = (Ok tt, s') /\
    bfree_bitmap (fs_sbi s') = [] /\ nr_blocks (sbd (fs_sbi s')) = 100 /\ ~ block_inv (fs_sbi s').
Proof.
  exists (snd (lolelffs_fill_super (fun _ => true) [] None (set_disk ex_no_map ex_unmounted))).
  split_and!; [vm_compute; reflexivity..|].
  intros (_ & H & _). vm_compute in H. by apply H.
Qed.
