(* ===== verification/Codec.v ===== *)
(** * Compression and encryption of blocks (src/src/compress.c, src/src/encrypt.c)

    The dispatch, the error codes, the availability of the algorithms and the
    key derivation are the module's own code and are modelled; LZ4, zlib and the
    kernel's crypto transforms are parameters. *)
From S2P Require Import Prelude Layout.

(** ** Compression *)

(** The kernel's compression libraries.  [None] is a failure: a result that is
    not positive for LZ4, anything but Z_STREAM_END for zlib. *)
Record comp_libs := CompLibs {
  LZ4_compress_default : list Z -> Z -> option (list Z);  (* source, space in dst *)
  LZ4_decompress_safe : list Z -> Z -> option (list Z);   (* source, space in dst *)
  zlib_deflate : list Z -> Z -> option (list Z);
  zlib_inflate : list Z -> Z -> option (list Z)
}.

(** One entry of comp_ctx[]: whether [workspace] is not NULL, and [available]. *)
Record comp_entry := CompEntry { workspace : bool; available : bool }.

(** comp_ctx[] and the number of areas vmalloc has handed out to it. *)
Record comp_ctx := CompCtx { lz4 : comp_entry; zlib : comp_entry; zstd : comp_entry; vmalloc_live : Z }.

Definition lz4_available (c : comp_ctx) : bool := available (lz4 c).
Definition zlib_available (c : comp_ctx) : bool := available (zlib c).
Definition zstd_available (c : comp_ctx) : bool := available (zstd c).

(** Static storage: all zero. *)
Definition comp_ctx0 : comp_ctx :=
  CompCtx (CompEntry false false) (CompEntry false false) (CompEntry false false) 0.

Definition LOLELFFS_COMP_MAX_ALGO : Z := LOLELFFS_COMP_ZSTD.

Definition comp_available (c : comp_ctx) (algo : Z) : bool :=
  if algo =? LOLELFFS_COMP_LZ4 then lz4_available c
  else if algo =? LOLELFFS_COMP_ZLIB then zlib_available c
  else if algo =? LOLELFFS_COMP_ZSTD then zstd_available c else false.

Definition lolelffs_comp_supported (c : comp_ctx) (algo : Z) : bool :=
  if LOLELFFS_COMP_MAX_ALGO <? algo then false
  else if algo =? LOLELFFS_COMP_NONE then true
  else comp_available c algo.

(** vmalloc of a work space, which may fail: the entry and the live areas. *)
Definition init_workspace (vmalloc : bool) (live : Z) : comp_entry * Z :=
  if vmalloc then (CompEntry true true, live + 1) else (CompEntry false false, live).

(** zstd is compiled out. *)
Definition lolelffs_comp_init (lz4_workspace zlib_workspace : bool) (c : comp_ctx) : result unit * comp_ctx :=
  let '(lz4, live) := init_workspace lz4_workspace (vmalloc_live c) in
  let '(zlib, live) := init_workspace zlib_workspace live in
  let zstd := CompEntry false false in
  (if available lz4 || available zlib then Ok tt else Err ENOMEM, CompCtx lz4 zlib zstd live).

(** The body of the loop of lolelffs_comp_exit. *)
Definition exit_workspace (e : comp_entry) (live : Z) : comp_entry * Z :=
  if workspace e then (CompEntry false false, live - 1) else (e, live).

Definition lolelffs_comp_exit (c : comp_ctx) : comp_ctx :=
  let '(lz4, live) := exit_workspace (lz4 c) (vmalloc_live c) in
  let '(zlib, live) := exit_workspace (zlib c) live in
  let '(zstd, live) := exit_workspace (zstd c) live in
  CompCtx lz4 zlib zstd live.

Section Compress.
Context (libs : comp_libs) (ctx : comp_ctx).

Definition lolelffs_compress_lz4 (src : list Z) : result (list Z) :=
  match LZ4_compress_default libs src LOLELFFS_BLOCK_SIZE with
  | Some ((_ :: _) as dst) => Ok dst
  | _ => Err EIO
  end.

Definition lolelffs_decompress_lz4 (src : list Z) (dst_len : Z) : result (list Z) :=
  match LZ4_decompress_safe libs src dst_len with
  | None => Err EIO
  | Some dst => if negb (Z.of_nat (length dst) =? dst_len) then Err EIO else Ok dst
  end.

Definition lolelffs_compress_zlib (src : list Z) : result (list Z) :=
  match zlib_deflate libs src LOLELFFS_BLOCK_SIZE with
  | None => Err EIO
  | Some dst => Ok dst
  end.

Definition lolelffs_decompress_zlib (src : list Z) (dst_len : Z) : result (list Z) :=
  match zlib_inflate libs src dst_len with
  | None => Err EIO
  | Some dst => if negb (Z.of_nat (length dst) =? dst_len) then Err EIO else Ok dst
  end.

Definition lolelffs_compress_block (algo : Z) (src : list Z) : result (list Z) :=
  if (algo =? LOLELFFS_COMP_NONE) || (LOLELFFS_COMP_MAX_ALGO <? algo) then Err EINVAL
  else if negb (comp_available ctx algo) then Err EOPNOTSUPP
  else
    let ret :=
      if algo =? LOLELFFS_COMP_LZ4 then lolelffs_compress_lz4 src
      else if algo =? LOLELFFS_COMP_ZLIB then lolelffs_compress_zlib src
      else Err EINVAL in
    match ret with
    | Err e => Err e
    | Ok dst => if (length src <=? length dst)%nat then Err E2BIG else Ok dst
    end.

Definition lolelffs_decompress_block (algo : Z) (src : list Z) (dst_len : Z) : result (list Z) :=
  if (algo =? LOLELFFS_COMP_NONE) || (LOLELFFS_COMP_MAX_ALGO <? algo) then Err EINVAL
  else if negb (comp_available ctx algo) then Err EOPNOTSUPP
  else if algo =? LOLELFFS_COMP_LZ4 then lolelffs_decompress_lz4 src dst_len
  else if algo =? LOLELFFS_COMP_ZLIB then lolelffs_decompress_zlib src dst_len
  else Err EINVAL.
End Compress.

(** ** Encryption *)

(** The kernel's crypto API.  A transform has a key once it was set; the
    requests of encrypt.c are made on transforms whose key is [option]al. *)
Record crypto := Crypto {
  skcipher_encrypt : option (list Z) -> list Z -> list Z -> result (list Z);  (* key, iv, src *)
  skcipher_decrypt : option (list Z) -> list Z -> list Z -> result (list Z);
  aead_encrypt : option (list Z) -> list Z -> list Z -> result (list Z);      (* dst with its tag *)
  aead_decrypt : option (list Z) -> list Z -> list Z -> result (list Z);      (* src with its tag *)
  ecb_alloc : option errno;                                                   (* error of the allocation *)
  ecb_setkey : list Z -> option errno;
  ecb_decrypt : list Z -> list Z -> result (list Z);                          (* key, src *)
  shash_alloc : option errno;
  hmac_setkey : list Z -> option errno;
  hmac_sha256 : list Z -> list Z -> result (list Z);                          (* key, message *)
  request_alloc : bool                                                        (* requests can be allocated *)
}.

(** A transform of the crypto API: the key that was set on it, if any. *)
Record transform := Tfm { tfm_key : option (list Z) }.

(** enc_ctx[]: the transform of each algorithm ([None] is NULL), [available], and
    the number of transforms the crypto API has handed out to it. *)
Record enc_ctx := EncCtx {
  skcipher : option transform; aead : option transform;
  aes_available : bool; chacha_available : bool;
  tfm_live : Z
}.

(** Static storage: all zero. *)
Definition enc_ctx0 : enc_ctx := EncCtx None None false false 0.

Definition LOLELFFS_ENC_MAX_ALGO : Z := LOLELFFS_ENC_CHACHA20_POLY.
Definition AES_IV_SIZE : nat := 16.
Definition CHACHA20_IV_SIZE : nat := 12.
Definition CHACHA20_POLY1305_TAG_SIZE : nat := 16.

Definition enc_available (c : enc_ctx) (algo : Z) : bool :=
  if algo =? LOLELFFS_ENC_AES256_XTS then aes_available c
  else if algo =? LOLELFFS_ENC_CHACHA20_POLY then chacha_available c else false.

Definition lolelffs_enc_supported (c : enc_ctx) (algo : Z) : bool :=
  if LOLELFFS_ENC_MAX_ALGO <? algo then false
  else if algo =? LOLELFFS_ENC_NONE then true
  else enc_available c algo.

Definition lolelffs_enc_tag_size (algo : Z) : nat :=
  if algo =? LOLELFFS_ENC_CHACHA20_POLY then CHACHA20_POLY1305_TAG_SIZE else 0%nat.

(** crypto_alloc_skcipher and crypto_alloc_aead give a transform without a key;
    no code sets one later. *)
Definition init_aes (alloc : bool) (c : enc_ctx) : enc_ctx :=
  if alloc then EncCtx (Some (Tfm None)) (aead c) true (chacha_available c) (tfm_live c + 1)
  else EncCtx None (aead c) false (chacha_available c) (tfm_live c).

Definition crypto_free_skcipher (c : enc_ctx) : enc_ctx :=
  EncCtx (skcipher c) (aead c) (aes_available c) (chacha_available c) (tfm_live c - 1).
Definition crypto_free_aead (c : enc_ctx) : enc_ctx :=
  EncCtx (skcipher c) (aead c) (aes_available c) (chacha_available c) (tfm_live c - 1).

(** enc_ctx[...].skcipher = NULL, enc_ctx[...].available = false; same for aead. *)
Definition clear_skcipher (c : enc_ctx) : enc_ctx :=
  EncCtx None (aead c) false (chacha_available c) (tfm_live c).
Definition clear_aead (c : enc_ctx) : enc_ctx :=
  EncCtx (skcipher c) None (aes_available c) false (tfm_live c).

(** crypto_aead_setauthsize can fail after the allocation. *)
Definition init_chacha (alloc setauthsize : bool) (c : enc_ctx) : enc_ctx :=
  if negb alloc then clear_aead c
  else
    let c := EncCtx (skcipher c) (Some (Tfm None)) (aes_available c) (chacha_available c) (tfm_live c + 1) in
    if negb setauthsize then clear_aead (crypto_free_aead c)
    else EncCtx (skcipher c) (aead c) (aes_available c) true (tfm_live c).

(** Returns 0 on every path. *)
Definition lolelffs_enc_init (aes_alloc chacha_alloc setauthsize : bool) (c : enc_ctx) : enc_ctx :=
  init_chacha chacha_alloc setauthsize (init_aes aes_alloc c).

Definition lolelffs_enc_exit (c : enc_ctx) : enc_ctx :=
  let c := if skcipher c is Some _ then clear_skcipher (crypto_free_skcipher c) else c in
  if aead c is Some _ then clear_aead (crypto_free_aead c) else c.

(** memset(iv, 0, iv_size); memcpy(iv, &block_num, min(8, iv_size)) *)
Definition derive_iv_from_block (block_num : Z) (iv_size : nat) : list Z :=
  splice 0 (take (Nat.min 8 iv_size) (le_enc 8 block_num)) (zeros iv_size).

Section Encrypt.
Context (cr : crypto) (ctx : enc_ctx).

Definition lolelffs_encrypt_aes_xts (key : list Z) (block_num : Z) (src : list Z) : result (list Z) :=
  if negb (aes_available ctx) then Err EOPNOTSUPP
  else if negb (request_alloc cr) then Err ENOMEM
  else
    match skcipher ctx with
    | None => Err MEMFAULT
    | Some tfm => skcipher_encrypt cr (tfm_key tfm) (derive_iv_from_block block_num AES_IV_SIZE) src
    end.

Definition lolelffs_decrypt_aes_xts (key : list Z) (block_num : Z) (src : list Z) : result (list Z) :=
  if negb (aes_available ctx) then Err EOPNOTSUPP
  else if negb (request_alloc cr) then Err ENOMEM
  else
    match skcipher ctx with
    | None => Err MEMFAULT
    | Some tfm => skcipher_decrypt cr (tfm_key tfm) (derive_iv_from_block block_num AES_IV_SIZE) src
    end.

(** The destination is described as LOLELFFS_BLOCK_SIZE + 16 bytes; the caller
    in file.c passes a buffer of LOLELFFS_BLOCK_SIZE. [dst_size] is its size. *)
Definition lolelffs_encrypt_chacha20_poly (key : list Z) (block_num : Z) (src : list Z)
    (dst_size : nat) : result (list Z) :=
  if negb (chacha_available ctx) then Err EOPNOTSUPP
  else if negb (request_alloc cr) then Err ENOMEM
  else
    match aead ctx with
    | None => Err MEMFAULT
    | Some tfm =>
        match aead_encrypt cr (tfm_key tfm) (derive_iv_from_block block_num CHACHA20_IV_SIZE) src with
        | Err e => Err e
        | Ok dst => if (dst_size <? length dst)%nat then Err MEMFAULT else Ok dst
        end
    end.

(** The source is described as LOLELFFS_BLOCK_SIZE + 16 bytes. *)
Definition lolelffs_decrypt_chacha20_poly (key : list Z) (block_num : Z) (src : list Z)
    : result (list Z) :=
  if negb (chacha_available ctx) then Err EOPNOTSUPP
  else if negb (request_alloc cr) then Err ENOMEM
  else if (length src <? BLK + CHACHA20_POLY1305_TAG_SIZE)%nat then Err MEMFAULT
  else
    match aead ctx with
    | None => Err MEMFAULT
    | Some tfm => aead_decrypt cr (tfm_key tfm) (derive_iv_from_block block_num CHACHA20_IV_SIZE) src
    end.

Definition lolelffs_encrypt_block (algo : Z) (key : list Z) (block_num : Z) (src : list Z)
    (dst_size : nat) : result (list Z) :=
  if (algo =? LOLELFFS_ENC_NONE) || (LOLELFFS_ENC_MAX_ALGO <? algo) then Err EINVAL
  else if negb (enc_available ctx algo) then Err EOPNOTSUPP
  else if algo =? LOLELFFS_ENC_AES256_XTS then lolelffs_encrypt_aes_xts key block_num src
  else if algo =? LOLELFFS_ENC_CHACHA20_POLY
  then lolelffs_encrypt_chacha20_poly key block_num src dst_size
  else Err EINVAL.

Definition lolelffs_decrypt_block (algo : Z) (key : list Z) (block_num : Z) (src : list Z)
    : result (list Z) :=
  if (algo =? LOLELFFS_ENC_NONE) || (LOLELFFS_ENC_MAX_ALGO <? algo) then Err EINVAL
  else if negb (enc_available ctx algo) then Err EOPNOTSUPP
  else if algo =? LOLELFFS_ENC_AES256_XTS then lolelffs_decrypt_aes_xts key block_num src
  else if algo =? LOLELFFS_ENC_CHACHA20_POLY then lolelffs_decrypt_chacha20_poly key block_num src
  else Err EINVAL.

(** ** Key derivation: PBKDF2 with HMAC-SHA256 *)

(** for (j = 0; j < 32; j++) key_out[j] ^= temp[j] *)
Definition xor_bytes (a b : list Z) : list Z := zip_with Z.lxor a b.

(** for (i = 1; i < iterations; i++) *)
Fixpoint pbkdf2_loop (n : nat) (password temp key_out : list Z) : result (list Z) :=
  match n with
  | O => Ok key_out
  | S n =>
      match hmac_sha256 cr password temp with
      | Err e => Err e
      | Ok temp => pbkdf2_loop n password temp (xor_bytes key_out temp)
      end
  end.

Definition lolelffs_derive_key (kdf_algo : Z) (password salt : list Z) (iterations : Z)
    : result (list Z) :=
  if negb (kdf_algo =? LOLELFFS_KDF_PBKDF2) then Err EOPNOTSUPP
  else if shash_alloc cr is Some e then Err e
  else if hmac_setkey cr password is Some e then Err e
  else if negb (request_alloc cr) then Err ENOMEM
  else
    match hmac_sha256 cr password (salt ++ [0; 0; 0; 1]) with
    | Err e => Err e
    | Ok temp => pbkdf2_loop (Z.to_nat (iterations - 1)) password temp (xor_bytes (zeros 32) temp)
    end.

(** ** The master key *)

Definition lolelffs_decrypt_master_key (encrypted_key user_key : list Z) : result (list Z) :=
  if ecb_alloc cr is Some e then Err e
  else if ecb_setkey cr user_key is Some e then Err e
  else if negb (request_alloc cr) then Err ENOMEM
  else ecb_decrypt cr user_key encrypted_key.
End Encrypt.

(** ** The transforms have no key *)

(** A request on a transform whose key was not set is refused with ENOKEY. *)
Definition needs_key (cr : crypto) : Prop :=
  (forall iv src, skcipher_encrypt cr None iv src = Err ENOKEY) /\
  (forall iv src, aead_encrypt cr None iv src = Err ENOKEY).

(** Whatever can be allocated, encrypting a block with the context that
    lolelffs_enc_init sets up fails, as no key was set. *)
Lemma encrypt_block_no_key cr aes chacha auth c algo key n src dst_size :
  needs_key cr -> request_alloc cr = true ->
  let ectx := lolelffs_enc_init aes chacha auth c in
  algo <> LOLELFFS_ENC_NONE -> lolelffs_enc_supported ectx algo = true ->
  lolelffs_encrypt_block cr ectx algo key n src dst_size = Err ENOKEY.
Proof.
  intros [Hs Ha] Hr ectx Hn Hsup. unfold lolelffs_enc_supported in Hsup.
  unfold lolelffs_encrypt_block, lolelffs_encrypt_aes_xts, lolelffs_encrypt_chacha20_poly.
  rewrite (proj2 (Z.eqb_neq _ _) Hn) in Hsup |- *.
  destruct (LOLELFFS_ENC_MAX_ALGO <? algo); [done|]. cbn [orb]. rewrite Hsup, Hr. cbn [negb].
  unfold enc_available in Hsup. destruct (algo =? LOLELFFS_ENC_AES256_XTS).
  - rewrite Hsup. subst ectx. unfold lolelffs_enc_init, init_aes, init_chacha in *.
    destruct aes, chacha, auth; cbn in *; done.
  - destruct (algo =? LOLELFFS_ENC_CHACHA20_POLY); [|done]. rewrite Hsup.
    subst ectx. unfold lolelffs_enc_init, init_aes, init_chacha in *.
    destruct aes, chacha, auth; cbn in *; try done; by rewrite Ha.
Qed.

(** ** PBKDF2 as RFC 8018 defines it *)

(** U_1 = PRF(P, S || INT(1)), U_(j+1) = PRF(P, U_j); T = U_1 xor ... xor U_c. *)
Fixpoint pbkdf2_u (prf : list Z -> list Z) (s : list Z) (j : nat) : list Z :=
  match j with
  | O => prf (s ++ [0; 0; 0; 1])
  | S j => prf (pbkdf2_u prf s j)
  end.

Definition pbkdf2_t (prf : list Z -> list Z) (s : list Z) (c : nat) : list Z :=
  foldr xor_bytes (zeros 32) (map (pbkdf2_u prf s) (seq 0 c)).

Lemma length_xor_bytes a b : length (xor_bytes a b) = Nat.min (length a) (length b).
Proof. apply length_zip_with. Qed.

Lemma lookup_xor_bytes a b i :
  xor_bytes a b !! i = x ← a !! i; y ← b !! i; Some (Z.lxor x y).
Proof. apply lookup_zip_with. Qed.

Lemma xor_bytes_assoc a b c : xor_bytes a (xor_bytes b c) = xor_bytes (xor_bytes a b) c.
Proof.
  apply list_eq. intros i. rewrite !lookup_xor_bytes.
  destruct (a !! i); cbn; [|done]. destruct (b !! i); cbn; [|done]. destruct (c !! i); cbn; [|done].
  by rewrite Z.lxor_assoc.
Qed.

Section Pbkdf2.
Context (cr : crypto) (password : list Z) (prf : list Z -> list Z)
  (Hprf : forall m, hmac_sha256 cr password m = Ok (prf m)).

Lemma pbkdf2_loop_spec salt n : forall j acc,
  pbkdf2_loop cr n password (pbkdf2_u prf salt j) acc =
    Ok (foldl xor_bytes acc (map (pbkdf2_u prf salt) (seq (S j) n))).
Proof using Hprf.
  induction n as [|n IH]; intros j acc; cbn [pbkdf2_loop]; [done|]. rewrite Hprf.
  change (prf (pbkdf2_u prf salt j)) with (pbkdf2_u prf salt (S j)). by rewrite IH.
Qed.
End Pbkdf2.

Lemma xor_bytes_zeros_l a : length a = 32%nat -> xor_bytes (zeros 32) a = a.
Proof.
  intros Hl. apply list_eq. intros i. rewrite lookup_xor_bytes. destruct (a !! i) as [x|] eqn:E.
  - pose proof (lookup_lt_Some _ _ _ E). unfold zeros. rewrite lookup_replicate_2 by lia. cbn. done.
  - by destruct (zeros 32 !! i).
Qed.

Lemma xor_bytes_zeros_r a : length a = 32%nat -> xor_bytes a (zeros 32) = a.
Proof.
  intros Hl. apply list_eq. intros i. rewrite lookup_xor_bytes. destruct (a !! i) as [x|] eqn:E; [|done].
  pose proof (lookup_lt_Some _ _ _ E). unfold zeros. rewrite lookup_replicate_2 by lia. cbn.
  by rewrite Z.lxor_0_r.
Qed.

Lemma foldl_xor_foldr l : forall acc,
  length acc = 32%nat -> Forall (fun x : list Z => length x = 32%nat) l ->
  foldl xor_bytes acc l = xor_bytes acc (foldr xor_bytes (zeros 32) l).
Proof.
  induction l as [|x l IH]; intros acc Ha Hl; cbn [foldl foldr].
  - by rewrite xor_bytes_zeros_r.
  - apply Forall_cons in Hl as [Hx Hl]. rewrite IH, xor_bytes_assoc; [done| |done].
    rewrite length_xor_bytes. lia.
Qed.

(** C31 The key derivation is PBKDF2: with an HMAC that delivers 32 bytes,
    lolelffs_derive_key is the xor of the chain U_1, ..., U_c of RFC 8018 (the
    first and only block, as 32 bytes are asked for), for c iterations, and for
    one iteration when the count is 0. *)
Theorem derive_key_is_pbkdf2 cr password salt iterations prf :
  (forall m, hmac_sha256 cr password m = Ok (prf m)) -> (forall m, length (prf m) = 32%nat) ->
  shash_alloc cr = None -> hmac_setkey cr password = None -> request_alloc cr = true ->
  0 <= iterations ->
  lolelffs_derive_key cr LOLELFFS_KDF_PBKDF2 password salt iterations =
    Ok (pbkdf2_t prf salt (Z.to_nat (Z.max 1 iterations))).
Proof.
  intros Hprf Hlen Ha Hk Hr Hi. unfold lolelffs_derive_key. rewrite Ha, Hk, Hr.
  cbn [negb]. change (LOLELFFS_KDF_PBKDF2 =? LOLELFFS_KDF_PBKDF2) with true. cbn [negb].
  rewrite Hprf. change (prf (salt ++ _)) with (pbkdf2_u prf salt 0).
  rewrite (pbkdf2_loop_spec cr password prf Hprf). f_equal.
  assert (forall j, length (pbkdf2_u prf salt j) = 32%nat) as Hu by (intros [|j]; apply Hlen).
  rewrite xor_bytes_zeros_l by apply Hu. unfold pbkdf2_t.
  rewrite foldl_xor_foldr; [|apply Hu|].
  - replace (Z.to_nat (Z.max 1 iterations)) with (S (Z.to_nat (iterations - 1))) by lia. done.
  - apply Forall_map, Forall_forall. intros j _. apply Hu.
Qed.

(** A toy HMAC: 32 copies of the sum of the message. *)
Definition ex_crypto : crypto :=
  Crypto (fun k _ m => if k is Some _ then Ok m else Err ENOKEY) (fun k _ m => if k is Some _ then Ok m else Err ENOKEY)
    (fun k _ m => if k is Some _ then Ok (m ++ zeros 16) else Err ENOKEY)
    (fun k _ m => if k is Some _ then Ok (take BLK m) else Err ENOKEY) None (fun _ => None) (fun _ m => Ok m)
    None (fun _ => None) (fun k m => Ok (replicate 32 (u8 (foldr Z.add 0 (k ++ m))))) true.
Lemma derive_key_is_pbkdf2_witness :
  lolelffs_derive_key ex_crypto LOLELFFS_KDF_PBKDF2 [1; 2] (zeros 32) 3 =
    Ok (pbkdf2_t (fun m => replicate 32 (u8 (foldr Z.add 0 ([1; 2] ++ m)))) (zeros 32) 3).
Proof.
  rewrite (derive_key_is_pbkdf2 ex_crypto [1; 2] (zeros 32) 3
    (fun m => replicate 32 (u8 (foldr Z.add 0 ([1; 2] ++ m))))); try done.
Defined.
