(* ===== verification/File.v ===== *)
(** * File data (src/src/file.c)

    Mapping file blocks to disk blocks, reading and writing back pages, and the
    two halves of a write.  A page is one block. *)
From S2P Require Import Prelude Layout Bitmap Extent State Elf Super Codec.

(** ** lolelffs_file_get_block *)

(** index->extents[extent].ee_start, ee_len and ee_block are assigned; the
    other members of the slot keep their bytes. *)
Definition set_run (block len start : Z) (e : lolelffs_extent) : lolelffs_extent :=
  Extent block len start (ee_comp_algo e) (ee_enc_algo e) (ee_reserved e) (ee_flags e)
    (ee_reserved2 e) (ee_meta e).

(** The logical block that follows the extent before slot [i]. *)
Definition next_logical (index : lolelffs_file_ei_block) (i : nat) : Z :=
  match i with
  | O => 0
  | S j => ee_block (ext index j) +₃₂ ee_len (ext index j)
  end.

(** The result is the device block bh_result is mapped to; [None] when it is
    left unmapped. *)
Definition lolelffs_file_get_block (inode iblock : Z) (create : bool) : M fs (option Z) :=
  if LOLELFFS_MAX_BLOCKS_PER_EXTENT * LOLELFFS_MAX_EXTENTS <=? iblock then fail EFBIG
  else
    v ← inode_at inode;
    b ← LOLELFFS_SB_BREAD (ei_block v);
    sbi ← gets fs_sbi;
    let index := ei_of_block b in
    let extent := lolelffs_ext_search index (u32 iblock) in
    if extent =? EXT_NONE then fail EFBIG
    else
      let i := Z.to_nat extent in
      let e := ext index i in
      if ee_start e =? 0 then
        if negb create then mret None
        else
          let alloc_size := calc_optimal_extent_size sbi (u32 (i_blocks v)) false in
          bno ← with_sbi (fun s => get_free_blocks s alloc_size);
          if bno =? 0 then fail ENOSPC
          else
            bwrite (ei_block v) (put_ext i (set_run (next_logical index i) alloc_size bno e) b);;
            mret (Some (i32 bno + fs_offset sbi))
      else mret (Some (i32 (ee_start e + iblock - ee_block e) + fs_offset sbi)).

(** ** lolelffs_read_folio *)

Section Pages.
Context (libs : comp_libs) (cctx : comp_ctx) (cr : crypto) (ectx : enc_ctx).

(** The decrypt-then-decompress pipeline on the bytes of a block. *)
Definition decode_block (sbi : lolelffs_sb_info) (oom_decrypt : bool) (e : lolelffs_extent)
    (iblock : Z) (source : block) : result block :=
  let comp_algo := u8 (ee_comp_algo e) in
  let enc_algo := ee_enc_algo e in
  let decrypted :=
    if negb (enc_algo =? LOLELFFS_ENC_NONE) && lolelffs_enc_supported ectx enc_algo then
      if negb (enc_unlocked sbi) then Err EPERM
      else if oom_decrypt then Err ENOMEM
      else lolelffs_decrypt_block cr ectx enc_algo (enc_master_key_decrypted sbi) iblock source
    else Ok source in
  match decrypted with
  | Err err => Err err
  | Ok source =>
      if negb (comp_algo =? LOLELFFS_COMP_NONE) && lolelffs_comp_supported cctx comp_algo
      then lolelffs_decompress_block libs cctx comp_algo source LOLELFFS_BLOCK_SIZE
      else Ok source
  end.

(** The page of the folio at block [iblock] of the file. *)
Definition lolelffs_read_folio (inode iblock : Z) : M fs block :=
  v ← inode_at inode;
  if i_size v <=? iblock * LOLELFFS_BLOCK_SIZE then mret (zeros BLK)
  else
    b ← LOLELFFS_SB_BREAD (ei_block v);
    let index := ei_of_block b in
    let extent_idx := lolelffs_ext_search index (u32 iblock) in
    if (extent_idx =? EXT_NONE) || (ee_start (ext index (Z.to_nat extent_idx)) =? 0)
    then mret (zeros BLK)
    else
      let e := ext index (Z.to_nat extent_idx) in
      let phys_block := u32 (ee_start e + (iblock - ee_block e)) in
      s ← gets id;
      source ← LOLELFFS_SB_BREAD (phys_block + fs_offset (fs_sbi s));
      match decode_block (fs_sbi s) (oom (fs_k s) A_decrypt_buf) e iblock source with
      | Ok page => mret page
      | Err err => fail err
      end.

(** ** lolelffs_writepage_locked *)

(** Step 1: the working buffer and the algorithm after compression. *)
Definition compress_step (k : kernel) (comp_algo : Z) (page : block) : block * Z :=
  if negb (comp_algo =? LOLELFFS_COMP_NONE) && lolelffs_comp_supported cctx comp_algo
     && negb (oom k A_comp_buf) then
    match lolelffs_compress_block libs cctx comp_algo page with
    | Ok comp =>
        if Z.of_nat (length comp) <? LOLELFFS_BLOCK_SIZE * 95 / 100
        then (comp ++ zeros (BLK - length comp), comp_algo) else (page, LOLELFFS_COMP_NONE)
    | Err _ => (page, LOLELFFS_COMP_NONE)
    end
  else (page, LOLELFFS_COMP_NONE).

(** Step 2: encryption of the working buffer. *)
Definition encrypt_step (k : kernel) (sbi : lolelffs_sb_info) (enc_algo iblock : Z) (work_buf : block)
    : result (block * Z) :=
  if negb (enc_algo =? LOLELFFS_ENC_NONE) && lolelffs_enc_supported ectx enc_algo then
    if oom k A_enc_buf then Err ENOMEM
    else if negb (enc_unlocked sbi) then Err EPERM
    else
      match lolelffs_encrypt_block cr ectx enc_algo (enc_master_key_decrypted sbi) iblock work_buf BLK with
      | Ok enc => Ok (take BLK enc, enc_algo)
      | Err err => Err err
      end
  else Ok (work_buf, LOLELFFS_ENC_NONE).

Definition set_coding (comp enc flags : Z) (e : lolelffs_extent) : lolelffs_extent :=
  Extent (ee_block e) (ee_len e) (ee_start e) comp enc (ee_reserved e) flags (ee_reserved2 e) (ee_meta e).

Definition page_flags (used_comp used_enc : Z) : Z :=
  Z.lor (if used_comp =? LOLELFFS_COMP_NONE then 0 else LOLELFFS_EXT_COMPRESSED)
    (if used_enc =? LOLELFFS_ENC_NONE then 0 else LOLELFFS_EXT_ENCRYPTED).

Definition lolelffs_writepage_locked (inode iblock : Z) (page : block) : M fs unit :=
  v ← inode_at inode;
  b ← LOLELFFS_SB_BREAD (ei_block v);
  let index := ei_of_block b in
  let extent_idx := lolelffs_ext_search index (u32 iblock) in
  if (extent_idx =? EXT_NONE) || (ee_start (ext index (Z.to_nat extent_idx)) =? 0) then fail EIO
  else
    let i := Z.to_nat extent_idx in
    let e := ext index i in
    let phys_block := u32 (ee_start e + (iblock - ee_block e)) in
    s ← gets id;
    let sbi := fs_sbi s in
    let comp_algo := u8 (if negb (comp_enabled (sbd sbi) =? 0) then comp_default_algo (sbd sbi)
                         else LOLELFFS_COMP_NONE) in
    let enc_algo := u8 (if negb (enc_enabled (sbd sbi) =? 0) then enc_default_algo (sbd sbi)
                        else LOLELFFS_ENC_NONE) in
    if oom (fs_k s) A_kmap then fail ENOMEM
    else if oom (fs_k s) A_work_buf then fail ENOMEM
    else
      let '(work_buf, used_comp_algo) := compress_step (fs_k s) comp_algo page in
      match encrypt_step (fs_k s) sbi enc_algo iblock work_buf with
      | Err err => fail err
      | Ok (work_buf, used_enc_algo) =>
          let flags := page_flags used_comp_algo used_enc_algo in
          bupdate phys_block (fun _ => work_buf);;
          b ← LOLELFFS_SB_BREAD (ei_block v);
          let e := ext (ei_of_block b) i in
          if negb (used_comp_algo =? ee_comp_algo e) || negb (used_enc_algo =? ee_enc_algo e)
             || negb (flags =? ee_flags e)
          then bwrite (ei_block v) (put_ext i (set_coding used_comp_algo used_enc_algo flags e) b)
          else mret tt
      end.

(** ** lolelffs_writepages *)

(** What mpage_writepages of the kernel does with the dirty pages. *)
Context (mpage_writepages : (Z -> bool -> M fs (option Z)) -> list (Z * block) -> M fs unit).

Fixpoint writepages_loop (inode nr_to_write : Z) (dirty : list (Z * block)) : M fs unit :=
  match dirty with
  | [] => mret tt
  | (iblock, page) :: dirty =>
      lolelffs_writepage_locked inode iblock page;;
      if nr_to_write <=? 0 then mret tt else writepages_loop inode nr_to_write dirty
  end.

(** [dirty]: the dirty pages of the range, in the order of the page cache. *)
Definition lolelffs_writepages (inode nr_to_write : Z) (dirty : list (Z * block)) : M fs unit :=
  s ← gets fs_sbi;
  if (enc_enabled (sbd s) =? 0) && (comp_enabled (sbd s) =? 0)
  then mpage_writepages (lolelffs_file_get_block inode) dirty
  else writepages_loop inode nr_to_write dirty.
End Pages.

(** ** lolelffs_write_begin *)

(** for (i = from; i < LOLELFFS_MAX_EXTENTS; i++): put the blocks of the extent
    and clear it, up to the first unused slot. *)
Fixpoint free_extents_from (n : nat) (blk : Z) (i : nat) : M fs unit :=
  match n with
  | O => mret tt
  | S n =>
      b ← LOLELFFS_SB_BREAD blk;
      let e := ext (ei_of_block b) i in
      if ee_start e =? 0 then mret tt
      else
        upd_sbi (fun s => put_blocks s (ee_start e) (ee_len e));;
        bwrite blk (put_ext i zero_extent b);;
        free_extents_from n blk (S i)
  end.

Section Write.
(** block_write_begin and generic_write_end of the kernel. *)
Context (block_write_begin : (Z -> bool -> M fs (option Z)) -> Z -> Z -> M fs unit)
  (generic_write_end : Z -> Z -> Z -> Z -> M fs Z).

Definition lolelffs_write_begin (inode pos len : Z) : M fs unit :=
  v ← inode_at inode;
  sbi ← gets fs_sbi;
  if LOLELFFS_MAX_FILESIZE <? pos + len then fail ENOSPC
  else
    let nr_allocs := u32 (Z.max (pos + len) (i_size v) / LOLELFFS_BLOCK_SIZE) in
    let have := u64 (i_blocks v - 1) in
    let nr_allocs := if have <? nr_allocs then u32 (nr_allocs - have) else 0 in
    if nr_free_blocks (sbd sbi) <? nr_allocs then fail ENOSPC
    else
      b ← LOLELFFS_SB_BREAD (ei_block v);
      let nr_extents_before := lolelffs_count_extents (ei_of_block b) in
      on_error (block_write_begin (lolelffs_file_get_block inode) pos len)
        (free_extents_from (NEXT - nr_extents_before) (ei_block v) nr_extents_before).

(** ** lolelffs_write_end *)

Definition lolelffs_write_end (inode pos len copied : Z) : M fs Z :=
  ret ← generic_write_end inode pos len copied;
  if u32 ret <? len then mret ret
  else
    v ← inode_at inode;
    k ← gets fs_k;
    let nr_blocks_old := u32 (i_blocks v) in
    inode_upd inode (fun v => set_times (current_time k) (i_atime v) (current_time k)
                       (set_i_blocks (i_size v / LOLELFFS_BLOCK_SIZE + 2) v));;
    attempt (lolelffs_write_inode inode);;
    v ← inode_at inode;
    if i_blocks v <? nr_blocks_old then
      r ← attempt (LOLELFFS_SB_BREAD (ei_block v));
      match r with
      | Err _ => mret ret
      | Ok b =>
          let index := ei_of_block b in
          let first_ext := lolelffs_ext_search index (u32 (i_blocks v - 1)) in
          if first_ext =? EXT_NONE then fail MEMFAULT
          else
            let first_ext :=
              if negb (i_blocks v - 1 =? ee_block (ext index (Z.to_nat first_ext)))
              then first_ext + 1 else first_ext in
            free_extents_from (NEXT - Z.to_nat first_ext) (ei_block v) (Z.to_nat first_ext);;
            mret ret
      end
    else mret ret.
End Write.

(** ** Lemmas on one slot of an index block *)

Lemma calc_size_range s cur :
  0 <= nr_free_blocks (sbd s) -> 0 <= max_extent_blocks_large (sbd s) ->
  1 <= calc_optimal_extent_size s cur false <= 524288.
Proof.
  intros Hf Hm. unfold calc_optimal_extent_size, LOLELFFS_MAX_BLOCKS_PER_EXTENT_LARGE. cbv zeta.
  set (mx := if _ || _ then _ else _).
  assert (1 <= mx <= 524288).
  { subst mx. destruct (Z.eqb_spec (max_extent_blocks_large (sbd s)) 0),
      (Z.ltb_spec 524288 (max_extent_blocks_large (sbd s))); cbn; lia. }
  clearbody mx. set (n := if cur <? 8 then _ else _). assert (1 <= n <= 524288) by (subst n; cases; lia).
  clearbody n. rewrite clamp_free by lia. lia.
Qed.

Lemma ext_insert nf es i j e :
  (i < length es)%nat ->
  ext (FileEi nf (<[i := e]> es)) j = if decide (i = j) then e else ext (FileEi nf es) j.
Proof.
  intros Hi. unfold ext. cbn [extents]. case_decide as E; [subst|].
  - by rewrite list_lookup_insert_eq.
  - by rewrite list_lookup_insert_ne.
Qed.

Lemma ext_put_ext b i j e :
  block_ok b -> (i < NEXT)%nat -> extent_fits e ->
  ext (ei_of_block (put_ext i e b)) j = if decide (i = j) then e else ext (ei_of_block b) j.
Proof.
  intros [Hl _] Hi He. rewrite extents_put_ext by done. rewrite ext_insert by (by rewrite length_extents_ei).
  case_decide; [done|]. done.
Qed.

Lemma set_run_fits e block len start :
  extent_fits e -> is_u32 block -> is_u32 len -> is_u32 start -> extent_fits (set_run block len start e).
Proof. intros (_&_&_&?) ???. done. Qed.

(** Where the used extents end. *)
Lemma count_unique index n :
  (n <= NEXT)%nat -> (forall j, (j < n)%nat -> ee_start (ext index j) <> 0) ->
  ((n < NEXT)%nat -> ee_start (ext index n) = 0) -> lolelffs_count_extents index = n.
Proof.
  intros Hn Hlt Hend. destruct (count_extents_spec index) as (H1 & H2 & H3).
  set (m := lolelffs_count_extents index) in *. clearbody m.
  destruct (Nat.lt_trichotomy m n) as [H|[H|H]]; [|done|].
  - exfalso. apply (Hlt m H), H3. lia.
  - exfalso. apply (H2 n H), Hend. lia.
Qed.

Lemma prefix_len_ext index index' n :
  (forall j, (j < n)%nat -> ee_len (ext index j) = ee_len (ext index' j)) ->
  prefix_len index n = prefix_len index' n.
Proof.
  induction n as [|n IH]; intros H; cbn [prefix_len]; [done|].
  rewrite IH by (intros; apply H; lia). by rewrite H by lia.
Qed.

Lemma next_logical_valid index i :
  extents_valid index -> (i <= lolelffs_count_extents index)%nat ->
  next_logical index i = prefix_len index i.
Proof.
  intros Hv Hi. destruct i as [|i]; [done|]. cbn [next_logical prefix_len].
  destruct (Hv i ltac:(lia)) as [_ ->]. apply u32_small, (valid_no_overflow index (S i) Hv Hi).
Qed.

(** ** The invariant of a file's index block *)

(** The disk blocks of extent [i]. *)
Definition run_of (index : lolelffs_file_ei_block) (i : nat) : gset Z :=
  range (ee_start (ext index i)) (ee_len (ext index i)).

(** A sound index block: the used extents tile the file, the unused slots are
    clear, and the runs are allocated blocks that belong to one extent each. *)
Record index_ok (sbi : lolelffs_sb_info) (b : block) : Prop := {
  io_block : block_ok b;
  io_valid : extents_valid (ei_of_block b);
  io_tail : forall j, (lolelffs_count_extents (ei_of_block b) <= j)%nat -> ext (ei_of_block b) j = zero_extent;
  io_used : forall i, (i < lolelffs_count_extents (ei_of_block b))%nat ->
    run_of (ei_of_block b) i ⊆ univ (nr_blocks (sbd sbi)) ∖ free_blocks sbi;
  io_disjoint : forall i j, (i < lolelffs_count_extents (ei_of_block b))%nat ->
    (j < lolelffs_count_extents (ei_of_block b))%nat -> i <> j ->
    run_of (ei_of_block b) i ## run_of (ei_of_block b) j
}.

(** Two index blocks whose extents are the same runs. *)
Definition same_runs (index index' : lolelffs_file_ei_block) : Prop :=
  forall j, ee_block (ext index' j) = ee_block (ext index j) /\ ee_len (ext index' j) = ee_len (ext index j) /\
    ee_start (ext index' j) = ee_start (ext index j).

Lemma same_runs_count index index' :
  same_runs index index' -> lolelffs_count_extents index' = lolelffs_count_extents index.
Proof.
  intros H. destruct (count_extents_spec index) as (? & Hu & Hz).
  apply count_unique; [done|intros j ?|intros ?].
  - destruct (H j) as (_ & _ & ->). by apply Hu.
  - destruct (H (lolelffs_count_extents index)) as (_ & _ & ->). by apply Hz.
Qed.

Lemma index_ok_same sbi sbi' b b' :
  index_ok sbi b -> block_ok b' -> nr_blocks (sbd sbi') = nr_blocks (sbd sbi) ->
  free_blocks sbi' = free_blocks sbi -> same_runs (ei_of_block b) (ei_of_block b') ->
  (forall j, (j < lolelffs_count_extents (ei_of_block b))%nat ->
     ee_len (ext (ei_of_block b) j) <= extent_max_blocks (ext (ei_of_block b') j)) ->
  (forall j, (lolelffs_count_extents (ei_of_block b) <= j)%nat -> ext (ei_of_block b') j = zero_extent) ->
  index_ok sbi' b'.
Proof.
  intros Hb Hok En EF Hs Hmax Htail. pose proof (same_runs_count _ _ Hs) as EC.
  assert (forall j, run_of (ei_of_block b') j = run_of (ei_of_block b) j) as Erun.
  { intros j. unfold run_of. by destruct (Hs j) as (_ & -> & ->). }
  assert (forall j, prefix_len (ei_of_block b') j = prefix_len (ei_of_block b) j) as Epre.
  { intros j. apply prefix_len_ext. intros k _. apply Hs. }
  split; [done|..]; rewrite ?EC.
  - intros j Hj. rewrite EC in Hj. destruct (Hs j) as (-> & -> & _). rewrite Epre.
    destruct (io_valid _ _ Hb j Hj) as [? ?]. specialize (Hmax j Hj). lia.
  - done.
  - intros i Hi. rewrite Erun, En, EF. by apply (io_used _ _ Hb).
  - intros i j Hi Hj Hne. rewrite !Erun. by apply (io_disjoint _ _ Hb).
Qed.

(** The slot that get_block fills: the one after the used extents. *)
Definition append_run (b : block) (start len : Z) : block :=
  let index := ei_of_block b in
  let n := lolelffs_count_extents index in
  put_ext n (set_run (prefix_len index n) len start (ext index n)) b.

Section Append.
Context (sbi sbi' : lolelffs_sb_info) (b : block) (start len : Z).
Context (Hb : index_ok sbi b) (Hn : (lolelffs_count_extents (ei_of_block b) < NEXT)%nat)
  (Hstart : 0 < start < 2 ^ 32) (Hlen : 1 <= len <= 524288)
  (Hsub : range start len ⊆ free_blocks sbi)
  (Hfree : free_blocks sbi' = free_blocks sbi ∖ range start len)
  (Huniv : univ (nr_blocks (sbd sbi')) = univ (nr_blocks (sbd sbi)))
  (Hinv : block_inv sbi).

#[local] Abbreviation index := (ei_of_block b).
#[local] Abbreviation n := (lolelffs_count_extents (ei_of_block b)).

Lemma append_slot_fits : extent_fits (set_run (prefix_len index n) len start (ext index n)).
Proof using Hb Hn Hstart Hlen.
  apply set_run_fits; [apply ext_ei_fits, (io_block _ _ Hb)| |lia|lia].
  exact (valid_no_overflow index n (io_valid _ _ Hb) (le_n n)).
Qed.

Lemma ext_append j :
  ext (ei_of_block (append_run b start len)) j =
    if decide (n = j) then set_run (prefix_len index n) len start (ext index n) else ext index j.
Proof using Hb Hn Hstart Hlen.
  unfold append_run. rewrite ext_put_ext; [done|apply (io_block _ _ Hb)|exact Hn|].
  apply append_slot_fits.
Qed.

Lemma count_append : lolelffs_count_extents (ei_of_block (append_run b start len)) = S n.
Proof using Hb Hn Hstart Hlen.
  destruct (count_extents_spec index) as (H1 & H2 & H3).
  apply count_unique; [lia| |].
  - intros j Hj. rewrite ext_append. case_decide; [cbn; lia|]. apply H2. lia.
  - intros _. rewrite ext_append, decide_False by lia.
    rewrite (io_tail _ _ Hb) by lia. done.
Qed.

Lemma run_append j : (j < n)%nat -> run_of (ei_of_block (append_run b start len)) j = run_of index j.
Proof using Hb Hn Hstart Hlen. intros. unfold run_of. by rewrite ext_append, decide_False by lia. Qed.

Lemma run_append_new : run_of (ei_of_block (append_run b start len)) n = range start len.
Proof using Hb Hn Hstart Hlen. unfold run_of. by rewrite ext_append, decide_True. Qed.

(** Appending a freshly allocated run keeps the index sound. *)
Lemma append_index_ok : index_ok sbi' (append_run b start len).
Proof using All.
  pose proof (io_tail _ _ Hb) as Htail.
  pose proof (io_used _ _ Hb) as Hused.
  pose proof (io_disjoint _ _ Hb) as Hdis.
  assert (forall j, (j <= n)%nat -> prefix_len (ei_of_block (append_run b start len)) j = prefix_len index j) as Hpre.
  { intros j Hj. apply prefix_len_ext. intros k Hk. by rewrite ext_append, decide_False by lia. }
  pose proof (map_inv_univ _ _ _ Hinv) as Hfu. fold (free_blocks sbi) in Hfu.
  split.
  - apply block_ok_put_ext, (io_block _ _ Hb).
  - intros i Hi. rewrite count_append in Hi. rewrite Hpre by lia. rewrite ext_append.
    case_decide as E; [subst i|apply (io_valid _ _ Hb); lia].
    rewrite Htail by lia. split; [|done]. change (extent_max_blocks _) with 524288. exact Hlen.
  - intros j Hj. rewrite count_append in Hj. rewrite ext_append, decide_False by lia. apply Htail. lia.
  - intros i Hi. rewrite count_append in Hi. rewrite Hfree, Huniv.
    destruct (decide (i = n)) as [->|Hin]; [rewrite run_append_new; set_solver|].
    rewrite run_append by lia. specialize (Hused i ltac:(lia)). set_solver.
  - intros i j Hi Hj Hne. rewrite count_append in Hi, Hj.
    destruct (decide (i = n)) as [->|Hin]; destruct (decide (j = n)) as [->|Hjn]; [done|..];
      rewrite ?run_append_new, ?run_append by lia.
    + specialize (Hused j ltac:(lia)). set_solver.
    + specialize (Hused i ltac:(lia)). set_solver.
    + apply Hdis; lia || done.
Qed.
End Append.

(** ** What get_block does *)

Lemma get_free_blocks_none s len s' :
  block_inv s -> 1 <= len < 2 ^ 32 -> get_free_blocks s len = (0, s') -> s' = s.
Proof.
  intros Hinv Hlen. unfold get_free_blocks. destruct (get_first_free_bits _ _ _) as [r bm] eqn:E.
  apply (get_first_free_bits_cases _ _ _ _ Hinv Hlen) in E. intros [= -> <-].
  destruct E as [[? _]|(_ & -> & _)]; [done|]. destruct s as [d ? ? ? ? ?]. by destruct d.
Qed.

Lemma get_free_blocks_frame s len r s' :
  get_free_blocks s len = (r, s') ->
  fs_offset s' = fs_offset s /\ nr_blocks (sbd s') = nr_blocks (sbd s) /\
  max_extent_blocks_large (sbd s') = max_extent_blocks_large (sbd s).
Proof.
  unfold get_free_blocks. destruct (get_first_free_bits _ _ _) as [r0 bm]. intros [= <- <-]. done.
Qed.

Lemma univ_bounds s start len :
  block_inv s -> 1 <= len -> range start len ⊆ univ (nr_blocks (sbd s)) ->
  0 < start /\ start + len <= nr_blocks (sbd s) /\ nr_blocks (sbd s) < 2 ^ 32.
Proof.
  intros [Hu _] Hl Hsub. destruct (range_univ_bounds _ _ _ Hl Hsub) as [? ?]. lia.
Qed.

(** Allocating a run of blocks: all of it, or none and no change. *)
Inductive alloc_outcome (s : fs) (len : Z) : Z -> fs -> Prop :=
  | alloc_got bno sbi' :
      0 < bno -> bno + len <= nr_blocks (sbd (fs_sbi s)) -> nr_blocks (sbd (fs_sbi s)) < 2 ^ 32 ->
      range bno len ⊆ free_blocks (fs_sbi s) ->
      block_inv sbi' -> free_blocks sbi' = free_blocks (fs_sbi s) ∖ range bno len ->
      fs_offset sbi' = fs_offset (fs_sbi s) -> nr_blocks (sbd sbi') = nr_blocks (sbd (fs_sbi s)) ->
      alloc_outcome s len bno (set_sbi sbi' s)
  | alloc_none :
      (forall x, ~ range x len ⊆ free_blocks (fs_sbi s)) -> alloc_outcome s len 0 s.

Lemma alloc_run s len :
  block_inv (fs_sbi s) -> 1 <= len < 2 ^ 32 ->
  exists bno s', with_sbi (fun x => get_free_blocks x len) s = (Ok bno, s') /\ alloc_outcome s len bno s'.
Proof.
  intros Hinv Hlen. unfold with_sbi. destruct (get_free_blocks (fs_sbi s) len) as [bno sbi'] eqn:Eg.
  destruct (al_get_ok (Allocator := block_allocator) (fs_sbi s) len bno sbi' Hinv Hlen Eg)
    as (Hinv' & _ & [(Hnz & Hsub & HF)|(-> & _ & Hno)]).
  - do 2 eexists. split; [done|]. destruct (get_free_blocks_frame _ _ _ _ Eg) as (? & ? & _).
    destruct (univ_bounds (fs_sbi s) bno len Hinv ltac:(lia)) as (? & ? & ?).
    { etransitivity; [exact Hsub|]. apply (map_inv_univ _ _ _ Hinv). }
    by apply alloc_got.
  - apply get_free_blocks_none in Eg as ->; [|done|lia].
    do 2 eexists. split; [done|]. replace (set_sbi (fs_sbi s) s) with s by (by destruct s). by apply alloc_none.
Qed.

(** A file whose inode is cached and whose index block is readable and sound,
    in a file system with a sound allocator. *)
Record file_ok (s : fs) (inode : Z) (v : vinode) (b : block) : Prop := {
  fo_inode : fs_icache s !! inode = Some v;
  fo_read : blk_at s (ei_block v) = Some b;
  fo_inv : block_inv (fs_sbi s);
  fo_large : 0 <= max_extent_blocks_large (sbd (fs_sbi s));
  fo_index : index_ok (fs_sbi s) b
}.

(** The device block of block [iblock] of the file in extent [i]. *)
Definition phys (index : lolelffs_file_ei_block) (iblock : Z) (i : nat) : Z :=
  ee_start (ext index i) + (iblock - ee_block (ext index i)).

(** The outcomes of get_block on a sound file. *)
Inductive gb_outcome (s : fs) (v : vinode) (b : block) (iblock : Z) (create : bool)
    : result (option Z) -> fs -> Prop :=
  | gb_too_big :
      LOLELFFS_MAX_BLOCKS_PER_EXTENT * LOLELFFS_MAX_EXTENTS <= iblock ->
      gb_outcome s v b iblock create (Err EFBIG) s
  | gb_mapped i :
      holds (ei_of_block b) iblock i ->
      gb_outcome s v b iblock create
        (Ok (Some (i32 (phys (ei_of_block b) iblock i) + fs_offset (fs_sbi s)))) s
  | gb_full :
      prefix_len (ei_of_block b) (lolelffs_count_extents (ei_of_block b)) <= iblock ->
      lolelffs_count_extents (ei_of_block b) = NEXT ->
      gb_outcome s v b iblock create (Err EFBIG) s
  | gb_hole :
      prefix_len (ei_of_block b) (lolelffs_count_extents (ei_of_block b)) <= iblock ->
      create = false -> gb_outcome s v b iblock create (Ok None) s
  | gb_nospace len :
      prefix_len (ei_of_block b) (lolelffs_count_extents (ei_of_block b)) <= iblock ->
      1 <= len -> (forall x, ~ range x len ⊆ free_blocks (fs_sbi s)) ->
      gb_outcome s v b iblock create (Err ENOSPC) s
  | gb_alloc bno len sbi' :
      prefix_len (ei_of_block b) (lolelffs_count_extents (ei_of_block b)) <= iblock ->
      (lolelffs_count_extents (ei_of_block b) < NEXT)%nat -> create = true ->
      1 <= len <= 524288 -> 0 < bno < 2 ^ 32 ->
      get_free_blocks (fs_sbi s) len = (bno, sbi') -> block_inv sbi' ->
      range bno len ⊆ free_blocks (fs_sbi s) ->
      free_blocks sbi' = free_blocks (fs_sbi s) ∖ range bno len ->
      gb_outcome s v b iblock create (Ok (Some (i32 bno + fs_offset (fs_sbi s))))
        (set_disk (<[ei_block v + fs_offset (fs_sbi s) := append_run b bno len]> (fs_disk s))
           (set_sbi sbi' s)).

Lemma run_bounds s start len :
  block_inv s -> 1 <= len -> range start len ⊆ free_blocks s -> 0 < start < 2 ^ 32.
Proof.
  intros Hinv Hl Hsub. pose proof (map_inv_univ _ _ _ Hinv) as Hu.
  destruct (range_univ_bounds (nr_blocks (sbd s)) start len Hl) as [? ?]; [set_solver|].
  destruct Hinv as [? _]. lia.
Qed.

Lemma get_block_spec s inode v b iblock create r s' :
  file_ok s inode v b -> 0 <= iblock ->
  lolelffs_file_get_block inode iblock create s = (r, s') -> gb_outcome s v b iblock create r s'.
Proof.
  intros [Hc Hr Hinv Hlg Hb] Hib. unfold lolelffs_file_get_block.
  change (LOLELFFS_MAX_BLOCKS_PER_EXTENT * LOLELFFS_MAX_EXTENTS) with 348160.
  destruct (Z.leb_spec 348160 iblock).
  { intros [= <- <-]. by apply gb_too_big. }
  unfold inode_at. rewrite bind_gets, Hc. cbn [default from_option id].
  rewrite (bind_run _ _ _ _ _ (bread_run _ _ _ Hr)), bind_gets. rewrite (u32_small iblock) by lia.
  destruct (ext_search_valid (ei_of_block b) iblock (io_valid _ _ Hb) Hib) as [Hin Hout].
  set (index := ei_of_block b) in *. set (n := lolelffs_count_extents index) in *.
  destruct (count_extents_spec index) as (Hn1 & Hn2 & Hn3). fold n in Hn1, Hn2, Hn3.
  destruct (Z.lt_ge_cases iblock (prefix_len index n)) as [Hlt|Hge].
  - destruct (Hin Hlt) as (i & Hh & ->). pose proof Hh as [Hi _]. fold n in Hi.
    rewrite (proj2 (Z.eqb_neq (Z.of_nat i) EXT_NONE)) by (unfold NEXT in Hn1; change EXT_NONE with (2 ^ 32 - 1); lia).
    rewrite Nat2Z.id. rewrite (proj2 (Z.eqb_neq _ _) (Hn2 i Hi)). intros [= <- <-].
    replace (ee_start (ext index i) + iblock - ee_block (ext index i)) with (phys index iblock i)
      by (unfold phys; lia). by apply gb_mapped.
  - rewrite (Hout Hge). change LOLELFFS_MAX_EXTENTS with 170. destruct (Z.ltb_spec (Z.of_nat n) 170).
    2:{ change (EXT_NONE =? EXT_NONE) with true. intros [= <- <-]. apply gb_full; [done|].
        fold index n. unfold NEXT in *. lia. }
    rewrite (proj2 (Z.eqb_neq (Z.of_nat n) EXT_NONE)) by (change EXT_NONE with (2 ^ 32 - 1); lia).
    rewrite Nat2Z.id. rewrite (Hn3 ltac:(unfold NEXT; lia)). cbn [Z.eqb].
    destruct create; cbn [negb]; [|intros [= <- <-]; by apply gb_hole].
    set (len := calc_optimal_extent_size _ _ _).
    assert (1 <= len <= 524288) as Hlen.
    { apply calc_size_range; [|done]. destruct Hinv as (_ & _ & _ & ->). lia. }
    unfold with_sbi, mbind at 1, M_bind at 1. destruct (get_free_blocks (fs_sbi s) len) as [bno sbi'] eqn:Eg.
    destruct (al_get_ok (Allocator := block_allocator) (fs_sbi s) len bno sbi' Hinv ltac:(cbn; lia) Eg)
      as (Hinv' & _ & [(Hnz & Hsub & HF)|(-> & _ & Hno)]).
    + rewrite (proj2 (Z.eqb_neq _ _) Hnz). unfold bwrite. rewrite bind_modify. intros [= <- <-].
      rewrite (next_logical_valid index n (io_valid _ _ Hb) ltac:(done)).
      destruct (get_free_blocks_frame _ _ _ _ Eg) as [Eoff _]. cbn [set_sbi fs_sbi]. rewrite Eoff.
      change (put_ext n _ b) with (append_run b bno len).
      change (set_disk _ (set_sbi sbi' s)) with
        (set_disk (<[ei_block v + fs_offset (fs_sbi s) := append_run b bno len]> (fs_disk s)) (set_sbi sbi' s)).
      apply gb_alloc; try done; [fold index n; unfold NEXT; lia|].
      by apply (run_bounds (fs_sbi s) bno len Hinv ltac:(lia)).
    + cbn [Z.eqb]. apply get_free_blocks_none in Eg as ->; [|done|lia].
      intros [= <- <-]. replace (set_sbi (fs_sbi s) s) with s by (by destruct s).
      apply (gb_nospace _ _ _ _ _ len); done || lia.
Qed.

(** Every outcome keeps the file sound. *)
Lemma gb_outcome_ok s inode v b iblock create r s' :
  file_ok s inode v b -> gb_outcome s v b iblock create r s' -> exists b', file_ok s' inode v b'.
Proof.
  intros Hok H. destruct H as [| | | | |bno len sbi' Hge Hn Hcr Hlen Hbno Eg Hinv' Hsub HF]; [by exists b..|].
  exists (append_run b bno len). destruct Hok as [Hc Hr Hinv Hlg Hb].
  destruct (get_free_blocks_frame _ _ _ _ Eg) as (Eoff & Enb & Emax).
  split; [done| |done| |].
  - unfold blk_at. cbn [set_disk set_sbi fs_disk fs_sbi]. rewrite Eoff. apply lookup_insert_eq.
  - cbn [set_disk set_sbi fs_sbi]. by rewrite Emax.
  - cbn [set_disk set_sbi fs_sbi]. apply (append_index_ok (fs_sbi s)); try done. by rewrite Enb.
Qed.

Lemma i32_inj x y : is_u32 x -> is_u32 y -> i32 x = i32 y -> x = y.
Proof. unfold i32. intros Hx Hy. rewrite !u32_small by lia. cases; zbool; lia. Qed.

(** A block of the file lies in the run of its extent, inside the device. *)
Lemma phys_in_run index iblock i : holds index iblock i -> phys index iblock i ∈ run_of index i.
Proof. intros [_ H]. unfold phys, run_of. rewrite elem_of_range. lia. Qed.

Lemma phys_u32 sbi b iblock i :
  block_inv sbi -> index_ok sbi b -> holds (ei_of_block b) iblock i -> is_u32 (phys (ei_of_block b) iblock i).
Proof.
  intros [Hu _] Hb Hh. pose proof (phys_in_run _ _ _ Hh) as Hin.
  apply (io_used _ _ Hb) in Hin; [|apply Hh]. unfold univ in Hin.
  rewrite elem_of_difference, elem_of_range in Hin. lia.
Qed.

(** Different blocks of the file are different blocks of the device. *)
Lemma phys_inj sbi b i j x y :
  index_ok sbi b -> holds (ei_of_block b) x i -> holds (ei_of_block b) y j ->
  phys (ei_of_block b) x i = phys (ei_of_block b) y j -> x = y.
Proof.
  intros Hb Hx Hy E. destruct (decide (i = j)) as [->|Hne]; [unfold phys in E; lia|].
  exfalso. pose proof (phys_in_run _ _ _ Hx) as H1. pose proof (phys_in_run _ _ _ Hy) as H2.
  rewrite E in H1. exact (io_disjoint _ _ Hb i j (proj1 Hx) (proj1 Hy) Hne _ H1 H2).
Qed.

(** get_block on a block the file has. *)
Lemma get_block_held s inode v b iblock create :
  file_ok s inode v b -> 0 <= iblock < 348160 ->
  iblock < prefix_len (ei_of_block b) (lolelffs_count_extents (ei_of_block b)) ->
  exists i, holds (ei_of_block b) iblock i /\
    lolelffs_file_get_block inode iblock create s =
      (Ok (Some (i32 (phys (ei_of_block b) iblock i) + fs_offset (fs_sbi s))), s).
Proof.
  intros Hok Hib Hlt.
  destruct (lolelffs_file_get_block inode iblock create s) as [r s'] eqn:E.
  apply (get_block_spec s inode v b) in E; [|done|lia].
  destruct E as [?|i Hh|?|?|? ?|? ? ? ?];
    [change (LOLELFFS_MAX_BLOCKS_PER_EXTENT * LOLELFFS_MAX_EXTENTS) with 348160 in *; lia|by exists i|lia..].
Qed.

(** Reading an extent list after a run was appended. *)
Section AfterAppend.
Context (s : fs) (inode : Z) (v : vinode) (b : block) (bno len : Z)
  (Hok : file_ok s inode v b) (Hn : (lolelffs_count_extents (ei_of_block b) < NEXT)%nat)
  (Hlen : 1 <= len <= 524288) (Hsub : range bno len ⊆ free_blocks (fs_sbi s)).

Lemma holds_append_old x i :
  holds (ei_of_block b) x i ->
  holds (ei_of_block (append_run b bno len)) x i /\
  phys (ei_of_block (append_run b bno len)) x i = phys (ei_of_block b) x i.
Proof using All.
  destruct Hok as [_ _ Hinv _ Hb]. intros [Hi Hx].
  pose proof (run_bounds (fs_sbi s) bno len Hinv ltac:(lia) Hsub) as Hbno.
  assert (ext (ei_of_block (append_run b bno len)) i = ext (ei_of_block b) i) as E.
  { rewrite (ext_append (fs_sbi s)) by done. by rewrite decide_False by lia. }
  unfold holds, phys. rewrite E, (count_append (fs_sbi s)) by done. split; [|done]. split; [lia|done].
Qed.

Lemma holds_append_new :
  let x := prefix_len (ei_of_block b) (lolelffs_count_extents (ei_of_block b)) in
  holds (ei_of_block (append_run b bno len)) x (lolelffs_count_extents (ei_of_block b)) /\
  phys (ei_of_block (append_run b bno len)) x (lolelffs_count_extents (ei_of_block b)) = bno.
Proof using All.
  destruct Hok as [_ _ Hinv _ Hb]. pose proof (run_bounds (fs_sbi s) bno len Hinv ltac:(lia) Hsub) as Hbno.
  unfold holds, phys. rewrite (count_append (fs_sbi s)), (ext_append (fs_sbi s)) by done.
  rewrite decide_True by done. cbn [set_run ee_block ee_len ee_start]. lia.
Qed.
End AfterAppend.

(** C8 Mapping a block never damages a file: whatever get_block returns, with or
    without create, the allocator invariant holds, the extents tile the file
    from block 0, their runs are allocated and pairwise disjoint, and the blocks
    the file had stay where they were. *)
Theorem get_block_preserves s inode v b iblock create r s' :
  file_ok s inode v b -> 0 <= iblock ->
  lolelffs_file_get_block inode iblock create s = (r, s') ->
  exists b', file_ok s' inode v b' /\
    forall x i, holds (ei_of_block b) x i ->
      holds (ei_of_block b') x i /\ phys (ei_of_block b') x i = phys (ei_of_block b) x i.
Proof.
  intros Hok Hib H. apply (get_block_spec s inode v b) in H; [|done..].
  pose proof (gb_outcome_ok s inode v b iblock create r s' Hok H) as Hok'.
  destruct H as [| | | | |bno len sbi' Hge Hn Hcr Hlen Hbno Eg Hinv' Hsub HF]; [exists b; auto..|].
  destruct Hok' as [b' Hok']. exists b'. split; [done|].
  assert (b' = append_run b bno len) as ->.
  { pose proof (fo_read _ _ _ _ Hok') as Hr. unfold blk_at in Hr. cbn [set_disk set_sbi fs_disk fs_sbi] in Hr.
    rewrite (proj1 (get_free_blocks_frame _ _ _ _ Eg)), lookup_insert_eq in Hr. congruence. }
  by apply (holds_append_old s inode v).
Qed.

(** An index block that was just cleared is sound. *)
Lemma index_ok_zeros sbi : index_ok sbi (zeros BLK).
Proof.
  assert (lolelffs_count_extents (ei_of_block (zeros BLK)) = 0%nat) as E.
  { apply count_unique; [lia|intros; lia|]. intros _. by rewrite ext_of_zeros. }
  split; [apply block_ok_zeros| |intros; apply ext_of_zeros|..]; intros i; rewrite E; lia.
Qed.

(** The small image with an empty regular file, inode 1, index block 5. *)
Definition ex_file_v : vinode := VInode 1 0x81A4 0 0 0 0 0 0 1 1 false 5 0 (zeros 28).
Definition ex_file_fs : fs :=
  set_icache (<[1 := ex_file_v]> (fs_icache ex_fs)) (set_sbi (snd (get_free_blocks (fs_sbi ex_fs) 1)) ex_fs).

Lemma ex_file_ok : file_ok ex_file_fs 1 ex_file_v (zeros BLK).
Proof.
  split; [vm_compute; reflexivity..| |vm_compute; discriminate|apply index_ok_zeros].
  repeat split; vm_compute; discriminate || reflexivity.
Qed.

Lemma get_block_preserves_witness :
  exists s' b', lolelffs_file_get_block 1 0 true ex_file_fs = (Ok (Some 6), s') /\
    file_ok s' 1 ex_file_v b'.
Proof.
  destruct (get_block_preserves ex_file_fs 1 ex_file_v (zeros BLK) 0 true
    (Ok (Some 6)) (snd (lolelffs_file_get_block 1 0 true ex_file_fs)) ex_file_ok) as (b' & H & _);
    [lia|vm_compute; reflexivity|].
  do 2 eexists. split; [|exact H]. vm_compute. reflexivity.
Defined.

(** C19 For a file written from its start, a block stays where it was put: after
    get_block maps block [iblock], which the file has or which is the next one
    after its extents, asking again gives the same device block and changes
    nothing, and no other block of the file is mapped to that device block. *)
Theorem get_block_stable s inode v b iblock p s' :
  file_ok s inode v b -> 0 <= iblock < 348160 ->
  iblock <= lolelffs_extents_total_blocks (ei_of_block b) ->
  lolelffs_file_get_block inode iblock true s = (Ok (Some p), s') ->
  (forall create, lolelffs_file_get_block inode iblock create s' = (Ok (Some p), s')) /\
  forall x create, 0 <= x < lolelffs_extents_total_blocks (ei_of_block b) -> x < 348160 -> x <> iblock ->
    exists q, lolelffs_file_get_block inode x create s' = (Ok (Some q), s') /\ q <> p.
Proof.
  intros Hok Hib Htot H. rewrite (total_blocks_valid _ (io_valid _ _ (fo_index _ _ _ _ Hok))) in *.
  apply (get_block_spec s inode v b) in H; [|done|lia].
  destruct (gb_outcome_ok s inode v b iblock true _ s' Hok H) as [b' Hok'].
  assert (fs_offset (fs_sbi s') = fs_offset (fs_sbi s) /\
    (forall x i, holds (ei_of_block b) x i -> holds (ei_of_block b') x i) /\
    exists i, holds (ei_of_block b') iblock i /\
      p = i32 (phys (ei_of_block b') iblock i) + fs_offset (fs_sbi s)) as (Eoff & Hold & i & Hh & ->).
  { inversion H as [|i Hh|?|?|?|bno len sbi' Hge Hn Hcr Hlen Hbno Eg Hinv' Hsub HF]; subst.
    - assert (b' = b) as -> by (pose proof (fo_read _ _ _ _ Hok); pose proof (fo_read _ _ _ _ Hok'); congruence).
      split_and!; [done|auto|]. by exists i.
    - destruct (get_free_blocks_frame _ _ _ _ Eg) as [Eoff _].
      assert (b' = append_run b bno len) as ->.
      { pose proof (fo_read _ _ _ _ Hok') as Hr. unfold blk_at in Hr. cbn [set_disk set_sbi fs_disk fs_sbi] in Hr.
        rewrite Eoff, lookup_insert_eq in Hr. congruence. }
      split_and!; [done| |].
      + intros x j Hx. by apply (holds_append_old s inode v).
      + replace iblock with (prefix_len (ei_of_block b) (lolelffs_count_extents (ei_of_block b))) by lia.
        destruct (holds_append_new s inode v b bno len Hok Hn Hlen Hsub) as [Hnew Ephys].
        eexists. split; [exact Hnew|]. by rewrite Ephys. }
  pose proof (fo_index _ _ _ _ Hok') as Hb'. pose proof (fo_inv _ _ _ _ Hok') as Hinv'.
  assert (forall x j, holds (ei_of_block b') x j -> forall create, 0 <= x < 348160 ->
    lolelffs_file_get_block inode x create s' =
      (Ok (Some (i32 (phys (ei_of_block b') x j) + fs_offset (fs_sbi s))), s')) as Hrun.
  { intros x j Hx create Hxb. pose proof Hx as [Hj Hxr].
    destruct (get_block_held s' inode v b' x create Hok' Hxb) as (j' & Hx' & ->).
    - destruct (io_valid _ _ Hb' j Hj) as [_ Ej].
      pose proof (prefix_len_mono _ j _ (io_valid _ _ Hb') (conj Hj (le_n _))). lia.
    - rewrite (holds_unique _ _ _ _ (io_valid _ _ Hb') Hx' Hx), Eoff. done. }
  split; [intros create; by apply Hrun|]. intros x create Hx Hxb Hne.
  destruct (holds_exists (ei_of_block b) x (io_valid _ _ (fo_index _ _ _ _ Hok)) Hx) as [j Hj].
  apply Hold in Hj. eexists. split; [apply (Hrun x j Hj); lia|].
  intros E. apply Hne, (phys_inj (fs_sbi s') b' j i x iblock Hb' Hj Hh).
  apply i32_inj; [by apply (phys_u32 (fs_sbi s'))..|lia].
Qed.

Lemma get_block_stable_witness :
  exists s', lolelffs_file_get_block 1 0 true ex_file_fs = (Ok (Some 6), s') /\
    lolelffs_file_get_block 1 0 false s' = (Ok (Some 6), s').
Proof.
  destruct (get_block_stable ex_file_fs 1 ex_file_v (zeros BLK) 0 6
    (snd (lolelffs_file_get_block 1 0 true ex_file_fs)) ex_file_ok) as [H _];
    [lia|vm_compute; discriminate|vm_compute; reflexivity|].
  eexists. split; [|exact (H false)]. vm_compute. reflexivity.
Defined.

(** A block beyond the end of the extents is mapped to the first block of the
    new extent whatever its number, and the extent does not hold it: on an
    empty file, mapping block 5 twice allocates two extents and gives two
    different device blocks. *)
Theorem get_block_sparse_unstable :
  exists s1 s2, lolelffs_file_get_block 1 5 true ex_file_fs = (Ok (Some 6), s1) /\
    lolelffs_file_get_block 1 5 true s1 = (Ok (Some 8), s2) /\
    nr_free_blocks (sbd (fs_sbi s2)) = nr_free_blocks (sbd (fs_sbi ex_file_fs)) - 4.
Proof.
  exists (snd (lolelffs_file_get_block 1 5 true ex_file_fs)),
    (snd (lolelffs_file_get_block 1 5 true (snd (lolelffs_file_get_block 1 5 true ex_file_fs)))).
  split_and!; vm_compute; reflexivity.
Qed.

(** ** Rolling back a failed write *)

(** Two states that differ in the allocator and in one block. *)
Definition same_but (blk : Z) (s s' : fs) : Prop :=
  fs_icache s' = fs_icache s /\ fs_k s' = fs_k s /\ fs_offset (fs_sbi s') = fs_offset (fs_sbi s) /\
  nr_blocks (sbd (fs_sbi s')) = nr_blocks (sbd (fs_sbi s)) /\
  max_extent_blocks_large (sbd (fs_sbi s')) = max_extent_blocks_large (sbd (fs_sbi s)) /\
  forall j, j <> blk -> blk_at s' j = blk_at s j.

Lemma same_but_refl blk s : same_but blk s s.
Proof. by repeat split. Qed.

Lemma same_but_trans blk s1 s2 s3 : same_but blk s1 s2 -> same_but blk s2 s3 -> same_but blk s1 s3.
Proof.
  intros (?&?&?&?&?&Hd1) (?&?&?&?&?&Hd2). repeat split; try congruence.
  intros j Hj. by rewrite Hd2, Hd1.
Qed.

Lemma put_blocks_frame s r len :
  fs_offset (put_blocks s r len) = fs_offset s /\ nr_blocks (sbd (put_blocks s r len)) = nr_blocks (sbd s) /\
  max_extent_blocks_large (sbd (put_blocks s r len)) = max_extent_blocks_large (sbd s).
Proof. unfold put_blocks. by destruct (put_free_bits _ _ _ _). Qed.

Lemma put_run s start len :
  block_inv s -> 1 <= len -> range start len ⊆ univ (nr_blocks (sbd s)) ∖ free_blocks s ->
  block_inv (put_blocks s start len) /\
  free_blocks (put_blocks s start len) = free_blocks s ∪ range start len.
Proof.
  intros Hinv Hl Hsub. destruct (univ_bounds s start len Hinv Hl) as (? & ? & ?); [set_solver|].
  destruct (al_put_ok (Allocator := block_allocator) s start len Hinv ltac:(cbn; lia) Hsub) as (? & _ & ?). done.
Qed.

(** Replacing one block and the allocator, as the handlers of this file do. *)
Lemma same_but_step s blk bk sbi' :
  fs_offset sbi' = fs_offset (fs_sbi s) -> nr_blocks (sbd sbi') = nr_blocks (sbd (fs_sbi s)) ->
  max_extent_blocks_large (sbd sbi') = max_extent_blocks_large (sbd (fs_sbi s)) ->
  let s' := set_disk (<[blk + fs_offset (fs_sbi s) := bk]> (fs_disk s)) (set_sbi sbi' s) in
  same_but blk s s' /\ blk_at s' blk = Some bk.
Proof.
  intros Eo En Em s'. unfold same_but, blk_at. subst s'. cbn [set_disk set_sbi fs_disk fs_sbi fs_icache fs_k].
  rewrite Eo. split; [|apply lookup_insert_eq]. repeat split; try done.
  intros j Hj. rewrite lookup_insert_ne by lia. done.
Qed.

Section FreeExtents.
(** The index [b0] whose extents are given back from slot [k] on. *)
Context (b0 : block) (blk : Z) (Htail0 : forall j, (lolelffs_count_extents (ei_of_block b0) <= j)%nat ->
    ext (ei_of_block b0) j = zero_extent)
  (Hvalid0 : extents_valid (ei_of_block b0))
  (Hdis0 : forall i j, (i < lolelffs_count_extents (ei_of_block b0))%nat ->
    (j < lolelffs_count_extents (ei_of_block b0))%nat -> i <> j ->
    run_of (ei_of_block b0) i ## run_of (ei_of_block b0) j).
#[local] Abbreviation n := (lolelffs_count_extents (ei_of_block b0)).

Lemma free_extents_spec m : forall k s bk,
  (k + m = NEXT)%nat -> (k <= n)%nat -> blk_at s blk = Some bk -> block_ok bk -> block_inv (fs_sbi s) ->
  (forall j, (k <= j)%nat -> ext (ei_of_block bk) j = ext (ei_of_block b0) j) ->
  (forall j, (k <= j < n)%nat ->
    run_of (ei_of_block b0) j ⊆ univ (nr_blocks (sbd (fs_sbi s))) ∖ free_blocks (fs_sbi s)) ->
  exists s' b', free_extents_from m blk k s = (Ok tt, s') /\ same_but blk s s' /\
    blk_at s' blk = Some b' /\ block_ok b' /\ block_inv (fs_sbi s') /\
    (forall j, ext (ei_of_block b') j = if decide (k <= j)%nat then zero_extent else ext (ei_of_block bk) j) /\
    (forall x, x ∈ free_blocks (fs_sbi s') <->
       x ∈ free_blocks (fs_sbi s) \/ exists j, (k <= j < n)%nat /\ x ∈ run_of (ei_of_block b0) j).
Proof using Htail0 Hvalid0 Hdis0.
  induction m as [|m IH]; intros k s bk Hk Hkn Hr Hok Hinv Hsame Huse.
  - destruct (count_extents_spec (ei_of_block b0)) as [Hn _].
    exists s, bk. split_and!; try done.
    + intros j. case_decide; [|done]. rewrite Hsame, Htail0 by lia. done.
    + intros x. split; [by left|]. intros [?|(j & ? & _)]; [done|lia].
  - cbn [free_extents_from]. rewrite (bind_run _ _ _ _ _ (bread_run _ _ _ Hr)). rewrite Hsame by lia.
    destruct (count_extents_spec (ei_of_block b0)) as (Hn1 & Hn2 & Hn3).
    destruct (decide (k = n)) as [->|Hne].
    { rewrite Hn3 by lia. cbn [Z.eqb]. exists s, bk. split_and!; try done.
      - intros j. case_decide; [|done]. rewrite Hsame, Htail0 by lia. done.
      - intros x. split; [by left|]. intros [?|(j & ? & _)]; [done|lia]. }
    rewrite (proj2 (Z.eqb_neq _ _) (Hn2 k ltac:(lia))).
    unfold upd_sbi. rewrite bind_modify. unfold bwrite. rewrite bind_modify.
    set (e := ext (ei_of_block b0) k). set (sbi' := put_blocks (fs_sbi s) (ee_start e) (ee_len e)).
    destruct (put_blocks_frame (fs_sbi s) (ee_start e) (ee_len e)) as (Eo & En & Em).
    destruct (Hvalid0 k ltac:(lia)) as [Hlen _]. pose proof (extent_max_blocks_le e). fold e in Hlen.
    destruct (al_put_ok (Allocator := block_allocator) (fs_sbi s) (ee_start e) (ee_len e) Hinv
      ltac:(cbn; lia) (Huse k ltac:(lia))) as (Hinv' & _ & HF).
    change (free_blocks sbi' = free_blocks (fs_sbi s) ∪ run_of (ei_of_block b0) k) in HF.
    destruct (same_but_step s blk (put_ext k zero_extent bk) sbi' Eo En Em) as [Hsb Hat].
    fold sbi' in Eo, En, Em. cbn [set_sbi fs_sbi]. rewrite Eo.
    change (fs_disk (set_sbi sbi' s)) with (fs_disk s). set (s1 := set_disk _ (set_sbi sbi' s)) in *.
    assert (forall j, ext (ei_of_block (put_ext k zero_extent bk)) j =
      if decide (k = j) then zero_extent else ext (ei_of_block bk) j) as Hext.
    { intros j. apply ext_put_ext; [done|lia|]. repeat split; cbn; lia. }
    destruct (IH (S k) s1 (put_ext k zero_extent bk)) as (s' & b' & Hrun & Hsb' & Hr' & Hok' & Hi' & Hx' & HF');
      [lia..|done|by apply block_ok_put_ext|done| | |].
    + intros j Hj. rewrite Hext, decide_False by lia. apply Hsame. lia.
    + intros j Hj. change (fs_sbi s1) with sbi'. rewrite En, HF.
      specialize (Huse j ltac:(lia)). specialize (Hdis0 k j ltac:(lia) ltac:(lia) ltac:(lia)).
      set_solver.
    + exists s', b'. split_and!; try done; [by eapply same_but_trans| |].
      * intros j. rewrite Hx', Hext. repeat case_decide; lia || done.
      * intros x. rewrite HF'. change (fs_sbi s1) with sbi'. rewrite HF, elem_of_union. split.
        -- intros [[?|?]|(j & ? & ?)]; [by left| |right; exists j; split; [lia|done]].
           right. exists k. split; [lia|done].
        -- intros [?|(j & Hj & Hx)]; [by left; left|]. destruct (decide (j = k)) as [->|];
             [by left; right|]. right. exists j. split; [lia|done].
Qed.
End FreeExtents.

(** What one file gained between two states: the extents it had are the same,
    and the blocks that are no longer free are the runs of its new extents. *)
Record grown (s : fs) (b : block) (s' : fs) (b' : block) : Prop := {
  gr_count : (lolelffs_count_extents (ei_of_block b) <= lolelffs_count_extents (ei_of_block b'))%nat;
  gr_old : forall j, (j < lolelffs_count_extents (ei_of_block b))%nat ->
    ext (ei_of_block b') j = ext (ei_of_block b) j;
  gr_free : forall x, x ∈ free_blocks (fs_sbi s) <-> x ∈ free_blocks (fs_sbi s') \/
    exists j, (lolelffs_count_extents (ei_of_block b) <= j < lolelffs_count_extents (ei_of_block b'))%nat /\
      x ∈ run_of (ei_of_block b') j
}.

Lemma grown_refl s b : grown s b s b.
Proof. split; [done..|]. intros x. split; [by left|]. intros [?|(j & ? & _)]; [done|lia]. Qed.

Lemma grown_trans s1 b1 s2 b2 s3 b3 : grown s1 b1 s2 b2 -> grown s2 b2 s3 b3 -> grown s1 b1 s3 b3.
Proof.
  intros [Hc1 Ho1 Hf1] [Hc2 Ho2 Hf2].
  split; [lia|intros j Hj; by rewrite Ho2, Ho1 by lia|]. intros x. rewrite Hf1, Hf2. split.
  - intros [[?|(j & ? & ?)]|(j & ? & Hx)]; [by left|right; exists j; split; [lia|done]|].
    right. exists j. split; [lia|]. unfold run_of in *. by rewrite Ho2 by lia.
  - intros [?|(j & ? & Hx)]; [by left; left|].
    destruct (Nat.lt_ge_cases j (lolelffs_count_extents (ei_of_block b2))).
    + right. exists j. split; [lia|]. unfold run_of in *. by rewrite Ho2 in Hx by lia.
    + left. right. exists j. split; [lia|done].
Qed.

(** A call of get_block grows the file. *)
Lemma get_block_grown s inode v b iblock r s' :
  file_ok s inode v b -> 0 <= iblock -> lolelffs_file_get_block inode iblock true s = (r, s') ->
  exists b', file_ok s' inode v b' /\ same_but (ei_block v) s s' /\ grown s b s' b'.
Proof.
  intros Hok Hib H. apply (get_block_spec s inode v b) in H; [|done..].
  destruct (gb_outcome_ok s inode v b iblock true r s' Hok H) as [b' Hok'].
  destruct H as [| | | | |bno len sbi' Hge Hn _ Hlen Hbno Eg Hinv' Hsub HF];
    try (exists b; split_and!; [done|apply same_but_refl|apply grown_refl]).
  destruct (get_free_blocks_frame _ _ _ _ Eg) as (Eo & En & Em).
  destruct (same_but_step s (ei_block v) (append_run b bno len) sbi' Eo En Em) as [Hsb Hat].
  assert (b' = append_run b bno len) as -> by (pose proof (fo_read _ _ _ _ Hok'); congruence).
  exists (append_run b bno len). split_and!; [done..|].
  pose proof (fo_index _ _ _ _ Hok) as Hb. split.
  - rewrite (count_append (fs_sbi s)) by done. lia.
  - intros j Hj. rewrite (ext_append (fs_sbi s)) by done. by rewrite decide_False by lia.
  - intros x. cbn [set_disk set_sbi fs_sbi]. rewrite HF, (count_append (fs_sbi s)) by done.
    rewrite elem_of_difference. split.
    + intros Hx. destruct (decide (x ∈ range bno len)); [right|by left].
      eexists. split; [|by rewrite (run_append_new (fs_sbi s))]. lia.
    + intros [[? _]|(j & Hj & Hx)]; [done|].
      replace j with (lolelffs_count_extents (ei_of_block b)) in Hx by lia.
      rewrite (run_append_new (fs_sbi s)) in Hx by done. set_solver.
Qed.

(** A sequence of calls of get_block, as block_write_begin makes them. *)
Fixpoint run_calls (gb : Z -> bool -> M fs (option Z)) (calls : list Z) : M fs unit :=
  match calls with
  | [] => mret tt
  | x :: calls => gb x true;; run_calls gb calls
  end.

Lemma run_calls_grown inode v calls : forall s b r s',
  file_ok s inode v b -> Forall (Z.le 0) calls ->
  run_calls (lolelffs_file_get_block inode) calls s = (r, s') ->
  exists b', file_ok s' inode v b' /\ same_but (ei_block v) s s' /\ grown s b s' b'.
Proof.
  induction calls as [|x calls IH]; intros s b r s' Hok Hcalls H; cbn [run_calls] in H.
  { injection H as <- <-. exists b. split_and!; [done|apply same_but_refl|apply grown_refl]. }
  apply Forall_cons in Hcalls as [Hx Hcalls].
  destruct (lolelffs_file_get_block inode x true s) as [r1 s1] eqn:E1.
  destruct (get_block_grown s inode v b x r1 s1 Hok Hx E1) as (b1 & Hok1 & Hsb1 & Hg1).
  unfold mbind, M_bind in H. rewrite E1 in H. destruct r1 as [y|e].
  - destruct (IH s1 b1 r s' Hok1 Hcalls H) as (b2 & Hok2 & Hsb2 & Hg2). exists b2.
    split_and!; [done|by eapply same_but_trans|by eapply grown_trans].
  - injection H as <- <-. by exists b1.
Qed.

(** Undoing the growth. *)
Lemma rollback_restores s inode v b s1 b1 :
  file_ok s inode v b -> file_ok s1 inode v b1 -> same_but (ei_block v) s s1 -> grown s b s1 b1 ->
  exists s' b', free_extents_from (NEXT - lolelffs_count_extents (ei_of_block b)) (ei_block v)
      (lolelffs_count_extents (ei_of_block b)) s1 = (Ok tt, s') /\
    same_but (ei_block v) s s' /\ file_ok s' inode v b' /\
    (forall j, ext (ei_of_block b') j = ext (ei_of_block b) j) /\
    free_blocks (fs_sbi s') = free_blocks (fs_sbi s).
Proof.
  intros Hok Hok1 Hsb [Hc Ho Hf]. pose proof (fo_index _ _ _ _ Hok) as Hb. pose proof (fo_index _ _ _ _ Hok1) as Hb1.
  pose proof (count_extents_spec (ei_of_block b)) as [Hn _].
  destruct (free_extents_spec b1 (ei_block v) (io_tail _ _ Hb1) (io_valid _ _ Hb1) (io_disjoint _ _ Hb1)
    (NEXT - lolelffs_count_extents (ei_of_block b)) (lolelffs_count_extents (ei_of_block b)) s1 b1)
    as (s' & b' & Hrun & Hsb' & Hr' & Hbo' & Hinv' & Hx' & HF');
    [lia|done|apply Hok1|apply Hb1|apply Hok1|done|intros; apply (io_used _ _ Hb1); lia|].
  pose proof (same_but_trans _ _ _ _ Hsb Hsb') as Hsb2. pose proof Hsb2 as (Ec & Ek & Eo & En & Em & Ed).
  assert (forall j, ext (ei_of_block b') j = ext (ei_of_block b) j) as Hext.
  { intros j. rewrite Hx'. case_decide; [by rewrite (io_tail _ _ Hb)|]. apply Ho. lia. }
  assert (free_blocks (fs_sbi s') = free_blocks (fs_sbi s)) as EF by (apply set_eq; intros x; by rewrite HF', Hf).
  exists s', b'. split_and!; try done. split; [by rewrite Ec; apply Hok|done..|by rewrite Em; apply Hok|].
  apply (index_ok_same (fs_sbi s) (fs_sbi s') b b'); try done.
  - intros j. by rewrite Hext.
  - intros j Hj. rewrite Hext. apply (io_valid _ _ Hb j Hj).
  - intros j Hj. rewrite Hext. by apply (io_tail _ _ Hb).
Qed.

(** What the rollback relies on in block_write_begin: it reaches the file system
    through get_block only, with create set, stops at the first call that fails,
    and may fail after the last one. *)
Definition calls_get_block
    (block_write_begin : (Z -> bool -> M fs (option Z)) -> Z -> Z -> M fs unit) : Prop :=
  forall gb pos len s, 0 <= pos -> exists calls late, Forall (Z.le 0) calls /\
    block_write_begin gb pos len s =
      match run_calls gb calls s with (Ok _, s') => (late, s') | r => r end.

(** C9 A write that fails has no effect on the file system: when write_begin
    returns an error, after any number of extents were allocated, the extents
    of the file, the free blocks and their count are those of before and the
    invariants hold; when it succeeds the file keeps its extents and owns
    exactly the blocks that are no longer free. *)
Theorem write_begin_atomic block_write_begin s inode v b pos len r s' :
  calls_get_block block_write_begin -> file_ok s inode v b -> 0 <= pos ->
  lolelffs_write_begin block_write_begin inode pos len s = (r, s') ->
  exists b', file_ok s' inode v b' /\ same_but (ei_block v) s s' /\
    match r with
    | Ok _ => grown s b s' b'
    | Err _ =>
        (forall j, ext (ei_of_block b') j = ext (ei_of_block b) j) /\
        free_blocks (fs_sbi s') = free_blocks (fs_sbi s) /\
        nr_free_blocks (sbd (fs_sbi s')) = nr_free_blocks (sbd (fs_sbi s))
    end.
Proof.
  intros Hbwb Hok Hpos. unfold lolelffs_write_begin, inode_at.
  rewrite bind_gets, (fo_inode _ _ _ _ Hok), bind_gets. cbn [default from_option id]. cbv zeta.
  destruct (LOLELFFS_MAX_FILESIZE <? pos + len).
  { intros [= <- <-]. exists b. split_and!; done || apply same_but_refl. }
  case_match.
  { intros [= <- <-]. exists b. split_and!; done || apply same_but_refl. }
  rewrite (bind_run _ _ _ _ _ (bread_run _ _ _ (fo_read _ _ _ _ Hok))).
  unfold on_error. destruct (Hbwb (lolelffs_file_get_block inode) pos len s Hpos) as (calls & late & Hcalls & ->).
  destruct (run_calls _ calls s) as [r1 s1] eqn:Erun.
  destruct (run_calls_grown inode v calls s b r1 s1 Hok Hcalls Erun) as (b1 & Hok1 & Hsb1 & Hg1).
  destruct (rollback_restores s inode v b s1 b1 Hok Hok1 Hsb1 Hg1) as (s2 & b2 & Hback & Hsb2 & Hok2 & Hx2 & HF2).
  assert (nr_free_blocks (sbd (fs_sbi s2)) = nr_free_blocks (sbd (fs_sbi s))) as EN.
  { destruct (fo_inv _ _ _ _ Hok) as (_ & _ & _ & ->). destruct (fo_inv _ _ _ _ Hok2) as (_ & _ & _ & ->).
    fold (free_blocks (fs_sbi s)). by rewrite <- HF2. }
  destruct r1 as [?|e]; [destruct late as [?|e]|]; [|rewrite Hback..];
    intros [= <- <-]; by eexists.
Qed.

(** A block_write_begin that maps the block of [pos] and then fails to read it. *)
Definition ex_bwb (gb : Z -> bool -> M fs (option Z)) (pos len : Z) : M fs unit :=
  gb (pos / LOLELFFS_BLOCK_SIZE) true;; fail EIO.

Lemma write_begin_atomic_witness :
  exists s', lolelffs_write_begin ex_bwb 1 0 100 ex_file_fs = (Err EIO, s') /\
    nr_free_blocks (sbd (fs_sbi (snd (lolelffs_file_get_block 1 0 true ex_file_fs)))) <>
      nr_free_blocks (sbd (fs_sbi ex_file_fs)) /\
    nr_free_blocks (sbd (fs_sbi s')) = nr_free_blocks (sbd (fs_sbi ex_file_fs)).
Proof.
  exists (snd (lolelffs_write_begin ex_bwb 1 0 100 ex_file_fs)).
  destruct (write_begin_atomic ex_bwb ex_file_fs 1 ex_file_v (zeros BLK) 0 100 (Err EIO)
    (snd (lolelffs_write_begin ex_bwb 1 0 100 ex_file_fs))) as (b' & _ & _ & _ & _ & H).
  - intros gb pos len s Hpos. exists [pos / LOLELFFS_BLOCK_SIZE], (Err EIO).
    split; [constructor; [apply Z.div_pos; [exact Hpos|reflexivity]|constructor]|].
    unfold ex_bwb, run_calls, mbind, M_bind. destruct (gb _ true s) as [[?|?] ?]; reflexivity.
  - exact ex_file_ok.
  - lia.
  - vm_compute. reflexivity.
  - split; [vm_compute; reflexivity|]. split; [vm_compute; discriminate|exact H].
Defined.
