(* ===== verification/Pages.v ===== *)
(** * Reading and writing back pages (src/src/file.c)

    Theorems on lolelffs_read_folio and lolelffs_writepage_locked, which are
    defined with the rest of file.c in File.v: what a page write leaves on the
    device and what a read of it returns. *)
From S2P Require Import Prelude Layout Bitmap Extent State Elf Super Codec File.

(** ** Reading back a page *)

(** A block of the file is found in its extent. *)
Lemma search_held sbi b iblock i :
  index_ok sbi b -> holds (ei_of_block b) iblock i -> 0 <= iblock ->
  lolelffs_ext_search (ei_of_block b) (u32 iblock) = Z.of_nat i /\ (i < NEXT)%nat /\
  (Z.of_nat i =? EXT_NONE) = false /\ (ee_start (ext (ei_of_block b) i) =? 0) = false.
Proof.
  intros Hb Hh Hib. pose proof (io_valid _ _ Hb) as Hv. pose proof Hh as [Hi Hx].
  destruct (count_extents_spec (ei_of_block b)) as (Hn1 & Hn2 & _).
  pose proof (prefix_len_mono _ i _ Hv (conj Hi (le_n _))).
  pose proof (valid_no_overflow _ _ Hv (le_n _)). destruct (Hv i Hi) as [_ Ei].
  rewrite u32_small by lia.
  destruct (ext_search_valid _ iblock Hv Hib) as [Hin _].
  destruct (Hin ltac:(lia)) as (j & Hj & ->). rewrite (holds_unique _ _ _ _ Hv Hj Hh).
  split_and!; [done|lia| |by apply Z.eqb_neq, Hn2].
  apply Z.eqb_neq. unfold NEXT in *. change EXT_NONE with (2 ^ 32 - 1). lia.
Qed.

Section ReadBack.
Context (libs : comp_libs) (cctx : comp_ctx) (cr : crypto) (ectx : enc_ctx).

(** read_folio on a block the file has: the block it reads is [fs_offset] past
    the one that get_block maps. *)
Lemma read_folio_held s inode v b iblock i source :
  file_ok s inode v b -> holds (ei_of_block b) iblock i -> 0 <= iblock ->
  iblock * LOLELFFS_BLOCK_SIZE < i_size v ->
  blk_at s (phys (ei_of_block b) iblock i + fs_offset (fs_sbi s)) = Some source ->
  lolelffs_read_folio libs cctx cr ectx inode iblock s =
    (decode_block libs cctx cr ectx (fs_sbi s) (oom (fs_k s) A_decrypt_buf)
       (ext (ei_of_block b) i) iblock source, s).
Proof.
  intros Hok Hh Hib Hsz Hsrc. pose proof (fo_index _ _ _ _ Hok) as Hb.
  destruct (search_held _ _ _ _ Hb Hh Hib) as (Es & _ & En & Ez).
  pose proof (phys_u32 _ _ _ _ (fo_inv _ _ _ _ Hok) Hb Hh) as Hp.
  unfold lolelffs_read_folio, inode_at. rewrite bind_gets, (fo_inode _ _ _ _ Hok). cbn [default from_option id].
  rewrite (proj2 (Z.leb_gt _ _) Hsz).
  rewrite (bind_run _ _ _ _ _ (bread_run _ _ _ (fo_read _ _ _ _ Hok))), Es, En, Nat2Z.id, Ez.
  cbn [orb]. rewrite bind_gets. cbn [id]. fold (phys (ei_of_block b) iblock i). rewrite u32_small by done.
  rewrite (bind_run _ _ _ _ _ (bread_run _ _ _ Hsrc)). by destruct (decode_block _ _ _ _ _ _ _ _ _).
Qed.

(** On a file system embedded in an ELF section, read_folio does not read the
    blocks of the file: get_block maps block [iblock] to a device block, which
    already includes the offset of the section, and read_folio decodes the
    device block one offset further. *)
Theorem read_folio_adds_offset_twice s inode v b iblock i source :
  file_ok s inode v b -> holds (ei_of_block b) iblock i -> 0 <= iblock < 348160 ->
  iblock * LOLELFFS_BLOCK_SIZE < i_size v -> phys (ei_of_block b) iblock i < 2 ^ 31 ->
  ee_comp_algo (ext (ei_of_block b) i) = 0 -> ee_enc_algo (ext (ei_of_block b) i) = 0 ->
  exists mapped, lolelffs_file_get_block inode iblock false s = (Ok (Some mapped), s) /\
    (fs_disk s !! (mapped + fs_offset (fs_sbi s)) = Some source ->
     lolelffs_read_folio libs cctx cr ectx inode iblock s = (Ok source, s)).
Proof.
  intros Hok Hh Hib Hsz Hp Ec Ee. pose proof (fo_index _ _ _ _ Hok) as Hb. pose proof Hh as [Hi Hx].
  pose proof (prefix_len_mono _ i _ (io_valid _ _ Hb) (conj Hi (le_n _))). destruct (io_valid _ _ Hb i Hi) as [_ Ei].
  destruct (get_block_held s inode v b iblock false Hok Hib ltac:(lia)) as (j & Hj & Hrun).
  rewrite (holds_unique _ _ _ _ (io_valid _ _ Hb) Hj Hh) in Hrun.
  eexists. split; [exact Hrun|]. intros Hsrc.
  pose proof (phys_u32 _ _ _ _ (fo_inv _ _ _ _ Hok) Hb Hh) as Hpu.
  rewrite i32_small in Hsrc by lia.
  rewrite (read_folio_held s inode v b iblock i source) by (done || lia).
  unfold decode_block. rewrite Ec, Ee. done.
Qed.
End ReadBack.

(** A file of two blocks, mapped, on a device whose block [i] holds bytes [i];
    the file system starts at block [off] of the device. *)
Definition ex_data_v : vinode := VInode 1 0x81A4 0 0 8192 0 0 0 1 1 false 5 0 (zeros 28).
Definition ex_section (off : Z) : fs :=
  let sbi := fs_sbi ex_file_fs in
  Fs (SbInfo (sbd sbi) (ifree_bitmap sbi) (bfree_bitmap sbi) off (zeros 32) false)
    (<[5 + off := zeros BLK]> (list_to_map (map (fun i => (i, replicate BLK i)) (seqZ 0 40))))
    (<[1 := ex_data_v]> ∅) ex_kernel.
Definition ex_mapped (off : Z) : fs := snd (lolelffs_file_get_block 1 0 true (ex_section off)).
Definition ex_index : block := append_run (zeros BLK) 6 2.

Lemma ex_section_ok off : file_ok (ex_section off) 1 ex_data_v (zeros BLK).
Proof.
  destruct ex_file_ok as [_ _ Hinv Hlg _].
  split; [done| |exact Hinv|exact Hlg|apply index_ok_zeros]. apply lookup_insert_eq.
Qed.

Lemma ex_mapped_ok off :
  blk_at (ex_mapped off) 5 = Some ex_index -> file_ok (ex_mapped off) 1 ex_data_v ex_index.
Proof.
  intros Hat. destruct (get_block_grown (ex_section off) 1 ex_data_v (zeros BLK) 0
    (fst (lolelffs_file_get_block 1 0 true (ex_section off))) (ex_mapped off)) as (b' & Hok & _);
    [apply ex_section_ok|lia|unfold ex_mapped; by destruct (lolelffs_file_get_block _ _ _ _)|].
  pose proof (fo_read _ _ _ _ Hok) as Hr. change (ei_block ex_data_v) with 5 in Hr.
  rewrite Hat in Hr. by injection Hr as <-.
Qed.

Lemma ex_index_holds : holds (ei_of_block ex_index) 0 0.
Proof. split; [apply (bool_decide_unpack _); vm_compute; exact I|]. vm_compute. split; [discriminate|reflexivity]. Qed.

Definition ex_libs : comp_libs :=
  CompLibs (fun _ _ => None) (fun _ _ => None)
    (fun src _ => match src with
       | x :: _ => if forallb (Z.eqb x) src then Some [x] else None
       | [] => None
       end)
    (fun src dst_len => match src with x :: _ => Some (replicate (Z.to_nat dst_len) x) | [] => None end).
Definition ex_ectx : enc_ctx := lolelffs_enc_init true true true enc_ctx0.

Lemma read_folio_adds_offset_twice_witness :
  lolelffs_file_get_block 1 0 false (ex_mapped 3) = (Ok (Some 9), ex_mapped 3) /\
  lolelffs_read_folio ex_libs comp_ctx0 ex_crypto ex_ectx 1 0 (ex_mapped 3) =
    (Ok (replicate BLK 12), ex_mapped 3).
Proof.
  destruct (read_folio_adds_offset_twice ex_libs comp_ctx0 ex_crypto ex_ectx
    (ex_mapped 3) 1 ex_data_v ex_index 0 0 (replicate BLK 12)) as (m & Hm & Hr);
    [apply ex_mapped_ok; vm_compute; reflexivity|exact ex_index_holds|lia|vm_compute; reflexivity..|].
  assert (lolelffs_file_get_block 1 0 false (ex_mapped 3) = (Ok (Some 9), ex_mapped 3)) as E
    by (vm_compute; reflexivity).
  split; [exact E|]. rewrite E in Hm. apply (f_equal fst) in Hm. cbn [fst] in Hm. injection Hm as <-. apply Hr. vm_compute. reflexivity.
Defined.

(** ** Writing a page and reading it back *)

(** inflate stops at the end of the stream that deflate made, whatever follows. *)
Definition zlib_correct (libs : comp_libs) : Prop := forall src dst pad,
  zlib_deflate libs src LOLELFFS_BLOCK_SIZE = Some dst ->
  zlib_inflate libs (dst ++ pad) (Z.of_nat (length src)) = Some src.

(** Writing back encrypts: an algorithm is configured and its transform could be
    allocated. *)
Definition encrypts (ectx : enc_ctx) (sbi : lolelffs_sb_info) : bool :=
  let algo := u8 (if negb (enc_enabled (sbd sbi) =? 0) then enc_default_algo (sbd sbi) else LOLELFFS_ENC_NONE) in
  negb (algo =? LOLELFFS_ENC_NONE) && lolelffs_enc_supported ectx algo.

Section RoundTrip.
Context (libs : comp_libs) (cctx : comp_ctx) (cr : crypto) (ectx : enc_ctx).
Context (Hzlib : zlib_correct libs).

Lemma compress_step_decodes k algo page buf used :
  compress_step libs cctx k algo page = (buf, used) -> length page = BLK -> algo <> LOLELFFS_COMP_LZ4 ->
  length buf = BLK /\ (used = LOLELFFS_COMP_NONE \/ used = LOLELFFS_COMP_ZLIB) /\
  (if negb (used =? LOLELFFS_COMP_NONE) && lolelffs_comp_supported cctx used
   then lolelffs_decompress_block libs cctx used buf LOLELFFS_BLOCK_SIZE else Ok buf) = Ok page.
Proof using Hzlib.
  intros H Hl Hlz. unfold compress_step in H.
  destruct (_ && _ && _) eqn:Ec; [|injection H as <- <-; split_and!; auto].
  destruct (lolelffs_compress_block libs cctx algo page) as [comp|] eqn:Ecomp;
    [|injection H as <- <-; split_and!; auto].
  destruct (Z.ltb_spec (Z.of_nat (length comp)) (LOLELFFS_BLOCK_SIZE * 95 / 100)) as [Hsmall|];
    injection H as <- <-; [|split_and!; auto].
  change (LOLELFFS_BLOCK_SIZE * 95 / 100) with 3891 in Hsmall.
  apply andb_prop in Ec as [Ec _]. rewrite Ec. unfold lolelffs_compress_block in Ecomp.
  destruct ((algo =? LOLELFFS_COMP_NONE) || _) eqn:E1; [done|].
  destruct (comp_available cctx algo) eqn:E2; [cbn [negb] in Ecomp|done].
  rewrite (proj2 (Z.eqb_neq _ _) Hlz) in Ecomp.
  destruct (Z.eqb_spec algo LOLELFFS_COMP_ZLIB) as [->|]; [|done].
  unfold lolelffs_compress_zlib in Ecomp. destruct (zlib_deflate _ _ _) as [d|] eqn:Ed; [|done].
  destruct (_ <=? _)%nat; [done|]. injection Ecomp as ->.
  split_and!; [rewrite length_app, length_zeros; unfold BLK in *; lia|by right|].
  unfold lolelffs_decompress_block. rewrite E1, E2. cbn [negb].
  change (LOLELFFS_COMP_ZLIB =? LOLELFFS_COMP_LZ4) with false.
  change (LOLELFFS_COMP_ZLIB =? LOLELFFS_COMP_ZLIB) with true. cbn iota.
  unfold lolelffs_decompress_zlib. pose proof (Hzlib _ _ (zeros (BLK - length comp)) Ed) as Hi.
  rewrite Hl in Hi. change (Z.of_nat BLK) with LOLELFFS_BLOCK_SIZE in Hi. rewrite Hi, Hl. done.
Qed.

(** Recording the coding of an extent keeps the index sound. *)
Lemma set_coding_ok sbi b i comp enc flags :
  index_ok sbi b -> (i < lolelffs_count_extents (ei_of_block b))%nat -> 0 <= comp < 256 -> 0 <= enc < 256 ->
  0 <= flags < 65536 -> Z.land flags LOLELFFS_EXT_HAS_META = 0 ->
  let b' := put_ext i (set_coding comp enc flags (ext (ei_of_block b) i)) b in
  index_ok sbi b' /\ same_runs (ei_of_block b) (ei_of_block b') /\
  ext (ei_of_block b') i = set_coding comp enc flags (ext (ei_of_block b) i).
Proof using.
  intros Hb Hi Hc He Hf Hm b'. destruct (count_extents_spec (ei_of_block b)) as [Hn _].
  assert (forall j, ext (ei_of_block b') j =
    if decide (i = j) then set_coding comp enc flags (ext (ei_of_block b) i) else ext (ei_of_block b) j) as Hext.
  { intros j. apply ext_put_ext; [apply Hb|lia|].
    destruct (ext_ei_fits b i (io_block _ _ Hb)) as (?&?&?&?&?&?&?&?&?). repeat split; cbn; lia || done. }
  assert (same_runs (ei_of_block b) (ei_of_block b')) as Hs.
  { intros j. rewrite Hext. case_decide; [by subst|done]. }
  split_and!; [|done|by rewrite Hext, decide_True].
  apply (index_ok_same sbi sbi b); try done; [by apply block_ok_put_ext, Hb| |].
  - intros j Hj. destruct (io_valid _ _ Hb j Hj) as [[_ Hl] _]. rewrite Hext. case_decide; [subst j|done].
    etransitivity; [exact Hl|]. etransitivity; [apply extent_max_blocks_le|].
    unfold extent_max_blocks. cbn [set_coding ee_flags]. rewrite Hm. done.
  - intros j Hj. rewrite Hext, decide_False by lia. by apply (io_tail _ _ Hb).
Qed.

Lemma file_ok_disk s inode v b d b' :
  file_ok s inode v b -> d !! (ei_block v + fs_offset (fs_sbi s)) = Some b' -> index_ok (fs_sbi s) b' ->
  file_ok (set_disk d s) inode v b'.
Proof using. by intros [? ? ? ? ?] ? ?. Qed.

Lemma page_flags_range c e :
  0 <= page_flags c e < 65536 /\ Z.land (page_flags c e) LOLELFFS_EXT_HAS_META = 0.
Proof using. unfold page_flags. cases; vm_compute; repeat split; discriminate || done. Qed.

(** What a page write leaves when encryption is not in play: the coded page in
    the block of the file, and the coding recorded in the extent. *)
Lemma writepage_plain s inode v b iblock i page old :
  file_ok s inode v b -> holds (ei_of_block b) iblock i -> 0 <= iblock ->
  phys (ei_of_block b) iblock i <> ei_block v -> length page = BLK ->
  (comp_enabled (sbd (fs_sbi s)) = 0 \/ u8 (comp_default_algo (sbd (fs_sbi s))) <> LOLELFFS_COMP_LZ4) ->
  oom (fs_k s) A_kmap = false -> oom (fs_k s) A_work_buf = false ->
  blk_at s (phys (ei_of_block b) iblock i) = Some old -> encrypts ectx (fs_sbi s) = false ->
  exists s' b' buf, lolelffs_writepage_locked libs cctx cr ectx inode iblock page s = (Ok tt, s') /\
    file_ok s' inode v b' /\ fs_sbi s' = fs_sbi s /\ fs_k s' = fs_k s /\
    same_runs (ei_of_block b) (ei_of_block b') /\ blk_at s' (phys (ei_of_block b) iblock i) = Some buf /\
    forall oom_decrypt,
      decode_block libs cctx cr ectx (fs_sbi s) oom_decrypt (ext (ei_of_block b') i) iblock buf = Ok page.
Proof using Hzlib.
  intros Hok Hh Hib Hne Hl Hlz Ho1 Ho2 Hold Henc. pose proof (fo_index _ _ _ _ Hok) as Hb.
  destruct (search_held _ _ _ _ Hb Hh Hib) as (Es & _ & En & Ez).
  pose proof (phys_u32 _ _ _ _ (fo_inv _ _ _ _ Hok) Hb Hh) as Hp. set (p := phys _ _ _) in *.
  unfold lolelffs_writepage_locked, inode_at. rewrite bind_gets, (fo_inode _ _ _ _ Hok). cbn [default from_option id].
  rewrite (bind_run _ _ _ _ _ (bread_run _ _ _ (fo_read _ _ _ _ Hok))), Es, En, Nat2Z.id, Ez.
  cbn [orb]. rewrite bind_gets. cbn [id]. fold (phys (ei_of_block b) iblock i). fold p. rewrite u32_small by done.
  rewrite Ho1, Ho2. destruct (compress_step _ _ _ _ _) as [w c1] eqn:E1.
  unfold encrypt_step. unfold encrypts in Henc. cbv zeta in Henc. rewrite Henc.
  apply compress_step_decodes in E1 as (_ & Hc1 & D1);
    [|done|destruct Hlz as [->|Hlz]; [by vm_compute|destruct (negb (comp_enabled _ =? 0)); [done|by vm_compute]]].
  assert (0 <= c1 < 256) as R1 by (destruct Hc1 as [->| ->]; vm_compute; split; discriminate || done).
  assert (forall e om, ee_comp_algo e = c1 -> ee_enc_algo e = LOLELFFS_ENC_NONE ->
    decode_block libs cctx cr ectx (fs_sbi s) om e iblock w = Ok page) as Hdec.
  { intros e om <- Ee. unfold decode_block. rewrite Ee, u8_small by done. exact D1. }
  unfold bupdate. rewrite (bind_run _ _ s tt (set_disk (<[p + fs_offset (fs_sbi s) := w]> (fs_disk s)) s))
    by (by rewrite (bind_run _ _ _ _ _ (bread_run _ _ _ Hold))).
  set (s1 := set_disk _ s). assert (file_ok s1 inode v b) as Hok1.
  { apply (file_ok_disk _ _ _ b); [done|rewrite lookup_insert_ne by lia; apply Hok|done]. }
  rewrite (bind_run _ _ _ _ _ (bread_run _ _ _ (fo_read _ _ _ _ Hok1))).
  destruct (page_flags_range c1 LOLELFFS_ENC_NONE) as [Rf Hm].
  destruct (_ || negb (page_flags _ _ =? _)) eqn:Ediff.
  - destruct (set_coding_ok (fs_sbi s) b i c1 LOLELFFS_ENC_NONE (page_flags c1 LOLELFFS_ENC_NONE) Hb (proj1 Hh) R1
      ltac:(vm_compute; split; discriminate || done) Rf Hm) as (Hb' & Hs & Ex).
    do 3 eexists. split; [reflexivity|].
    split_and!; [apply (file_ok_disk s1 _ _ b); [done|apply lookup_insert_eq|exact Hb']|done..| |].
    + unfold blk_at. cbn [set_disk fs_disk fs_sbi s1]. rewrite lookup_insert_ne by lia. apply lookup_insert_eq.
    + intros om. apply Hdec; by rewrite Ex.
  - exists s1, b, w. split; [reflexivity|]. split_and!; [done..|apply lookup_insert_eq|].
    apply orb_false_elim in Ediff as [[Ed1 Ed2]%orb_false_elim _].
    intros om. apply Hdec; symmetry; apply Z.eqb_eq; by apply negb_false_iff.
Qed.

(** ... and when it is: nothing is written. *)
Lemma writepage_refused s inode v b iblock i page e :
  file_ok s inode v b -> holds (ei_of_block b) iblock i -> 0 <= iblock ->
  oom (fs_k s) A_kmap = false -> oom (fs_k s) A_work_buf = false ->
  (forall algo buf, algo = u8 (if negb (enc_enabled (sbd (fs_sbi s)) =? 0) then enc_default_algo (sbd (fs_sbi s))
                           else LOLELFFS_ENC_NONE) ->
     encrypt_step cr ectx (fs_k s) (fs_sbi s) algo iblock buf = Err e) ->
  lolelffs_writepage_locked libs cctx cr ectx inode iblock page s = (Err e, s).
Proof using.
  intros Hok Hh Hib Ho1 Ho2 He. pose proof (fo_index _ _ _ _ Hok) as Hb.
  destruct (search_held _ _ _ _ Hb Hh Hib) as (Es & _ & En & Ez).
  unfold lolelffs_writepage_locked, inode_at. rewrite bind_gets, (fo_inode _ _ _ _ Hok). cbn [default from_option id].
  rewrite (bind_run _ _ _ _ _ (bread_run _ _ _ (fo_read _ _ _ _ Hok))), Es, En, Nat2Z.id, Ez.
  cbn [orb]. rewrite bind_gets. cbn [id]. rewrite Ho1, Ho2. destruct (compress_step _ _ _ _ _) as [w c1].
  by rewrite He.
Qed.
End RoundTrip.

(** Why a page that would be encrypted is refused: memory, then the locked key,
    then the request, then the transform without a key. *)
Definition encrypt_refusal (cr : crypto) (s : fs) : errno :=
  if oom (fs_k s) A_enc_buf then ENOMEM
  else if negb (enc_unlocked (fs_sbi s)) then EPERM
  else if negb (request_alloc cr) then ENOMEM else ENOKEY.

Lemma encrypt_step_refused cr aes chacha auth c s algo iblock buf :
  needs_key cr -> let ectx := lolelffs_enc_init aes chacha auth c in
  negb (algo =? LOLELFFS_ENC_NONE) && lolelffs_enc_supported ectx algo = true ->
  encrypt_step cr ectx (fs_k s) (fs_sbi s) algo iblock buf = Err (encrypt_refusal cr s).
Proof.
  intros Hk ectx Hs. unfold encrypt_step, encrypt_refusal. rewrite Hs.
  destruct (oom _ _); [done|]. destruct (enc_unlocked _); [cbn [negb]|done].
  apply andb_prop in Hs as [Hn%negb_true_iff%Z.eqb_neq Hs]. destruct (request_alloc cr) eqn:Hr; cbn [negb].
  - subst ectx. by rewrite encrypt_block_no_key.
  - unfold lolelffs_encrypt_block, lolelffs_encrypt_aes_xts, lolelffs_encrypt_chacha20_poly. rewrite Hr.
    unfold lolelffs_enc_supported in Hs. rewrite (proj2 (Z.eqb_neq _ _) Hn) in *.
    destruct (LOLELFFS_ENC_MAX_ALGO <? algo); [done|]. cbn [orb]. rewrite Hs. cbn [negb].
    unfold enc_available in Hs. destruct (algo =? LOLELFFS_ENC_AES256_XTS); [by rewrite Hs|].
    destruct (algo =? LOLELFFS_ENC_CHACHA20_POLY); [by rewrite Hs|done].
Qed.

(** C14 Writing back a page and reading it: on a file system that is not embedded
    (fs_offset = 0), for a block the file has, with compression off or zlib and
    with the transforms that lolelffs_enc_init sets up, whichever could be
    allocated: when no encryption is configured, or its cipher is missing, the
    write-back succeeds and read_folio of the block then returns the bytes of the
    page; when a cipher is configured and present, the write-back fails, because
    no key is ever set on it, and leaves the state as it was. *)
Theorem writepage_read_roundtrip libs cctx cr aes chacha auth c s inode v b iblock i page old :
  let ectx := lolelffs_enc_init aes chacha auth c in
  zlib_correct libs -> needs_key cr ->
  file_ok s inode v b -> holds (ei_of_block b) iblock i -> 0 <= iblock ->
  phys (ei_of_block b) iblock i <> ei_block v -> length page = BLK ->
  (comp_enabled (sbd (fs_sbi s)) = 0 \/ u8 (comp_default_algo (sbd (fs_sbi s))) <> LOLELFFS_COMP_LZ4) ->
  fs_offset (fs_sbi s) = 0 -> iblock * LOLELFFS_BLOCK_SIZE < i_size v ->
  blk_at s (phys (ei_of_block b) iblock i) = Some old ->
  oom (fs_k s) A_kmap = false -> oom (fs_k s) A_work_buf = false ->
  if encrypts ectx (fs_sbi s) then
    lolelffs_writepage_locked libs cctx cr ectx inode iblock page s = (Err (encrypt_refusal cr s), s)
  else
    exists s', lolelffs_writepage_locked libs cctx cr ectx inode iblock page s = (Ok tt, s') /\
      lolelffs_read_folio libs cctx cr ectx inode iblock s' = (Ok page, s').
Proof.
  intros ectx Hz Hk Hok Hh Hib Hne Hl Hlz Hoff Hsz Hold Ho1 Ho2.
  destruct (encrypts ectx (fs_sbi s)) eqn:He.
  - apply (writepage_refused _ _ _ _ s inode v b iblock i); try done.
    intros algo buf ->. by apply encrypt_step_refused.
  - destruct (writepage_plain libs cctx cr ectx Hz s inode v b iblock i page old)
      as (s' & b' & buf & Hw & Hok' & Es & Ek & Hs & Hat & Hdec); try done.
    exists s'. split; [exact Hw|]. destruct (Hs i) as (E1 & E2 & E3). pose proof Hh as [Hi Hx].
    rewrite (read_folio_held libs cctx cr ectx s' inode v b' iblock i buf); [by rewrite Es, Hdec|..]; try done.
    + unfold holds. rewrite (same_runs_count _ _ Hs), E1, E2. done.
    + unfold phys. rewrite E1, E3, Es, Hoff, Z.add_0_r. exact Hat.
Qed.

(** A file system with zlib compression switched on. *)
Definition with_zlib (s : fs) : fs :=
  let sbi := fs_sbi s in let d := sbd sbi in
  set_sbi (SbInfo (SbDisk (magic d) (nr_blocks d) (nr_inodes d) (nr_istore_blocks d) (nr_ifree_blocks d)
      (nr_bfree_blocks d) (nr_free_inodes d) (nr_free_blocks d) (version d) LOLELFFS_COMP_ZLIB 1
      (comp_min_block_size d) (comp_features d) (max_extent_blocks d) (max_extent_blocks_large d)
      (enc_enabled d) (enc_default_algo d) (enc_kdf_algo d) (enc_kdf_iterations d) (enc_kdf_memory d)
      (enc_kdf_parallelism d) (enc_salt d) (enc_master_key d) (enc_features d) (sb_reserved d))
    (ifree_bitmap sbi) (bfree_bitmap sbi) (fs_offset sbi) (enc_master_key_decrypted sbi) (enc_unlocked sbi)) s.
Definition ex_zlib_fs : fs := with_zlib (ex_mapped 0).
Definition ex_cctx : comp_ctx := snd (lolelffs_comp_init false true comp_ctx0).

Lemma with_zlib_ok s inode v b : file_ok s inode v b -> file_ok (with_zlib s) inode v b.
Proof. intros [H1 H2 H3 H4 [I1 I2 I3 I4 I5]]. split; [exact H1|exact H2|exact H3|exact H4|by split]. Qed.

Lemma ex_zlib_ok : file_ok ex_zlib_fs 1 ex_data_v ex_index.
Proof. apply with_zlib_ok, ex_mapped_ok. vm_compute. reflexivity. Qed.

Lemma ex_zlib_correct : zlib_correct ex_libs.
Proof.
  intros src dst pad H. cbn [ex_libs zlib_deflate zlib_inflate] in *.
  destruct src as [|x src]; [done|]. destruct (forallb (Z.eqb x) (x :: src)) eqn:E; [|done].
  injection H as <-. cbn [app]. rewrite Nat2Z.id. f_equal.
  apply list_eq. intros i. destruct (Nat.lt_ge_cases i (length (x :: src))) as [Hi|Hi].
  - destruct (lookup_lt_is_Some_2 _ _ Hi) as [y Hy]. rewrite lookup_replicate_2, Hy by done.
    rewrite forallb_forall in E. specialize (E y). f_equal. apply Z.eqb_eq, E.
    by apply list_elem_of_In, list_elem_of_lookup_2 with i.
  - by rewrite (lookup_ge_None_2 (x :: src)), lookup_ge_None_2 by (rewrite ?length_replicate; done).
Qed.

Lemma ex_needs_key : needs_key ex_crypto.
Proof. split; reflexivity. Qed.

(** Encryption with AES-XTS switched on and unlocked. *)
Definition with_aes (s : fs) : fs :=
  let sbi := fs_sbi s in let d := sbd sbi in
  set_sbi (SbInfo (SbDisk (magic d) (nr_blocks d) (nr_inodes d) (nr_istore_blocks d) (nr_ifree_blocks d)
      (nr_bfree_blocks d) (nr_free_inodes d) (nr_free_blocks d) (version d) (comp_default_algo d) (comp_enabled d)
      (comp_min_block_size d) (comp_features d) (max_extent_blocks d) (max_extent_blocks_large d)
      1 LOLELFFS_ENC_AES256_XTS (enc_kdf_algo d) (enc_kdf_iterations d) (enc_kdf_memory d)
      (enc_kdf_parallelism d) (enc_salt d) (enc_master_key d) (enc_features d) (sb_reserved d))
    (ifree_bitmap sbi) (bfree_bitmap sbi) (fs_offset sbi) (enc_master_key_decrypted sbi) true) s.

Lemma with_aes_ok s inode v b : file_ok s inode v b -> file_ok (with_aes s) inode v b.
Proof. intros [H1 H2 H3 H4 [I1 I2 I3 I4 I5]]. split; [exact H1|exact H2|exact H3|exact H4|by split]. Qed.

Lemma writepage_read_roundtrip_witness :
  (exists s', lolelffs_writepage_locked ex_libs ex_cctx ex_crypto ex_ectx 1 0 (replicate BLK 7) ex_zlib_fs =
      (Ok tt, s') /\
    lolelffs_read_folio ex_libs ex_cctx ex_crypto ex_ectx 1 0 s' = (Ok (replicate BLK 7), s')) /\
  lolelffs_writepage_locked ex_libs ex_cctx ex_crypto ex_ectx 1 0 (replicate BLK 7) (with_aes ex_zlib_fs) =
    (Err ENOKEY, with_aes ex_zlib_fs).
Proof.
  split.
  - apply (writepage_read_roundtrip ex_libs ex_cctx ex_crypto true true true enc_ctx0 ex_zlib_fs 1 ex_data_v ex_index
      0 0 (replicate BLK 7) (replicate BLK 6) ex_zlib_correct ex_needs_key ex_zlib_ok ex_index_holds);
      [lia|vm_compute; discriminate|apply length_replicate|right; vm_compute; discriminate
      |vm_compute; reflexivity..].
  - apply (writepage_read_roundtrip ex_libs ex_cctx ex_crypto true true true enc_ctx0 (with_aes ex_zlib_fs) 1 ex_data_v
      ex_index 0 0 (replicate BLK 7) (replicate BLK 6) ex_zlib_correct ex_needs_key (with_aes_ok _ _ _ _ ex_zlib_ok)
      ex_index_holds);
      [lia|vm_compute; discriminate|apply length_replicate|right; vm_compute; discriminate
      |vm_compute; reflexivity..].
Defined.

(** The coding of a block is recorded per extent, so a later page write can
    make an earlier page unreadable: with zlib on, page 0 is written compressed
    and page 1 of the same extent, which does not compress, is written plain;
    the second write marks the extent plain and reading page 0 then succeeds
    with the compressed bytes instead of the page. *)
Theorem coding_per_extent_corrupts :
  exists s1 s2 page1 page, length page1 = BLK /\
    lolelffs_writepage_locked ex_libs ex_cctx ex_crypto ex_ectx 1 0 (replicate BLK 7) ex_zlib_fs = (Ok tt, s1) /\
    lolelffs_writepage_locked ex_libs ex_cctx ex_crypto ex_ectx 1 1 page1 s1 = (Ok tt, s2) /\
    lolelffs_read_folio ex_libs ex_cctx ex_crypto ex_ectx 1 0 s2 = (Ok page, s2) /\
    page <> replicate BLK 7.
Proof.
  set (w i p s := lolelffs_writepage_locked ex_libs ex_cctx ex_crypto ex_ectx 1 i p s).
  set (s1 := snd (w 0 (replicate BLK 7) ex_zlib_fs)).
  set (page1 := 1 :: replicate (BLK - 1) 2).
  exists s1, (snd (w 1 page1 s1)), page1, (7 :: zeros (BLK - 1)).
  split_and!; [reflexivity|vm_compute; reflexivity..|vm_compute; discriminate].
Qed.
