(* ===== verification/Xattr.v ===== *)
(** * Extended attributes (src/src/xattr.c)

    The attributes of an inode are a sequence of entries stored in the blocks of
    the first extent of its xattr index block.  The buffer that index block is
    in stays mapped while an operation runs, so its extents are read where the
    code reads them through the pointer; an index block that lists itself among
    its data blocks is not considered. *)
From S2P Require Import Prelude Layout Bitmap Extent State Elf Super Codec File.

(** ** struct lolelffs_xattr_entry *)

Definition LOLELFFS_XATTR_INDEX_USER : Z := 0.
Definition LOLELFFS_XATTR_INDEX_TRUSTED : Z := 1.
Definition LOLELFFS_XATTR_INDEX_SYSTEM : Z := 2.
Definition LOLELFFS_XATTR_INDEX_SECURITY : Z := 3.
Definition XATTR_CREATE : Z := 1.
Definition XATTR_REPLACE : Z := 2.

Record lolelffs_xattr_entry := XEntry {
  name_len : Z; name_index : Z; value_len : Z; value_offset : Z; xreserved : Z
}.

Definition entry_at (data : list Z) (off : nat) : lolelffs_xattr_entry :=
  XEntry (rd8 data off) (rd8 data (off + 1)) (rd16 data (off + 2)) (rd32 data (off + 4)) (rd32 data (off + 8)).

(** (offset + 3) & ~3 *)
Definition align4 (x : Z) : Z := Z.land (x + 3) (Z.lnot 3).

Definition entry_size (e : lolelffs_xattr_entry) : Z :=
  align4 (sizeof_xattr_entry + name_len e + 1 + value_len e).

(** ** lolelffs_xattr_read_data *)

(** The blocks of one extent from block [bi]; [true] once [total] bytes are read. *)
Fixpoint read_blocks (n : nat) (start bi total : Z) (data : list Z) : M fs (list Z * bool) :=
  match n with
  | O => mret (data, false)
  | S n =>
      b ← LOLELFFS_SB_BREAD (start +₃₂ bi);
      let copy_size := Z.min LOLELFFS_BLOCK_SIZE (total - Z.of_nat (length data)) in
      let data := data ++ take (Z.to_nat copy_size) b in
      if total <=? Z.of_nat (length data) then mret (data, true)
      else read_blocks n start (bi + 1) total data
  end.

Fixpoint read_extents (es : list lolelffs_extent) (total : Z) (data : list Z) : M fs (list Z) :=
  match es with
  | [] => mret data
  | e :: es =>
      if ee_start e =? 0 then mret data
      else
        r ← read_blocks (Z.to_nat (ee_len e)) (ee_start e) 0 total data;
        if snd r : bool then mret (fst r) else read_extents es total (fst r)
  end.

Section Xattr.
(** What a fresh buffer of [n] bytes holds. *)
Context (kmalloc_bytes : nat -> list Z).

(** The buffer of ei->total_size bytes and the number of bytes read into it;
    both are empty (data is NULL) when there is nothing to read. *)
Definition lolelffs_xattr_read_data (b : block) : M fs (list Z * Z) :=
  let ei := xei_of_block b in
  if total_size ei =? 0 then mret ([], 0)
  else
    k ← gets fs_k;
    if oom k A_xattr_data then fail ENOMEM
    else
      data ← read_extents (xextents ei) (total_size ei) [];
      mret (data ++ drop (length data) (kmalloc_bytes (Z.to_nat (total_size ei))), Z.of_nat (length data)).

(** ** lolelffs_xattr_find_entry *)

(** The while loop; [NOFUEL] when it has not ended after [fuel] iterations, which
    XattrSpec.xattr_walks_end excludes. *)
Fixpoint find_entry_loop (fuel : nat) (data : list Z) (data_size : Z) (index : Z) (name : list Z)
    (offset : Z) : result (option (Z * lolelffs_xattr_entry)) :=
  match fuel with
  | O => Err NOFUEL
  | S fuel =>
      if data_size <? offset + sizeof_xattr_entry then Ok None
      else
        let entry := entry_at data (Z.to_nat offset) in
        let entry_name := offset + sizeof_xattr_entry in
        let next := offset + sizeof_xattr_entry + (name_len entry + 1) + value_len entry in
        if name_len entry =? 0 then Ok None
        else if (name_index entry =? index) && (name_len entry =? Z.of_nat (length name)) then
          if Z.of_nat (length data) <? entry_name + name_len entry then Err MEMFAULT
          else if bool_decide (slice (Z.to_nat entry_name) (length name) data = name)
          then Ok (Some (offset, entry))
          else find_entry_loop fuel data data_size index name (align4 next)
        else find_entry_loop fuel data data_size index name (align4 next)
  end.

Definition lolelffs_xattr_find_entry (data : list Z) (data_size index : Z) (name : list Z)
    : result (option (Z * lolelffs_xattr_entry)) :=
  find_entry_loop (S (Z.to_nat data_size)) data data_size index name 0.

Definition lift {A} (r : result A) : M fs A := match r with Ok a => mret a | Err e => fail e end.

(** ** lolelffs_xattr_get *)

(** [size]: the size of the caller's buffer, or NULL.  The results are the
    return value and the bytes put in the buffer. *)
Definition lolelffs_xattr_get (inode index : Z) (name : list Z) (size : option Z) : M fs (Z * list Z) :=
  v ← inode_at inode;
  if xattr_block v =? 0 then fail ENODATA
  else
    b ← LOLELFFS_SB_BREAD (xattr_block v);
    d ← lolelffs_xattr_read_data b;
    let '(data, data_size) := d in
    if data_size =? 0 then fail ENODATA
    else
      r ← lift (lolelffs_xattr_find_entry data data_size index name);
      match r with
      | None => fail ENODATA
      | Some (offset, entry) =>
          let value := offset + value_offset entry in
          match size with
          | None => mret (value_len entry, [])
          | Some size =>
              if size <? value_len entry then fail ERANGE
              else if Z.of_nat (length data) <? value + value_len entry then fail MEMFAULT
              else mret (value_len entry, slice (Z.to_nat value) (Z.to_nat (value_len entry)) data)
          end
      end.

(** ** lolelffs_xattr_set *)

(** memmove of the bytes after the entry onto it. *)
Definition remove_entry (data : list Z) (data_size offset size : Z) : list Z :=
  if offset + size <? data_size then
    splice (Z.to_nat offset)
      (slice (Z.to_nat (offset + size)) (Z.to_nat (data_size - offset - size)) data) data
  else data.

(** Writing [size] bytes of [data] from [written] on to the blocks of an extent. *)
Fixpoint write_blocks (n : nat) (start bi : Z) (data : list Z) (size written : Z) : M fs Z :=
  match n with
  | O => mret written
  | S n =>
      if size <=? written then mret written
      else
        let write_size := Z.min LOLELFFS_BLOCK_SIZE (size - written) in
        LOLELFFS_SB_BREAD (start +₃₂ bi);;
        if Z.of_nat (length data) <? written + write_size then fail MEMFAULT
        else
          bwrite (start +₃₂ bi)
            (slice (Z.to_nat written) (Z.to_nat write_size) data ++ zeros (BLK - Z.to_nat write_size));;
          write_blocks n start (bi + 1) data size (written + write_size)
  end.

Fixpoint write_extents (es : list lolelffs_extent) (data : list Z) (size written : Z) : M fs Z :=
  match es with
  | [] => mret written
  | e :: es =>
      if ee_start e =? 0 then mret written
      else
        written ← write_blocks (Z.to_nat (ee_len e)) (ee_start e) 0 data size written;
        write_extents es data size written
  end.

(** The branch of lolelffs_xattr_set for a NULL value. *)
Definition xattr_remove (inode index : Z) (name : list Z) : M fs unit :=
  v ← inode_at inode;
  if xattr_block v =? 0 then fail ENODATA
  else
    b ← LOLELFFS_SB_BREAD (xattr_block v);
    d ← lolelffs_xattr_read_data b;
    let '(data, data_size) := d in
    r ← lift (lolelffs_xattr_find_entry data data_size index name);
    match r with
    | None => fail ENODATA
    | Some (offset, entry) =>
        let data := remove_entry data data_size offset (entry_size entry) in
        let new_data_size := u64 (data_size - entry_size entry) in
        let ei := xei_of_block b in
        bwrite (xattr_block v) (put_xcount (xcount ei - 1) (put_total_size new_data_size b));;
        write_extents (xextents ei) data new_data_size 0;;
        mret tt
    end.

(** The index block of the inode, allocated and cleared if it has none. *)
Definition xattr_index (inode : Z) : M fs Z :=
  v ← inode_at inode;
  if xattr_block v =? 0 then
    nb ← with_sbi (fun s => get_free_blocks s 1);
    if nb =? 0 then fail ENOSPC
    else
      inode_upd inode (set_xattr_block nb);;
      r ← attempt (LOLELFFS_SB_BREAD nb);
      match r with
      | Err _ =>
          upd_sbi (fun s => put_blocks s nb 1);;
          inode_upd inode (set_xattr_block 0);;
          fail EIO
      | Ok _ => bwrite nb (zeros BLK);; mret nb
      end
  else LOLELFFS_SB_BREAD (xattr_block v);; mret (xattr_block v).

(** The bytes of the new entry, padded to its size. *)
Definition entry_bytes (index : Z) (name value : list Z) : list Z :=
  let raw := sizeof_xattr_entry + Z.of_nat (length name) + 1 + Z.of_nat (length value) in
  [u8 (Z.of_nat (length name)); u8 index] ++ le_enc 2 (Z.of_nat (length value)) ++
  le_enc 4 (sizeof_xattr_entry + Z.of_nat (length name) + 1) ++ le_enc 4 0 ++
  name ++ [0] ++ value ++ zeros (Z.to_nat (align4 raw - raw)).

(** Room for the data: a new run when extent 0 is unused or too short. *)
Definition xattr_reserve (xb blocks_needed : Z) : M fs unit :=
  b ← LOLELFFS_SB_BREAD xb;
  let e := xext (xei_of_block b) 0 in
  if (ee_start e =? 0) || (ee_len e <? blocks_needed) then
    new_blocks ← with_sbi (fun s => get_free_blocks s blocks_needed);
    if new_blocks =? 0 then fail ENOSPC
    else
      (if negb (ee_start e =? 0) then upd_sbi (fun s => put_blocks s (ee_start e) (ee_len e)) else mret tt);;
      bwrite xb (put_xext 0 (set_run 0 blocks_needed new_blocks e) b)
  else mret tt.

(** The part of lolelffs_xattr_set after the old entry is gone: [data_size]
    bytes of [data] are kept and the new entry is appended. *)
Definition xattr_store (xb index : Z) (name value data : list Z) (data_size : Z) : M fs unit :=
  let new_entry_size :=
    align4 (sizeof_xattr_entry + Z.of_nat (length name) + 1 + Z.of_nat (length value)) in
  let new_data_size := u64 (data_size + new_entry_size) in
  if LOLELFFS_BLOCK_SIZE * 8 <? new_data_size then fail ENOSPC
  else
    k ← gets fs_k;
    if oom k A_xattr_new_data then fail ENOMEM
    else if (0 <? data_size) && ((Z.of_nat (length data) <? data_size) || (new_data_size <? data_size))
    then fail MEMFAULT
    else
      let new_data := take (Z.to_nat data_size) data ++ entry_bytes index name value in
      let blocks_needed := u32 ((new_data_size + LOLELFFS_BLOCK_SIZE - 1) / LOLELFFS_BLOCK_SIZE) in
      xattr_reserve xb blocks_needed;;
      b ← LOLELFFS_SB_BREAD xb;
      let e := xext (xei_of_block b) 0 in
      write_blocks (Z.to_nat (ee_len e)) (ee_start e) 0 new_data new_data_size 0;;
      bupdate xb (fun b => put_xcount (xcount (xei_of_block b) + 1) (put_total_size new_data_size b)).

(** [value] is NULL for a removal. *)
Definition lolelffs_xattr_set (inode index : Z) (name : list Z) (value : option (list Z)) (flags : Z)
    : M fs unit :=
  if (Z.of_nat (length name) =? 0) || (255 <? Z.of_nat (length name)) then fail EINVAL
  else if 65535 <? Z.of_nat (length (default [] value)) then fail ENOSPC
  else
    match value with
    | None => xattr_remove inode index name
    | Some value =>
        xb ← xattr_index inode;
        b ← LOLELFFS_SB_BREAD xb;
        d ← lolelffs_xattr_read_data b;
        let '(data, data_size) := d in
        r ← lift (lolelffs_xattr_find_entry data data_size index name);
        match r with
        | Some (offset, entry) =>
            if negb (Z.land flags XATTR_CREATE =? 0) then fail EEXIST
            else
              let data := remove_entry data data_size offset (entry_size entry) in
              bwrite xb (put_xcount (xcount (xei_of_block b) - 1) b);;
              xattr_store xb index name value data (u64 (data_size - entry_size entry))
        | None =>
            if negb (Z.land flags XATTR_REPLACE =? 0) then fail ENODATA
            else xattr_store xb index name value data data_size
        end
    end.

(** ** lolelffs_listxattr *)

Definition xattr_prefixes : list (list Z) :=
  [[117; 115; 101; 114; 46];                          (* user. *)
   [116; 114; 117; 115; 116; 101; 100; 46];           (* trusted. *)
   [115; 121; 115; 116; 101; 109; 46];                (* system. *)
   [115; 101; 99; 117; 114; 105; 116; 121; 46]].      (* security. *)

Fixpoint list_loop (fuel : nat) (data : list Z) (data_size : Z) (size : option Z) (offset total : Z)
    (out : list Z) : result (Z * list Z) :=
  match fuel with
  | O => Err NOFUEL
  | S fuel =>
      if data_size <? offset + sizeof_xattr_entry then Ok (total, out)
      else
        let entry := entry_at data (Z.to_nat offset) in
        if name_len entry =? 0 then Ok (total, out)
        else
          match xattr_prefixes !! Z.to_nat (name_index entry) with
          | None => Err MEMFAULT
          | Some prefix =>
              let full_len := Z.of_nat (length prefix) + name_len entry + 1 in
              let name := offset + sizeof_xattr_entry in
              let next := align4 (offset + sizeof_xattr_entry + (name_len entry + 1) + value_len entry) in
              match size with
              | None => list_loop fuel data data_size size next (total + full_len) out
              | Some n =>
                  if n <? total + full_len then Err ERANGE
                  else if Z.of_nat (length data) <? name + name_len entry then Err MEMFAULT
                  else list_loop fuel data data_size size next (total + full_len)
                         (out ++ prefix ++ slice (Z.to_nat name) (Z.to_nat (name_len entry)) data ++ [0])
              end
          end
  end.

Definition lolelffs_listxattr (inode : Z) (size : option Z) : M fs (Z * list Z) :=
  v ← inode_at inode;
  if xattr_block v =? 0 then mret (0, [])
  else
    b ← LOLELFFS_SB_BREAD (xattr_block v);
    d ← lolelffs_xattr_read_data b;
    let '(data, data_size) := d in
    if data_size =? 0 then mret (0, [])
    else lift (list_loop (S (Z.to_nat data_size)) data data_size size 0 0 []).
End Xattr.

(** ** lolelffs_xattr_free_blocks *)

Fixpoint put_extents (es : list lolelffs_extent) : M fs unit :=
  match es with
  | [] => mret tt
  | e :: es =>
      if ee_start e =? 0 then mret tt
      else upd_sbi (fun s => put_blocks s (ee_start e) (ee_len e));; put_extents es
  end.

Definition lolelffs_xattr_free_blocks (inode : Z) : M fs unit :=
  v ← inode_at inode;
  if xattr_block v =? 0 then mret tt
  else
    r ← attempt (LOLELFFS_SB_BREAD (xattr_block v));
    match r with
    | Err _ => mret tt
    | Ok b =>
        put_extents (xextents (xei_of_block b));;
        upd_sbi (fun s => put_blocks s (xattr_block v) 1);;
        inode_upd inode (set_xattr_block 0)
    end.

(** ** The handlers the VFS finds by prefix *)

Definition lolelffs_xattr_handler_get (kmalloc : nat -> list Z) (flags inode : Z) (name : list Z) (size : option Z)
    : M fs (Z * list Z) :=
  lolelffs_xattr_get kmalloc inode flags name size.

Definition lolelffs_xattr_handler_set (kmalloc : nat -> list Z) (flags inode : Z) (name : list Z)
    (value : option (list Z)) (set_flags : Z) : M fs unit :=
  lolelffs_xattr_set kmalloc inode flags name value set_flags.

(** The prefix and the flags of each handler: the namespaces the VFS can reach. *)
Definition lolelffs_xattr_handlers : list (list Z * Z) :=
  [([117; 115; 101; 114; 46], LOLELFFS_XATTR_INDEX_USER);                       (* user. *)
   ([116; 114; 117; 115; 116; 101; 100; 46], LOLELFFS_XATTR_INDEX_TRUSTED);     (* trusted. *)
   ([115; 101; 99; 117; 114; 105; 116; 121; 46], LOLELFFS_XATTR_INDEX_SECURITY)]. (* security. *)

(** The names listxattr prints reach the handler of the same namespace. *)
Lemma handlers_match_prefixes :
  Forall (fun h => xattr_prefixes !! Z.to_nat (snd h) = Some (fst h)) lolelffs_xattr_handlers.
Proof. repeat constructor. Qed.
