(* ===== verification/XattrSpec.v ===== *)
(** * Extended attributes: the abstract map and its refinement

    An inode's attributes are a list of (namespace, name, value); xattr.c keeps
    the encoding of that list in the blocks of an extent.  This file defines the
    encoding and the representation relation and proves that get, set and list
    of xattr.c are lookup, update and enumeration of the list. *)
From S2P Require Import Prelude Layout Bitmap Extent State Elf Super Codec File Xattr.

(** ** The abstract attributes *)

Record xattr := XAttr { x_index : Z; x_name : list Z; x_value : list Z }.

Definition xattr_ok (a : xattr) : Prop :=
  0 <= x_index a < 256 /\ 1 <= Z.of_nat (length (x_name a)) <= 255 /\
  Z.of_nat (length (x_value a)) <= 65535 /\ bytes_ok (x_name a) /\ bytes_ok (x_value a).

Definition key_is (index : Z) (name : list Z) (a : xattr) : bool :=
  (x_index a =? index) && bool_decide (x_name a = name).

Fixpoint x_lookup (l : list xattr) (index : Z) (name : list Z) : option (list Z) :=
  match l with
  | [] => None
  | a :: l => if key_is index name a then Some (x_value a) else x_lookup l index name
  end.

Fixpoint x_remove (l : list xattr) (index : Z) (name : list Z) : list xattr :=
  match l with
  | [] => []
  | a :: l => if key_is index name a then l else a :: x_remove l index name
  end.

(** ** The encoding *)

Definition encode (a : xattr) : list Z := entry_bytes (x_index a) (x_name a) (x_value a).
Definition encode_all (l : list xattr) : list Z := concat (map encode l).

Definition header (a : xattr) : lolelffs_xattr_entry :=
  XEntry (Z.of_nat (length (x_name a))) (x_index a) (Z.of_nat (length (x_value a)))
    (13 + Z.of_nat (length (x_name a))) 0.

Lemma align4_eq x : align4 x = 4 * ((x + 3) / 4).
Proof.
  unfold align4. rewrite <- Z.ldiff_land. change 3 with (Z.ones 2) at 2.
  rewrite Z.ldiff_ones_r by lia. rewrite Z.shiftl_mul_pow2, Z.shiftr_div_pow2 by lia.
  change (2 ^ 2) with 4. lia.
Qed.

Lemma align4_range x : x <= align4 x <= x + 3.
Proof. rewrite align4_eq. pose proof (Z.div_mod (x + 3) 4). pose proof (Z.mod_pos_bound (x + 3) 4). lia. Qed.

Lemma align4_add o x : (4 | o) -> align4 (o + x) = o + align4 x.
Proof.
  intros [q ->]. rewrite !align4_eq. replace (q * 4 + x + 3) with (x + 3 + q * 4) by lia.
  rewrite Z.div_add by lia. lia.
Qed.

Lemma entry_size_header a :
  entry_size (header a) = align4 (13 + Z.of_nat (length (x_name a)) + Z.of_nat (length (x_value a))).
Proof. unfold entry_size, header, sizeof_xattr_entry. cbn [name_len value_len]. f_equal. lia. Qed.

Lemma length_encode a : Z.of_nat (length (encode a)) = entry_size (header a).
Proof.
  rewrite entry_size_header. unfold encode, entry_bytes, sizeof_xattr_entry. cbv zeta.
  repeat (rewrite ?length_app, ?length_le_enc, ?length_zeros; cbn [length]).
  set (n := length (x_name a)). set (m := length (x_value a)).
  replace (12 + Z.of_nat n + 1 + Z.of_nat m) with (13 + Z.of_nat n + Z.of_nat m) by lia.
  pose proof (align4_range (13 + Z.of_nat n + Z.of_nat m)). lia.
Qed.

Lemma encode_size_pos a : 16 <= entry_size (header a).
Proof.
  rewrite entry_size_header, align4_eq.
  pose proof (Z.div_le_mono (16) (13 + Z.of_nat (length (x_name a)) + Z.of_nat (length (x_value a)) + 3) 4
    ltac:(lia) ltac:(lia)). change (16 / 4) with 4 in *. lia.
Qed.

Lemma encode_size_align a : (4 | entry_size (header a)).
Proof. rewrite entry_size_header, align4_eq. eexists. apply Z.mul_comm. Qed.

Lemma length_encode_all_cons a l :
  Z.of_nat (length (encode_all (a :: l))) = entry_size (header a) + Z.of_nat (length (encode_all l)).
Proof. unfold encode_all. cbn [map concat]. rewrite length_app, Nat2Z.inj_add. by rewrite length_encode. Qed.

Lemma encode_all_app l1 l2 : encode_all (l1 ++ l2) = encode_all l1 ++ encode_all l2.
Proof. unfold encode_all. by rewrite map_app, concat_app. Qed.

(** Reading inside the encoding of one entry. *)
Lemma slice_app_at pre x n off : slice (length pre + off) n (pre ++ x) = slice off n x.
Proof. unfold slice. by rewrite drop_app_add. Qed.

Lemma entry_at_encode pre a post :
  xattr_ok a -> entry_at (pre ++ encode a ++ post) (length pre) = header a.
Proof.
  intros (Hi & Hn & Hv & _ & _). unfold entry_at, header, rd8, rd16, rd32, encode, entry_bytes. cbv zeta.
  rewrite <- (Nat.add_0_r (length pre)) at 1. rewrite !slice_app_at.
  rewrite !slice_app_l by (repeat (rewrite ?length_app, ?length_le_enc; cbn [length]); lia).
  set (n := x_name a) in *. set (m := x_value a) in *. unfold sizeof_xattr_entry.
  f_equal; unfold slice; cbn [app drop take le_enc le_dec].
  - rewrite u8_small by lia. lia.
  - rewrite u8_small by lia. lia.
  - change 256 with (2 ^ 8). pose proof (Z.div_mod (Z.of_nat (length m)) (2 ^ 8)).
    assert (Z.of_nat (length m) / 2 ^ 8 < 2 ^ 8) by (apply Z.div_lt_upper_bound; lia).
    assert (0 <= Z.of_nat (length m) / 2 ^ 8) by (apply Z.div_pos; lia).
    rewrite (Z.mod_small (Z.of_nat (length m) / 2 ^ 8)) by lia. lia.
  - transitivity (le_dec (le_enc 4 (12 + Z.of_nat (length n) + 1))); [done|].
    rewrite le_dec_enc, Z.mod_small by (change (256 ^ Z.of_nat 4) with (2 ^ 32); lia). lia.
Qed.

Lemma slice_name pre a post :
  slice (length pre + 12) (length (x_name a)) (pre ++ encode a ++ post) = x_name a.
Proof.
  rewrite slice_app_at. unfold encode, entry_bytes. cbv zeta.
  rewrite slice_app_l by (repeat (rewrite ?length_app, ?length_le_enc; cbn [length]); lia).
  unfold slice. cbn [app drop le_enc]. apply take_app_length.
Qed.

Lemma slice_value pre a post :
  slice (length pre + (13 + length (x_name a))) (length (x_value a)) (pre ++ encode a ++ post) = x_value a.
Proof.
  rewrite slice_app_at. unfold encode, entry_bytes. cbv zeta.
  rewrite slice_app_l by (repeat (rewrite ?length_app, ?length_le_enc; cbn [length]); lia).
  unfold slice. change (13 + length (x_name a))%nat with (12 + (1 + length (x_name a)))%nat.
  cbn [app drop le_enc Nat.add]. replace (S (length (x_name a))) with (length (x_name a) + 1)%nat by lia.
  rewrite drop_app_add. cbn [drop]. apply take_app_length.
Qed.

(** ** Finding an entry *)

(** Where the first entry with the key is, when the list starts at [off]. *)
Fixpoint find_at (l : list xattr) (off index : Z) (name : list Z) : option (Z * lolelffs_xattr_entry) :=
  match l with
  | [] => None
  | a :: l =>
      if key_is index name a then Some (off, header a)
      else find_at l (off + entry_size (header a)) index name
  end.

Lemma find_loop_spec l : forall fuel pre post index name,
  Forall xattr_ok l -> (4 | Z.of_nat (length pre)) -> (length l < fuel)%nat ->
  find_entry_loop fuel (pre ++ encode_all l ++ post)
    (Z.of_nat (length pre) + Z.of_nat (length (encode_all l))) index name (Z.of_nat (length pre)) =
  Ok (find_at l (Z.of_nat (length pre)) index name).
Proof.
  induction l as [|a l IH]; intros fuel pre post index name Hok Hal Hf;
    (destruct fuel as [|fuel]; [cbn in Hf; lia|]); cbn [find_entry_loop find_at].
  { unfold sizeof_xattr_entry. cbn [encode_all map concat length].
    by rewrite (proj2 (Z.ltb_lt _ _)) by lia. }
  apply Forall_cons in Hok as [Ha Hok]. pose proof (encode_size_pos a) as Hsz.
  pose proof (length_encode a) as Hle. pose proof (entry_size_header a) as Hes.
  pose proof (align4_range (13 + Z.of_nat (length (x_name a)) + Z.of_nat (length (x_value a)))).
  rewrite length_encode_all_cons. rewrite (proj2 (Z.ltb_ge _ _)) by (unfold sizeof_xattr_entry; lia).
  assert (encode_all (a :: l) ++ post = encode a ++ encode_all l ++ post) as -> by (symmetry; apply app_assoc).
  rewrite Nat2Z.id, entry_at_encode by done. cbn [header name_len name_index value_len].
  rewrite (proj2 (Z.eqb_neq (Z.of_nat (length (x_name a))) 0)) by (destruct Ha as (_ & ? & _); lia).
  replace (align4 _) with (Z.of_nat (length (pre ++ encode a))).
  2:{ rewrite length_app, Nat2Z.inj_add, Hle, Hes, <- align4_add by done. unfold sizeof_xattr_entry. f_equal. lia. }
  assert (find_entry_loop fuel (pre ++ encode a ++ encode_all l ++ post)
     (Z.of_nat (length pre) + (entry_size (header a) + Z.of_nat (length (encode_all l)))) index name
     (Z.of_nat (length (pre ++ encode a))) =
     Ok (find_at l (Z.of_nat (length pre) + entry_size (header a)) index name)) as Hnext.
  { specialize (IH fuel (pre ++ encode a) post index name Hok).
    rewrite Z.add_assoc. replace (Z.of_nat (length pre) + entry_size (header a))
      with (Z.of_nat (length (pre ++ encode a))) by (rewrite length_app; lia).
    rewrite <- IH; [by rewrite <- app_assoc|..].
    - rewrite length_app, Nat2Z.inj_add, Hle. apply Z.divide_add_r; [done|apply encode_size_align].
    - cbn in Hf. lia. }
  unfold key_is. destruct (Z.eqb_spec (x_index a) index) as [_|]; cbn [andb]; [|exact Hnext].
  destruct (Z.eqb_spec (Z.of_nat (length (x_name a))) (Z.of_nat (length name))) as [El|El]; cbn [andb].
  - rewrite (proj2 (Z.ltb_ge _ _)) by (rewrite !length_app; unfold sizeof_xattr_entry; lia).
    replace (Z.to_nat (Z.of_nat (length pre) + sizeof_xattr_entry)) with (length pre + 12)%nat
      by (unfold sizeof_xattr_entry; lia).
    apply Nat2Z.inj in El. rewrite <- El, slice_name. by case_bool_decide.
  - rewrite bool_decide_false by (intros E; apply El; by rewrite E). exact Hnext.
Qed.

Lemma length_le_encode_all l : Z.of_nat (length l) <= Z.of_nat (length (encode_all l)).
Proof.
  induction l as [|a l IH]; [done|]. rewrite length_encode_all_cons. pose proof (encode_size_pos a). cbn [length]. lia.
Qed.

(** What find_entry returns on an encoded list. *)
Lemma find_entry_spec l post index name :
  Forall xattr_ok l ->
  lolelffs_xattr_find_entry (encode_all l ++ post) (Z.of_nat (length (encode_all l))) index name =
    Ok (find_at l 0 index name).
Proof.
  intros Hok. unfold lolelffs_xattr_find_entry.
  apply (find_loop_spec l _ []); [done|by exists 0|]. pose proof (length_le_encode_all l). lia.
Qed.

(** The entry splits the list. *)
Lemma find_at_split l : forall off index name,
  match find_at l off index name with
  | None => x_lookup l index name = None /\ x_remove l index name = l
  | Some (o, e) => exists l1 a l2, l = l1 ++ a :: l2 /\ e = header a /\ key_is index name a = true /\
      o = off + Z.of_nat (length (encode_all l1)) /\ x_lookup l index name = Some (x_value a) /\
      x_remove l index name = l1 ++ l2
  end.
Proof.
  induction l as [|a l IH]; intros off index name; cbn [find_at x_lookup x_remove]; [done|].
  destruct (key_is index name a) eqn:Ek.
  - exists [], a, l. split_and!; [done..| |done|done]. cbn. lia.
  - specialize (IH (off + entry_size (header a)) index name). destruct (find_at l _ index name) as [[o e]|].
    + destruct IH as (l1 & c & l2 & -> & -> & Hk & -> & Hl & Hr). exists (a :: l1), c, l2.
      split_and!; [done..| |done|by rewrite Hr]. rewrite length_encode_all_cons. lia.
    + destruct IH as [-> ->]. done.
Qed.

(** ** Reading and writing the blocks of a run *)

(** The blocks from [start] on hold [bs]. *)
Definition run_blocks (s : fs) (start : Z) (bs : list block) : Prop :=
  forall k b, bs !! k = Some b -> blk_at s (start + Z.of_nat k) = Some b /\ length b = BLK.

Lemma run_blocks_tail s start b bs : run_blocks s start (b :: bs) -> run_blocks s (start + 1) bs.
Proof.
  intros H k c Hk. replace (start + 1 + Z.of_nat k) with (start + Z.of_nat (S k)) by lia. by apply H.
Qed.

Lemma run_blocks_head s start b bs :
  run_blocks s start (b :: bs) -> blk_at s start = Some b /\ length b = BLK.
Proof. intros H. specialize (H 0%nat b eq_refl). by rewrite Z.add_0_r in H. Qed.

Lemma run_blocks_cons s start b bs :
  blk_at s start = Some b -> length b = BLK -> run_blocks s (start + 1) bs -> run_blocks s start (b :: bs).
Proof.
  intros Hb Hl H [|k] c Hk.
  - injection Hk as <-. by rewrite Z.add_0_r.
  - replace (start + Z.of_nat (S k)) with (start + 1 + Z.of_nat k) by lia. by apply H.
Qed.

Lemma read_blocks_spec bs : forall start bi total data s,
  run_blocks s (start + bi) bs -> 0 <= start + bi -> start + bi + Z.of_nat (length bs) <= 2 ^ 32 ->
  Z.of_nat (length data) < total <= Z.of_nat (length data + length (concat bs)) ->
  read_blocks (length bs) start bi total data s =
    (Ok (data ++ take (Z.to_nat total - length data) (concat bs), true), s).
Proof.
  induction bs as [|b bs IH]; intros start bi total data s Hrun H0 H32 Htot; [cbn in Htot; lia|].
  cbn [length read_blocks]. cbn [length concat] in *. rewrite length_app in Htot.
  destruct (run_blocks_head _ _ _ _ Hrun) as [Hb Hl]. rewrite u32_small by lia.
  rewrite (bind_run _ _ _ _ _ (bread_run _ _ _ Hb)). change LOLELFFS_BLOCK_SIZE with (Z.of_nat BLK).
  destruct (Z.le_gt_cases (total - Z.of_nat (length data)) (Z.of_nat BLK)).
  - rewrite Z.min_r by lia. rewrite (proj2 (Z.leb_le _ _)) by (rewrite length_app, length_take; lia).
    rewrite take_app_le by lia. by replace (Z.to_nat (total - _)) with (Z.to_nat total - length data)%nat by lia.
  - rewrite Z.min_l, Nat2Z.id by lia. rewrite take_ge by lia.
    rewrite (proj2 (Z.leb_gt _ _)) by (rewrite length_app; lia).
    rewrite IH; [|rewrite Z.add_assoc; by apply (run_blocks_tail _ _ b)|lia..|rewrite length_app; lia].
    rewrite <- app_assoc, (take_app_ge b) by lia. rewrite length_app, Hl. by rewrite Nat.sub_add_distr.
Qed.

(** Only blocks of [start, start + n) change. *)
Definition same_outside (start n : Z) (s s' : fs) : Prop :=
  fs_sbi s' = fs_sbi s /\ fs_icache s' = fs_icache s /\ fs_k s' = fs_k s /\
  forall j, ~ start <= j < start + n -> blk_at s' j = blk_at s j.

Lemma same_outside_refl start n s : same_outside start n s s.
Proof. done. Qed.

Lemma write_blocks_spec bs : forall start bi data size written s,
  run_blocks s (start + bi) bs -> 0 <= start + bi -> start + bi + Z.of_nat (length bs) <= 2 ^ 32 ->
  0 <= written <= size -> size <= Z.of_nat (length data) ->
  size - written <= Z.of_nat (length bs) * LOLELFFS_BLOCK_SIZE ->
  exists s' bs', write_blocks (length bs) start bi data size written s = (Ok size, s') /\
    length bs' = length bs /\ run_blocks s' (start + bi) bs' /\
    same_outside (start + bi) (Z.of_nat (length bs)) s s' /\
    take (Z.to_nat (size - written)) (concat bs') = slice (Z.to_nat written) (Z.to_nat (size - written)) data.
Proof.
  change LOLELFFS_BLOCK_SIZE with (Z.of_nat BLK).
  induction bs as [|b bs IH]; intros start bi data size written s Hrun H0 H32 Hw Hd Hn; cbn [length] in *.
  { exists s, []. replace written with size in * by lia. rewrite Z.sub_diag. done. }
  destruct (run_blocks_head _ _ _ _ Hrun) as [Hb Hl]. cbn [write_blocks].
  destruct (Z.leb_spec size written).
  { replace written with size in * by lia. exists s, (b :: bs). rewrite Z.sub_diag. done. }
  set (w := Z.min _ _). rewrite u32_small by lia. assert (w = Z.min (Z.of_nat BLK) (size - written)) as Ew by done. clearbody w.
  rewrite (bind_run _ _ _ _ _ (bread_run _ _ _ Hb)). rewrite (proj2 (Z.ltb_ge _ _)) by lia.
  unfold bwrite. rewrite bind_modify. set (nb := _ ++ zeros _). set (s1 := set_disk _ s).
  assert (length nb = BLK) as Hnb.
  { subst nb. rewrite length_app, length_zeros, length_slice by lia. lia. }
  assert (forall j, j <> start + bi -> blk_at s1 j = blk_at s j) as Hs1.
  { intros j Hj. unfold blk_at, s1. cbn [set_disk fs_disk fs_sbi]. by rewrite lookup_insert_ne by lia. }
  destruct (IH start (bi + 1) data size (written + w) s1) as (s' & bs' & -> & Hl' & Hr' & Hso & Htk); [|lia..|].
  { intros k c Hk. rewrite Hs1 by lia. rewrite Z.add_assoc. by apply (run_blocks_tail _ _ _ _ Hrun). }
  destruct Hso as (E1 & E2 & E3 & E4). rewrite Z.add_assoc in *.
  exists s', (nb :: bs'). split; [done|]. split; [cbn [length]; lia|].
  split; [|split; [|]].
  - apply run_blocks_cons; [|done|done]. rewrite E4 by lia.
    unfold blk_at, s1. cbn [set_disk fs_disk fs_sbi]. apply lookup_insert_eq.
  - split_and!; try done. intros j Hj. rewrite E4, Hs1 by lia. done.
  - cbn [concat]. destruct (Z.le_gt_cases (size - written) (Z.of_nat BLK)).
    + rewrite take_app_le by lia. subst nb. rewrite Z.min_r in Ew by lia. rewrite Ew.
      rewrite take_app_le by (rewrite length_slice by lia; lia). apply take_ge. rewrite length_slice by lia. lia.
    + rewrite Z.min_l in Ew by lia. subst w. rewrite take_app_ge by lia. rewrite Hnb.
      replace (Z.to_nat (size - written) - BLK)%nat with (Z.to_nat (size - (written + Z.of_nat BLK))) by lia.
      rewrite Htk. subst nb. rewrite Nat2Z.id, Nat.sub_diag. unfold slice.
      replace (Z.to_nat (written + Z.of_nat BLK)) with (Z.to_nat written + BLK)%nat by lia.
      rewrite app_nil_r, <- drop_drop.
      replace (Z.to_nat (size - written)) with (BLK + Z.to_nat (size - (written + Z.of_nat BLK)))%nat by lia.
      by rewrite take_take_drop.
Qed.

(** ** The representation *)

Abbreviation extent0 b := (xext (xei_of_block b) 0).

(** The index block [b], at [xb], and the data blocks [bs] hold the list [l]. *)
Record xindex_ok (s : fs) (xb : Z) (b : block) (bs : list block) (l : list xattr) : Prop := {
  xi_read : blk_at s xb = Some b;
  xi_block : block_ok b;
  xi_total : total_size (xei_of_block b) = Z.of_nat (length (encode_all l));
  xi_count : xcount (xei_of_block b) = Z.of_nat (length l);
  xi_entries : Forall xattr_ok l;
  xi_single : ee_start (xext (xei_of_block b) 1) = 0;
  xi_run : if ee_start (extent0 b) =? 0 then bs = []
           else ee_len (extent0 b) = Z.of_nat (length bs) /\ bs <> [];
  xi_blocks : run_blocks s (ee_start (extent0 b)) bs;
  xi_data : take (length (encode_all l)) (concat bs) = encode_all l;
  xi_used : ({[xb]} ∪ range (ee_start (extent0 b)) (Z.of_nat (length bs))) ⊆
              univ (nr_blocks (sbd (fs_sbi s))) ∖ free_blocks (fs_sbi s);
  xi_apart : xb ∉ range (ee_start (extent0 b)) (Z.of_nat (length bs))
}.

(** The inode [v] has the attributes [l]. *)
Definition xrep (s : fs) (inode : Z) (v : vinode) (l : list xattr) : Prop :=
  fs_icache s !! inode = Some v /\ block_inv (fs_sbi s) /\
  ((xattr_block v = 0 /\ l = []) \/
   (xattr_block v <> 0 /\ exists b bs, xindex_ok s (xattr_block v) b bs l)).

Lemma length_concat_run s start bs : run_blocks s start bs -> length (concat bs) = (length bs * BLK)%nat.
Proof.
  revert start. induction bs as [|b bs IH]; intros start H; [done|]. cbn [concat length]. rewrite length_app.
  destruct (run_blocks_head _ _ _ _ H) as [_ ->]. rewrite (IH (start + 1)) by (by eapply run_blocks_tail). lia.
Qed.

Lemma xindex_bounds s xb b bs l :
  block_inv (fs_sbi s) -> xindex_ok s xb b bs l ->
  0 <= ee_start (extent0 b) /\ ee_start (extent0 b) + Z.of_nat (length bs) <= 2 ^ 32 /\
  (length (encode_all l) <= length bs * BLK)%nat.
Proof.
  intros Hinv Hx. pose proof (xi_used _ _ _ _ _ Hx) as Hu. pose proof (xi_run _ _ _ _ _ Hx) as Hr.
  assert (length (encode_all l) <= length bs * BLK)%nat as Hle.
  { rewrite <- (xi_data _ _ _ _ _ Hx), length_take. rewrite (length_concat_run s _ _ (xi_blocks _ _ _ _ _ Hx)). lia. }
  destruct (Z.eqb_spec (ee_start (extent0 b)) 0) as [E|Hne].
  - rewrite E, Hr in *. cbn [length] in *. split_and!; lia.
  - destruct Hr as [_ Hbs]. destruct bs as [|x bs]; [done|].
    destruct (range_univ_bounds (nr_blocks (sbd (fs_sbi s))) (ee_start (extent0 b)) (Z.of_nat (length (x :: bs))))
      as [? ?]; [cbn [length]; lia|clear -Hu; set_solver|]. destruct Hinv as [? _]. split_and!; lia.
Qed.

Section Refine.
Context (kmalloc_bytes : nat -> list Z).

Lemma read_extents_first e es total s bs :
  ee_start e <> 0 -> ee_len e = Z.of_nat (length bs) -> run_blocks s (ee_start e) bs -> 0 <= ee_start e ->
  ee_start e + Z.of_nat (length bs) <= 2 ^ 32 -> 0 < total <= Z.of_nat (length (concat bs)) ->
  read_extents (e :: es) total [] s = (Ok (take (Z.to_nat total) (concat bs)), s).
Proof using.
  intros Hs Hl Hr H0 H32 Ht. cbn [read_extents]. rewrite (proj2 (Z.eqb_neq _ _) Hs), Hl, Nat2Z.id.
  pose proof (read_blocks_spec bs (ee_start e) 0 total [] s) as H. rewrite Z.add_0_r in H.
  rewrite (bind_run _ _ _ _ _ (H Hr H0 H32 ltac:(cbn [length]; lia))). cbn [fst snd length app].
  by rewrite Nat.sub_0_r.
Qed.

Lemma xextents_cons b : exists es, xextents (xei_of_block b) = extent0 b :: es.
Proof using. unfold xei_of_block, arr, xext, NEXT. cbn. eauto. Qed.

(** Reading the attributes of a sound index gives their encoding. *)
Lemma read_data_spec s xb b bs l :
  block_inv (fs_sbi s) -> xindex_ok s xb b bs l -> oom (fs_k s) A_xattr_data = false ->
  exists rest, lolelffs_xattr_read_data kmalloc_bytes b s =
    (Ok (encode_all l ++ rest, Z.of_nat (length (encode_all l))), s).
Proof using.
  intros Hinv Hx Hoom. destruct (xindex_bounds s xb b bs l Hinv Hx) as (H0 & H32 & Hle).
  unfold lolelffs_xattr_read_data. cbv zeta. rewrite (xi_total _ _ _ _ _ Hx).
  destruct (Z.eqb_spec (Z.of_nat (length (encode_all l))) 0) as [E|Hne].
  { exists []. destruct (encode_all l); [done|cbn [length] in E; lia]. }
  rewrite bind_gets, Hoom. destruct (xextents_cons b) as [es ->].
  pose proof (xi_run _ _ _ _ _ Hx) as Hr. pose proof (length_concat_run s _ _ (xi_blocks _ _ _ _ _ Hx)) as Hlc.
  destruct (Z.eqb_spec (ee_start (extent0 b)) 0); [subst bs; cbn [length] in Hle; lia|]. destruct Hr as [Hlen _].
  assert (0 < Z.of_nat (length (encode_all l)) <= Z.of_nat (length (concat bs))) as Ht by lia.
  rewrite (bind_run _ _ _ _ _ (read_extents_first _ es _ s bs n Hlen (xi_blocks _ _ _ _ _ Hx) H0 H32 Ht)).
  rewrite Nat2Z.id, (xi_data _ _ _ _ _ Hx). eexists. done.
Qed.

(** ** Lookup *)

Definition get_result (l : list xattr) (index : Z) (name : list Z) (size : option Z) : result (Z * list Z) :=
  match x_lookup l index name with
  | None => Err ENODATA
  | Some value =>
      match size with
      | None => Ok (Z.of_nat (length value), [])
      | Some n =>
          if n <? Z.of_nat (length value) then Err ERANGE else Ok (Z.of_nat (length value), value)
      end
  end.

Lemma encode_all_nil l : length (encode_all l) = 0%nat -> l = [].
Proof using. destruct l as [|a l]; [done|]. pose proof (length_encode_all_cons a l). pose proof (encode_size_pos a). lia. Qed.

Lemma get_spec s inode v l index name size :
  xrep s inode v l -> oom (fs_k s) A_xattr_data = false ->
  lolelffs_xattr_get kmalloc_bytes inode index name size s = (get_result l index name size, s).
Proof using.
  intros (Hc & Hinv & Hrep) Hoom. unfold lolelffs_xattr_get, inode_at, get_result.
  rewrite bind_gets, Hc. cbn [default from_option id].
  destruct Hrep as [[-> ->]|(Hnz & b & bs & Hx)]; [done|]. rewrite (proj2 (Z.eqb_neq _ _) Hnz).
  rewrite (bind_run _ _ _ _ _ (bread_run _ _ _ (xi_read _ _ _ _ _ Hx))).
  destruct (read_data_spec s _ b bs l Hinv Hx Hoom) as [rest Hread]. rewrite (bind_run _ _ _ _ _ Hread).
  destruct (Z.eqb_spec (Z.of_nat (length (encode_all l))) 0) as [E|_].
  { rewrite (encode_all_nil l) by lia. done. }
  rewrite find_entry_spec by apply Hx. cbn [lift]. rewrite bind_mret.
  pose proof (find_at_split l 0 index name) as Hf. destruct (find_at l 0 index name) as [[o e]|].
  2:{ destruct Hf as [-> _]. done. }
  destruct Hf as (l1 & a & l2 & -> & -> & _ & -> & -> & _). cbn [header value_len value_offset].
  destruct size as [n|]; [|done]. destruct (n <? _); [done|]. rewrite encode_all_app, Z.add_0_l.
  assert (encode_all (a :: l2) = encode a ++ encode_all l2) as -> by done. rewrite <- !app_assoc.
  pose proof (length_encode a) as Hle. rewrite entry_size_header in Hle.
  pose proof (align4_range (13 + Z.of_nat (length (x_name a)) + Z.of_nat (length (x_value a)))).
  rewrite (proj2 (Z.ltb_ge _ _)) by (rewrite !length_app; lia).
  rewrite Nat2Z.id. replace (Z.to_nat (_ + _)) with (length (encode_all l1) + (13 + length (x_name a)))%nat by lia.
  by rewrite slice_value.
Qed.

(** ** Enumeration *)

Definition full_name (a : xattr) : list Z :=
  default [] (xattr_prefixes !! Z.to_nat (x_index a)) ++ x_name a ++ [0].
Definition names (l : list xattr) : list Z := concat (map full_name l).

Definition list_result (l : list xattr) (size : option Z) : result (Z * list Z) :=
  match size with
  | None => Ok (Z.of_nat (length (names l)), [])
  | Some n =>
      if n <? Z.of_nat (length (names l)) then Err ERANGE else Ok (Z.of_nat (length (names l)), names l)
  end.

(** The loop from the entry at the end of [pre] on, [out] already produced. *)
Lemma list_loop_spec l : forall fuel pre post size out,
  Forall xattr_ok l -> Forall (fun a => x_index a < 4) l -> (4 | Z.of_nat (length pre)) -> (length l < fuel)%nat ->
  list_loop fuel (pre ++ encode_all l ++ post) (Z.of_nat (length pre) + Z.of_nat (length (encode_all l)))
    size (Z.of_nat (length pre)) (Z.of_nat (length out)) (if size is Some _ then out else []) =
  match size with
  | None => Ok (Z.of_nat (length (out ++ names l)), [])
  | Some n =>
      if (n <? Z.of_nat (length (out ++ names l))) && negb (bool_decide (l = [])) then Err ERANGE
      else Ok (Z.of_nat (length (out ++ names l)), out ++ names l)
  end.
Proof using.
  induction l as [|a l IH]; intros fuel pre post size out Hok Hix Hal Hf;
    (destruct fuel as [|fuel]; [cbn in Hf; lia|]); cbn [list_loop].
  { unfold sizeof_xattr_entry. cbn [encode_all map concat length names]. rewrite app_nil_r.
    rewrite (proj2 (Z.ltb_lt _ _)) by lia. destruct size; [|done]. by rewrite andb_false_r. }
  apply Forall_cons in Hok as [Ha Hok]. apply Forall_cons in Hix as [Hia Hix].
  pose proof (encode_size_pos a) as Hsz.
  pose proof (length_encode a) as Hle. pose proof (entry_size_header a) as Hes.
  pose proof (align4_range (13 + Z.of_nat (length (x_name a)) + Z.of_nat (length (x_value a)))).
  rewrite length_encode_all_cons. rewrite (proj2 (Z.ltb_ge _ _)) by (unfold sizeof_xattr_entry; lia).
  assert (encode_all (a :: l) ++ post = encode a ++ encode_all l ++ post) as -> by (symmetry; apply app_assoc).
  rewrite Nat2Z.id, entry_at_encode by done. cbn [header name_len name_index value_len].
  destruct Ha as (Hi & Hn & Hv & Hrest).
  rewrite (proj2 (Z.eqb_neq (Z.of_nat (length (x_name a))) 0)) by lia.
  destruct (lookup_lt_is_Some_2 xattr_prefixes (Z.to_nat (x_index a))) as [prefix Hp]; [cbn; lia|]. rewrite Hp.
  assert (full_name a = prefix ++ x_name a ++ [0]) as Hfn by (unfold full_name; by rewrite Hp).
  replace (Z.of_nat (length out) + _) with (Z.of_nat (length (out ++ full_name a)))
    by (rewrite Hfn, !length_app; cbn [length]; lia).
  replace (align4 _) with (Z.of_nat (length (pre ++ encode a))).
  2:{ rewrite length_app, Nat2Z.inj_add, Hle, Hes, <- align4_add by done. unfold sizeof_xattr_entry. f_equal. lia. }
  replace (Z.of_nat (length pre) + (entry_size _ + _))
    with (Z.of_nat (length (pre ++ encode a)) + Z.of_nat (length (encode_all l))) by (rewrite length_app; lia).
  assert ((4 | Z.of_nat (length (pre ++ encode a)))) as Hal'.
  { rewrite length_app, Nat2Z.inj_add, Hle. apply Z.divide_add_r; [done|apply encode_size_align]. }
  specialize (IH fuel (pre ++ encode a) post size (out ++ full_name a) Hok Hix Hal' ltac:(cbn in Hf; lia)).
  rewrite <- (app_assoc pre) in IH. change (names (a :: l)) with (full_name a ++ names l).
  rewrite <- (app_assoc out) in IH. rewrite bool_decide_false by done. cbn [negb].
  destruct size as [n|]; [|exact IH]. rewrite andb_true_r.
  destruct (Z.ltb_spec n (Z.of_nat (length (out ++ full_name a)))) as [Hlt|Hge].
  { rewrite (proj2 (Z.ltb_lt _ _)); [done|]. rewrite !length_app in *. lia. }
  rewrite (proj2 (Z.ltb_ge _ _)) by (rewrite !length_app; unfold sizeof_xattr_entry; lia).
  replace (Z.to_nat (Z.of_nat (length pre) + sizeof_xattr_entry)) with (length pre + 12)%nat
    by (unfold sizeof_xattr_entry; lia). rewrite Nat2Z.id, slice_name, <- Hfn.
  rewrite IH. destruct l as [|a' l'].
  2:{ rewrite bool_decide_false by done. cbn [negb]. by rewrite andb_true_r. }
  rewrite bool_decide_true by done. cbn [negb]. rewrite andb_false_r. cbn [names map concat]. rewrite app_nil_r.
  by rewrite (proj2 (Z.ltb_ge _ _)) by lia.
Qed.

(** C23 listxattr enumerates the names: with a large enough buffer it returns the
    prefixed names of the attributes in order, each followed by a NUL, and
    their total length; without a buffer it returns that length, and with a
    buffer that is too small ERANGE. *)
Theorem listxattr_enumerates s inode v l size :
  xrep s inode v l -> Forall (fun a => x_index a < 4) l -> oom (fs_k s) A_xattr_data = false ->
  (if size is Some n then 0 <= n else True) ->
  lolelffs_listxattr kmalloc_bytes inode size s = (list_result l size, s).
Proof using.
  intros (Hc & Hinv & Hrep) Hix Hoom Hsz. unfold lolelffs_listxattr, inode_at, list_result.
  rewrite bind_gets, Hc. cbn [default from_option id].
  assert (forall t : fs, (mret (0, []) : M fs (Z * list Z)) t = (list_result [] size, t)) as Hnil.
  { intros t. unfold list_result. destruct size as [n|]; [|done]. cbn [names map concat length].
    by rewrite (proj2 (Z.ltb_ge _ _)) by lia. }
  destruct Hrep as [[-> ->]|(Hnz & b & bs & Hx)]; [apply Hnil|]. rewrite (proj2 (Z.eqb_neq _ _) Hnz).
  rewrite (bind_run _ _ _ _ _ (bread_run _ _ _ (xi_read _ _ _ _ _ Hx))).
  destruct (read_data_spec s _ b bs l Hinv Hx Hoom) as [rest Hread]. rewrite (bind_run _ _ _ _ _ Hread).
  destruct (Z.eqb_spec (Z.of_nat (length (encode_all l))) 0) as [E|_].
  { rewrite (encode_all_nil l) by lia. apply Hnil. }
  pose proof (list_loop_spec l (S (Z.to_nat (Z.of_nat (length (encode_all l))))) [] rest size []
    (xi_entries _ _ _ _ _ Hx) Hix ltac:(by exists 0) ltac:(pose proof (length_le_encode_all l); lia)) as Hl.
  cbn [app length] in Hl. change (Z.of_nat 0) with 0 in Hl. rewrite Z.add_0_l in Hl.
  replace (if size is Some _ then [] else []) with ([] : list Z) in Hl by (by destruct size).
  rewrite Hl. unfold lift. destruct size as [n|]; [|done].
  destruct (Z.ltb_spec n (Z.of_nat (length (names l)))); [|done]. destruct l; [cbn in *; lia|].
  by rewrite bool_decide_false by done.
Qed.
End Refine.

(** ** Update *)

(** What xattr_index and xattr_reserve maintain, whatever the data blocks hold. *)
Record xshape (s : fs) (xb : Z) (b : block) (bs : list block) : Prop := {
  xs_inv : block_inv (fs_sbi s);
  xs_read : blk_at s xb = Some b;
  xs_block : block_ok b;
  xs_single : ee_start (xext (xei_of_block b) 1) = 0;
  xs_run : if ee_start (extent0 b) =? 0 then bs = []
           else ee_len (extent0 b) = Z.of_nat (length bs) /\ bs <> [];
  xs_blocks : run_blocks s (ee_start (extent0 b)) bs;
  xs_used : ({[xb]} ∪ range (ee_start (extent0 b)) (Z.of_nat (length bs))) ⊆
              univ (nr_blocks (sbd (fs_sbi s))) ∖ free_blocks (fs_sbi s);
  xs_apart : xb ∉ range (ee_start (extent0 b)) (Z.of_nat (length bs))
}.

Lemma xindex_shape s xb b bs l : block_inv (fs_sbi s) -> xindex_ok s xb b bs l -> xshape s xb b bs.
Proof. by intros ? [? ? ? ? ? ? ? ? ? ? ?]. Qed.

Lemma shape_index s xb b bs l :
  xshape s xb b bs -> Forall xattr_ok l -> total_size (xei_of_block b) = Z.of_nat (length (encode_all l)) ->
  xcount (xei_of_block b) = Z.of_nat (length l) -> take (length (encode_all l)) (concat bs) = encode_all l ->
  xindex_ok s xb b bs l.
Proof. by intros [? ? ? ? ? ? ? ?] ? ? ? ?. Qed.

(** Every block of the file system can be read. *)
Definition readable (s : fs) : Prop :=
  forall x, 0 <= x < nr_blocks (sbd (fs_sbi s)) -> exists b, blk_at s x = Some b /\ length b = BLK.

Lemma readable_run s start n :
  readable s -> 0 <= start -> start + Z.of_nat n <= nr_blocks (sbd (fs_sbi s)) ->
  exists bs, length bs = n /\ run_blocks s start bs.
Proof.
  intros Hr. revert start. induction n as [|n IH]; intros start H0 Hn; [by exists []|].
  destruct (Hr start ltac:(lia)) as (b & Hb & Hl). destruct (IH (start + 1)) as (bs & <- & Hbs); [lia..|].
  exists (b :: bs). split; [done|]. by apply run_blocks_cons.
Qed.

Lemma used_ne s (x y : Z) :
  x ∈ univ (nr_blocks (sbd s)) ∖ free_blocks s -> y ∈ free_blocks s -> x <> y.
Proof. set_solver. Qed.

(** Rewriting the index block: the counters, not the extents. *)
Lemma xshape_put s xb b b' bs :
  xshape s xb b bs -> block_ok b' -> xextents (xei_of_block b') = xextents (xei_of_block b) ->
  xshape (snd (bwrite xb b' s)) xb b' bs.
Proof.
  intros [Hinv Hr Hb Hs Hrun Hbl Hu Ha] Hb' E.
  assert (forall i, xext (xei_of_block b') i = xext (xei_of_block b) i) as Ex by (intros; unfold xext; by rewrite E).
  split; rewrite ?Ex; try done.
  - rewrite blk_at_bwrite. by rewrite decide_True.
  - intros k c Hk. rewrite blk_at_bwrite, decide_False; [by apply Hbl|].
    intros ->. apply Ha, elem_of_range. apply lookup_lt_Some in Hk. lia.
Qed.

Lemma readable_put s xb b : readable s -> length b = BLK -> readable (snd (bwrite xb b s)).
Proof.
  intros H Hl x Hx. rewrite blk_at_bwrite. case_decide; [by eexists|]. by apply H.
Qed.

Lemma xext_fits b i : block_ok b -> extent_fits (xext (xei_of_block b) i).
Proof.
  intros [Hl Hb]. unfold xext. destruct (_ !! i) as [e|] eqn:E; cbn; [|repeat split; cbn; lia].
  assert (i < NEXT)%nat as Hi.
  { apply lookup_lt_Some in E. unfold xei_of_block in E. cbn [xextents] in E. by rewrite length_arr in E. }
  unfold xei_of_block in E. cbn [xextents] in E. rewrite lookup_arr in E by done. injection E as <-.
  apply extent_of_bytes_fits; [auto with mem|]. apply length_slice. blia.
Qed.

Lemma xext_put_xext b e i :
  block_ok b -> extent_fits e ->
  xext (xei_of_block (put_xext 0 e b)) i = if decide (i = 0)%nat then e else xext (xei_of_block b) i.
Proof.
  intros [Hl _] He. rewrite xei_put_xext by (done || unfold NEXT; lia). unfold xext. cbn [xextents].
  case_decide as E; [subst i|].
  - rewrite list_lookup_insert_eq; [done|]. unfold xei_of_block. cbn [xextents]. rewrite length_arr. unfold NEXT. lia.
  - by rewrite list_lookup_insert_ne by lia.
Qed.

(** The new run is taken, then the old one is given back. *)
Lemma swap_run s bno len start n sbi' :
  alloc_outcome s len bno (set_sbi sbi' s) -> 0 < bno -> block_inv (fs_sbi s) ->
  range start n ⊆ univ (nr_blocks (sbd (fs_sbi s))) ∖ free_blocks (fs_sbi s) -> 1 <= n ->
  block_inv (put_blocks sbi' start n) /\
  free_blocks (put_blocks sbi' start n) = (free_blocks (fs_sbi s) ∖ range bno len) ∪ range start n.
Proof.
  intros Ho Hb Hinv Hsub Hn. inversion Ho as [? ? ? ? ? Hfree Hinv' HF Eo En Eb Es|]; [|lia].
  replace sbi'0 with sbi' in * by congruence.
  destruct (put_run sbi' start n Hinv' Hn) as [? EF]; [rewrite En, HF; set_solver|].
  split; [done|]. by rewrite EF, HF.
Qed.

Lemma reserve_spec s xb b bs needed :
  xshape s xb b bs -> readable s -> 1 <= needed < 2 ^ 32 ->
  (exists s' b' bs', xattr_reserve xb needed s = (Ok tt, s') /\ xshape s' xb b' bs' /\ readable s' /\
     needed <= Z.of_nat (length bs') /\ total_size (xei_of_block b') = total_size (xei_of_block b) /\
     xcount (xei_of_block b') = xcount (xei_of_block b) /\ fs_icache s' = fs_icache s /\ fs_k s' = fs_k s) \/
  (xattr_reserve xb needed s = (Err ENOSPC, s) /\ forall x, ~ range x needed ⊆ free_blocks (fs_sbi s)).
Proof.
  intros Hx Hrd Hn. pose proof Hx as [Hinv Hr Hb Hs Hrun Hbl Hu Ha]. unfold xattr_reserve.
  rewrite (bind_run _ _ _ _ _ (bread_run _ _ _ Hr)). cbv zeta. set (e := extent0 b) in *.
  destruct ((ee_start e =? 0) || (ee_len e <? needed)) eqn:Enew.
  2:{ left. exists s, b, bs. apply orb_false_elim in Enew as [E1 E2]. rewrite E1 in Hrun.
      split_and!; try done. lia. }
  destruct (alloc_run s needed Hinv Hn) as (bno & s1 & Hal & Ho). rewrite (bind_run _ _ _ _ _ Hal).
  inversion Ho as [? sbi' H0 Hend H32 Hsub Hinv' HF Eo En|Hno]; subst; [|by right].
  rewrite (proj2 (Z.eqb_neq _ _)) by lia. left.
  set (sbi2 := if ee_start e =? 0 then sbi' else put_blocks sbi' (ee_start e) (ee_len e)).
  assert (block_inv sbi2 /\ free_blocks sbi2 =
      (free_blocks (fs_sbi s) ∖ range bno needed) ∪ range (ee_start e) (Z.of_nat (length bs)) /\
    fs_offset sbi2 = fs_offset (fs_sbi s) /\ nr_blocks (sbd sbi2) = nr_blocks (sbd (fs_sbi s))) as (Hi2 & HF2 & Eo2 & En2).
  { subst sbi2. destruct (ee_start e =? 0).
    - subst bs. split_and!; try done. cbn [length]. rewrite HF.
      assert (range (ee_start e) (Z.of_nat 0) = ∅) as -> by done. set_solver.
    - destruct Hrun as [Hlen Hne]. destruct (put_blocks_frame sbi' (ee_start e) (ee_len e)) as (-> & -> & _).
      rewrite Hlen. destruct (swap_run s bno needed (ee_start e) (Z.of_nat (length bs)) sbi' Ho H0 Hinv) as [? ?];
        [clear -Hu; set_solver|destruct bs; [done|cbn [length]; lia]|]. done. }
  assert ((if negb (ee_start e =? 0) then upd_sbi (fun x => put_blocks x (ee_start e) (ee_len e)) else mret tt)
    (set_sbi sbi' s) = (Ok tt, set_sbi sbi2 s)) as Hput.
  { subst sbi2. by destruct (ee_start e =? 0). }
  rewrite (bind_run _ _ _ _ _ Hput).
  assert (extent_fits (set_run 0 needed bno e)) as Hfit.
  { apply set_run_fits; [by apply xext_fits|lia..]. }
  pose proof (xext_put_xext b (set_run 0 needed bno e) 0 Hb Hfit) as E0.
  pose proof (xext_put_xext b (set_run 0 needed bno e) 1 Hb Hfit) as E1. 
  rewrite decide_True in E0 by done. rewrite decide_False in E1 by lia.
  set (b' := put_xext 0 _ b) in *.
  assert (block_ok b') as Hb' by (apply block_ok_splice; [apply bytes_ok_bytes_of_extent|done]).
  pose proof (xei_put_xext 0 (set_run 0 needed bno e) b (proj1 Hb) ltac:(unfold NEXT; lia) Hfit) as Hxei.
  fold b' in Hxei. clearbody b'.
  set (s2 := set_sbi sbi2 s). assert (forall j, blk_at s2 j = blk_at s j) as Hat.
  { intros j. unfold blk_at, s2. cbn [set_sbi fs_disk fs_sbi]. by rewrite Eo2. }
  assert (readable s2) as Hrd2.
  { intros x Hx2. rewrite Hat. apply Hrd. subst s2. cbn [set_sbi fs_sbi] in Hx2. by rewrite En2 in Hx2. }
  destruct (readable_run s2 bno (Z.to_nat needed) Hrd2) as (bs' & Hl' & Hbs'); [lia| |].
  { subst s2. cbn [set_sbi fs_sbi]. rewrite En2. lia. }
  assert (xb ∉ range bno needed) as Hxb by (clear -Hu Hsub; set_solver).
  exists (snd (bwrite xb b' s2)), b', bs'. rewrite Hxei.
  split_and!; try done; [|apply readable_put; [done|apply Hb']|lia].
  split; rewrite ?E0, ?E1; cbn [set_run ee_start ee_len].
  - exact Hi2.
  - rewrite blk_at_bwrite. by rewrite decide_True.
  - exact Hb'.
  - exact Hs.
  - rewrite (proj2 (Z.eqb_neq _ _)) by lia. split; [lia|]. intros ->. cbn in Hl'. lia.
  - intros k c Hk. rewrite blk_at_bwrite, decide_False; [by apply Hbs'|].
    intros ->. apply Hxb, elem_of_range. apply lookup_lt_Some in Hk. lia.
  - change (fs_sbi (snd (bwrite xb b' s2))) with sbi2. rewrite En2, HF2, Hl', Z2Nat.id by lia.
    pose proof (map_inv_univ _ _ _ Hinv) as Hfu. fold (free_blocks (fs_sbi s)) in Hfu.
    clear -Hu Hsub Hfu Ha Hxb. set_solver.
  - rewrite Hl', Z2Nat.id by lia. done.
Qed.

(** Writing the data blocks keeps the shape. *)
Lemma xshape_write s s' xb b bs bs' :
  xshape s xb b bs -> length bs' = length bs -> run_blocks s' (ee_start (extent0 b)) bs' ->
  same_outside (ee_start (extent0 b)) (Z.of_nat (length bs)) s s' -> xshape s' xb b bs'.
Proof.
  intros [Hinv Hr Hb Hs Hrun Hbl Hu Ha] Hl Hbs (E1 & E2 & E3 & E4).
  split; rewrite ?E1, ?Hl; try done.
  - rewrite E4; [done|]. intros Hin. by apply Ha, elem_of_range.
  - destruct (ee_start (extent0 b) =? 0); [subst bs; by destruct bs'|]. destruct Hrun as [-> Hne].
    split; [done|]. intros ->. by destruct bs.
Qed.

Lemma readable_write s s' start n bs' :
  readable s -> same_outside start n s s' -> run_blocks s' start bs' -> n = Z.of_nat (length bs') -> readable s'.
Proof.
  intros Hr (E1 & _ & _ & E4) Hbs -> x Hx. rewrite E1 in Hx.
  destruct (decide (start <= x < start + Z.of_nat (length bs'))) as [Hin|Hout]; [|rewrite E4 by done; by apply Hr].
  destruct (lookup_lt_is_Some_2 bs' (Z.to_nat (x - start)) ltac:(lia)) as [c Hc].
  destruct (Hbs _ _ Hc) as [Hat Hl]. replace (start + Z.of_nat _) with x in Hat by lia. eauto.
Qed.

Lemma put_counts_xei n c b :
  length b = BLK ->
  xei_of_block (put_xcount c (put_total_size n b)) = XattrEi (u32 n) (u32 c) (xextents (xei_of_block b)).
Proof.
  intros Hl. rewrite xei_put_xcount by (unfold put_total_size, wr32; by rewrite length_splice).
  by rewrite xei_put_total_size.
Qed.

Lemma block_ok_counts n c b : block_ok b -> block_ok (put_xcount c (put_total_size n b)).
Proof. intros. apply block_ok_splice; [auto with mem|]. apply block_ok_splice; auto with mem. Qed.

(** The entry is appended to the [ds] bytes that are kept. *)
Lemma store_spec s xb b bs index name value data ds :
  let a := XAttr index name value in let nds := ds + entry_size (header a) in
  xshape s xb b bs -> readable s -> oom (fs_k s) A_xattr_new_data = false -> xattr_ok a ->
  0 <= ds <= Z.of_nat (length data) -> ds < 2 ^ 32 ->
  (xattr_store xb index name value data ds s = (Err ENOSPC, s) /\
     (32768 < nds \/ exists n, 1 <= n <= (nds + 4095) / 4096 /\ forall x, ~ range x n ⊆ free_blocks (fs_sbi s))) \/
  (exists s' b' bs', xattr_store xb index name value data ds s = (Ok tt, s') /\ nds <= 32768 /\
     xshape s' xb b' bs' /\ readable s' /\ total_size (xei_of_block b') = nds /\
     xcount (xei_of_block b') = u32 (xcount (xei_of_block b) + 1) /\
     take (Z.to_nat nds) (concat bs') = take (Z.to_nat ds) data ++ encode a /\
     fs_icache s' = fs_icache s /\ fs_k s' = fs_k s).
Proof.
  intros a nds Hx Hrd Hoom Ha Hds H32. pose proof (encode_size_pos a) as Hp.
  assert (entry_size (header a) <= 70000) as Hsz.
  { rewrite entry_size_header. pose proof (align4_range (13 + Z.of_nat (length (x_name a)) + Z.of_nat (length (x_value a)))).
    destruct Ha as (_ & ? & ? & _). lia. }
  unfold xattr_store. cbv zeta.
  replace (align4 _) with (entry_size (header a)) by (unfold sizeof_xattr_entry; rewrite entry_size_header; f_equal; cbn; lia).
  fold nds. rewrite (u64_small nds) by lia. change (LOLELFFS_BLOCK_SIZE * 8) with 32768.
  destruct (Z.ltb_spec 32768 nds) as [|Hle]; [left; split; [done|by left]|].
  rewrite bind_gets, Hoom. rewrite (proj2 (Z.ltb_ge (Z.of_nat (length data)) ds)) by lia.
  rewrite (proj2 (Z.ltb_ge nds ds)) by lia. cbn [orb]. rewrite andb_false_r.
  change LOLELFFS_BLOCK_SIZE with 4096. set (needed := u32 _).
  assert (1 <= needed <= 8 /\ nds <= needed * 4096 /\ needed <= (nds + 4095) / 4096) as (Hn & Hcov & Hnd).
  { subst needed. replace (nds + 4095) with (nds + 4096 - 1) by lia. pose proof (Z.div_mod (nds + 4096 - 1) 4096). pose proof (Z.mod_pos_bound (nds + 4096 - 1) 4096).
    assert (0 <= (nds + 4096 - 1) / 4096 <= 8) by lia. rewrite u32_small by lia. lia. }
  clearbody needed.
  destruct (reserve_spec s xb b bs needed Hx Hrd ltac:(lia))
    as [(s1 & b1 & bs1 & Hres & Hx1 & Hrd1 & Hcap & Et & Ec & Ei & Ek)|[Hres Hno]].
  2:{ left. rewrite (bind_err _ _ _ _ _ Hres). split; [done|]. right. exists needed. split; [lia|done]. }
  right. rewrite (bind_run _ _ _ _ _ Hres).
  pose proof Hx1 as [Hinv1 Hr1 Hb1 _ Hrun1 Hbl1 Hu1 Ha1].
  rewrite (bind_run _ _ _ _ _ (bread_run _ _ _ Hr1)).
  destruct (Z.eqb_spec (ee_start (extent0 b1)) 0); [subst bs1; cbn in Hcap; lia|].
  destruct Hrun1 as [Hlen1 _]. rewrite Hlen1, Nat2Z.id.
  destruct (univ_bounds _ (ee_start (extent0 b1)) (Z.of_nat (length bs1)) Hinv1 ltac:(lia)) as (? & ? & ?);
    [clear -Hu1; set_solver|].
  change (entry_bytes index name value) with (encode a).
  assert (Z.of_nat (length (take (Z.to_nat ds) data ++ encode a)) = nds) as Hlnew.
  { rewrite length_app, length_take. pose proof (length_encode a). lia. }
  destruct (write_blocks_spec bs1 (ee_start (extent0 b1)) 0 (take (Z.to_nat ds) data ++ encode a) nds 0 s1)
    as (s2 & bs2 & Hwr & Hl2 & Hbs2 & Hso & Htk); rewrite ?Z.add_0_r; try done;
    try (change LOLELFFS_BLOCK_SIZE with 4096; lia).
  rewrite (bind_run _ _ _ _ _ Hwr). rewrite Z.add_0_r in Hbs2, Hso.
  pose proof (xshape_write s1 s2 xb b1 bs1 bs2 Hx1 Hl2 Hbs2 Hso) as Hx2.
  unfold bupdate. rewrite (bind_run _ _ _ _ _ (bread_run _ _ _ (xs_read _ _ _ _ Hx2))).
  destruct Hso as (Es2 & Ei2 & Ek2 & Ed2). set (b3 := put_xcount _ _).
  assert (xei_of_block b3 = XattrEi (u32 nds) (u32 (xcount (xei_of_block b1) + 1)) (xextents (xei_of_block b1))) as Hb3
    by (apply put_counts_xei, Hb1).
  assert (block_ok b3) as Hok3 by (by apply block_ok_counts).
  exists (snd (bwrite xb b3 s2)), b3, bs2. rewrite Hb3. cbn [total_size xcount]. rewrite u32_small by lia.
  split_and!; [done|done| | |done|by rewrite Ec| |by rewrite <- Ei, <- Ei2|by rewrite <- Ek, <- Ek2].
  - apply (xshape_put s2 xb b1); [done|done|by rewrite Hb3].
  - apply readable_put; [|apply Hok3].
    apply (readable_write s1 s2 (ee_start (extent0 b1)) (Z.of_nat (length bs1)) bs2); try done. by rewrite Hl2.
  - rewrite Z.sub_0_r in Htk. rewrite Htk. unfold slice. cbn [Z.to_nat drop]. apply take_ge. lia.
Qed.

Lemma take_splice o v b :
  (o + length v <= length b)%nat -> take (o + length v) (splice o v b) = take o b ++ v.
Proof.
  intros H. rewrite <- take_take_drop. f_equal; [|apply (slice_splice o v b H)].
  pose proof (slice_splice_out o v b 0 o) as E. unfold slice in E. cbn [drop] in E. apply E. lia.
Qed.

(** The entry at [o] is cut out of the encoding. *)
Lemma remove_entry_spec l1 a l2 rest :
  let data := encode_all (l1 ++ a :: l2) ++ rest in
  let ds := Z.of_nat (length (encode_all (l1 ++ a :: l2))) in
  let data' := remove_entry data ds (Z.of_nat (length (encode_all l1))) (entry_size (header a)) in
  length data' = length data /\ ds - entry_size (header a) = Z.of_nat (length (encode_all (l1 ++ l2))) /\
  take (length (encode_all (l1 ++ l2))) data' = encode_all (l1 ++ l2).
Proof.
  intros data ds data'. pose proof (length_encode a) as Hle.
  assert (encode_all (l1 ++ a :: l2) = encode_all l1 ++ encode a ++ encode_all l2) as E by apply encode_all_app.
  assert (ds = Z.of_nat (length (encode_all l1)) + entry_size (header a) + Z.of_nat (length (encode_all l2))) as Eds.
  { subst ds. rewrite E, !length_app. lia. }
  rewrite encode_all_app, length_app. split_and!; [|lia|].
  { subst data'. unfold remove_entry. destruct (_ <? _); [apply length_splice|done]. }
  subst data' data. unfold remove_entry. rewrite E, <- !app_assoc.
  destruct (Z.ltb_spec (Z.of_nat (length (encode_all l1)) + entry_size (header a)) ds) as [Hlt|Hge].
  - replace (Z.to_nat (_ + _)) with (length (encode_all l1 ++ encode a)) by (rewrite length_app; lia).
    replace (Z.to_nat (ds - _ - _)) with (length (encode_all l2)) by lia.
    assert (slice (length (encode_all l1 ++ encode a)) (length (encode_all l2))
      (encode_all l1 ++ encode a ++ encode_all l2 ++ rest) = encode_all l2) as ->.
    { rewrite (app_assoc (encode_all l1)). unfold slice. rewrite drop_app_length. apply take_app_length. }
    rewrite Nat2Z.id, take_splice by (rewrite !length_app; lia). by rewrite take_app_length.
  - assert (length (encode_all l2) = 0%nat) as E0 by lia. rewrite (encode_all_nil l2 E0).
    cbn [encode_all map concat length app]. rewrite Nat.add_0_r, app_nil_r. apply take_app_length.
Qed.

(** The index block: the one there is, or a new cleared one. *)
Lemma index_spec s inode v l :
  xrep s inode v l -> readable s ->
  (xattr_index inode s = (Err ENOSPC, s) /\ forall x, ~ range x 1 ⊆ free_blocks (fs_sbi s)) \/
  (exists xb s' v' b bs, xattr_index inode s = (Ok xb, s') /\ fs_icache s' !! inode = Some v' /\
     xattr_block v' = xb /\ xb <> 0 /\ block_inv (fs_sbi s') /\ xindex_ok s' xb b bs l /\ readable s' /\
     fs_k s' = fs_k s /\ (xattr_block v <> 0 -> s' = s) /\
     (exists F, size F <= 1 /\ free_blocks (fs_sbi s') = free_blocks (fs_sbi s) ∖ F)%nat).
Proof.
  intros (Hc & Hinv & Hrep) Hrd. unfold xattr_index, inode_at. rewrite bind_gets, Hc. cbn [default from_option id].
  destruct Hrep as [[E ->]|(Hnz & b & bs & Hx)].
  2:{ right. rewrite (proj2 (Z.eqb_neq _ _) Hnz).
      rewrite (bind_run _ _ _ _ _ (bread_run _ _ _ (xi_read _ _ _ _ _ Hx))).
      exists (xattr_block v), s, v, b, bs. split_and!; try done. exists ∅. split; [rewrite size_empty; lia|set_solver]. }
  rewrite E. cbn [Z.eqb]. destruct (alloc_run s 1 Hinv ltac:(lia)) as (nb & s1 & Hal & Ho).
  rewrite (bind_run _ _ _ _ _ Hal).
  inversion Ho as [? sbi' H0 Hend H32 Hsub Hinv' HF Eo En|Hno]; subst; [|by left].
  right. rewrite (proj2 (Z.eqb_neq _ _)) by lia. unfold inode_upd, inode_at, inode_put.
  cbn [set_sbi].
  set (s2 := set_icache (<[inode := set_xattr_block nb v]> (fs_icache s)) (set_sbi sbi' s)).
  assert (readable s2) as Hrd2.
  { intros x Hx. destruct (Hrd x) as (c & Hc2 & Hl); [by rewrite <- En|]. exists c. split; [|done].
    unfold blk_at, s2. cbn [set_icache set_sbi fs_disk fs_sbi]. by rewrite Eo. }
  destruct (Hrd2 nb) as (old & Hold & _); [subst s2; cbn [set_icache set_sbi fs_sbi]; lia|].
  assert (((v0 ← gets (fun t => default no_inode (fs_icache t !! inode));
    modify (fun t => set_icache (<[inode := set_xattr_block nb v0]> (fs_icache t)) t)) : M fs unit) (set_sbi sbi' s) = (Ok tt, s2)) as Hup.
  { rewrite bind_gets. cbn [set_sbi fs_icache]. rewrite Hc. done. }
  rewrite (bind_run _ _ _ _ _ Hup).
  assert (attempt (LOLELFFS_SB_BREAD nb) s2 = (Ok (Ok old), s2)) as Hat.
  { unfold attempt. by rewrite (bread_run _ _ _ Hold). }
  rewrite (bind_run _ _ _ _ _ Hat).
  exists nb, (snd (bwrite nb (zeros BLK) s2)), (set_xattr_block nb v), (zeros BLK), [].
  split_and!; try done; [by apply lookup_insert_eq|lia| |apply readable_put; [done|apply length_zeros]|].
  2:{ exists (range nb 1). split; [|done]. pose proof (size_range nb 1). lia. }
  assert (xei_of_block (zeros BLK) = XattrEi 0 0 (replicate NEXT zero_extent)) as Hz by (vm_compute; reflexivity).
  pose proof block_ok_zeros as Hzok.
  assert (forall i, xext (xei_of_block (zeros BLK)) i = zero_extent) as Hze.
  { intros i. rewrite Hz. unfold xext. cbn [xextents].
    destruct (decide (i < NEXT)%nat); [by rewrite lookup_replicate_2|].
    rewrite lookup_ge_None_2; [done|]. rewrite length_replicate. lia. }
  set (z := zeros BLK) in *. clearbody z. split; rewrite ?Hze.
  - rewrite blk_at_bwrite. by rewrite decide_True.
  - exact Hzok.
  - by rewrite Hz.
  - by rewrite Hz.
  - constructor.
  - done.
  - done.
  - intros k c Hk. by rewrite lookup_nil in Hk.
  - done.
  - change (fs_sbi (snd (bwrite nb z s2))) with sbi'. rewrite HF, En.
    pose proof (map_inv_univ _ _ _ Hinv) as Hfu. fold (free_blocks (fs_sbi s)) in Hfu.
    assert (nb ∈ range nb 1) as Hnb by (apply elem_of_range; lia).
    change (range (ee_start zero_extent) (Z.of_nat (length []))) with (∅ : gset Z).
    clear -Hfu Hsub Hnb. set_solver.
  - change (range (ee_start zero_extent) (Z.of_nat (length []))) with (∅ : gset Z). set_solver.
Qed.

(** The blocks that the encoding of [l] takes. *)
Definition blocks_for (l : list xattr) : Z := (Z.of_nat (length (encode_all l)) + 4095) / 4096.

(** The outcomes of setting the attribute [a] of an inode that has [l]. *)
Inductive set_outcome (s : fs) (inode : Z) (l : list xattr) (a : xattr) (flags : Z) : result unit -> fs -> Prop :=
  | so_ok s' v' :
      xrep s' inode v' (x_remove l (x_index a) (x_name a) ++ [a]) -> readable s' -> fs_k s' = fs_k s ->
      Z.land flags (if x_lookup l (x_index a) (x_name a) is Some _ then XATTR_CREATE else XATTR_REPLACE) = 0 ->
      set_outcome s inode l a flags (Ok tt) s'
  | so_exists :
      x_lookup l (x_index a) (x_name a) <> None -> Z.land flags XATTR_CREATE <> 0 ->
      set_outcome s inode l a flags (Err EEXIST) s
  | so_missing s' v' :
      x_lookup l (x_index a) (x_name a) = None -> Z.land flags XATTR_REPLACE <> 0 ->
      xrep s' inode v' l -> readable s' -> set_outcome s inode l a flags (Err ENODATA) s'
  | so_nospace s' :
      32768 < Z.of_nat (length (encode_all (x_remove l (x_index a) (x_name a) ++ [a]))) \/
      (exists n F, 1 <= n <= blocks_for (x_remove l (x_index a) (x_name a) ++ [a]) /\ (size F <= 1)%nat /\
         forall x, ~ range x n ⊆ free_blocks (fs_sbi s) ∖ F) ->
      set_outcome s inode l a flags (Err ENOSPC) s'.

Lemma xindex_len s xb b bs l : xindex_ok s xb b bs l -> Z.of_nat (length (encode_all l)) < 2 ^ 32.
Proof.
  intros Hx. rewrite <- (xi_total _ _ _ _ _ Hx). destruct (xi_block _ _ _ _ _ Hx) as [Hl Hb].
  unfold xei_of_block. cbn [total_size]. apply rd32_range; [done|]. rewrite Hl. blia.
Qed.

Lemma encode_all_snoc l a : encode_all (l ++ [a]) = encode_all l ++ encode a.
Proof. rewrite encode_all_app. f_equal. apply app_nil_r. Qed.

Lemma blocks_for_snoc l a : 1 <= blocks_for (l ++ [a]).
Proof.
  unfold blocks_for. rewrite encode_all_snoc, length_app. pose proof (length_encode a). pose proof (encode_size_pos a).
  apply Z.div_le_lower_bound; lia.
Qed.

Section Set_.
Context (kmalloc_bytes : nat -> list Z).

(** From the stored bytes back to the representation. *)
Lemma store_refines s xb b bs l0 a data s0 v :
  xshape s xb b bs -> readable s -> oom (fs_k s) A_xattr_new_data = false -> xattr_ok a -> Forall xattr_ok l0 ->
  xcount (xei_of_block b) = Z.of_nat (length l0) -> (length (encode_all l0) <= length data)%nat ->
  take (length (encode_all l0)) data = encode_all l0 -> Z.of_nat (length (encode_all l0)) < 2 ^ 32 ->
  forall inode, fs_icache s !! inode = Some v -> xattr_block v = xb -> xb <> 0 -> fs_k s = fs_k s0 ->
  (exists F, size F <= 1 /\ free_blocks (fs_sbi s) = free_blocks (fs_sbi s0) ∖ F)%nat ->
  forall l flags, x_remove l (x_index a) (x_name a) = l0 ->
  Z.land flags (if x_lookup l (x_index a) (x_name a) is Some _ then XATTR_CREATE else XATTR_REPLACE) = 0 ->
  exists r s', xattr_store xb (x_index a) (x_name a) (x_value a) data (Z.of_nat (length (encode_all l0))) s = (r, s') /\
    set_outcome s0 inode l a flags r s'.
Proof using.
  intros Hx Hrd Hoom Ha Hl0 Hc Hlen Htk H32 inode Hv Hxb Hnz Hk (F & HF & EF) l flags Hrm Hfl.
  assert (XAttr (x_index a) (x_name a) (x_value a) = a) as Ea by (by destruct a).
  pose proof (store_spec s xb b bs (x_index a) (x_name a) (x_value a) data (Z.of_nat (length (encode_all l0))) Hx Hrd Hoom)
    as Hs. cbv zeta in Hs. rewrite Ea in Hs. specialize (Hs Ha ltac:(lia) H32). rewrite Nat2Z.id, Htk in Hs.
  pose proof (length_encode a) as Hle.
  assert (Z.of_nat (length (encode_all (l0 ++ [a]))) = Z.of_nat (length (encode_all l0)) + entry_size (header a)) as Enew.
  { rewrite encode_all_snoc, length_app. lia. }
  destruct Hs as [[-> Hno]|(s' & b' & bs' & -> & Hsz & Hx' & Hrd' & Et & Ec & Hd & Ei & Ek)].
  - do 2 eexists. split; [done|]. apply so_nospace. rewrite Hrm, Enew. destruct Hno as [?|(n & Hn & Hno)]; [by left|].
    right. exists n, F. unfold blocks_for. rewrite Enew, <- EF. done.
  - do 2 eexists. split; [done|]. apply (so_ok _ _ _ _ _ _ v); [|done|by rewrite Ek|done]. rewrite Hrm.
    split; [by rewrite Ei|]. split; [apply Hx'|]. right. split; [by rewrite Hxb|]. exists b', bs'. rewrite Hxb.
    apply shape_index; [done|by apply Forall_app; split; [|constructor]|by rewrite Enew| |].
    + rewrite Ec, Hc, length_app. cbn [length]. pose proof (length_le_encode_all l0). rewrite u32_small by lia. lia.
    + rewrite <- (Nat2Z.id (length (encode_all _))), Enew, Hd. by rewrite encode_all_snoc.
Qed.

Lemma set_spec s inode v l a flags :
  xrep s inode v l -> readable s -> oom (fs_k s) A_xattr_data = false ->
  oom (fs_k s) A_xattr_new_data = false -> xattr_ok a ->
  exists r s', lolelffs_xattr_set kmalloc_bytes inode (x_index a) (x_name a) (Some (x_value a)) flags s = (r, s') /\
    set_outcome s inode l a flags r s'.
Proof using.
  intros Hrep Hrd Ho1 Ho2 Ha. unfold lolelffs_xattr_set. pose proof Ha as (_ & Hn & Hv & _).
  rewrite (proj2 (Z.eqb_neq _ _)) by lia. rewrite (proj2 (Z.ltb_ge 255 _)) by lia. cbn [orb default from_option id].
  rewrite (proj2 (Z.ltb_ge 65535 _)) by lia.
  destruct (index_spec s inode v l Hrep Hrd)
    as [[Hi Hno]|(xb & s1 & v1 & b & bs & Hi & Hc1 & Hxb & Hnz & Hinv1 & Hx & Hrd1 & Hk1 & Hsame & F & HF & EF)].
  { do 2 eexists. rewrite (bind_err _ _ _ _ _ Hi). split; [done|]. apply so_nospace. right. exists 1, ∅.
    split_and!; [lia|apply blocks_for_snoc|rewrite size_empty; lia|]. intros x Hx. apply (Hno x). set_solver. }
  rewrite (bind_run _ _ _ _ _ Hi). rewrite (bind_run _ _ _ _ _ (bread_run _ _ _ (xi_read _ _ _ _ _ Hx))).
  destruct (read_data_spec kmalloc_bytes s1 xb b bs l Hinv1 Hx ltac:(by rewrite Hk1)) as [rest Hread].
  rewrite (bind_run _ _ _ _ _ Hread). rewrite find_entry_spec by apply Hx. cbn [lift]. rewrite bind_mret.
  pose proof (xindex_len _ _ _ _ _ Hx) as H32. pose proof (xindex_shape _ _ _ _ _ Hinv1 Hx) as Hsh.
  pose proof (find_at_split l 0 (x_index a) (x_name a)) as Hf. destruct (find_at l 0 _ _) as [[o e]|].
  - destruct Hf as (l1 & c & l2 & El & -> & Hkey & -> & Hlk & Hrm). rewrite Z.add_0_l.
    destruct (Z.eqb_spec (Z.land flags XATTR_CREATE) 0) as [Efl|Efl]; cbn [negb].
    2:{ do 2 eexists. split; [done|]. rewrite Hsame; [apply so_exists; [by rewrite Hlk|done]|].
        intros E. destruct Hrep as (_ & _ & [[_ ->]|[? _]]); [by destruct l1|done]. }
    destruct (remove_entry_spec l1 c l2 rest) as (Hl' & Eds & Htk'). rewrite <- El in Hl', Eds, Htk'.
    pose proof (encode_size_pos c) as Hpos.
    rewrite Eds, u64_small by lia. unfold bwrite at 1. rewrite bind_modify.
    change (set_disk _ s1) with (snd (bwrite xb (put_xcount (xcount (xei_of_block b) - 1) b) s1)).
    set (b1 := put_xcount (xcount (xei_of_block b) - 1) b). set (s2 := snd (bwrite xb b1 s1)).
    assert (xei_of_block b1 = XattrEi (total_size (xei_of_block b)) (u32 (xcount (xei_of_block b) - 1)) (xextents (xei_of_block b)))
      as Eb1 by (apply xei_put_xcount, (xi_block _ _ _ _ _ Hx)).
    assert (block_ok b1) as Hb1 by (apply block_ok_splice; [auto with mem|apply Hx]).
    rewrite <- Hrm.
    apply (store_refines s2 xb b1 bs (x_remove l (x_index a) (x_name a)) a _ s v1); try done.
    + apply (xshape_put s1 xb b b1 bs Hsh Hb1). by rewrite Eb1.
    + by apply readable_put; [|apply Hb1].
    + by change (fs_k s2) with (fs_k s1); rewrite Hk1.
    + rewrite Hrm. pose proof (xi_entries _ _ _ _ _ Hx) as Hall. rewrite El in Hall.
      apply Forall_app in Hall as [? [_ ?]%Forall_cons]. by apply Forall_app.
    + rewrite Eb1. cbn [xcount]. rewrite (xi_count _ _ _ _ _ Hx), Hrm, El, !length_app. cbn [length].
      pose proof (length_le_encode_all l) as Hll. rewrite El in Hll at 1. rewrite !length_app in Hll.
      cbn [length] in Hll. rewrite u32_small by lia. lia.
    + rewrite Hrm, Hl', length_app. lia.
    + by rewrite Hrm.
    + rewrite Hrm. lia.
    + by exists F.
    + by rewrite Hlk.
  - destruct Hf as [Hlk Hrm]. destruct (Z.eqb_spec (Z.land flags XATTR_REPLACE) 0) as [Efl|Efl]; cbn [negb].
    2:{ do 2 eexists. split; [done|]. apply (so_missing _ _ _ _ _ s1 v1); try done.
        split; [done|]. split; [done|]. right. rewrite Hxb. split; [done|]. by exists b, bs. }
    apply (store_refines s1 xb b bs l a _ s v1); try done; try (by rewrite Hk1).
    + apply Hx.
    + apply Hx.
    + rewrite length_app. lia.
    + apply take_app_length.
    + by exists F.
    + by rewrite Hlk.
Qed.
End Set_.

(** ** Removal *)

Lemma write_blocks_done n start bi data size s : write_blocks n start bi data size size s = (Ok size, s).
Proof. destruct n as [|n]; [done|]. cbn [write_blocks]. by rewrite Z.leb_refl. Qed.

Lemma write_extents_done es data size s : write_extents es data size size s = (Ok size, s).
Proof.
  induction es as [|e es IH]; [done|]. cbn [write_extents]. destruct (ee_start e =? 0); [done|].
  by rewrite (bind_run _ _ _ _ _ (write_blocks_done _ _ _ _ _ _)).
Qed.

Lemma remove_spec kb s inode v l index name :
  xrep s inode v l -> readable s -> oom (fs_k s) A_xattr_data = false ->
  (x_lookup l index name = None /\ xattr_remove kb inode index name s = (Err ENODATA, s)) \/
  (x_lookup l index name <> None /\ exists s', xattr_remove kb inode index name s = (Ok tt, s') /\
     xrep s' inode v (x_remove l index name) /\ readable s' /\ fs_sbi s' = fs_sbi s /\ fs_k s' = fs_k s).
Proof.
  intros (Hc & Hinv & Hrep) Hrd Hoom. unfold xattr_remove, inode_at. rewrite bind_gets, Hc. cbn [default from_option id].
  destruct Hrep as [[-> ->]|(Hnz & b & bs & Hx)]; [by left|]. rewrite (proj2 (Z.eqb_neq _ _) Hnz).
  set (xb := xattr_block v) in *.
  rewrite (bind_run _ _ _ _ _ (bread_run _ _ _ (xi_read _ _ _ _ _ Hx))).
  destruct (read_data_spec kb s xb b bs l Hinv Hx Hoom) as [rest Hread].
  rewrite (bind_run _ _ _ _ _ Hread). rewrite find_entry_spec by apply Hx. cbn [lift]. rewrite bind_mret.
  pose proof (xindex_len _ _ _ _ _ Hx) as H32. pose proof (xindex_shape _ _ _ _ _ Hinv Hx) as Hsh.
  pose proof (find_at_split l 0 index name) as Hf. destruct (find_at l 0 _ _) as [[o e]|]; [|left; by destruct Hf].
  right. destruct Hf as (l1 & c & l2 & El & -> & Hkey & -> & Hlk & Hrm). rewrite Z.add_0_l, Hlk. split; [done|].
  destruct (remove_entry_spec l1 c l2 rest) as (Hl' & Eds & Htk). rewrite <- El in Hl', Eds, Htk.
  set (data' := remove_entry _ _ _ _) in *. pose proof (encode_size_pos c) as Hpos.
  rewrite Eds, u64_small by lia. set (nds := Z.of_nat (length (encode_all (l1 ++ l2)))) in *.
  unfold bwrite. rewrite bind_modify. set (b1 := put_xcount _ _).
  change (set_disk _ s) with (snd (bwrite xb b1 s)). set (s1 := snd (bwrite xb b1 s)).
  assert (xei_of_block b1 = XattrEi (u32 nds) (u32 (xcount (xei_of_block b) - 1)) (xextents (xei_of_block b))) as Eb1
    by (apply put_counts_xei, (xi_block _ _ _ _ _ Hx)).
  assert (block_ok b1) as Hb1 by (apply block_ok_counts, Hx). clearbody b1.
  assert (xshape s1 xb b1 bs) as Hsh1 by (apply (xshape_put s xb b); [done|done|by rewrite Eb1]).
  assert (extent0 b1 = extent0 b) as E0 by (unfold xext; by rewrite Eb1).
  destruct (xindex_bounds s xb b bs l Hinv Hx) as (H0 & Hend & Hcap).
  destruct (write_blocks_spec bs (ee_start (extent0 b)) 0 data' nds 0 s1)
    as (s2 & bs2 & Hwr & Hl2 & Hbs2 & Hso & Htk2); rewrite ?Z.add_0_r; try lia.
  { rewrite <- E0. apply Hsh1. }
  { rewrite Hl', length_app. lia. }
  { change LOLELFFS_BLOCK_SIZE with (Z.of_nat BLK). lia. }
  rewrite Z.add_0_r in Hbs2, Hso.
  assert (write_extents (xextents (xei_of_block b)) data' nds 0 s1 = (Ok nds, s2)) as Hwe.
  { destruct (xextents_cons b) as [es ->]. cbn [write_extents]. pose proof (xi_run _ _ _ _ _ Hx) as Hr.
    destruct (ee_start (extent0 b) =? 0); [subst bs; cbn [length] in Hcap; lia|]. destruct Hr as [-> _].
    rewrite Nat2Z.id, (bind_run _ _ _ _ _ Hwr). apply write_extents_done. }
  rewrite (bind_run _ _ _ _ _ Hwe). exists s2. rewrite <- E0 in Hbs2, Hso.
  pose proof (xshape_write s1 s2 xb b1 bs bs2 Hsh1 Hl2 Hbs2 Hso) as Hsh2.
  pose proof Hso as (Es2 & Ei2 & Ek2 & _).
  split_and!; [done| | |by rewrite Es2|by rewrite Ek2].
  2:{ apply (readable_write s1 s2 _ _ bs2 (readable_put _ _ _ Hrd (proj1 Hb1)) Hso Hbs2). by rewrite Hl2. }
  split; [by rewrite Ei2|]. split; [by rewrite Es2|]. right. split; [done|]. exists b1, bs2. rewrite Hrm.
  pose proof (xi_entries _ _ _ _ _ Hx) as Hall. rewrite El in Hall. apply Forall_app in Hall as [? [_ ?]%Forall_cons].
  apply shape_index; [done|by apply Forall_app|rewrite Eb1; apply u32_small; lia| |].
  - rewrite Eb1. cbn [xcount]. rewrite (xi_count _ _ _ _ _ Hx), El, !length_app. cbn [length].
    pose proof (length_le_encode_all l) as Hll. rewrite El in Hll at 1. rewrite !length_app in Hll. cbn [length] in Hll.
    rewrite u32_small by lia. lia.
  - rewrite Z.sub_0_r in Htk2. rewrite <- Htk at 2. rewrite <- (Nat2Z.id (length (encode_all _))).
    fold nds. rewrite Htk2. unfold slice. by rewrite drop_0.
Qed.

(** ** Keys *)

Definition unique (l : list xattr) : Prop := NoDup (map (fun a => (x_index a, x_name a)) l).

Lemma key_is_true index name a : key_is index name a = true <-> (x_index a, x_name a) = (index, name).
Proof.
  unfold key_is. rewrite andb_true_iff, Z.eqb_eq, bool_decide_eq_true. split; [by intros [-> ->]|by intros [= -> ->]].
Qed.

Lemma x_lookup_None l index name :
  x_lookup l index name = None <-> (index, name) ∉ map (fun a => (x_index a, x_name a)) l.
Proof.
  induction l as [|a l IH]; cbn [x_lookup map]; [split; [intros _; apply not_elem_of_nil|done]|].
  rewrite not_elem_of_cons, <- IH. destruct (key_is index name a) eqn:E.
  - apply key_is_true in E. split; [done|]. intros [? _]. congruence.
  - split; [|by intros [_ ?]]. intros H. split; [|done]. intros Ek. symmetry in Ek. apply key_is_true in Ek. congruence.
Qed.

(** The map laws of removal and of adding at the end. *)
Lemma x_lookup_remove l index name index' name' :
  unique l -> x_lookup (x_remove l index name) index' name' =
    if decide ((index', name') = (index, name)) then None else x_lookup l index' name'.
Proof.
  unfold unique. induction l as [|a l IH]; cbn [x_remove map]; [by case_decide|].
  intros [Hni Hnd]%NoDup_cons. specialize (IH Hnd). destruct (key_is index name a) eqn:E.
  - apply key_is_true in E. case_decide as Ed.
    + apply x_lookup_None. congruence.
    + cbn [x_lookup]. destruct (key_is index' name' a) eqn:E'; [|done]. apply key_is_true in E'. congruence.
  - cbn [x_lookup]. rewrite IH. destruct (key_is index' name' a) eqn:E'; [|done]. apply key_is_true in E'.
    rewrite decide_False; [done|]. intros Ed. rewrite Ed in E'. apply key_is_true in E'. congruence.
Qed.

Lemma x_lookup_snoc l a index name :
  x_lookup (l ++ [a]) index name =
    match x_lookup l index name with
    | Some x => Some x
    | None => if key_is index name a then Some (x_value a) else None
    end.
Proof. induction l as [|c l IH]; cbn [x_lookup app]; [done|]. by destruct (key_is index name c). Qed.

Lemma unique_remove l index name : unique l -> unique (x_remove l index name).
Proof.
  unfold unique. induction l as [|a l IH]; cbn [x_remove map]; [done|]. intros [Hni Hnd]%NoDup_cons.
  destruct (key_is index name a); [done|]. cbn [map]. constructor; [|by apply IH].
  contradict Hni. clear IH Hnd. induction l as [|c l IH]; cbn [x_remove map] in *; [done|].
  destruct (key_is index name c); [by right|]. cbn [map] in Hni. apply elem_of_cons in Hni as [->|Hni]; [by left|right; auto].
Qed.

Lemma unique_set l a : unique l -> unique (x_remove l (x_index a) (x_name a) ++ [a]).
Proof.
  intros Hu. unfold unique. rewrite map_app. apply NoDup_app. split_and!.
  - by apply unique_remove.
  - intros k Hk Hin%list_elem_of_singleton. subst k. revert Hk. apply x_lookup_None.
    rewrite x_lookup_remove by done. by rewrite decide_True.
  - apply NoDup_singleton.
Qed.

(** The value of every key after a set. *)
Lemma x_lookup_set l a index name :
  unique l -> x_lookup (x_remove l (x_index a) (x_name a) ++ [a]) index name =
    if decide ((index, name) = (x_index a, x_name a)) then Some (x_value a) else x_lookup l index name.
Proof.
  intros Hu. rewrite x_lookup_snoc, x_lookup_remove by done. case_decide as E.
  - by rewrite (proj2 (key_is_true _ _ _)).
  - destruct (x_lookup l index name); [done|]. destruct (key_is index name a) eqn:Ek; [|done].
    apply key_is_true in Ek. congruence.
Qed.

(** ** Theorems *)

(** C10 Extended attributes behave as a map: after a successful set, get of the
    same namespace and name returns the value that was set, get of any other
    one returns what it returned before, the other attributes are those of
    before with the old value of this name dropped, and names stay unique. *)
Theorem xattr_set_get kb s inode v l a flags s' :
  xrep s inode v l -> unique l -> readable s -> oom (fs_k s) A_xattr_data = false ->
  oom (fs_k s) A_xattr_new_data = false -> xattr_ok a ->
  lolelffs_xattr_set kb inode (x_index a) (x_name a) (Some (x_value a)) flags s = (Ok tt, s') ->
  (exists v' l', xrep s' inode v' l' /\ unique l' /\
     forall index name, x_lookup l' index name =
       if decide ((index, name) = (x_index a, x_name a)) then Some (x_value a) else x_lookup l index name) /\
  (forall n, Z.of_nat (length (x_value a)) <= n ->
     lolelffs_xattr_get kb inode (x_index a) (x_name a) (Some n) s' =
       (Ok (Z.of_nat (length (x_value a)), x_value a), s')) /\
  (forall index name size, (index, name) <> (x_index a, x_name a) ->
     lolelffs_xattr_get kb inode index name size s' =
       (fst (lolelffs_xattr_get kb inode index name size s), s')).
Proof.
  intros Hrep Hu Hrd Ho1 Ho2 Ha Hset.
  destruct (set_spec kb s inode v l a flags Hrep Hrd Ho1 Ho2 Ha) as (r & s1 & Hrun & Hout).
  rewrite Hset in Hrun. injection Hrun as <- <-. inversion Hout as [? v' Hrep' Hrd' Hk _| | |]; subst.
  assert (oom (fs_k s') A_xattr_data = false) as Ho' by (by rewrite Hk).
  pose proof (fun i n => x_lookup_set l a i n Hu) as Hlk. split_and!.
  - exists v', (x_remove l (x_index a) (x_name a) ++ [a]). split_and!; [done|by apply unique_set|exact Hlk].
  - intros n Hn. rewrite (get_spec kb s' inode v' _ _ _ _ Hrep' Ho'). unfold get_result. rewrite Hlk, decide_True by done.
    by rewrite (proj2 (Z.ltb_ge _ _)) by lia.
  - intros index name size Hne. rewrite (get_spec kb s' inode v' _ _ _ _ Hrep' Ho').
    rewrite (get_spec kb s inode v l _ _ _ Hrep Ho1). cbn [fst]. unfold get_result. by rewrite Hlk, decide_False.
Qed.

(** A run of twice the length survives the loss of one block. *)
Lemma run_minus_one (F : gset Z) x n m :
  (size F <= 1)%nat -> 1 <= m <= n -> exists y, range y m ⊆ range x (2 * n) ∖ F.
Proof.
  intros HF Hm. destruct (decide (range x m ## F)) as [Hd|Hnd].
  { exists x. intros z Hz. apply elem_of_difference. split; [|set_solver]. rewrite elem_of_range in *. lia. }
  exists (x + n). intros z Hz. apply elem_of_difference. split; [rewrite elem_of_range in *; lia|].
  intros HzF. apply Hnd. intros y Hy HyF. assert (y = z) as ->.
  { assert (({[y]} ∪ {[z]} : gset Z) ⊆ F) as Hsub by set_solver. apply subseteq_size in Hsub.
    destruct (decide (y = z)); [done|]. rewrite size_union, !size_singleton in Hsub by set_solver. lia. }
  rewrite elem_of_range in *. lia.
Qed.

(** C24 Setting an attribute succeeds whenever it can: with memory, readable
    blocks, attributes that fit in 8 blocks and twice the blocks they take free
    in a row, a set without flags returns 0. *)
Theorem xattr_set_succeeds kb s inode v l a x :
  xrep s inode v l -> readable s -> oom (fs_k s) A_xattr_data = false ->
  oom (fs_k s) A_xattr_new_data = false -> xattr_ok a ->
  Z.of_nat (length (encode_all (x_remove l (x_index a) (x_name a) ++ [a]))) <= 32768 ->
  range x (2 * blocks_for (x_remove l (x_index a) (x_name a) ++ [a])) ⊆ free_blocks (fs_sbi s) ->
  exists s', lolelffs_xattr_set kb inode (x_index a) (x_name a) (Some (x_value a)) 0 s = (Ok tt, s').
Proof.
  intros Hrep Hrd Ho1 Ho2 Ha Hsz Hfree.
  destruct (set_spec kb s inode v l a 0 Hrep Hrd Ho1 Ho2 Ha) as (r & s1 & Hrun & Hout). rewrite Hrun.
  destruct Hout as [s' v' _ _ _ _|_ Hf|s' v' _ Hf|s' [Hbig|(n & F & Hn & HF & Hno)]]; [by eexists|done|done|lia|].
  destruct (run_minus_one F x (blocks_for (x_remove l (x_index a) (x_name a) ++ [a])) n HF Hn) as [y Hy].
  exfalso. apply (Hno y). set_solver.
Qed.

(** C22 Removing an attribute (a set with no value) removes that one and only
    that one: an absent name gives ENODATA and changes nothing; otherwise the
    call succeeds, get of the name gives ENODATA, every other get is as before,
    and no block is allocated or freed. *)
Theorem xattr_remove_correct kb s inode v l index name flags :
  xrep s inode v l -> unique l -> readable s -> oom (fs_k s) A_xattr_data = false ->
  1 <= Z.of_nat (length name) <= 255 ->
  exists r s', lolelffs_xattr_set kb inode index name None flags s = (r, s') /\
    (x_lookup l index name = None -> r = Err ENODATA /\ s' = s) /\
    (x_lookup l index name <> None -> r = Ok tt /\ fs_sbi s' = fs_sbi s /\
       forall index' name' size, lolelffs_xattr_get kb inode index' name' size s' =
         (if decide ((index', name') = (index, name)) then Err ENODATA
          else fst (lolelffs_xattr_get kb inode index' name' size s), s')).
Proof.
  intros Hrep Hu Hrd Ho Hn. unfold lolelffs_xattr_set. rewrite (proj2 (Z.eqb_neq _ _)) by lia.
  rewrite (proj2 (Z.ltb_ge 255 _)) by lia. cbn [orb default from_option length].
  change (65535 <? Z.of_nat 0) with false. cbn iota.
  destruct (remove_spec kb s inode v l index name Hrep Hrd Ho) as [[Hlk ->]|(Hlk & s' & -> & Hrep' & _ & Es & Ek)].
  { do 2 eexists. split_and!; [done|done|]. by rewrite Hlk. }
  do 2 eexists. split_and!; [done|done|]. intros _. split_and!; [done|done|]. intros index' name' size.
  rewrite (get_spec kb s' inode v _ _ _ _ Hrep' ltac:(by rewrite Ek)). rewrite (get_spec kb s inode v l _ _ _ Hrep Ho).
  cbn [fst]. unfold get_result. rewrite x_lookup_remove by done. by case_decide.
Qed.

(** The next entry is past the header of this one, whatever the bytes are. *)
Lemma next_offset data o : bytes_ok data -> let e := entry_at data (Z.to_nat o) in
  o + sizeof_xattr_entry < align4 (o + sizeof_xattr_entry + (name_len e + 1) + value_len e).
Proof.
  intros Hb e. assert (0 <= name_len e /\ 0 <= value_len e) as [? ?] by (split; by apply le_dec_range, bytes_ok_slice).
  pose proof (align4_range (o + sizeof_xattr_entry + (name_len e + 1) + value_len e)). lia.
Qed.

Lemma find_entry_ends data data_size index name : bytes_ok data -> forall fuel o,
  0 <= o -> Z.max 0 (data_size - o) < Z.of_nat fuel -> find_entry_loop fuel data data_size index name o <> Err NOFUEL.
Proof.
  intros Hb. induction fuel as [|fuel IH]; intros o Ho Hf; [lia|]. cbn [find_entry_loop].
  destruct (Z.ltb_spec data_size (o + sizeof_xattr_entry)) as [|Hge]; [done|].
  pose proof (next_offset data o Hb) as Hn. cbv zeta in Hn. unfold sizeof_xattr_entry in *.
  set (e := entry_at _ _) in *. specialize (IH (align4 (o + 12 + (name_len e + 1) + value_len e)) ltac:(lia) ltac:(lia)).
  destruct (_ =? 0); [done|]. destruct (_ && _); [|done]. destruct (_ <? _); [done|]. by destruct (bool_decide _).
Qed.

Lemma list_loop_ends data data_size size : bytes_ok data -> forall fuel o total out,
  0 <= o -> Z.max 0 (data_size - o) < Z.of_nat fuel -> list_loop fuel data data_size size o total out <> Err NOFUEL.
Proof.
  intros Hb. induction fuel as [|fuel IH]; intros o total out Ho Hf; [lia|]. cbn [list_loop].
  destruct (Z.ltb_spec data_size (o + sizeof_xattr_entry)) as [|Hge]; [done|].
  pose proof (next_offset data o Hb) as Hn. cbv zeta in Hn. unfold sizeof_xattr_entry in *.
  set (e := entry_at _ _) in *.
  assert (forall total out, list_loop fuel data data_size size (align4 (o + 12 + (name_len e + 1) + value_len e)) total out
    <> Err NOFUEL) as Hnext by (intros; apply IH; lia).
  destruct (_ =? 0); [done|]. destruct (xattr_prefixes !! _); [|done]. destruct size as [n|]; [|apply Hnext].
  destruct (_ <? _); [done|]. destruct (_ <? _); [done|]. apply Hnext.
Qed.

(** C33 The walks over the entries end on any bytes, sound or corrupt: the loop of
    lolelffs_xattr_find_entry and the loop of lolelffs_listxattr leave through
    one of their exits within one iteration per byte of the data, so neither
    ever reports that its steps were used up. *)
Theorem xattr_walks_end data data_size index name size fuel :
  bytes_ok data -> 0 <= data_size < Z.of_nat fuel ->
  lolelffs_xattr_find_entry data data_size index name <> Err NOFUEL /\
  find_entry_loop fuel data data_size index name 0 <> Err NOFUEL /\
  list_loop fuel data data_size size 0 0 [] <> Err NOFUEL.
Proof.
  intros Hb Hf. split_and!; [apply find_entry_ends; [done|lia..]|apply find_entry_ends; [done|lia..]|].
  apply list_loop_ends; [done|lia..].
Qed.

(** ** Witnesses: the root directory of the small image *)

Definition ex_attr : xattr := XAttr LOLELFFS_XATTR_INDEX_USER [97] [1; 2; 3].
Definition ex_attr2 : xattr := XAttr LOLELFFS_XATTR_INDEX_TRUSTED [98; 99] [9].
Definition ex_kmalloc (n : nat) : list Z := replicate n 165.
Definition ex_set (a : xattr) (flags : Z) (s : fs) : result unit * fs :=
  lolelffs_xattr_set ex_kmalloc 0 (x_index a) (x_name a) (Some (x_value a)) flags s.

Lemma ex_attr_ok : xattr_ok ex_attr.
Proof. unfold xattr_ok, bytes_ok. split_and!; try (vm_compute; done); apply (bool_decide_unpack _); vm_compute; exact I. Qed.

Lemma ex_xrep : xrep ex_fs 0 ex_root_v [].
Proof.
  split; [vm_compute; reflexivity|]. split; [repeat split; vm_compute; discriminate || reflexivity|].
  left. split; vm_compute; reflexivity.
Qed.

Lemma ex_readable : readable ex_fs.
Proof.
  intros x Hx. change (nr_blocks (sbd (fs_sbi ex_fs))) with 16 in Hx.
  assert (forallb (fun i => match blk_at ex_fs i with Some b => bool_decide (length b = BLK) | None => false end)
    (seqZ 0 16) = true) as H by (vm_compute; reflexivity).
  assert (x ∈ seqZ 0 16) as Hin by (apply elem_of_seqZ; lia).
  rewrite forallb_forall in H. specialize (H x (proj1 (list_elem_of_In _ _) Hin)).
  destruct (blk_at ex_fs x) as [b|]; [|done]. exists b. split; [done|]. by apply bool_decide_eq_true in H.
Qed.

Lemma xattr_set_get_witness :
  exists s', ex_set ex_attr 0 ex_fs = (Ok tt, s') /\
    lolelffs_xattr_get ex_kmalloc 0 0 [97] (Some 64) s' = (Ok (3, [1; 2; 3]), s').
Proof.
  exists (snd (ex_set ex_attr 0 ex_fs)). split; [vm_compute; reflexivity|].
  apply (xattr_set_get ex_kmalloc ex_fs 0 ex_root_v [] ex_attr 0 (snd (ex_set ex_attr 0 ex_fs)) ex_xrep);
    [constructor|exact ex_readable|reflexivity|reflexivity|exact ex_attr_ok|vm_compute; reflexivity|cbn; lia].
Defined.

Lemma xattr_set_succeeds_witness : exists s', ex_set ex_attr 0 ex_fs = (Ok tt, s').
Proof.
  apply (xattr_set_succeeds ex_kmalloc ex_fs 0 ex_root_v [] ex_attr 6 ex_xrep);
    [exact ex_readable|reflexivity|reflexivity|exact ex_attr_ok|vm_compute; discriminate|].
  apply (bool_decide_unpack _). vm_compute. exact I.
Defined.

(** The root directory with two attributes. *)
Definition ex_two : fs := snd (ex_set ex_attr2 0 (snd (ex_set ex_attr 0 ex_fs))).
Definition ex_two_v : vinode := default no_inode (fs_icache ex_two !! 0).
Lemma ex_attr2_ok : xattr_ok ex_attr2.
Proof. unfold xattr_ok, bytes_ok. split_and!; try (vm_compute; done); apply (bool_decide_unpack _); vm_compute; exact I. Qed.

Lemma ex_step s v l a s' :
  xrep s 0 v l -> readable s -> fs_k s = ex_kernel -> xattr_ok a -> ex_set a 0 s = (Ok tt, s') ->
  exists v', xrep s' 0 v' (x_remove l (x_index a) (x_name a) ++ [a]) /\ readable s' /\ fs_k s' = ex_kernel.
Proof.
  intros Hrep Hrd Hk Ha Hset.
  destruct (set_spec ex_kmalloc s 0 v l a 0 Hrep Hrd) as (r & t & Hrun & Hout); [by rewrite Hk|by rewrite Hk|done|].
  unfold ex_set in Hset. rewrite Hset in Hrun. injection Hrun as <- <-.
  inversion Hout as [? v' Hrep' Hrd' Hk' _| | |]; subst. exists v'. by rewrite Hk'.
Qed.

Lemma ex_two_ok : xrep ex_two 0 ex_two_v [ex_attr; ex_attr2] /\ readable ex_two.
Proof.
  destruct (ex_step ex_fs ex_root_v [] ex_attr (snd (ex_set ex_attr 0 ex_fs)) ex_xrep ex_readable)
    as (v1 & Hrep1 & Hrd1 & Hk1); [reflexivity|exact ex_attr_ok|vm_compute; reflexivity|].
  destruct (ex_step _ v1 [ex_attr] ex_attr2 ex_two Hrep1 Hrd1 Hk1 ex_attr2_ok) as (v2 & Hrep2 & Hrd2 & _);
    [vm_compute; reflexivity|].
  split; [|exact Hrd2]. replace ex_two_v with v2; [exact Hrep2|]. destruct Hrep2 as [E _].
  unfold ex_two_v. by rewrite E.
Qed.

Lemma xattr_remove_correct_witness :
  exists s', lolelffs_xattr_set ex_kmalloc 0 0 [97] None 0 ex_two = (Ok tt, s') /\
    lolelffs_xattr_get ex_kmalloc 0 0 [97] None s' = (Err ENODATA, s').
Proof.
  destruct (xattr_remove_correct ex_kmalloc ex_two 0 ex_two_v [ex_attr; ex_attr2] 0 [97] 0 (proj1 ex_two_ok))
    as (r & s' & H & _ & Hok).
  - apply (bool_decide_unpack _). vm_compute. exact I.
  - exact (proj2 ex_two_ok).
  - reflexivity.
  - cbn. lia.
  - destruct Hok as (-> & _ & Hget); [discriminate|]. exists s'. split; [exact H|]. exact (Hget 0 [97] None).
Defined.

Lemma listxattr_enumerates_witness :
  lolelffs_listxattr ex_kmalloc 0 (Some 64) ex_two =
    (Ok (18, [117; 115; 101; 114; 46; 97; 0; 116; 114; 117; 115; 116; 101; 100; 46; 98; 99; 0]), ex_two).
Proof.
  rewrite (listxattr_enumerates ex_kmalloc ex_two 0 ex_two_v [ex_attr; ex_attr2] (Some 64) (proj1 ex_two_ok));
    [reflexivity|repeat constructor|reflexivity|lia].
Defined.

(** On bytes that are no entries: 40 times 255. *)
Lemma xattr_walks_end_witness :
  lolelffs_xattr_find_entry (replicate 40 255) 40 0 [97] <> Err NOFUEL /\
  list_loop 41 (encode_all [ex_attr; ex_attr2]) 36 None 0 0 [] <> Err NOFUEL.
Proof.
  split.
  - apply (xattr_walks_end (replicate 40 255) 40 0 [97] None 41); [|lia].
    apply (bool_decide_unpack _). vm_compute. exact I.
  - apply (xattr_walks_end (encode_all [ex_attr; ex_attr2]) 36 0 [97] None 41); [|lia].
    apply (bool_decide_unpack _). vm_compute. exact I.
Defined.

(** A replacement that does not fit damages the count: on the root directory
    with two attributes, setting the first one to 32768 bytes returns ENOSPC and
    leaves both attributes readable, but the count of the index block is 1. *)
Theorem xattr_set_nospace_loses_count :
  exists s', ex_set (XAttr 0 [97] (zeros (Z.to_nat 32768))) 0 ex_two = (Err ENOSPC, s') /\
    lolelffs_xattr_get ex_kmalloc 0 0 [97] (Some 64) s' = (Ok (3, [1; 2; 3]), s') /\
    lolelffs_xattr_get ex_kmalloc 0 1 [98; 99] (Some 64) s' = (Ok (1, [9]), s') /\
    (fun b => xcount (xei_of_block b)) <$> blk_at s' (xattr_block ex_two_v) = Some 1.
Proof.
  exists (snd (ex_set (XAttr 0 [97] (zeros (Z.to_nat 32768))) 0 ex_two)). split_and!; vm_compute; reflexivity.
Qed.
