(* ===== verification/Inode.v ===== *)
(** * Inode operations (src/src/inode.c)

    The handlers of lolelffs_inode_ops.  A dentry is its name, a list of bytes
    without NUL, and d_inode(dentry) an inode number.  While an operation runs
    its buffers stay mapped, so extents are read through the index block each
    time the code does; the length of an extent is read once per extent. *)
From S2P Require Import Prelude Layout Bitmap Extent State Elf Super Codec File Xattr.

(** iput: the last reference; an inode without links leaves the cache. *)
Definition iput (inode : Z) : M fs unit :=
  v ← inode_at inode;
  if i_nlink v =? 0 then modify (fun s => set_icache (delete inode (fs_icache s)) s) else mret tt.

(** ** lolelffs_lookup *)

(** for (fi = 0; fi < LOLELFFS_FILES_PER_BLOCK; fi++): [Some] ends the search,
    at the file with the name or at an unused slot. *)
Fixpoint search_files (files : list lolelffs_file) (name : list Z) : option (option Z) :=
  match files with
  | [] => None
  | f :: files =>
      if f_inode f =? 0 then Some None
      else if strncmp_eq (filename f) name 255 then Some (Some (f_inode f))
      else search_files files name
  end.

Fixpoint lookup_blocks (n : nat) (start bi : Z) (name : list Z) : M fs (option (option Z)) :=
  match n with
  | O => mret None
  | S n =>
      b ← LOLELFFS_SB_BREAD (start +₃₂ bi);
      match search_files (dir_of_block b) name with
      | Some r => mret (Some r)
      | None => lookup_blocks n start (bi + 1) name
      end
  end.

Fixpoint lookup_extents (es : list lolelffs_extent) (name : list Z) : M fs (option Z) :=
  match es with
  | [] => mret None
  | e :: es =>
      if ee_start e =? 0 then mret None
      else
        r ← lookup_blocks (Z.to_nat (ee_len e)) (ee_start e) 0 name;
        match r with
        | Some r => mret r
        | None => lookup_extents es name
        end
  end.

(** The inode the dentry is filled with, or NULL. *)
Definition lolelffs_lookup (dir : Z) (name : list Z) : M fs (option Z) :=
  if LOLELFFS_FILENAME_LEN <? Z.of_nat (length name) then fail ENAMETOOLONG
  else
    d ← inode_at dir;
    b ← LOLELFFS_SB_BREAD (ei_block d);
    r ← lookup_extents (extents (ei_of_block b)) name;
    inode ← match r with
            | None => mret None
            | Some ino => i ← lolelffs_iget ino; mret (Some i)
            end;
    k ← gets fs_k;
    inode_upd dir (fun v => set_times (i_ctime v) (current_time k) (i_mtime v) v);;
    mret inode.

(** ** lolelffs_new_inode *)

Definition set_all_times (k : kernel) : vinode -> vinode :=
  set_times (current_time k) (current_time k) (current_time k).

Definition lolelffs_new_inode (dir mode : Z) : M fs Z :=
  if negb (S_ISDIR mode) && negb (S_ISREG mode) && negb (S_ISLNK mode) then fail EINVAL
  else
    s ← gets id;
    let sbi := fs_sbi s in
    if (nr_free_inodes (sbd sbi) =? 0) || (nr_free_blocks (sbd sbi) =? 0) then fail ENOSPC
    else
      ino ← with_sbi get_free_inode;
      if ino =? 0 then fail ENOSPC
      else
        r ← attempt (lolelffs_iget ino);
        match r with
        | Err e => upd_sbi (fun s => put_inode s ino);; fail e
        | Ok inode =>
            d ← inode_at dir;
            let k := fs_k s in
            let owner := inode_init_owner k (Some d) mode in
            if S_ISLNK mode then
              inode_upd inode (fun v => set_xattr_block 0 (set_all_times k (set_nlink 1 (set_owner owner v))));;
              mret inode
            else
              bno ← with_sbi (fun s => get_free_blocks s 1);
              if bno =? 0 then
                iput inode;; upd_sbi (fun s => put_inode s ino);; fail ENOSPC
              else
                inode_upd inode (fun v => set_xattr_block 0 (set_i_blocks 1 (set_owner owner v)));;
                inode_upd inode (fun v =>
                  if S_ISDIR mode then set_nlink 2 (set_size LOLELFFS_BLOCK_SIZE (set_ei_block bno v))
                  else if S_ISREG mode then set_nlink 1 (set_size 0 (set_ei_block bno v))
                  else v);;
                inode_upd inode (set_all_times k);;
                mret inode
        end.

(** ** Adding an entry to a directory (lolelffs_create, _link and _symlink) *)

Definition slot_ei (nr : Z) : Z := nr / LOLELFFS_FILES_PER_EXT.
Definition slot_bi (nr : Z) : Z := nr mod LOLELFFS_FILES_PER_EXT / LOLELFFS_FILES_PER_BLOCK.
Definition slot_fi (nr : Z) : nat := Z.to_nat (nr mod LOLELFFS_FILES_PER_BLOCK).

(** The extent of slot [ei], allocated if it is unused; [true] if it was. *)
Definition dir_extent (dirblk : Z) (ei : nat) : M fs bool :=
  b ← LOLELFFS_SB_BREAD dirblk;
  let index := ei_of_block b in
  if ee_start (ext index ei) =? 0 then
    bno ← with_sbi (fun s => get_free_blocks s 8);
    if bno =? 0 then fail ENOSPC
    else bwrite dirblk (put_ext ei (set_run (next_logical index ei) 8 bno (ext index ei)) b);; mret true
  else mret false.

(** The label put_block: give back an extent that was allocated here. *)
Definition undo_extent (dirblk : Z) (ei : nat) (alloc : bool) : M fs unit :=
  b ← LOLELFFS_SB_BREAD dirblk;
  let e := ext (ei_of_block b) ei in
  if alloc && negb (ee_start e =? 0) then
    upd_sbi (fun s => put_blocks s (ee_start e) (ee_len e));;
    bwrite dirblk (put_ext ei zero_extent b)
  else mret tt.

(** From the computation of ei, bi and fi to eblock->nr_files++; [ino] is NULL
    when the code dereferences an error pointer for inode->i_ino. *)
Definition dir_add (dirblk : Z) (ino : option Z) (name : list Z) : M fs unit :=
  b ← LOLELFFS_SB_BREAD dirblk;
  let nr := nr_files (ei_of_block b) in
  if LOLELFFS_MAX_EXTENTS <=? slot_ei nr then fail MEMFAULT
  else
    let ei := Z.to_nat (slot_ei nr) in
    alloc ← dir_extent dirblk ei;
    b ← LOLELFFS_SB_BREAD dirblk;
    let blk := ee_start (ext (ei_of_block b) ei) +₃₂ slot_bi nr in
    r ← attempt (LOLELFFS_SB_BREAD blk);
    match r with
    | Err _ => undo_extent dirblk ei alloc;; fail EIO
    | Ok db =>
        match ino with
        | None => fail MEMFAULT
        | Some ino =>
            bwrite blk (put_file (slot_fi nr) ino name db);;
            bupdate dirblk (fun b => put_nr_files (nr_files (ei_of_block b) +₃₂ 1) b)
        end
    end.

(** ** lolelffs_create and lolelffs_mkdir *)

(** The label iput of lolelffs_create. *)
Definition create_undo (inode : Z) : M fs unit :=
  v ← inode_at inode;
  upd_sbi (fun s => put_blocks s (ei_block v) 1);;
  upd_sbi (fun s => put_inode s (i_ino v));;
  iput inode.

Definition lolelffs_create (dir : Z) (name : list Z) (mode : Z) : M fs Z :=
  if LOLELFFS_FILENAME_LEN <? Z.of_nat (length name) then fail ENAMETOOLONG
  else
    d ← inode_at dir;
    b ← LOLELFFS_SB_BREAD (ei_block d);
    if nr_files (ei_of_block b) =? LOLELFFS_MAX_SUBFILES then fail EMLINK
    else
      inode ← lolelffs_new_inode dir mode;
      v ← inode_at inode;
      on_error
        (bupdate (ei_block v) (fun _ => zeros BLK);;
         dir_add (ei_block d) (Some (i_ino v)) name)
        (create_undo inode);;
      attempt (lolelffs_write_inode inode);;
      k ← gets fs_k;
      inode_upd dir (set_all_times k);;
      (if S_ISDIR mode then inode_upd dir inc_nlink else mret tt);;
      attempt (lolelffs_write_inode dir);;
      attempt lolelffs_sync_fs;;
      mret inode.

Definition lolelffs_mkdir (dir : Z) (name : list Z) (mode : Z) : M fs Z :=
  lolelffs_create dir name (Z.lor mode S_IFDIR).

(** ** lolelffs_remove_from_dir *)

(** The slots after [fi] move one down and the last one is cleared. *)
Definition remove_slot (fi : nat) (b : block) : block :=
  splice (260 * fi) (slice (260 * S fi) (260 * (NFILES - S fi)) b ++ zeros 260) b.

(** dblock_prev->files[14] = dblock->files[0] *)
Definition carry_slot (b prev : block) : block := splice (260 * (NFILES - 1)) (slice 0 260 b) prev.

(** The index of the first slot with the inode. *)
Fixpoint find_slot (files : list lolelffs_file) (fi : nat) (ino : Z) : option nat :=
  match files with
  | [] => None
  | f :: files => if f_inode f =? ino then Some fi else find_slot files (S fi) ino
  end.

(** The blocks of one extent; [prev] is the block the entries move into, once
    the entry was found. *)
Fixpoint remove_blocks (n : nat) (start bi ino : Z) (prev : option Z) : M fs (option Z) :=
  match n with
  | O => mret prev
  | S n =>
      let blk := start +₃₂ bi in
      b ← LOLELFFS_SB_BREAD blk;
      if f_inode (default zero_file (dir_of_block b !! 0%nat)) =? 0 then mret prev
      else
        match prev with
        | Some p =>
            bupdate p (carry_slot b);;
            bupdate blk (remove_slot 0);;
            remove_blocks n start (bi + 1) ino (Some blk)
        | None =>
            match find_slot (dir_of_block b) 0 ino with
            | Some fi =>
                bwrite blk (remove_slot fi b);;
                remove_blocks n start (bi + 1) ino (Some blk)
            | None => remove_blocks n start (bi + 1) ino None
            end
        end
  end.

Fixpoint remove_extents (es : list lolelffs_extent) (ino : Z) (prev : option Z) : M fs (option Z) :=
  match es with
  | [] => mret prev
  | e :: es =>
      if ee_start e =? 0 then mret prev
      else
        prev ← remove_blocks (Z.to_nat (ee_len e)) (ee_start e) 0 ino prev;
        remove_extents es ino prev
  end.

Definition lolelffs_remove_from_dir (dir inode : Z) : M fs unit :=
  d ← inode_at dir;
  v ← inode_at inode;
  b ← LOLELFFS_SB_BREAD (ei_block d);
  prev ← remove_extents (extents (ei_of_block b)) (i_ino v) None;
  match prev with
  | Some _ => bupdate (ei_block d) (fun b => put_nr_files (nr_files (ei_of_block b) -₃₂ 1) b)
  | None => mret tt
  end.

(** ** lolelffs_unlink and lolelffs_rmdir *)

(** Scrub the blocks of an extent; one that cannot be read is skipped. *)
Fixpoint scrub_blocks (n : nat) (start bi : Z) : M fs unit :=
  match n with
  | O => mret tt
  | S n =>
      attempt (bupdate (start +₃₂ bi) (fun _ => zeros BLK));;
      scrub_blocks n start (bi + 1)
  end.

Fixpoint free_file_extents (n : nat) (blk : Z) (ei : nat) : M fs unit :=
  match n with
  | O => mret tt
  | S n =>
      b ← LOLELFFS_SB_BREAD blk;
      let e := ext (ei_of_block b) ei in
      if ee_start e =? 0 then mret tt
      else
        upd_sbi (fun s => put_blocks s (ee_start e) (ee_len e));;
        scrub_blocks (Z.to_nat (ee_len e)) (ee_start e) 0;;
        free_file_extents n blk (S ei)
  end.

(** The label clean_inode. *)
Definition clean_inode (inode ino bno : Z) : M fs unit :=
  lolelffs_xattr_free_blocks inode;;
  inode_upd inode (fun v =>
    drop_nlink (set_times 0 0 0 (set_owner (0, 0, 0) (set_size 0
      (set_xattr_block 0 (set_ei_block 0 (set_i_blocks 0 v)))))));;
  upd_sbi (fun s => put_blocks s bno 1);;
  upd_sbi (fun s => put_inode s ino).

Definition lolelffs_unlink (dir inode : Z) : M fs unit :=
  v ← inode_at inode;
  let ino := u32 (i_ino v) in
  lolelffs_remove_from_dir dir inode;;
  if S_ISLNK (i_mode v) then clean_inode inode ino 0
  else
    k ← gets fs_k;
    inode_upd dir (set_all_times k);;
    (if S_ISDIR (i_mode v) then inode_upd dir drop_nlink;; inode_upd inode drop_nlink else mret tt);;
    w ← inode_at inode;
    if 1 <? i_nlink w then inode_upd inode drop_nlink
    else
      let bno := ei_block w in
      r ← attempt (LOLELFFS_SB_BREAD bno);
      match r with
      | Err _ => clean_inode inode ino bno
      | Ok _ =>
          (if S_ISDIR (i_mode w) then mret tt else free_file_extents NEXT bno 0);;
          bwrite bno (zeros BLK);;
          clean_inode inode ino bno
      end.

Definition lolelffs_rmdir (dir inode : Z) : M fs unit :=
  v ← inode_at inode;
  if 2 <? i_nlink v then fail ENOTEMPTY
  else
    b ← LOLELFFS_SB_BREAD (ei_block v);
    if negb (nr_files (ei_of_block b) =? 0) then fail ENOTEMPTY
    else lolelffs_unlink dir inode.

(** ** lolelffs_rename *)

Definition RENAME_EXCHANGE : Z := 2.
Definition RENAME_WHITEOUT : Z := 4.

Inductive rename_scan :=
  | RS_renamed (fi : nat)      (* the old name, in the same directory *)
  | RS_exists                  (* the new name *)
  | RS_free (fi : nat)         (* an unused slot *)
  | RS_none.

(** for (fi = 0; fi < LOLELFFS_FILES_PER_BLOCK; fi++) *)
Fixpoint rename_files (same_dir : bool) (old_name new_name : list Z) (files : list lolelffs_file) (fi : nat)
    : rename_scan :=
  match files with
  | [] => RS_none
  | f :: files =>
      if same_dir && strncmp_eq (filename f) old_name 255 then RS_renamed fi
      else if strncmp_eq (filename f) new_name 255 then RS_exists
      else if f_inode f =? 0 then RS_free fi
      else rename_files same_dir old_name new_name files (S fi)
  end.

(** strncpy(dblock->files[fi].filename, name, LOLELFFS_FILENAME_LEN) *)
Definition put_filename (fi : nat) (name : list Z) (b : block) : block :=
  splice (260 * fi + 4) (strncpy name 255) b.

(** What the loops over the extents of the new directory find. *)
Inductive rename_found :=
  | RF_done                    (* renamed in place *)
  | RF_slot (blk : Z) (fi : nat)
  | RF_full (ei : nat).        (* no unused slot; [ei] is where the loop stopped *)

Fixpoint rename_blocks (n : nat) (same_dir : bool) (old_name new_name : list Z) (start bi : Z)
    : M fs (option rename_found) :=
  match n with
  | O => mret None
  | S n =>
      let blk := start +₃₂ bi in
      b ← LOLELFFS_SB_BREAD blk;
      match rename_files same_dir old_name new_name (dir_of_block b) 0 with
      | RS_renamed fi => bwrite blk (put_filename fi new_name b);; mret (Some RF_done)
      | RS_exists => fail EEXIST
      | RS_free fi => mret (Some (RF_slot blk fi))
      | RS_none => rename_blocks n same_dir old_name new_name start (bi + 1)
      end
  end.

Fixpoint rename_extents (same_dir : bool) (old_name new_name : list Z) (es : list lolelffs_extent) (ei : nat)
    : M fs rename_found :=
  match es with
  | [] => mret (RF_full ei)
  | e :: es =>
      if ee_start e =? 0 then mret (RF_full ei)
      else
        r ← rename_blocks (Z.to_nat (ee_len e)) same_dir old_name new_name (ee_start e) 0;
        match r with
        | Some r => mret r
        | None => rename_extents same_dir old_name new_name es (S ei)
        end
  end.

(** A block for the entry when no slot is free: extents[ei] becomes a new
    extent; there are LOLELFFS_MAX_EXTENTS of them. *)
Definition rename_grow (dirblk : Z) (ei : nat) : M fs Z :=
  b ← LOLELFFS_SB_BREAD dirblk;
  let index := ei_of_block b in
  if nr_files index =? LOLELFFS_FILES_PER_EXT then fail EMLINK
  else
    bno ← with_sbi (fun s => get_free_blocks s 8);
    if bno =? 0 then fail ENOSPC
    else if (NEXT <=? ei)%nat then fail MEMFAULT
    else
      bwrite dirblk (put_ext ei (set_run (next_logical index ei) 8 bno (ext index ei)) b);;
      r ← attempt (LOLELFFS_SB_BREAD (u32 bno));
      match r with
      | Err _ => undo_extent dirblk ei true;; fail EIO
      | Ok _ => mret (u32 bno)
      end.

Definition lolelffs_rename (old_dir : Z) (old_name : list Z) (src new_dir : Z) (new_name : list Z) (flags : Z)
    : M fs unit :=
  if negb (Z.land flags (Z.lor RENAME_EXCHANGE RENAME_WHITEOUT) =? 0) then fail EINVAL
  else if LOLELFFS_FILENAME_LEN <? Z.of_nat (length new_name) then fail ENAMETOOLONG
  else
    nd ← inode_at new_dir;
    b ← LOLELFFS_SB_BREAD (ei_block nd);
    r ← rename_extents (new_dir =? old_dir) old_name new_name (extents (ei_of_block b)) 0;
    match r with
    | RF_done => mret tt
    | RF_slot _ _ | RF_full _ =>
        p ← match r with
            | RF_slot blk fi => mret (blk, fi)
            | RF_full ei => blk ← rename_grow (ei_block nd) ei; mret (blk, 0%nat)
            | RF_done => fail EINVAL
            end;
        w ← inode_at src;
        bupdate (fst p) (put_file (snd p) (i_ino w) new_name);;
        k ← gets fs_k;
        inode_upd new_dir (set_all_times k);;
        (if S_ISDIR (i_mode w) then inode_upd new_dir inc_nlink else mret tt);;
        lolelffs_remove_from_dir old_dir src;;
        inode_upd old_dir (set_all_times k);;
        (if S_ISDIR (i_mode w) then inode_upd old_dir drop_nlink else mret tt)
    end.

(** ** lolelffs_link *)

Definition lolelffs_link (inode dir : Z) (name : list Z) : M fs unit :=
  d ← inode_at dir;
  v ← inode_at inode;
  b ← LOLELFFS_SB_BREAD (ei_block d);
  if nr_files (ei_of_block b) =? LOLELFFS_MAX_SUBFILES then fail EMLINK
  else
    dir_add (ei_block d) (Some (i_ino v)) name;;
    inode_upd inode inc_nlink.

(** ** lolelffs_symlink and lolelffs_get_link *)

(** inode->i_link = ci->i_data; memcpy(inode->i_link, symname, l); i_size = l - 1 *)
Definition store_link (symname : list Z) (v : vinode) : vinode :=
  set_size (Z.of_nat (length symname)) (set_link (splice 0 (symname ++ [0]) (i_data v)) v).

Definition lolelffs_symlink (dir : Z) (name symname : list Z) : M fs Z :=
  let l := Z.of_nat (length symname) + 1 in
  r ← attempt (lolelffs_new_inode dir (Z.lor S_IFLNK S_IRWXUGO));
  if 28 <? l then fail ENAMETOOLONG
  else
    d ← inode_at dir;
    b ← LOLELFFS_SB_BREAD (ei_block d);
    if nr_files (ei_of_block b) =? LOLELFFS_MAX_SUBFILES then fail EMLINK
    else
      match r with
      | Err _ => dir_add (ei_block d) None name;; fail MEMFAULT
      | Ok inode =>
          v ← inode_at inode;
          dir_add (ei_block d) (Some (i_ino v)) name;;
          inode_upd inode (store_link symname);;
          mret inode
      end.

Definition lolelffs_get_link (inode : Z) : M fs (option (list Z)) :=
  v ← inode_at inode;
  mret (if i_link v then Some (cstr (i_data v)) else None).
