(* ===== verification/InodeSpec.v ===== *)
(** * Directories: the abstract list of entries and its refinement

    A directory is a list of (name, inode).  The first extent of a directory
    holds 8 blocks of 15 slots; for directories that fit it, lookup, the
    addition of an entry and its removal are proved to be lookup, append and
    delete on the list. *)
From S2P Require Import Prelude Layout Bitmap Extent State Elf Super Codec File Xattr XattrSpec Inode.

(** ** Entries *)

Definition dentry : Type := list Z * Z.

Definition name_ok (name : list Z) : Prop :=
  1 <= Z.of_nat (length name) <= 255 /\ (0 ∉ name) /\ bytes_ok name.
Definition dentry_ok (d : dentry) : Prop := name_ok (fst d) /\ 0 < snd d < 2 ^ 32.

Definition file_of (d : dentry) : lolelffs_file := File (snd d) (strncpy (fst d) 255).

Fixpoint d_lookup (l : list dentry) (name : list Z) : option Z :=
  match l with
  | [] => None
  | d :: l => if bool_decide (fst d = name) then Some (snd d) else d_lookup l name
  end.

Fixpoint d_remove (l : list dentry) (ino : Z) : list dentry :=
  match l with
  | [] => []
  | d :: l => if snd d =? ino then l else d :: d_remove l ino
  end.

Definition unused (f : lolelffs_file) : Prop := f_inode f = 0.

(** The slots of a run of blocks. *)
Definition files (bs : list block) : list lolelffs_file := concat (map dir_of_block bs).

Lemma length_files bs : length (files bs) = (length bs * NFILES)%nat.
Proof.
  induction bs as [|b bs IH]; [done|]. unfold files in *. cbn [map concat length].
  rewrite length_app, length_dir_of_block, IH. lia.
Qed.

(** ** Comparing names *)

Lemma cstr_no_nul s : (0 ∉ s) -> cstr s = s.
Proof.
  induction s as [|c s IH]; intros H; [done|]. apply not_elem_of_cons in H as [Hc Hs]. cbn [cstr].
  rewrite (proj2 (Z.eqb_neq c 0)) by done. by rewrite IH.
Qed.

Lemma strncmp_name a b : name_ok a -> name_ok b -> strncmp_eq (strncpy a 255) b 255 = bool_decide (a = b).
Proof.
  intros (Ha & Ha0 & _) (Hb & Hb0 & _). unfold strncmp_eq. apply bool_decide_ext.
  rewrite take_ge by (rewrite length_strncpy; lia). rewrite take_ge by lia.
  unfold strncpy. rewrite take_ge by lia. rewrite cstr_zeros. by rewrite !cstr_no_nul.
Qed.

(** ** Lookup *)

Lemma search_files_app fs1 fs2 name :
  search_files (fs1 ++ fs2) name =
    match search_files fs1 name with Some r => Some r | None => search_files fs2 name end.
Proof.
  induction fs1 as [|f fs1 IH]; [done|]. cbn [app search_files].
  destruct (f_inode f =? 0); [done|]. by destruct (strncmp_eq _ _ _).
Qed.

Lemma search_files_entries l rest name :
  Forall dentry_ok l -> name_ok name -> Forall unused rest ->
  search_files (map file_of l ++ rest) name =
    match d_lookup l name with
    | Some ino => Some (Some ino)
    | None => match rest with [] => None | _ => Some None end
    end.
Proof.
  intros Hl Hn Hr. induction Hl as [|d l Hd _ IH]; cbn [map app search_files d_lookup].
  - destruct rest as [|f rest]; [done|]. apply Forall_cons in Hr as [Hf _]. cbn [search_files]. by rewrite Hf.
  - cbn [file_of f_inode filename]. destruct Hd as [Hdn Hdi]. rewrite (proj2 (Z.eqb_neq _ _)) by lia.
    rewrite strncmp_name by done. by destruct (bool_decide (fst d = name)).
Qed.

Lemma lookup_blocks_spec bs : forall start bi name s,
  run_blocks s (start + bi) bs -> 0 <= start + bi -> start + bi + Z.of_nat (length bs) <= 2 ^ 32 ->
  lookup_blocks (length bs) start bi name s = (Ok (search_files (files bs) name), s).
Proof.
  induction bs as [|b bs IH]; intros start bi name s Hr H0 H32; [done|]. cbn [length lookup_blocks] in *.
  destruct (run_blocks_head _ _ _ _ Hr) as [Hb _]. rewrite u32_small by lia.
  rewrite (bind_run _ _ _ _ _ (bread_run _ _ _ Hb)). unfold files. cbn [map concat]. rewrite search_files_app.
  destruct (search_files (dir_of_block b) name); [done|].
  rewrite (IH start (bi + 1)); [done|rewrite Z.add_assoc; by eapply run_blocks_tail|lia..].
Qed.

(** ** The representation *)

Abbreviation dext b := (ext (ei_of_block b) 0).

Record dir_rep (s : fs) (dirblk : Z) (b : block) (bs : list block) (l : list dentry) : Prop := {
  dr_inv : block_inv (fs_sbi s);
  dr_read : blk_at s dirblk = Some b;
  dr_block : block_ok b;
  dr_count : nr_files (ei_of_block b) = Z.of_nat (length l);
  dr_single : ee_start (ext (ei_of_block b) 1) = 0;
  dr_run : if ee_start (dext b) =? 0 then bs = [] else ee_len (dext b) = 8 /\ length bs = 8%nat;
  dr_blocks : run_blocks s (ee_start (dext b)) bs;
  dr_entries : Forall dentry_ok l;
  dr_files : exists rest, files bs = map file_of l ++ rest /\ Forall unused rest;
  dr_used : ({[dirblk]} ∪ range (ee_start (dext b)) (Z.of_nat (length bs))) ⊆
              univ (nr_blocks (sbd (fs_sbi s))) ∖ free_blocks (fs_sbi s);
  dr_apart : dirblk ∉ range (ee_start (dext b)) (Z.of_nat (length bs))
}.

Lemma dir_bounds s dirblk b bs l :
  dir_rep s dirblk b bs l ->
  0 <= ee_start (dext b) /\ ee_start (dext b) + Z.of_nat (length bs) <= 2 ^ 32 /\
  (length l <= length bs * NFILES)%nat /\ (length bs <= 8)%nat.
Proof.
  intros Hd. pose proof (dr_used _ _ _ _ _ Hd) as Hu. pose proof (dr_run _ _ _ _ _ Hd) as Hr.
  destruct (dr_files _ _ _ _ _ Hd) as (rest & Hf & _).
  pose proof (length_files bs) as Hlf. rewrite Hf, length_app, length_map in Hlf.
  destruct (Z.eqb_spec (ee_start (dext b)) 0) as [E|Hne].
  - rewrite E, Hr in *. cbn [length] in *. split_and!; lia.
  - destruct Hr as [_ Hlen].
    destruct (univ_bounds _ (ee_start (dext b)) (Z.of_nat (length bs)) (dr_inv _ _ _ _ _ Hd)) as (? & ? & ?);
      [lia|clear -Hu; set_solver|]. split_and!; lia.
Qed.

Lemma extents_cons2 b : exists e1 es, extents (ei_of_block b) = dext b :: e1 :: es /\ e1 = ext (ei_of_block b) 1.
Proof. unfold ei_of_block, arr, ext, NEXT. cbn. eauto. Qed.

(** Searching the extents of a directory. *)
Lemma lookup_extents_spec s dirblk b bs l name :
  dir_rep s dirblk b bs l -> name_ok name ->
  lookup_extents (extents (ei_of_block b)) name s = (Ok (d_lookup l name), s).
Proof.
  intros Hd Hn. destruct (dir_bounds _ _ _ _ _ Hd) as (H0 & H32 & Hle & _).
  destruct (extents_cons2 b) as (e1 & es & -> & ->). cbn [lookup_extents].
  pose proof (dr_run _ _ _ _ _ Hd) as Hr. destruct (dr_files _ _ _ _ _ Hd) as (rest & Hf & Hrest).
  destruct (ee_start (dext b) =? 0).
  { subst bs. cbn [length] in Hle. destruct l; [done|cbn in Hle; lia]. }
  destruct Hr as [-> Hlen]. change (Z.to_nat 8) with 8%nat. rewrite <- Hlen.
  pose proof (lookup_blocks_spec bs (ee_start (dext b)) 0 name s) as Hlb. rewrite Z.add_0_r in Hlb.
  rewrite (bind_run _ _ _ _ _ (Hlb (dr_blocks _ _ _ _ _ Hd) H0 H32)), Hf.
  rewrite search_files_entries by (done || apply Hd). destruct (d_lookup l name); [done|].
  destruct rest; [|done]. by rewrite (dr_single _ _ _ _ _ Hd).
Qed.

(** The numbers of the superblock that no operation changes. *)
Definition geom (s : fs) : Z * Z * Z * Z * Z * Z * Z :=
  let d := sbd (fs_sbi s) in
  (fs_offset (fs_sbi s), nr_blocks d, nr_inodes d, nr_istore_blocks d, nr_ifree_blocks d, nr_bfree_blocks d,
   max_extent_blocks_large d).

(** The first block after the superblock, the inode store and the maps. *)
Definition data_start (s : fs) : Z :=
  let d := sbd (fs_sbi s) in 1 + nr_istore_blocks d + nr_ifree_blocks d + nr_bfree_blocks d.

Lemma alloc_geom s len bno s' : with_sbi (fun x => get_free_blocks x len) s = (Ok bno, s') -> geom s' = geom s.
Proof.
  unfold with_sbi. destruct (get_free_blocks (fs_sbi s) len) as [r sbi'] eqn:E. intros [= _ <-].
  unfold get_free_blocks in E. destruct (get_first_free_bits _ _ _). by injection E as _ <-.
Qed.

(** ** Adding an entry *)

(** The free blocks hold no directory entries. *)
Definition free_clear (s : fs) : Prop := forall x, x ∈ free_blocks (fs_sbi s) ->
  exists c, blk_at s x = Some c /\ length c = BLK /\ Forall unused (dir_of_block c).

Lemma clear_run s start n :
  free_clear s -> range start (Z.of_nat n) ⊆ free_blocks (fs_sbi s) ->
  exists bs, length bs = n /\ run_blocks s start bs /\ Forall unused (files bs).
Proof.
  intros Hc. revert start. induction n as [|n IH]; intros start Hsub; [by exists []|].
  destruct (Hc start) as (c & Hat & Hl & Hu); [apply Hsub, elem_of_range; lia|].
  destruct (IH (start + 1)) as (bs & <- & Hbs & Hub).
  { intros x Hx. apply Hsub. rewrite elem_of_range in *. lia. }
  exists (c :: bs). split; [done|]. split; [by apply run_blocks_cons|].
  unfold files. cbn [map concat]. by apply Forall_app.
Qed.

Lemma dir_rep_at s dirblk b bs l s' :
  dir_rep s dirblk b bs l -> fs_sbi s' = fs_sbi s -> (forall j, blk_at s' j = blk_at s j) -> dir_rep s' dirblk b bs l.
Proof.
  intros [? ? ? ? ? ? Hbl ? ? ? ?] Es Eb. split; rewrite ?Es, ?Eb; try done.
  intros k c Hk. rewrite Eb. by apply Hbl.
Qed.

(** The first extent of the directory, allocated if there is none. *)
Lemma dir_extent_spec s dirblk b bs l :
  dir_rep s dirblk b bs l -> free_clear s ->
  (dir_extent dirblk 0 s = (Err ENOSPC, s) /\ ee_start (dext b) = 0 /\ forall x, ~ range x 8 ⊆ free_blocks (fs_sbi s)) \/
  (exists alloc s' b' bs', dir_extent dirblk 0 s = (Ok alloc, s') /\ dir_rep s' dirblk b' bs' l /\
     ee_start (dext b') <> 0 /\ fs_icache s' = fs_icache s /\ fs_k s' = fs_k s /\
     free_blocks (fs_sbi s') ⊆ free_blocks (fs_sbi s) /\
     (forall j, j <> dirblk -> blk_at s' j = blk_at s j) /\ geom s' = geom s /\
     (ee_start (dext b) = ee_start (dext b') \/ range (ee_start (dext b')) 8 ⊆ free_blocks (fs_sbi s))).
Proof.
  intros Hd Hc. pose proof Hd as [Hinv Hr Hb Hcnt Hs Hrun Hbl Hen Hf Hu Ha]. unfold dir_extent.
  rewrite (bind_run _ _ _ _ _ (bread_run _ _ _ Hr)). cbv zeta.
  destruct (Z.eqb_spec (ee_start (dext b)) 0) as [E|Hne].
  2:{ right. exists false, s, b, bs. split_and!; done || by left. }
  destruct (alloc_run s 8 Hinv ltac:(lia)) as (bno & s1 & Hal & Ho). rewrite (bind_run _ _ _ _ _ Hal).
  inversion Ho as [? sbi' H0 Hend H32 Hsub Hinv' HF Eo En|Hno]; subst; [|by left].
  right. rewrite (proj2 (Z.eqb_neq _ _)) by lia.
  assert (extent_fits (set_run 0 8 bno (dext b))) as Hfit by (apply set_run_fits; [by apply ext_ei_fits|lia..]).
  cbn [next_logical]. set (b' := put_ext 0 _ b).
  assert (forall j, ext (ei_of_block b') j = if decide (0%nat = j) then set_run 0 8 bno (dext b) else ext (ei_of_block b) j)
    as Hext by (intros; apply ext_put_ext; [done|unfold NEXT; lia|done]).
  assert (nr_files (ei_of_block b') = nr_files (ei_of_block b)) as Hnf.
  { unfold b'. rewrite extents_put_ext by (apply Hb || done || unfold NEXT; lia). done. }
  assert (block_ok b') as Hb' by (by apply block_ok_put_ext). clearbody b'.
  pose proof (Hext 0%nat) as E0. rewrite decide_True in E0 by done.
  pose proof (Hext 1%nat) as E1. rewrite decide_False in E1 by done.
  destruct (clear_run s bno 8 Hc Hsub) as (bs' & Hl' & Hbs' & Hun').
  set (s2 := set_disk (<[dirblk + fs_offset sbi' := b']> (fs_disk s)) (set_sbi sbi' s)).
  assert (forall j, j <> dirblk -> blk_at s2 j = blk_at s j) as Hat.
  { intros j Hj. unfold blk_at, s2. cbn [set_disk set_sbi fs_disk fs_sbi]. rewrite Eo.
    by rewrite lookup_insert_ne by lia. }
  assert (dirblk ∉ range bno 8) as Hdb by (clear -Hu Hsub; set_solver).
  assert (l = []) as ->.
  { destruct Hf as (rest & Hf & _). by destruct l. }
  exists true, s2, b', bs'. split; [done|]. split; [|split_and!; try done].
  2:{ rewrite E0. cbn. lia. }
  2:{ change (fs_sbi s2) with sbi'. rewrite HF. clear. set_solver. }
  2:{ exact (alloc_geom s 8 bno (set_sbi sbi' s) Hal). }
  2:{ right. by rewrite E0. }
  split; rewrite ?E0, ?E1, ?Hnf; cbn [set_run ee_start ee_len]; rewrite ?Hl'.
  - exact Hinv'.
  - unfold blk_at, s2. cbn [set_disk set_sbi fs_disk fs_sbi]. apply lookup_insert_eq.
  - exact Hb'.
  - exact Hcnt.
  - exact Hs.
  - by rewrite (proj2 (Z.eqb_neq _ _)) by lia.
  - intros k c Hk. rewrite Hat; [by apply Hbs'|]. intros Ej. apply Hdb, elem_of_range.
    apply lookup_lt_Some in Hk. lia.
  - constructor.
  - by exists (files bs').
  - change (fs_sbi s2) with sbi'. change (Z.of_nat 8) with 8. rewrite HF, En. pose proof (map_inv_univ _ _ _ Hinv) as Hfu.
    fold (free_blocks (fs_sbi s)) in Hfu. clear -Hu Hfu Hsub Hdb. set_solver.
  - exact Hdb.
Qed.

(** Writing one slot of one block. *)
Lemma files_insert bs : forall k b c fi f,
  bs !! k = Some b -> dir_of_block c = <[fi := f]> (dir_of_block b) -> (fi < NFILES)%nat ->
  files (<[k := c]> bs) = <[(k * NFILES + fi)%nat := f]> (files bs).
Proof.
  induction bs as [|x bs IH]; intros [|k] b c fi f Hk Hc Hfi; try done; cbn in Hk.
  - injection Hk as ->. unfold files. cbn [insert list_insert map concat Nat.mul Nat.add]. rewrite Hc.
    by rewrite insert_app_l by (by rewrite length_dir_of_block).
  - specialize (IH k b c fi f Hk Hc Hfi). change (<[S k := c]> (x :: bs)) with (x :: <[k := c]> bs).
    change (files (x :: ?bs')) with (dir_of_block x ++ files bs'). rewrite IH.
    replace (S k * NFILES + fi)%nat with (length (dir_of_block x) + (k * NFILES + fi))%nat
      by (rewrite length_dir_of_block; lia). by rewrite insert_app_r.
Qed.

Lemma slot_small nr :
  0 <= nr < 120 -> slot_ei nr = 0 /\ slot_bi nr = nr / 15 /\ 0 <= nr / 15 < 8 /\
  (slot_fi nr < NFILES)%nat /\ Z.to_nat nr = (Z.to_nat (nr / 15) * NFILES + slot_fi nr)%nat.
Proof.
  intros Hn. unfold slot_ei, slot_bi, slot_fi. change LOLELFFS_FILES_PER_EXT with 30720.
  change LOLELFFS_FILES_PER_BLOCK with 15. rewrite (Z.mod_small nr 30720), (Z.div_small nr 30720) by lia.
  pose proof (Z.div_mod nr 15). pose proof (Z.mod_pos_bound nr 15). unfold NFILES. split_and!; try lia.
Qed.

Lemma run_blocks_insert s start bs k c s' :
  run_blocks s start bs -> length c = BLK -> blk_at s' (start + Z.of_nat k) = Some c ->
  (forall j, start <= j < start + Z.of_nat (length bs) -> j <> start + Z.of_nat k -> blk_at s' j = blk_at s j) ->
  run_blocks s' start (<[k := c]> bs).
Proof.
  intros Hr Hl Hat Hsame i d Hi. destruct (decide (i = k)) as [->|Hne].
  - rewrite list_lookup_insert_eq in Hi by (apply lookup_lt_Some in Hi; by rewrite length_insert in Hi).
    injection Hi as <-. done.
  - rewrite list_lookup_insert_ne in Hi by done. rewrite Hsame; [by apply Hr| |lia].
    apply lookup_lt_Some in Hi. lia.
Qed.

(** Adding an entry to a directory of fewer than 120: it goes to the end. *)
Lemma dir_add_spec s dirblk b bs l name ino :
  dir_rep s dirblk b bs l -> free_clear s -> (length l < 120)%nat -> dentry_ok (name, ino) ->
  (dir_add dirblk (Some ino) name s = (Err ENOSPC, s) /\ ee_start (dext b) = 0 /\
     forall x, ~ range x 8 ⊆ free_blocks (fs_sbi s)) \/
  (exists s' b' bs', dir_add dirblk (Some ino) name s = (Ok tt, s') /\
     dir_rep s' dirblk b' bs' (l ++ [(name, ino)]) /\ fs_icache s' = fs_icache s /\ fs_k s' = fs_k s /\
     free_blocks (fs_sbi s') ⊆ free_blocks (fs_sbi s) /\
     (forall j, j <> dirblk -> j ∉ range (ee_start (dext b')) 8 -> blk_at s' j = blk_at s j) /\
     geom s' = geom s /\
     (ee_start (dext b) = ee_start (dext b') \/ range (ee_start (dext b')) 8 ⊆ free_blocks (fs_sbi s))).
Proof.
  intros Hd Hc Hlen Hok. unfold dir_add.
  rewrite (bind_run _ _ _ _ _ (bread_run _ _ _ (dr_read _ _ _ _ _ Hd))), (dr_count _ _ _ _ _ Hd). cbv zeta.
  set (nr := Z.of_nat (length l)). destruct (slot_small nr ltac:(lia)) as (-> & -> & Hbi & Hfi & Hsplit).
  change (LOLELFFS_MAX_EXTENTS <=? 0) with false. cbn iota. change (Z.to_nat 0) with 0%nat.
  destruct (dir_extent_spec s dirblk b bs l Hd Hc)
    as [[He Hno]|(alloc & s1 & b1 & bs1 & He & Hd1 & Hnz & Ei & Ek & Hfs & Hat & Eg & Hprov)].
  { left. by rewrite (bind_err _ _ _ _ _ He). }
  right. rewrite (bind_run _ _ _ _ _ He).
  rewrite (bind_run _ _ _ _ _ (bread_run _ _ _ (dr_read _ _ _ _ _ Hd1))).
  destruct (dir_bounds _ _ _ _ _ Hd1) as (H0 & H32 & _ & _). pose proof Hd1 as [Hinv Hr Hb Hcnt Hs Hrun Hbl Hen Hf Hu Ha].
  rewrite (proj2 (Z.eqb_neq _ _) Hnz) in Hrun. destruct Hrun as [Hel Hl8].
  set (st := ee_start (dext b1)) in *. set (k := Z.to_nat (nr / 15)) in *. rewrite u32_small by lia.
  replace (st + nr / 15) with (st + Z.of_nat k) by lia.
  destruct (lookup_lt_is_Some_2 bs1 k ltac:(lia)) as [db Hdb]. destruct (Hbl k db Hdb) as [Hrd Hldb].
  assert (attempt (LOLELFFS_SB_BREAD (st + Z.of_nat k)) s1 = (Ok (Ok db), s1)) as Hatt
    by (unfold attempt; by rewrite (bread_run _ _ _ Hrd)).
  rewrite (bind_run _ _ _ _ _ Hatt). set (c := put_file (slot_fi nr) ino name db).
  unfold bwrite at 1. rewrite bind_modify. change (set_disk _ s1) with (snd (bwrite (st + Z.of_nat k) c s1)).
  set (s2 := snd (bwrite (st + Z.of_nat k) c s1)).
  assert (st + Z.of_nat k <> dirblk) as Hned by (intros E; apply Ha, elem_of_range; lia).
  assert (blk_at s2 dirblk = Some b1) as Hr2 by (unfold s2; by rewrite blk_at_bwrite, decide_False).
  unfold bupdate. rewrite (bind_run _ _ _ _ _ (bread_run _ _ _ Hr2)).
  set (b3 := put_nr_files _ b1). set (s3 := snd (bwrite dirblk b3 s2)).
  assert (ei_of_block b3 = FileEi (nr + 1) (extents (ei_of_block b1))) as Eb3.
  { unfold b3. rewrite ei_put_nr_files by apply Hb. f_equal. rewrite Hcnt. fold nr.
    rewrite (u32_small (nr + 1)) by lia. apply u32_small. lia. }
  assert (forall i, ext (ei_of_block b3) i = ext (ei_of_block b1) i) as Ex3 by (intros; unfold ext; by rewrite Eb3).
  assert (block_ok b3) as Hb3 by (by apply block_ok_put_nr_files). clearbody b3.
  assert (forall j, j <> dirblk -> j <> st + Z.of_nat k -> blk_at s3 j = blk_at s1 j) as Hat3.
  { intros j H1 H2. unfold s3, s2. rewrite !blk_at_bwrite, !decide_False by done. done. }
  assert (blk_at s3 (st + Z.of_nat k) = Some c) as Hc3
    by (unfold s3, s2; rewrite !blk_at_bwrite, decide_False, decide_True by done; done).
  assert (length c = BLK) as Hlc by (unfold c; by rewrite length_put_file).
  exists s3, b3, (<[k := c]> bs1). split; [done|]. split; [|split; [done|]; split; [done|]; split; [done|]; split; [|split; [done|by rewrite Ex3]]].
  - split; rewrite ?Ex3, ?length_insert; fold st; try done.
    + unfold s3. rewrite blk_at_bwrite. by rewrite decide_True.
    + rewrite Eb3. cbn [nr_files]. unfold nr. rewrite length_app. cbn [length]. lia.
    + rewrite (proj2 (Z.eqb_neq _ _) Hnz). done.
    + apply (run_blocks_insert s1); try done. intros j Hj Hne. apply Hat3; [|done].
      intros ->. by apply Ha, elem_of_range.
    + apply Forall_app. split; [done|]. by constructor.
    + destruct Hf as (rest & Hf & Hrest). destruct rest as [|r0 rest].
      { pose proof (length_files bs1) as Hlf. rewrite Hf, app_nil_r, length_map, Hl8 in Hlf. unfold NFILES in Hlf. lia. }
      exists rest. apply Forall_cons in Hrest as [_ Hrest]. split; [|done].
      rewrite (files_insert bs1 k db c (slot_fi nr) (file_of (name, ino)) Hdb).
      * rewrite Hf, <- Hsplit. unfold nr. rewrite Nat2Z.id, map_app, <- app_assoc.
        rewrite <- (length_map file_of l) at 1. by rewrite insert_app_r_alt, Nat.sub_diag by lia.
      * unfold c. rewrite dir_put_file by done. unfold file_of. cbn [fst snd]. destruct Hok as [_ Hino]. cbn [snd] in Hino. by rewrite u32_small by lia.
      * done.
  - intros j Hj1 Hj2. rewrite Hat3; [by apply Hat|done|].
    intros ->. apply Hj2. rewrite Ex3. fold st. apply elem_of_range. lia.
Qed.

(** ** Removing an entry *)

Lemma length_remove_slot fi b : length (remove_slot fi b) = length b.
Proof. apply length_splice. Qed.

Lemma length_carry_slot c b : length (carry_slot c b) = length b.
Proof. apply length_splice. Qed.

Lemma dir_remove_slot fi b :
  length b = BLK -> (fi < NFILES)%nat -> dir_of_block (remove_slot fi b) = delete fi (dir_of_block b) ++ [zero_file].
Proof.
  intros Hb Hfi. unfold NFILES in Hfi.
  assert (length (slice (260 * S fi) (260 * (15 - S fi)) b) = (260 * (15 - S fi))%nat) as Hls
    by (apply length_slice; blia).
  assert (length (delete fi (dir_of_block b)) = 14%nat) as Hld.
  { rewrite length_delete by (apply lookup_lt_is_Some_2; rewrite length_dir_of_block; unfold NFILES; lia).
    by rewrite length_dir_of_block. }
  apply list_eq. intros i. destruct (decide (i < 15)%nat) as [Hi|Hi].
  2:{ rewrite !lookup_ge_None_2; [done|rewrite ?length_app, ?Hld, ?length_dir_of_block; cbn [length]; unfold NFILES; lia..]. }
  unfold dir_of_block at 1. rewrite lookup_arr by (unfold NFILES; lia). unfold remove_slot, NFILES. cbn [Nat.add].
  destruct (decide (i < fi)%nat).
  { rewrite slice_splice_out by lia. rewrite lookup_app_l by lia. rewrite list_lookup_delete_lt by lia.
    unfold dir_of_block. by rewrite lookup_arr by (unfold NFILES; lia). }
  rewrite slice_splice_in by (rewrite ?length_app, ?Hls, ?length_zeros; blia).
  destruct (decide (i = 14)%nat) as [->|].
  { rewrite lookup_app_r, Hld by lia. cbn [Nat.sub lookup list_lookup].
    replace (260 * 14 - 260 * fi)%nat with (length (slice (260 * S fi) (260 * (15 - S fi)) b) + 0)%nat by lia.
    rewrite slice_app_at. reflexivity. }
  rewrite slice_app_l by lia. rewrite slice_slice by lia. rewrite lookup_app_l by lia.
  rewrite list_lookup_delete_ge by lia. unfold dir_of_block. rewrite lookup_arr by (unfold NFILES; lia).
  do 3 f_equal. lia.
Qed.

Lemma dir_carry_slot c b f0 fs0 :
  length b = BLK -> length c = BLK -> dir_of_block c = f0 :: fs0 ->
  dir_of_block (carry_slot c b) = <[14%nat := f0]> (dir_of_block b).
Proof.
  intros Hb Hc Ef. unfold dir_of_block, carry_slot. change (NFILES - 1)%nat with 14%nat.
  change (260 * 14)%nat with (0 + 260 * 14)%nat.
  rewrite arr_store by (rewrite ?length_slice; unfold NFILES; blia). f_equal.
  assert (dir_of_block c !! 0%nat = Some f0) as H by (by rewrite Ef).
  unfold dir_of_block in H. rewrite lookup_arr in H by (unfold NFILES; lia). by injection H.
Qed.

Lemma split_used c X (U R : list lolelffs_file) :
  dir_of_block c ++ X = U ++ R ->
  exists U1 R1 U2 R2, dir_of_block c = U1 ++ R1 /\ X = U2 ++ R2 /\ U = U1 ++ U2 /\ R = R1 ++ R2 /\
    (R1 = [] \/ U2 = []).
Proof.
  intros [(k & E1 & E2)|(k & E1 & E2)]%app_eq_inv.
  - exists U, k, [], X. rewrite app_nil_r. split_and!; auto.
  - exists (dir_of_block c), [], k, R. rewrite app_nil_r. split_and!; auto.
Qed.

Lemma dir_cons c : exists f0 fs0, dir_of_block c = f0 :: fs0 /\ length fs0 = 14%nat.
Proof.
  pose proof (length_dir_of_block c) as H. destruct (dir_of_block c) as [|f0 fs0]; [done|].
  exists f0, fs0. split; [done|]. cbn [length] in H. unfold NFILES in H. lia.
Qed.

Definition used_file (f : lolelffs_file) : Prop := f_inode f <> 0.

(** After the entry was found: each block gives its first entry to the one before. *)
Lemma carry_spec bs : forall start bi ino p pb s U R z,
  blk_at s p = Some pb -> length pb = BLK -> dir_of_block pb !! 14%nat = Some z -> unused z ->
  run_blocks s (start + bi) bs -> ~ start + bi <= p < start + bi + Z.of_nat (length bs) ->
  0 <= start + bi -> start + bi + Z.of_nat (length bs) <= 2 ^ 32 ->
  files bs = U ++ R -> Forall used_file U -> Forall unused R ->
  exists s' q pb' bs' R', remove_blocks (length bs) start bi ino (Some p) s = (Ok (Some q), s') /\
    blk_at s' p = Some pb' /\ length pb' = BLK /\ length bs' = length bs /\ run_blocks s' (start + bi) bs' /\
    (forall j, j <> p -> ~ start + bi <= j < start + bi + Z.of_nat (length bs) -> blk_at s' j = blk_at s j) /\
    fs_sbi s' = fs_sbi s /\ fs_icache s' = fs_icache s /\ fs_k s' = fs_k s /\
    Forall unused R' /\ dir_of_block pb' ++ files bs' = take 14 (dir_of_block pb) ++ U ++ R'.
Proof.
  induction bs as [|c bs IH]; intros start bi ino p pb s U R z Hp Hlp Hz Huz Hrun Hout H0 H32 Hf HU HR;
    cbn [length remove_blocks].
  { assert (U = []) as -> by (by destruct U). assert (R = []) as -> by (by destruct R).
    exists s, p, pb, [], [z]. split_and!; try done; [by constructor|]. cbn [files map concat app].
    rewrite app_nil_r. symmetry. apply take_S_r in Hz. rewrite <- Hz. apply take_ge. by rewrite length_dir_of_block. }
  destruct (run_blocks_head _ _ _ _ Hrun) as [Hc Hlc]. cbn [length] in *. rewrite u32_small by lia.
  rewrite (bind_run _ _ _ _ _ (bread_run _ _ _ Hc)). destruct (dir_cons c) as (f0 & fs0 & Ec & Hl0).
  cbv beta. rewrite Ec. cbn [lookup list_lookup default from_option id].
  change (files (c :: bs)) with (dir_of_block c ++ files bs) in Hf.
  destruct (Z.eqb_spec (f_inode f0) 0) as [E0|E0].
  { assert (U = []) as ->.
    { destruct U as [|u U]; [done|]. rewrite Ec in Hf. injection Hf as -> _. by apply Forall_cons in HU as [? _]. }
    exists s, p, pb, (c :: bs), (z :: R). split_and!; try done; [by constructor|]. cbn [app] in *.
    change (files (c :: bs)) with (dir_of_block c ++ files bs). rewrite Hf. apply take_S_r in Hz.
    rewrite <- (take_ge (dir_of_block pb) 15), Hz, <- app_assoc by (by rewrite length_dir_of_block). done. }
  set (pb1 := carry_slot c pb). set (s1 := snd (bwrite p pb1 s)).
  assert (bupdate p (carry_slot c) s = (Ok tt, s1)) as Hb1.
  { unfold bupdate. by rewrite (bind_run _ _ _ _ _ (bread_run _ _ _ Hp)). }
  rewrite (bind_run _ _ _ _ _ Hb1).
  assert (blk_at s1 (start + bi) = Some c) as Hc1 by (unfold s1; rewrite blk_at_bwrite, decide_False by lia; done).
  set (c1 := remove_slot 0 c). set (s2 := snd (bwrite (start + bi) c1 s1)).
  assert (bupdate (start + bi) (remove_slot 0) s1 = (Ok tt, s2)) as Hb2.
  { unfold bupdate. by rewrite (bind_run _ _ _ _ _ (bread_run _ _ _ Hc1)). }
  rewrite (bind_run _ _ _ _ _ Hb2).
  assert (forall j, j <> p -> j <> start + bi -> blk_at s2 j = blk_at s j) as Hat2.
  { intros j ? ?. unfold s2, s1. rewrite !blk_at_bwrite, !decide_False by lia. done. }
  assert (dir_of_block c1 = fs0 ++ [zero_file]) as Ec1.
  { unfold c1. rewrite dir_remove_slot by (done || unfold NFILES; lia). by rewrite Ec. }
  destruct (split_used c (files bs) U R Hf) as (U1 & R1 & U2 & R2 & E1 & E2 & -> & -> & Hor).
  apply Forall_app in HU as [HU1 HU2]. apply Forall_app in HR as [HR1 HR2].
  destruct (IH start (bi + 1) ino (start + bi) c1 s2 U2 R2 zero_file)
    as (s' & q & c' & bs' & R' & Hrm & Hc' & Hlc' & Hlbs' & Hrun' & Hat' & Es & Ei & Ek & HR' & Hcat);
    try (rewrite Z.add_assoc); try done; try lia.
  { unfold s2. by rewrite blk_at_bwrite, decide_True. }
  { unfold c1. by rewrite length_remove_slot. }
  { rewrite Ec1, lookup_app_r by lia. by rewrite Hl0. }
  { intros k d Hk. rewrite Hat2; [by apply (run_blocks_tail _ _ _ _ Hrun)|apply lookup_lt_Some in Hk; lia..]. }
  exists s', q, pb1, (c' :: bs'), (R1 ++ R'). rewrite Z.add_assoc in *.
  split_and!; try done.
  - rewrite Hat' by lia. unfold s2. rewrite blk_at_bwrite, decide_False by lia. unfold s1. by rewrite blk_at_bwrite, decide_True.
  - unfold pb1. by rewrite length_carry_slot.
  - cbn [length]. by rewrite Hlbs'.
  - by apply run_blocks_cons.
  - intros j Hj1 Hj2. rewrite Hat', Hat2 by lia. done.
  - by apply Forall_app.
  - change (files (c' :: bs')) with (dir_of_block c' ++ files bs'). rewrite Hcat, Ec1.
    rewrite take_app_le, take_ge by lia. unfold pb1. rewrite (dir_carry_slot c pb f0 fs0 Hlp Hlc Ec).
    rewrite (insert_take_drop _ _ _ (lookup_lt_Some _ _ _ Hz)), drop_ge by (rewrite length_dir_of_block; unfold NFILES; lia).
    rewrite <- !app_assoc. f_equal. cbn [app]. change (f0 :: fs0 ++ U2 ++ R') with ((f0 :: fs0) ++ U2 ++ R').
    rewrite <- Ec, E1. destruct Hor as [-> | ->]; by rewrite ?app_nil_r, <- ?app_assoc.
Qed.

Fixpoint rm_file (U : list lolelffs_file) (ino : Z) : list lolelffs_file :=
  match U with
  | [] => []
  | f :: U => if f_inode f =? ino then U else f :: rm_file U ino
  end.

Lemma find_slot_spec fs0 : forall k ino,
  match find_slot fs0 k ino with
  | None => Forall (fun f => f_inode f <> ino) fs0
  | Some j => (k <= j)%nat /\ (exists f, fs0 !! (j - k)%nat = Some f /\ f_inode f = ino) /\
      forall rest, rm_file (fs0 ++ rest) ino = delete (j - k)%nat fs0 ++ rest
  end.
Proof.
  induction fs0 as [|f fs0 IH]; intros k ino; cbn [find_slot]; [done|].
  destruct (Z.eqb_spec (f_inode f) ino) as [E|E].
  - rewrite Nat.sub_diag. split_and!; [done|by exists f|]. intros rest. cbn [app rm_file].
    by rewrite (proj2 (Z.eqb_eq _ _) E).
  - specialize (IH (S k) ino). destruct (find_slot fs0 (S k) ino) as [j|]; [|by constructor].
    destruct IH as (Hk & (g & Hg & Eg) & Hrm). replace (j - k)%nat with (S (j - S k)) by lia.
    split_and!; [lia|by exists g|]. intros rest. cbn [app rm_file]. rewrite (proj2 (Z.eqb_neq _ _) E). by rewrite Hrm.
Qed.

Lemma rm_file_absent U ino V : Forall (fun f => f_inode f <> ino) U -> rm_file (U ++ V) ino = U ++ rm_file V ino.
Proof. induction 1 as [|f U E _ IH]; [done|]. cbn [app rm_file]. rewrite (proj2 (Z.eqb_neq _ _) E). by rewrite IH. Qed.

Lemma rm_file_present U ino V : Exists (fun f => f_inode f = ino) U -> rm_file (U ++ V) ino = rm_file U ino ++ V.
Proof.
  induction U as [|f U IH]; intros H; [by apply Exists_nil in H|]. cbn [app rm_file].
  destruct (Z.eqb_spec (f_inode f) ino) as [|E]; [done|]. apply Exists_cons in H as [?|H]; [done|]. by rewrite IH.
Qed.

(** Looking for the entry, then removing it. *)
Lemma remove_blocks_spec bs : forall start bi ino s U R,
  ino <> 0 -> run_blocks s (start + bi) bs -> 0 <= start + bi -> start + bi + Z.of_nat (length bs) <= 2 ^ 32 ->
  files bs = U ++ R -> Forall used_file U -> Forall unused R ->
  (Forall (fun f => f_inode f <> ino) U /\ remove_blocks (length bs) start bi ino None s = (Ok None, s)) \/
  (Exists (fun f => f_inode f = ino) U /\
   exists s' q bs' R', remove_blocks (length bs) start bi ino None s = (Ok (Some q), s') /\
     length bs' = length bs /\ run_blocks s' (start + bi) bs' /\
     same_outside (start + bi) (Z.of_nat (length bs)) s s' /\ Forall unused R' /\ files bs' = rm_file U ino ++ R').
Proof.
  induction bs as [|c bs IH]; intros start bi ino s U R Hino Hrun H0 H32 Hf HU HR; cbn [length remove_blocks].
  { assert (U = []) as -> by (by destruct U). by left. }
  destruct (run_blocks_head _ _ _ _ Hrun) as [Hc Hlc]. cbn [length] in *. rewrite u32_small by lia.
  rewrite (bind_run _ _ _ _ _ (bread_run _ _ _ Hc)). cbv beta. destruct (dir_cons c) as (f0 & fs0 & Ec & Hl0).
  change (files (c :: bs)) with (dir_of_block c ++ files bs) in Hf.
  destruct (Z.eqb_spec (f_inode (default zero_file (dir_of_block c !! 0%nat))) 0) as [E0|E0].
  { left. assert (U = []) as ->; [|done]. destruct U as [|u U]; [done|]. rewrite Ec in Hf, E0.
    injection Hf as -> _. by apply Forall_cons in HU as [? _]. }
  destruct (split_used c (files bs) U R Hf) as (U1 & R1 & U2 & R2 & E1 & E2 & -> & -> & Hor).
  apply Forall_app in HU as [HU1 HU2]. apply Forall_app in HR as [HR1 HR2].
  pose proof (find_slot_spec (dir_of_block c) 0 ino) as Hfind.
  destruct (find_slot (dir_of_block c) 0 ino) as [fi|].
  - destruct Hfind as (_ & (f & Hfi & Efi) & Hrm). rewrite Nat.sub_0_r in *.
    assert (fi < NFILES)%nat as Hlt by (apply lookup_lt_Some in Hfi; by rewrite length_dir_of_block in Hfi).
    assert (U1 !! fi = Some f) as HfU1.
    { rewrite E1 in Hfi. apply lookup_app_Some in Hfi as [?|[_ Hin]]; [done|].
      exfalso. apply Hino. rewrite <- Efi. by eapply (Forall_lookup_1 _ _ _ _ HR1). }
    set (c1 := remove_slot fi c). unfold bwrite. rewrite bind_modify.
    change (set_disk _ s) with (snd (bwrite (start + bi) c1 s)). set (s1 := snd (bwrite (start + bi) c1 s)).
    assert (forall j, j <> start + bi -> blk_at s1 j = blk_at s j) as Hat1
      by (intros; unfold s1; by rewrite blk_at_bwrite, decide_False by lia).
    assert (dir_of_block c1 = delete fi (dir_of_block c) ++ [zero_file]) as Ec1 by (by apply dir_remove_slot).
    assert (length (delete fi (dir_of_block c)) = 14%nat) as Hld.
    { rewrite length_delete by eauto. by rewrite length_dir_of_block. }
    destruct (carry_spec bs start (bi + 1) ino (start + bi) c1 s1 U2 R2 zero_file)
      as (s' & q & c' & bs' & R' & Hrun2 & Hc' & Hlc' & Hlbs' & Hrb & Hat' & Es & Ei & Ek & HR' & Hcat);
      rewrite ?Z.add_assoc; try done; try lia.
    { unfold s1. by rewrite blk_at_bwrite, decide_True. }
    { unfold c1. by rewrite length_remove_slot. }
    { rewrite Ec1, lookup_app_r by lia. by rewrite Hld. }
    { intros k d Hk. rewrite Hat1; [by apply (run_blocks_tail _ _ _ _ Hrun)|apply lookup_lt_Some in Hk; lia]. }
    right. split; [apply Exists_app; left; apply Exists_exists; exists f; split; [by apply list_elem_of_lookup_2 with fi|done]|].
    exists s', q, (c' :: bs'), (R1 ++ R'). rewrite Z.add_assoc in *. split_and!; try done.
    + cbn [length]. by rewrite Hlbs'.
    + by apply run_blocks_cons.
    + split_and!; try done. intros j Hj. rewrite Hat', Hat1 by lia. done.
    + by apply Forall_app.
    + change (files (c' :: bs')) with (dir_of_block c' ++ files bs'). rewrite Hcat, Ec1.
      rewrite take_app_le, take_ge by lia.
      assert (Exists (fun f => f_inode f = ino) U1) as HexU
        by (apply Exists_exists; exists f; split; [by apply list_elem_of_lookup_2 with fi|done]).
      pose proof (Hrm []) as Hdel. rewrite !app_nil_r in Hdel. rewrite <- Hdel, E1, !rm_file_present by done.
      destruct Hor as [-> | ->]; by rewrite ?app_nil_r, <- ?app_assoc.
  - destruct (IH start (bi + 1) ino s U2 R2 Hino) as [[Hno Hrun2]|(Hex & s' & q & bs' & R' & Hrun2 & Hl' & Hrb & Hso & HR' & Hfs)];
      rewrite ?Z.add_assoc; try done; try lia; [by eapply run_blocks_tail|left|right].
    + split; [|done]. apply Forall_app. split; [|done]. rewrite E1 in Hfind. by apply Forall_app in Hfind as [? _].
    + destruct Hor as [-> | ->]; [|by apply Exists_nil in Hex]. rewrite app_nil_r in E1. rewrite E1 in Hfind.
      split; [by apply Exists_app; right|]. destruct Hso as (Es & Ei & Ek & Hat).
      exists s', q, (c :: bs'), R'. rewrite Z.add_assoc in *. split_and!; try done.
      * cbn [length]. by rewrite Hl'.
      * apply run_blocks_cons; [by rewrite Hat by lia|done|done].
      * split_and!; try done. intros j Hj. apply Hat. lia.
      * change (files (c :: bs')) with (dir_of_block c ++ files bs'). rewrite E1, Hfs, rm_file_absent by done.
        by rewrite app_assoc.
Qed.

Lemma rm_file_entries l ino : rm_file (map file_of l) ino = map file_of (d_remove l ino).
Proof. induction l as [|d l IH]; [done|]. cbn [map rm_file d_remove file_of f_inode]. destruct (snd d =? ino); [done|]. cbn [map]. by rewrite IH. Qed.

Lemma entries_used l : Forall dentry_ok l -> Forall used_file (map file_of l).
Proof. intros H. apply Forall_map. eapply Forall_impl; [exact H|]. intros d [_ ?]. unfold used_file. cbn. lia. Qed.


Lemma d_remove_ok l ino : Forall dentry_ok l -> Forall dentry_ok (d_remove l ino).
Proof.
  induction l as [|d l IH]; intros H; cbn [d_remove]; [done|]. apply Forall_cons in H as [Hd Hl].
  destruct (snd d =? ino); [done|]. constructor; [done|by apply IH].
Qed.

Lemma d_remove_length l ino :
  Exists (fun d => snd d = ino) l -> length l = S (length (d_remove l ino)).
Proof.
  induction l as [|d l IH]; intros H; [by apply Exists_nil in H|]. cbn [d_remove].
  destruct (Z.eqb_spec (snd d) ino) as [|E]; [done|]. apply Exists_cons in H as [?|H]; [done|]. cbn [length]. by rewrite IH.
Qed.

Lemma d_remove_absent l ino : Forall (fun d => snd d <> ino) l -> d_remove l ino = l.
Proof. induction 1 as [|d l E _ IH]; [done|]. cbn [d_remove]. rewrite (proj2 (Z.eqb_neq _ _) E). by rewrite IH. Qed.

Lemma remove_extents_one e0 e1 es ino r s s' :
  ee_start e0 <> 0 -> ee_start e1 = 0 -> remove_blocks (Z.to_nat (ee_len e0)) (ee_start e0) 0 ino None s = (Ok r, s') ->
  remove_extents (e0 :: e1 :: es) ino None s = (Ok r, s').
Proof.
  intros H0 H1 Hr. cbn [remove_extents]. rewrite (proj2 (Z.eqb_neq _ _) H0), (bind_run _ _ _ _ _ Hr). by rewrite H1.
Qed.

(** remove_from_dir deletes the first entry with the inode. *)
Lemma remove_from_dir_spec s dir inode d v b bs l :
  fs_icache s !! dir = Some d -> fs_icache s !! inode = Some v -> i_ino v <> 0 ->
  dir_rep s (ei_block d) b bs l ->
  exists s' b' bs', lolelffs_remove_from_dir dir inode s = (Ok tt, s') /\
    dir_rep s' (ei_block d) b' bs' (d_remove l (i_ino v)) /\ dext b' = dext b /\
    fs_sbi s' = fs_sbi s /\ fs_icache s' = fs_icache s /\ fs_k s' = fs_k s /\
    forall j, j <> ei_block d -> j ∉ range (ee_start (dext b)) (Z.of_nat (length bs)) -> blk_at s' j = blk_at s j.
Proof.
  intros Hd Hv Hino Hrep. destruct (dir_bounds _ _ _ _ _ Hrep) as (H0 & H32 & Hle & _).
  pose proof Hrep as [Hinv Hr Hb Hcnt Hs Hrun Hbl Hen (R & Hf & HR) Hu Ha].
  unfold lolelffs_remove_from_dir, inode_at. rewrite !bind_gets, Hd, Hv. cbn [default from_option id].
  rewrite (bind_run _ _ _ _ _ (bread_run _ _ _ Hr)).
  destruct (extents_cons2 b) as (e1 & es & -> & ->).
  destruct (Z.eqb_spec (ee_start (dext b)) 0) as [E|Hnz].
  { cbn [remove_extents]. rewrite E. cbn [Z.eqb]. rewrite bind_mret. subst bs. assert (l = []) as -> by (by destruct l).
    exists s, b, []. split_and!; done. }
  destruct Hrun as [Hel Hl8]. assert (length bs = Z.to_nat (ee_len (dext b))) as Hn by (by rewrite Hel, Hl8).
  destruct (remove_blocks_spec bs (ee_start (dext b)) 0 (i_ino v) s (map file_of l) R Hino)
    as [[Hno Hrm]|(Hex & s1 & q & bs' & R' & Hrm & Hl' & Hrb & (Es & Ei & Ek & Hat) & HR' & Hfs)];
    rewrite ?Z.add_0_r; try done; [by apply entries_used|rewrite Hn in Hrm..].
  { rewrite (bind_run _ _ _ _ _ (remove_extents_one _ _ es _ _ _ _ Hnz Hs Hrm)).
    assert (Forall (fun d => snd d <> i_ino v) l) as Hno' by (exact (proj1 (Forall_fmap file_of _ l) Hno)).
    rewrite d_remove_absent by done. exists s, b, bs. split_and!; done. }
  rewrite (bind_run _ _ _ _ _ (remove_extents_one _ _ es _ _ _ _ Hnz Hs Hrm)). rewrite Z.add_0_r in Hrb, Hat.
  assert (blk_at s1 (ei_block d) = Some b) as Hr1.
  { rewrite Hat; [done|]. intros Hin. by apply Ha, elem_of_range. }
  unfold bupdate. rewrite (bind_run _ _ _ _ _ (bread_run _ _ _ Hr1)). set (b' := put_nr_files _ b).
  apply Exists_exists in Hex as (f & Hfin & Ef). apply list_elem_of_fmap in Hfin as (x & -> & Hx). cbn in Ef.
  assert (length l = S (length (d_remove l (i_ino v)))) as Hlen.
  { apply d_remove_length, Exists_exists. by exists x. }
  assert (ei_of_block b' = FileEi (Z.of_nat (length (d_remove l (i_ino v)))) (extents (ei_of_block b))) as Eb'.
  { unfold b'. rewrite ei_put_nr_files by apply Hb. f_equal. rewrite Hcnt. unfold NFILES in Hle.
    rewrite (u32_small (Z.of_nat (length l) - 1)) by lia. rewrite u32_small by lia. lia. }
  assert (forall i, ext (ei_of_block b') i = ext (ei_of_block b) i) as Ex by (intros; unfold ext; by rewrite Eb').
  assert (block_ok b') as Hb' by (by apply block_ok_put_nr_files). clearbody b'.
  set (s2 := snd (bwrite (ei_block d) b' s1)).
  assert (forall j, j <> ei_block d -> blk_at s2 j = blk_at s1 j) as Hat2
    by (intros; unfold s2; by rewrite blk_at_bwrite, decide_False).
  exists s2, b', bs'. split; [done|]. split; [|split_and!; try done].
  - split; rewrite ?Ex, ?Hl'; try done.
    + change (fs_sbi s2) with (fs_sbi s1). by rewrite Es.
    + unfold s2. by rewrite blk_at_bwrite, decide_True.
    + by rewrite Eb'.
    + by rewrite (proj2 (Z.eqb_neq _ _) Hnz).
    + intros k c Hk. rewrite Hat2; [by apply Hrb|]. intros E. apply Ha, elem_of_range.
      apply lookup_lt_Some in Hk. lia.
    + by apply d_remove_ok.
    + exists R'. by rewrite Hfs, rm_file_entries.
    + change (fs_sbi s2) with (fs_sbi s1). by rewrite Es.
  - intros j Hj1 Hj2. rewrite Hat2 by done. apply Hat. rewrite elem_of_range in Hj2. lia.
Qed.

(** ** New inodes *)

Definition meta_ok (s : fs) : Prop :=
  let d := sbd (fs_sbi s) in
  nr_inodes d <= 56 * nr_istore_blocks d /\ 0 <= nr_istore_blocks d /\ 0 <= nr_ifree_blocks d /\
  0 <= nr_bfree_blocks d.

Record fs_ok (s : fs) : Prop := {
  fk_blocks : block_inv (fs_sbi s);
  fk_inodes : inode_inv (fs_sbi s);
  fk_cache : forall i v, fs_icache s !! i = Some v -> i_ino v = i;
  fk_free : forall x, x ∈ free_blocks (fs_sbi s) -> data_start s <= x;
  fk_meta : meta_ok s
}.

Lemma geom_inv s s' :
  geom s' = geom s -> data_start s' = data_start s /\ fs_offset (fs_sbi s') = fs_offset (fs_sbi s) /\
  nr_blocks (sbd (fs_sbi s')) = nr_blocks (sbd (fs_sbi s)) /\ nr_inodes (sbd (fs_sbi s')) = nr_inodes (sbd (fs_sbi s)).
Proof. unfold geom, data_start. cbv zeta. intros [= -> -> -> -> -> -> _]. done. Qed.

Lemma geom_large s s' :
  geom s' = geom s -> max_extent_blocks_large (sbd (fs_sbi s')) = max_extent_blocks_large (sbd (fs_sbi s)).
Proof. by intros [= _ _ _ _ _ _ ->]. Qed.

Lemma geom_get_inode s : geom (set_sbi (snd (get_free_inode (fs_sbi s))) s) = geom s.
Proof. unfold get_free_inode. by destruct (get_first_free_bits _ _ _). Qed.

Lemma geom_get_blocks s len : geom (set_sbi (snd (get_free_blocks (fs_sbi s) len)) s) = geom s.
Proof. unfold get_free_blocks. by destruct (get_first_free_bits _ _ _). Qed.

Lemma block_inv_get_inode s : block_inv s -> block_inv (snd (get_free_inode s)) /\
  free_blocks (snd (get_free_inode s)) = free_blocks s.
Proof. unfold get_free_inode. by destruct (get_first_free_bits _ _ _). Qed.

Lemma inode_inv_get_blocks s len : inode_inv s -> inode_inv (snd (get_free_blocks s len)) /\
  free_inodes (snd (get_free_blocks s len)) = free_inodes s.
Proof. unfold get_free_blocks. by destruct (get_first_free_bits _ _ _). Qed.

Lemma inode_upd_run inode f v s :
  fs_icache s !! inode = Some v -> inode_upd inode f s = (Ok tt, set_icache (<[inode := f v]> (fs_icache s)) s).
Proof. intros H. unfold inode_upd, inode_at. rewrite bind_gets, H. done. Qed.

Lemma with_sbi_run {A} (f : lolelffs_sb_info -> A * lolelffs_sb_info) s a sbi' :
  f (fs_sbi s) = (a, sbi') -> with_sbi f s = (Ok a, set_sbi sbi' s).
Proof. unfold with_sbi. by intros ->. Qed.

Lemma attempt_run {A} (m : M fs A) s r s' : m s = (r, s') -> attempt m s = (Ok r, s').
Proof. unfold attempt. by intros ->. Qed.

Lemma range_1 x : range x 1 = {[x]}.
Proof. apply set_eq. intros y. rewrite elem_of_range, elem_of_singleton. lia. Qed.

Lemma put_blocks_inodes s bno len :
  ifree_bitmap (put_blocks s bno len) = ifree_bitmap s /\ nr_inodes (sbd (put_blocks s bno len)) = nr_inodes (sbd s) /\
  nr_free_inodes (sbd (put_blocks s bno len)) = nr_free_inodes (sbd s).
Proof. unfold put_blocks. by destruct (put_free_bits _ _ _ _). Qed.

Lemma put_inode_frame s ino :
  bfree_bitmap (put_inode s ino) = bfree_bitmap s /\ nr_blocks (sbd (put_inode s ino)) = nr_blocks (sbd s) /\
  nr_free_blocks (sbd (put_inode s ino)) = nr_free_blocks (sbd s).
Proof. unfold put_inode. by destruct (put_free_bits _ _ _ _). Qed.

Lemma geom_put s bno ino : geom (set_sbi (put_inode (put_blocks (fs_sbi s) bno 1) ino) s) = geom s.
Proof.
  unfold geom, put_inode, put_blocks. cbn [set_sbi fs_sbi].
  destruct (put_free_bits _ _ bno 1); cbn; by destruct (put_free_bits _ _ ino 1).
Qed.

(** An inode and its block go back to the free maps. *)
Lemma put_block_inode_spec s bno ino :
  block_inv (fs_sbi s) -> inode_inv (fs_sbi s) ->
  bno ∈ univ (nr_blocks (sbd (fs_sbi s))) ∖ free_blocks (fs_sbi s) ->
  ino ∈ univ (nr_inodes (sbd (fs_sbi s))) ∖ free_inodes (fs_sbi s) ->
  let sbi' := put_inode (put_blocks (fs_sbi s) bno 1) ino in
  block_inv sbi' /\ inode_inv sbi' /\ free_blocks sbi' = free_blocks (fs_sbi s) ∪ {[bno]} /\
  free_inodes sbi' = free_inodes (fs_sbi s) ∪ {[ino]} /\ geom (set_sbi sbi' s) = geom s.
Proof.
  intros Hbi Hii Hbno Hino sbi'. set (sbi1 := put_blocks (fs_sbi s) bno 1).
  destruct (put_run (fs_sbi s) bno 1 Hbi ltac:(lia)) as [Hbi1 HF1]; [rewrite range_1; set_solver|]. fold sbi1 in Hbi1, HF1.
  destruct (put_blocks_inodes (fs_sbi s) bno 1) as (Em1 & Em2 & Em3). fold sbi1 in Em1, Em2, Em3.
  assert (free_inodes sbi1 = free_inodes (fs_sbi s)) as HFi1 by (unfold free_inodes; by rewrite Em1, Em2).
  assert (inode_inv sbi1) as Hii1 by (unfold inode_inv; by rewrite Em1, Em2, Em3).
  destruct (al_put_ok (Allocator := inode_allocator) sbi1 ino 1 Hii1 eq_refl) as (Hii2 & _ & HF2).
  { cbn. rewrite range_1, Em2, HFi1. set_solver. }
  destruct (put_inode_frame sbi1 ino) as (G1 & G3 & G4). split_and!.
  - unfold block_inv, sbi'. fold sbi1. by rewrite G1, G3, G4.
  - exact Hii2.
  - unfold sbi', free_blocks in *. fold sbi1. by rewrite G1, G3, HF1, range_1.
  - transitivity (free_inodes sbi1 ∪ range ino 1); [exact HF2|]. by rewrite HFi1, range_1.
  - apply geom_put.
Qed.

(** A new directory or regular file [v]: an inode and a block leave the free
    maps, and the inode in the cache points to the block. *)
Record new_inode (s : fs) (mode ino : Z) (s1 : fs) (v : vinode) : Prop := {
  ni_cache : fs_icache s1 = <[ino := v]> (fs_icache s);
  ni_ino : i_ino v = ino;
  ni_fields : i_nlink v = (if S_ISDIR mode then 2 else 1) /\ xattr_block v = 0 /\
     exists p, i_mode v = snd (inode_init_owner (fs_k s) p mode);
  ni_free : ino ∈ free_inodes (fs_sbi s);
  ni_range : 0 < ino < 2 ^ 32;
  ni_block : ei_block v ∈ free_blocks (fs_sbi s);
  ni_disk : fs_disk s1 = fs_disk s;
  ni_k : fs_k s1 = fs_k s;
  ni_geom : geom s1 = geom s;
  ni_binv : block_inv (fs_sbi s1);
  ni_iinv : inode_inv (fs_sbi s1);
  ni_blocks : free_blocks (fs_sbi s1) = free_blocks (fs_sbi s) ∖ {[ei_block v]};
  ni_inodes : free_inodes (fs_sbi s1) = free_inodes (fs_sbi s) ∖ {[ino]}
}.

Lemma new_inode_inv s dir mode ino s1 :
  fs_ok s -> S_ISLNK mode = false -> lolelffs_new_inode dir mode s = (Ok ino, s1) ->
  exists v, new_inode s mode ino s1 v.
Proof.
  intros Hok Hlnk. unfold lolelffs_new_inode. destruct (_ && _ && _) eqn:Emode; [done|].
  rewrite bind_gets. cbn [id]. cbv zeta.
  destruct (_ || _); [done|]. destruct (get_free_inode (fs_sbi s)) as [i sbi1] eqn:Egi.
  rewrite (bind_run _ _ _ _ _ (with_sbi_run _ _ _ _ Egi)).
  destruct (al_get_ok (Allocator := inode_allocator) (fs_sbi s) 1 i sbi1 (fk_inodes _ Hok) eq_refl Egi)
    as (Hii & _ & [(Hnz & Hsub & HFi)|(-> & _)]); [|done].
  pose proof (block_inv_get_inode (fs_sbi s) (fk_blocks _ Hok)) as [Hbi HFb]. rewrite Egi in Hbi, HFb. cbn [snd] in Hbi, HFb.
  pose proof (geom_get_inode s) as Hg1. rewrite Egi in Hg1. cbn [snd] in Hg1.
  rewrite (proj2 (Z.eqb_neq _ _) Hnz). set (s2 := set_sbi sbi1 s) in *. rewrite Hlnk.
  destruct (lolelffs_iget i s2) as [ri s3] eqn:Eig. rewrite (bind_run _ _ _ _ _ (attempt_run _ _ _ _ Eig)).
  assert (i ∈ free_inodes (fs_sbi s)) as Hfree by (apply Hsub, elem_of_range; lia).
  assert (0 < i < 2 ^ 32) as Hi32.
  { pose proof (map_inv_univ _ _ _ (fk_inodes _ Hok)) as Hu. destruct (fk_inodes _ Hok) as [? _].
    apply Hu in Hfree. unfold univ in Hfree. rewrite elem_of_range in Hfree. lia. }
  destruct ri as [i'|e]; [|intros H; by apply bind_Ok in H as (? & ? & _ & H)].
  assert (exists v0, i' = i /\ s3 = set_icache (<[i := v0]> (fs_icache s)) s2 /\ i_ino v0 = i) as (v0 & -> & -> & Hv0).
  { unfold lolelffs_iget in Eig. rewrite bind_gets in Eig. cbn [id] in Eig. case_match; [done|].
    change (fs_icache s2) with (fs_icache s) in Eig. destruct (fs_icache s !! i) as [v0|] eqn:Ec.
    - injection Eig as <- <-. exists v0. split_and!; [done| |by apply (fk_cache _ Hok)].
      rewrite insert_id by done. by destruct s.
    - destruct (oom _ _); [done|]. apply bind_Ok in Eig as (b & s4 & Hb & Eig). apply bread_inv in Hb as [-> _].
      unfold inode_put in Eig. rewrite bind_modify in Eig. injection Eig as <- <-. eexists. split_and!; done. }
  set (s3 := set_icache _ s2). unfold inode_at. rewrite bind_gets. destruct (get_free_blocks (fs_sbi s3) 1) as [bno sbi2] eqn:Egb.
  rewrite (bind_run _ _ _ _ _ (with_sbi_run (fun x => get_free_blocks x 1) _ _ _ Egb)).
  destruct (al_get_ok (Allocator := block_allocator) (fs_sbi s3) 1 bno sbi2 Hbi ltac:(cbn; lia) Egb)
    as (Hbi2 & _ & [(Hbnz & Hbsub & HFb2)|(-> & _)]).
  2:{ cbn [Z.eqb]. intros H. apply bind_Ok in H as (? & ? & _ & H). apply bind_Ok in H as (? & ? & _ & H). done. }
  rewrite (proj2 (Z.eqb_neq _ _) Hbnz). set (s4 := set_sbi sbi2 s3).
  assert (fs_icache s4 !! i = Some v0) as Hc4 by apply lookup_insert_eq.
  rewrite (bind_run _ _ _ _ _ (inode_upd_run i _ v0 s4 Hc4)).
  rewrite (bind_run _ _ _ _ _ (inode_upd_run i _ _ _ (lookup_insert_eq _ _ _))).
  rewrite (bind_run _ _ _ _ _ (inode_upd_run i _ _ _ (lookup_insert_eq _ _ _))).
  intros [= <- <-]. cbn [set_icache fs_icache]. change (fs_icache s4) with (<[i := v0]> (fs_icache s)).
  rewrite !insert_insert_eq. pose proof (geom_get_blocks s3 1) as Hg2. rewrite Egb in Hg2. cbn [snd] in Hg2.
  pose proof (inode_inv_get_blocks (fs_sbi s3) 1 Hii) as [Hii2 HFi2]. rewrite Egb in Hii2, HFi2. cbn [snd] in Hii2, HFi2.
  assert (range bno 1 = {[bno]}) as Er1 by (apply set_eq; intros x; rewrite elem_of_range, elem_of_singleton; lia).
  assert (range i 1 = {[i]}) as Er2 by (apply set_eq; intros x; rewrite elem_of_range, elem_of_singleton; lia).
  assert (bno ∈ free_blocks (fs_sbi s)) as Hbf.
  { rewrite <- HFb. apply Hbsub, elem_of_range. lia. }
  rewrite Hlnk, andb_true_r in Emode.
  match goal with |- context [<[i := ?x]> (fs_icache s)] => set (v := x) end.
  assert (ei_block v = bno) as Ev by (unfold v; by destruct (S_ISDIR mode), (S_ISREG mode)).
  exists v. split; rewrite ?Ev; try done.
  - unfold v. by destruct (S_ISDIR mode), (S_ISREG mode).
  - unfold v. split_and!; destruct (S_ISDIR mode), (S_ISREG mode); try done; by eexists.
  - by transitivity (geom s3).
  - change (free_blocks sbi2 = free_blocks (fs_sbi s) ∖ {[bno]}). rewrite <- Er1, <- HFb. exact HFb2.
  - change (free_inodes sbi2 = free_inodes (fs_sbi s) ∖ {[i]}). rewrite <- Er2, HFi2. exact HFi.
Qed.

(** ** Writes to the metadata area *)

(** Nothing changes but blocks before the data area. *)
Definition meta_only (s s' : fs) : Prop :=
  fs_sbi s' = fs_sbi s /\ fs_icache s' = fs_icache s /\ fs_k s' = fs_k s /\
  (forall j, data_start s <= j -> blk_at s' j = blk_at s j) /\
  forall j, is_Some (blk_at s j) -> is_Some (blk_at s' j).

Lemma meta_only_refl s : meta_only s s.
Proof. done. Qed.

Lemma meta_only_trans s1 s2 s3 : meta_only s1 s2 -> meta_only s2 s3 -> meta_only s1 s3.
Proof.
  intros (E1 & E2 & E3 & E4 & E5) (F1 & F2 & F3 & F4 & F5). split_and!; try congruence; [|by auto].
  intros j Hj. rewrite F4, E4; [done..|]. unfold data_start in *. by rewrite E1.
Qed.

Lemma meta_only_bwrite s blk b : blk < data_start s -> meta_only s (snd (bwrite blk b s)).
Proof.
  intros H. split_and!; try done; intros j Hj; rewrite blk_at_bwrite; [by rewrite decide_False by lia|].
  by case_decide.
Qed.

Lemma meta_only_bupdate s blk f : blk < data_start s -> meta_only s (snd (bupdate blk f s)).
Proof.
  intros H. unfold bupdate, LOLELFFS_SB_BREAD, mbind, M_bind. destruct (fs_disk s !! _); [|apply meta_only_refl].
  by apply meta_only_bwrite.
Qed.

Lemma u32_le x : 0 <= x -> u32 x <= x.
Proof. intros. unfold u32. apply Z.mod_le; lia. Qed.

Lemma i32_le x : 0 <= x -> i32 x <= x.
Proof. intros H. unfold i32. pose proof (u32_le x H). pose proof (u32_range x). destruct (_ <? _); lia. Qed.

Lemma inode_block_meta s i : meta_ok s -> 0 <= i < nr_inodes (sbd (fs_sbi s)) -> inode_block_of i < data_start s.
Proof.
  intros (? & ? & ? & ?) Hi. unfold inode_block_of, data_start. change LOLELFFS_INODES_PER_BLOCK with 56.
  assert (0 <= i / 56 < nr_istore_blocks (sbd (fs_sbi s))).
  { split; [apply Z.div_pos; lia|]. apply Z.div_lt_upper_bound; lia. }
  pose proof (u32_le (i / 56 + 1)). lia.
Qed.

Lemma write_inode_meta s inode : meta_ok s -> meta_only s (snd (lolelffs_write_inode inode s)).
Proof.
  intros Hok. unfold lolelffs_write_inode, inode_at. rewrite !bind_gets. set (v := default _ _).
  destruct (Z.leb_spec (nr_inodes (sbd (fs_sbi s))) (u32 (i_ino v))) as [|Hlt]; [apply meta_only_refl|].
  apply meta_only_bupdate, inode_block_meta; [done|]. pose proof (u32_range (i_ino v)). lia.
Qed.

Lemma flush_bitmap_meta n : forall i first bm s,
  0 <= first -> first + Z.of_nat (i + n) <= data_start s -> meta_only s (snd (flush_bitmap n i first bm s)).
Proof.
  induction n as [|n IH]; intros i first bm s H0 Hn; cbn [flush_bitmap]; [apply meta_only_refl|].
  unfold LOLELFFS_SB_BREAD, mbind at 1, M_bind at 1. destruct (fs_disk s !! _); [|apply meta_only_refl].
  destruct (negb _); [apply meta_only_refl|]. unfold bwrite. rewrite bind_modify. set (s1 := set_disk _ s).
  pose proof (i32_le (first + Z.of_nat i)).
  apply (meta_only_trans _ s1); [apply (meta_only_bwrite s); lia|]. apply IH; [done|].
  change (data_start s1) with (data_start s). lia.
Qed.

Lemma sync_fs_meta s : meta_ok s -> meta_only s (snd (lolelffs_sync_fs s)).
Proof.
  intros (? & ? & ? & ?). unfold lolelffs_sync_fs. rewrite bind_gets. cbv zeta.
  assert (0 < data_start s) as Hd by (unfold data_start; lia).
  pose proof (meta_only_bupdate s 0 (sync_superblock (sbd (fs_sbi s))) Hd) as M1.
  unfold mbind at 1, M_bind at 1. destruct (bupdate 0 _ s) as [[?|?] s1]; [|done]. cbn [snd] in M1.
  set (m2 := flush_bitmap _ 0 (nr_istore_blocks _ + 1) _).
  assert (data_start s1 = data_start s) as Ed by (destruct M1 as (E & _); unfold data_start; by rewrite E).
  assert (meta_only s1 (snd (m2 s1))) as M2.
  { apply flush_bitmap_meta; [lia|]. rewrite Ed. unfold data_start. lia. }
  unfold mbind, M_bind. destruct (m2 s1) as [[?|?] s2]; cbn [snd] in M2; [|by eapply meta_only_trans].
  apply (meta_only_trans _ s2); [by eapply meta_only_trans|].
  assert (data_start s2 = data_start s) as Ed2 by (destruct M2 as (E & _); unfold data_start in *; by rewrite E).
  apply flush_bitmap_meta; [lia|]. rewrite Ed2. unfold data_start. lia.
Qed.

Lemma meta_ok_geom s s' : geom s' = geom s -> meta_ok s -> meta_ok s'.
Proof.
  unfold geom, meta_ok. cbv zeta. intros E (? & ? & ? & ?). injection E as E0 E1 E2 E3 E4 E5 _.
  rewrite ?E0, ?E1, ?E2, ?E3, ?E4, ?E5. done.
Qed.

Lemma meta_only_geom s s' : meta_only s s' -> geom s' = geom s.
Proof. intros (E & _). unfold geom. by rewrite E. Qed.

(** A directory survives whatever leaves its blocks alone and frees none of them. *)
Lemma dir_rep_frame_gen s s' dirblk b bs l :
  dir_rep s dirblk b bs l -> block_inv (fs_sbi s') -> nr_blocks (sbd (fs_sbi s')) = nr_blocks (sbd (fs_sbi s)) ->
  ({[dirblk]} ∪ range (ee_start (dext b)) (Z.of_nat (length bs))) ## free_blocks (fs_sbi s') ->
  (forall j, j ∈ ({[dirblk]} ∪ range (ee_start (dext b)) (Z.of_nat (length bs)) : gset Z) -> blk_at s' j = blk_at s j) ->
  dir_rep s' dirblk b bs l.
Proof.
  intros [? Hr ? ? ? ? Hbl ? ? Hu ?] Hinv En HF Hat. split; try done.
  - rewrite Hat; [done|]. apply elem_of_union_l, elem_of_singleton. done.
  - intros k c Hk. rewrite Hat; [by apply Hbl|]. apply elem_of_union_r, elem_of_range.
    apply lookup_lt_Some in Hk. lia.
  - rewrite En. clear -Hu HF. set_solver.
Qed.

Lemma dir_rep_frame s s' dirblk b bs l :
  dir_rep s dirblk b bs l -> block_inv (fs_sbi s') -> nr_blocks (sbd (fs_sbi s')) = nr_blocks (sbd (fs_sbi s)) ->
  free_blocks (fs_sbi s') ⊆ free_blocks (fs_sbi s) ->
  (forall j, j ∈ ({[dirblk]} ∪ range (ee_start (dext b)) (Z.of_nat (length bs)) : gset Z) -> blk_at s' j = blk_at s j) ->
  dir_rep s' dirblk b bs l.
Proof.
  intros Hd Hinv En HF Hat. apply (dir_rep_frame_gen s); try done.
  pose proof (dr_used _ _ _ _ _ Hd) as Hu. clear -Hu HF. set_solver.
Qed.

(** The blocks of a directory are in the data area. *)
Definition dir_in_data (s : fs) (dirblk : Z) (b : block) : Prop :=
  data_start s <= dirblk /\ (ee_start (dext b) = 0 \/ data_start s <= ee_start (dext b)).

Lemma dir_blocks_in_data s dirblk b bs l j :
  dir_rep s dirblk b bs l -> dir_in_data s dirblk b ->
  j ∈ ({[dirblk]} ∪ range (ee_start (dext b)) (Z.of_nat (length bs)) : gset Z) -> data_start s <= j.
Proof.
  intros Hd [H1 H2] Hj. apply elem_of_union in Hj as [->%elem_of_singleton|Hj]; [done|].
  apply elem_of_range in Hj. destruct H2 as [E|?]; [|lia].
  pose proof (dr_run _ _ _ _ _ Hd) as Hr. rewrite E in Hr. cbn [Z.eqb] in Hr. subst bs. cbn [length] in Hj. lia.
Qed.

(** The end of lolelffs_create: times, link count and metadata. *)
Lemma create_tail_spec s dir d inode mode r s' :
  fs_icache s !! dir = Some d -> meta_ok s ->
  (attempt (lolelffs_write_inode inode);;
   k ← gets fs_k;
   inode_upd dir (set_all_times k);;
   (if S_ISDIR mode then inode_upd dir inc_nlink else mret tt);;
   attempt (lolelffs_write_inode dir);;
   attempt lolelffs_sync_fs;;
   mret inode) s = (r, s') ->
  r = Ok inode /\ fs_sbi s' = fs_sbi s /\ fs_k s' = fs_k s /\
  (exists d', fs_icache s' = <[dir := d']> (fs_icache s) /\ ei_block d' = ei_block d /\ i_ino d' = i_ino d /\
     i_nlink d' = if S_ISDIR mode then i_nlink d +₃₂ 1 else i_nlink d) /\
  (forall j, data_start s <= j -> blk_at s' j = blk_at s j) /\
  forall j, is_Some (blk_at s j) -> is_Some (blk_at s' j).
Proof.
  intros Hd Hm. pose proof (write_inode_meta s inode Hm) as M1.
  destruct (lolelffs_write_inode inode s) as [r1 s1] eqn:E1. cbn [snd] in M1.
  rewrite (bind_run _ _ _ _ _ (attempt_run _ _ _ _ E1)), bind_gets.
  pose proof M1 as (Es1 & Ei1 & Ek1 & Ea1 & Er1).
  assert (fs_icache s1 !! dir = Some d) as Hd1 by (by rewrite Ei1).
  rewrite (bind_run _ _ _ _ _ (inode_upd_run dir _ d s1 Hd1)). set (s2 := set_icache _ s1).
  set (d2 := set_all_times (fs_k s1) d) in *.
  set (d3 := if S_ISDIR mode then inc_nlink d2 else d2).
  set (s3 := set_icache (<[dir := d3]> (fs_icache s1)) s1).
  assert ((if S_ISDIR mode then inode_upd dir inc_nlink else mret tt) s2 = (Ok tt, s3)) as E3.
  { unfold s3, d3. destruct (S_ISDIR mode); [|done].
    rewrite (inode_upd_run dir _ d2) by apply lookup_insert_eq. unfold s2. cbn [set_icache fs_icache].
    by rewrite insert_insert_eq. }
  rewrite (bind_run _ _ _ _ _ E3).
  assert (meta_ok s3) as Hm3 by (apply (meta_ok_geom s); [unfold geom; cbn; by rewrite Es1|done]).
  pose proof (write_inode_meta s3 dir Hm3) as M4. destruct (lolelffs_write_inode dir s3) as [r4 s4] eqn:E4. cbn [snd] in M4.
  rewrite (bind_run _ _ _ _ _ (attempt_run _ _ _ _ E4)).
  pose proof (sync_fs_meta s4 (meta_ok_geom _ _ (meta_only_geom _ _ M4) Hm3)) as M5.
  destruct (lolelffs_sync_fs s4) as [r5 s5] eqn:E5. cbn [snd] in M5.
  rewrite (bind_run _ _ _ _ _ (attempt_run _ _ _ _ E5)). intros [= <- <-].
  destruct (meta_only_trans _ _ _ M4 M5) as (Es & Ei & Ek & Ea & Er).
  split; [done|]. split; [by rewrite Es|]. split; [by rewrite Ek|]. split; [|split].
  - exists d3. rewrite Ei. cbn [s3 set_icache fs_icache]. rewrite Ei1. unfold d3. by destruct (S_ISDIR mode).
  - intros j Hj. rewrite Ea; [exact (Ea1 j Hj)|]. unfold data_start in *. cbn [s3 set_icache fs_sbi]. by rewrite Es1.
  - intros j Hj. apply Er. exact (Er1 j Hj).
Qed.
