(* ===== verification/Namespace.v ===== *)
(** * Creating and removing names

    The theorems about the handlers of inode.c as a whole, on the abstract
    directories of InodeSpec: lolelffs_create adds exactly one entry that
    lolelffs_lookup then finds, lolelffs_remove_from_dir takes exactly one
    away, and the runs where the handlers break the file system. *)
From S2P Require Import Prelude Layout Bitmap Extent State Elf Super Codec File Xattr XattrSpec Inode InodeSpec.

(** What a new inode needs: memory and a readable inode store. *)
Definition can_iget (s : fs) : Prop :=
  oom (fs_k s) A_inode = false /\
  forall i, i ∈ free_inodes (fs_sbi s) -> is_Some (blk_at s (inode_block_of i)).

Lemma size_pos_neq (X : gset Z) : X ≠ ∅ -> (Z.of_nat (base.size X) =? 0) = false.
Proof. intros H. apply Z.eqb_neq. intros E. apply H, leibniz_equiv, size_empty_inv. lia. Qed.

Lemma name_len_ok name : name_ok name -> (LOLELFFS_FILENAME_LEN <? Z.of_nat (length name)) = false.
Proof. intros ((_ & H) & _). apply Z.ltb_ge. exact H. Qed.

Lemma few_subfiles {A} (l : list A) : (length l < 120)%nat -> (Z.of_nat (length l) =? LOLELFFS_MAX_SUBFILES) = false.
Proof. intros H. apply Z.eqb_neq. assert (120 <= LOLELFFS_MAX_SUBFILES) by (by vm_compute). lia. Qed.

Lemma singleton_range x (X : gset Z) : x ∈ X -> range x 1 ⊆ X.
Proof. intros Hx y Hy. apply elem_of_range in Hy. by replace y with x by lia. Qed.

(** With a free inode and a free block, lolelffs_new_inode succeeds. *)
Lemma new_inode_total s dir mode :
  fs_ok s -> can_iget s -> S_ISDIR mode || S_ISREG mode = true -> S_ISLNK mode = false ->
  free_inodes (fs_sbi s) ≠ ∅ -> free_blocks (fs_sbi s) ≠ ∅ ->
  exists ino s1, lolelffs_new_inode dir mode s = (Ok ino, s1).
Proof.
  intros Hok [Hoom Hrd] Hmode Hlnk Hfi Hfb. unfold lolelffs_new_inode.
  destruct (_ && _ && _) eqn:Emode; [destruct (S_ISDIR mode), (S_ISREG mode); done|].
  rewrite bind_gets. cbn [id]. cbv zeta.
  destruct (fk_inodes _ Hok) as (_ & _ & _ & Eci). destruct (fk_blocks _ Hok) as (_ & _ & _ & Ecb).
  rewrite Eci, Ecb, !size_pos_neq by done. cbn [orb].
  destruct (get_free_inode (fs_sbi s)) as [i sbi1] eqn:Egi.
  rewrite (bind_run _ _ _ _ _ (with_sbi_run _ _ _ _ Egi)).
  destruct (al_get_ok (Allocator := inode_allocator) (fs_sbi s) 1 i sbi1 (fk_inodes _ Hok) eq_refl Egi)
    as (Hii & _ & [(Hnz & Hsub & HFi)|(_ & _ & Hno)]).
  2:{ apply set_choose_L in Hfi as [x Hx]. by destruct (Hno x (singleton_range x _ Hx)). }
  rewrite (proj2 (Z.eqb_neq _ _) Hnz). set (s2 := set_sbi sbi1 s) in *. rewrite Hlnk.
  pose proof (block_inv_get_inode (fs_sbi s) (fk_blocks _ Hok)) as [Hbi HFb]. rewrite Egi in Hbi, HFb. cbn [snd] in Hbi, HFb.
  pose proof (geom_get_inode s) as Hg1. rewrite Egi in Hg1. cbn [snd] in Hg1. fold s2 in Hg1.
  destruct (geom_inv _ _ Hg1) as (_ & Eo & _ & En).
  assert (i ∈ free_inodes (fs_sbi s)) as Hfree by (apply Hsub, elem_of_range; lia).
  assert (exists s3, lolelffs_iget i s2 = (Ok i, s3) /\ fs_sbi s3 = sbi1) as (s3 & Eig & Es3).
  { unfold lolelffs_iget. rewrite bind_gets. cbn [id]. rewrite En.
    pose proof (map_inv_univ _ _ _ (fk_inodes _ Hok) i Hfree) as Hu. unfold univ in Hu. rewrite elem_of_range in Hu.
    rewrite (proj2 (Z.leb_gt _ _)) by lia. destruct (fs_icache s2 !! i); [by eexists|].
    change (fs_k s2) with (fs_k s). rewrite Hoom. destruct (Hrd i Hfree) as [c Hc].
    rewrite (bind_run _ _ _ _ _ (bread_run s2 _ c ltac:(rewrite Eo; exact Hc))). by eexists. }
  rewrite (bind_run _ _ _ _ _ (attempt_run _ _ _ _ Eig)). unfold inode_at. rewrite bind_gets.
  destruct (get_free_blocks (fs_sbi s3) 1) as [bno sbi2] eqn:Egb.
  rewrite (bind_run _ _ _ _ _ (with_sbi_run (fun x => get_free_blocks x 1) _ _ _ Egb)). rewrite Es3 in Egb.
  destruct (al_get_ok (Allocator := block_allocator) sbi1 1 bno sbi2 Hbi ltac:(cbn; lia) Egb)
    as (_ & _ & [(Hbnz & _)|(_ & _ & Hno)]).
  2:{ apply set_choose_L in Hfb as [x Hx]. destruct (Hno x). change (al_free sbi1) with (free_blocks sbi1).
      rewrite HFb. by apply singleton_range. }
  rewrite (proj2 (Z.eqb_neq _ _) Hbnz). by do 2 eexists.
Qed.

(** lolelffs_new_inode fails only when a free map is empty, and then has no
    effect. *)
Lemma new_inode_cases s dir mode :
  fs_ok s -> can_iget s -> S_ISDIR mode || S_ISREG mode = true -> S_ISLNK mode = false ->
  (lolelffs_new_inode dir mode s = (Err ENOSPC, s) /\ (free_inodes (fs_sbi s) = ∅ \/ free_blocks (fs_sbi s) = ∅)) \/
  (exists ino s1, lolelffs_new_inode dir mode s = (Ok ino, s1)).
Proof.
  intros Hok Hig Hmode Hlnk. destruct (decide (free_inodes (fs_sbi s) = ∅ \/ free_blocks (fs_sbi s) = ∅)) as [Hno|Hyes].
  - left. split; [|done]. unfold lolelffs_new_inode.
    destruct (_ && _ && _) eqn:Emode; [destruct (S_ISDIR mode), (S_ISREG mode); done|].
    rewrite bind_gets. cbn [id]. cbv zeta.
    destruct (fk_inodes _ Hok) as (_ & _ & _ & Eci). destruct (fk_blocks _ Hok) as (_ & _ & _ & Ecb).
    fold (free_inodes (fs_sbi s)) in Eci. fold (free_blocks (fs_sbi s)) in Ecb.
    rewrite Eci, Ecb. destruct Hno as [-> | ->]; rewrite size_empty; cbn; [done|]. by rewrite orb_true_r.
  - right. apply new_inode_total; tauto.
Qed.

(** ** What an operation leaves alone

    [keeps f m]: the part [f] of the state is the same after [m], whatever [m]
    returns. *)
Definition keeps {A B} (f : fs -> B) (m : M fs A) : Prop := forall s, f (snd (m s)) = f s.

(** The inode map and its counters. *)
Definition inode_map (s : fs) : list Z * Z * Z :=
  (ifree_bitmap (fs_sbi s), nr_inodes (sbd (fs_sbi s)), nr_free_inodes (sbd (fs_sbi s))).

Create HintDb keeps.

Lemma keeps_mret {A B} (f : fs -> B) (a : A) : keeps f (mret a).
Proof. done. Qed.

Lemma keeps_fail {A B} (f : fs -> B) e : keeps f (fail e : M fs A).
Proof. done. Qed.

Lemma keeps_bread {B} (f : fs -> B) blk : keeps f (LOLELFFS_SB_BREAD blk).
Proof. intros s. unfold LOLELFFS_SB_BREAD. by destruct (_ !! _). Qed.

Lemma keeps_bind {A C B} (f : fs -> B) (m : M fs A) (g : A -> M fs C) :
  keeps f m -> (forall a, keeps f (g a)) -> keeps f (mbind g m).
Proof.
  intros Hm Hg s. unfold mbind, M_bind. specialize (Hm s). destruct (m s) as [[a|e] s1]; cbn in *; [|done].
  by rewrite Hg.
Qed.

Lemma keeps_attempt {A B} (f : fs -> B) (m : M fs A) : keeps f m -> keeps f (attempt m).
Proof. intros Hm s. specialize (Hm s). unfold attempt. by destruct (m s). Qed.

Lemma keeps_if {A B} (f : fs -> B) (c : bool) (m n : M fs A) : keeps f m -> keeps f n -> keeps f (if c then m else n).
Proof. by destruct c. Qed.

Lemma keeps_bwrite blk b : keeps inode_map (bwrite blk b).
Proof. done. Qed.

Lemma keeps_get_blocks len : keeps inode_map (with_sbi (fun x => get_free_blocks x len)).
Proof. intros s. unfold with_sbi, get_free_blocks. by destruct (get_first_free_bits _ _ _). Qed.

Lemma keeps_put_blocks (f : lolelffs_extent) : keeps inode_map (upd_sbi (fun s => put_blocks s (ee_start f) (ee_len f))).
Proof. intros s. unfold upd_sbi, put_blocks. cbn. by destruct (put_free_bits _ _ _ _). Qed.

#[export] Hint Resolve keeps_mret keeps_fail keeps_bread keeps_bind keeps_attempt keeps_if keeps_bwrite
  keeps_get_blocks keeps_put_blocks : keeps.

Lemma dir_add_inodes dirblk ino name : keeps inode_map (dir_add dirblk ino name).
Proof.
  unfold dir_add, dir_extent, undo_extent, bupdate. repeat first [apply keeps_bind; [|intros ?] | apply keeps_if | case_match]; auto with keeps.
Qed.

Lemma inode_map_free s s' : inode_map s' = inode_map s -> free_inodes (fs_sbi s') = free_inodes (fs_sbi s).
Proof. unfold inode_map, free_inodes. intros [= -> -> _]. done. Qed.

(** What lolelffs_create is proved against. *)
Record can_create (s : fs) (dir : Z) (d : vinode) (b : block) (bs : list block) (l : list dentry)
    (name : list Z) (mode : Z) : Prop := {
  cc_ok : fs_ok s;
  cc_dir : fs_icache s !! dir = Some d;
  cc_rep : dir_rep s (ei_block d) b bs l;
  cc_data : dir_in_data s (ei_block d) b;
  cc_clear : free_clear s;
  cc_room : (length l < 120)%nat;
  cc_live : dir ∉ free_inodes (fs_sbi s);
  cc_name : name_ok name;
  cc_mode : S_ISLNK mode = false
}.

(** The inode is allocated and its block zeroed: the directory is as it was. *)
Lemma new_block_frame s s1 bno dirblk b bs l :
  dir_rep s dirblk b bs l -> free_clear s -> fs_disk s1 = fs_disk s -> geom s1 = geom s ->
  block_inv (fs_sbi s1) -> bno ∈ free_blocks (fs_sbi s) ->
  free_blocks (fs_sbi s1) = free_blocks (fs_sbi s) ∖ {[bno]} ->
  let s2 := snd (bwrite bno (zeros BLK) s1) in
  bupdate bno (fun _ => zeros BLK) s1 = (Ok tt, s2) /\ dir_rep s2 dirblk b bs l /\ free_clear s2 /\
  blk_at s2 bno = Some (zeros BLK) /\ forall j, j <> bno -> blk_at s2 j = blk_at s j.
Proof.
  intros Hd Hc Edisk Hg Hinv Hbno HF s2. destruct (geom_inv _ _ Hg) as (_ & Eo & En & _).
  assert (forall j, blk_at s1 j = blk_at s j) as Hat1 by (intros; unfold blk_at; by rewrite Edisk, Eo).
  assert (forall j, j <> bno -> blk_at s2 j = blk_at s j) as Hat2.
  { intros j Hj. unfold s2. by rewrite blk_at_bwrite, decide_False. }
  pose proof (dr_used _ _ _ _ _ Hd) as Hu. split_and!.
  - destruct (Hc bno Hbno) as (c & Hcb & _). unfold bupdate. rewrite <- Hat1 in Hcb.
    by rewrite (bind_run _ _ _ _ _ (bread_run _ _ _ Hcb)).
  - apply (dir_rep_frame s); try done.
    + change (fs_sbi s2) with (fs_sbi s1). rewrite HF. clear. set_solver.
    + intros j Hj. apply Hat2. intros ->. clear -Hj Hu Hbno. set_solver.
  - intros x Hx. change (fs_sbi s2) with (fs_sbi s1) in Hx. rewrite HF in Hx. apply elem_of_difference in Hx as [Hx Hne].
    rewrite Hat2; [by apply Hc|]. intros ->. apply Hne. by apply elem_of_singleton.
  - unfold s2. by rewrite blk_at_bwrite, decide_True.
  - done.
Qed.

(** Space for the entry: a directory with its extent needs none. *)
Definition has_room (s : fs) (b : block) : Prop :=
  ee_start (dext b) <> 0 \/ exists x, range x 17 ⊆ free_blocks (fs_sbi s).

(** One block less leaves 8 of 17 consecutive ones. *)
Lemma run_less_one (F : gset Z) x y : range x 17 ⊆ F -> exists z, range z 8 ⊆ F ∖ {[y]}.
Proof.
  intros H. exists (if y <? x + 9 then x + 9 else x). intros j Hj. apply elem_of_range in Hj.
  apply elem_of_difference. rewrite not_elem_of_singleton. destruct (Z.ltb_spec y (x + 9)); (split; [apply H, elem_of_range|]); lia.
Qed.

(** The block of the new inode is not one of the directory's, old or new. *)
Lemma new_block_apart s dirblk b bs l b3 bs3 l3 bno s3 :
  dir_rep s dirblk b bs l -> bno ∈ free_blocks (fs_sbi s) -> dir_rep s3 dirblk b3 bs3 l3 -> l3 <> [] ->
  ee_start (dext b) = ee_start (dext b3) \/ range (ee_start (dext b3)) 8 ⊆ free_blocks (fs_sbi s) ∖ {[bno]} ->
  bno <> dirblk /\ bno ∉ range (ee_start (dext b3)) 8.
Proof.
  intros Hrep Hbf Hrep3 Hl3 Hprov. pose proof (dr_used _ _ _ _ _ Hrep) as Hu. split.
  - intros E. rewrite <- E in Hu. clear -Hu Hbf. set_solver.
  - intros Hin. destruct Hprov as [E|Hsub]; [|clear -Hsub Hin; set_solver].
    pose proof (dr_run _ _ _ _ _ Hrep) as Hr. rewrite E in Hu, Hr. destruct (Z.eqb_spec (ee_start (dext b3)) 0) as [E0|_].
    + pose proof (dr_run _ _ _ _ _ Hrep3) as Hr3. rewrite E0 in Hr3. cbn [Z.eqb] in Hr3.
      destruct (dir_bounds _ _ _ _ _ Hrep3) as (_ & _ & Hle & _). rewrite Hr3 in Hle. destruct l3; [done|cbn in Hle; lia].
    + destruct Hr as [_ Hl8]. rewrite Hl8 in Hu. change (Z.of_nat 8) with 8 in Hu. clear -Hu Hin Hbf. set_solver.
Qed.

(** What a run of lolelffs_create that returned [ino] established: the
    directory inode is now [d'] with index [b'] and blocks [bs'], the new inode
    is [v]. *)
Record created (s : fs) (dir : Z) (d : vinode) (b : block) (l : list dentry) (name : list Z) (mode ino : Z)
    (s' : fs) (d' : vinode) (b' : block) (bs' : list block) (v : vinode) : Prop := {
  cr_ok : fs_ok s';
  cr_geom : geom s' = geom s;
  cr_k : fs_k s' = fs_k s;
  cr_free : ino ∈ free_inodes (fs_sbi s);
  cr_inodes : free_inodes (fs_sbi s') = free_inodes (fs_sbi s) ∖ {[ino]};
  cr_ino : 0 < ino < nr_inodes (sbd (fs_sbi s'));
  cr_cache : fs_icache s' = <[dir := d']> (<[ino := v]> (fs_icache s));
  cr_parent : ei_block d' = ei_block d /\ i_ino d' = i_ino d /\
    i_nlink d' = (if S_ISDIR mode then i_nlink d +₃₂ 1 else i_nlink d);
  cr_rep : dir_rep s' (ei_block d) b' bs' (l ++ [(name, ino)]);
  cr_data : dir_in_data s' (ei_block d) b';
  cr_ext : ee_start (dext b) = ee_start (dext b') \/ range (ee_start (dext b')) 8 ⊆ free_blocks (fs_sbi s);
  cr_inode : i_ino v = ino /\ i_nlink v = (if S_ISDIR mode then 2 else 1) /\ xattr_block v = 0 /\
    exists p, i_mode v = snd (inode_init_owner (fs_k s) p mode);
  cr_block : ei_block v ∈ free_blocks (fs_sbi s) /\ blk_at s' (ei_block v) = Some (zeros BLK);
  cr_apart : ei_block v <> ei_block d /\ ei_block v ∉ range (ee_start (dext b')) 8;
  cr_blocks : free_blocks (fs_sbi s') ⊆ free_blocks (fs_sbi s) ∖ {[ei_block v]};
  cr_frame : forall j, data_start s <= j -> j <> ei_block v -> j <> ei_block d ->
    j ∉ range (ee_start (dext b')) 8 -> blk_at s' j = blk_at s j;
  cr_readable : forall j, j < data_start s -> is_Some (blk_at s j) -> is_Some (blk_at s' j)
}.

(** What is left of a run of lolelffs_create that failed: a block of the free
    ones may have been zeroed, a free inode may be in the cache. *)
Record not_created (s s' : fs) : Prop := {
  nc_ok : fs_ok s';
  nc_geom : geom s' = geom s;
  nc_k : fs_k s' = fs_k s;
  nc_blocks : free_blocks (fs_sbi s') = free_blocks (fs_sbi s);
  nc_inodes : free_inodes (fs_sbi s') = free_inodes (fs_sbi s);
  nc_cache : forall i, i ∉ free_inodes (fs_sbi s) -> fs_icache s' !! i = fs_icache s !! i;
  nc_frame : forall j, blk_at s' j = blk_at s j \/ j ∈ free_blocks (fs_sbi s) /\ blk_at s' j = Some (zeros BLK)
}.

Lemma not_created_refl s : fs_ok s -> not_created s s.
Proof. intros. split; auto. Qed.

Section Create.
Context (s : fs) (dir : Z) (d : vinode) (b : block) (bs : list block) (l : list dentry) (name : list Z) (mode : Z).
Context (Hcc : can_create s dir d b bs l name mode).

(** The part of lolelffs_create under the label put_inode. *)
Definition create_body (i bno : Z) : M fs unit :=
  on_error (bupdate bno (fun _ => zeros BLK);; dir_add (ei_block d) (Some i) name) (create_undo i).

Definition create_end (i : Z) : M fs Z :=
  attempt (lolelffs_write_inode i);;
  k ← gets fs_k;
  inode_upd dir (set_all_times k);;
  (if S_ISDIR mode then inode_upd dir inc_nlink else mret tt);;
  attempt (lolelffs_write_inode dir);;
  attempt lolelffs_sync_fs;;
  mret i.

Lemma create_unfold i s1 v :
  lolelffs_new_inode dir mode s = (Ok i, s1) -> fs_icache s1 !! i = Some v -> i_ino v = i ->
  lolelffs_create dir name mode s = (create_body i (ei_block v);; create_end i) s1.
Proof.
  destruct Hcc as [_ Hd Hrep _ _ Hroom _ Hname _]. intros Hni Hv Ei. unfold lolelffs_create, inode_at.
  rewrite (name_len_ok _ Hname), bind_gets, Hd. cbn [default from_option id].
  rewrite (bind_run _ _ _ _ _ (bread_run _ _ _ (dr_read _ _ _ _ _ Hrep))), (dr_count _ _ _ _ _ Hrep).
  rewrite (few_subfiles _ Hroom).
  rewrite (bind_run _ _ _ _ _ Hni), bind_gets, Hv. cbn [default from_option id]. by rewrite Ei.
Qed.

(** Giving back the inode and the block of a new file. *)
Lemma create_undo_run s2 i v :
  fs_icache s2 !! i = Some v -> i_ino v = i -> i_nlink v <> 0 -> block_inv (fs_sbi s2) -> inode_inv (fs_sbi s2) ->
  ei_block v ∈ univ (nr_blocks (sbd (fs_sbi s2))) ∖ free_blocks (fs_sbi s2) ->
  i ∈ univ (nr_inodes (sbd (fs_sbi s2))) ∖ free_inodes (fs_sbi s2) ->
  exists s3, create_undo i s2 = (Ok tt, s3) /\ fs_icache s3 = fs_icache s2 /\ fs_disk s3 = fs_disk s2 /\
    fs_k s3 = fs_k s2 /\ geom s3 = geom s2 /\ block_inv (fs_sbi s3) /\ inode_inv (fs_sbi s3) /\
    free_blocks (fs_sbi s3) = free_blocks (fs_sbi s2) ∪ {[ei_block v]} /\
    free_inodes (fs_sbi s3) = free_inodes (fs_sbi s2) ∪ {[i]}.
Proof.
  intros Hv Ei Hnl Hbi Hii Hb Hi. unfold create_undo, inode_at. rewrite bind_gets, Hv. cbn [default from_option id].
  unfold upd_sbi. rewrite bind_modify. cbn [set_sbi fs_sbi]. rewrite bind_modify. cbn [set_sbi fs_sbi]. rewrite Ei.
  destruct (put_block_inode_spec s2 (ei_block v) i Hbi Hii Hb Hi) as (Hbi' & Hii' & HFb & HFi & Hg).
  unfold iput, inode_at. rewrite bind_gets. cbn [set_sbi fs_icache]. rewrite Hv. cbn [default from_option id].
  rewrite (proj2 (Z.eqb_neq _ _) Hnl). eexists. split; [done|]. split_and!; done.
Qed.

(** After a failure of dir_add the inode and its block are given back. *)
Lemma undo_not_created i s1 v :
  new_inode s mode i s1 v ->
  exists s', create_undo i (snd (bwrite (ei_block v) (zeros BLK) s1)) = (Ok tt, s') /\ not_created s s'.
Proof using Hcc.
  intros [Ei1 Eiv (Hnl & _) Hif Hi32 Hbf Ed1 Ek1 Hg1 Hbi1 Hii1 HFb HFi].
  pose proof (cc_ok _ _ _ _ _ _ _ _ Hcc) as Hok. set (s2 := snd (bwrite _ _ s1)).
  destruct (geom_inv _ _ Hg1) as (Ed & Eo & En & Eni).
  pose proof (map_inv_univ _ _ _ (fk_inodes _ Hok) i Hif) as Hiu.
  pose proof (map_inv_univ _ _ _ (fk_blocks _ Hok) (ei_block v) Hbf) as Hbu.
  destruct (create_undo_run s2 i v) as (s3 & Hrun & Ei3 & Ed3 & Ek3 & Hg3 & Hbi3 & Hii3 & HFb3 & HFi3);
    change (fs_sbi s2) with (fs_sbi s1) in *; change (fs_icache s2) with (fs_icache s1) in *; try done.
  - by rewrite Ei1, lookup_insert_eq.
  - rewrite Hnl. by destruct (S_ISDIR mode).
  - rewrite En, HFb. clear -Hbu. set_solver.
  - rewrite Eni, HFi. clear -Hiu. set_solver.
  - exists s3. split; [done|]. assert (geom s3 = geom s) as Hg by (by rewrite Hg3).
    destruct (geom_inv _ _ Hg) as (Ed' & Eo' & _ & _).
    assert (free_blocks (fs_sbi s3) = free_blocks (fs_sbi s)) as EFb
      by (rewrite HFb3, HFb; apply set_eq; intros x; destruct (decide (x = ei_block v)) as [->|]; set_solver).
    assert (free_inodes (fs_sbi s3) = free_inodes (fs_sbi s)) as EFi
      by (rewrite HFi3, HFi; apply set_eq; intros x; destruct (decide (x = i)) as [->|]; set_solver).
    split; try done.
    + split; [done|done| | |by apply (meta_ok_geom s); [|apply Hok]].
      * rewrite Ei3, Ei1. intros j w. destruct (decide (i = j)) as [<-|Hne].
        -- rewrite lookup_insert_eq. by intros [= <-].
        -- rewrite lookup_insert_ne by done. apply Hok.
      * rewrite EFb, Ed'. apply Hok.
    + rewrite Ek3. done.
    + intros j Hj. rewrite Ei3, Ei1, lookup_insert_ne; [done|]. by intros ->.
    + intros j. unfold blk_at at 1 3. rewrite Ed3, Eo'. unfold s2, bwrite. cbn [modify snd set_disk fs_disk].
      rewrite Eo, Ed1. destruct (decide (ei_block v = j)) as [<-|Hne].
      * right. split; [done|]. apply lookup_insert_eq.
      * left. rewrite lookup_insert_ne by lia. done.
Qed.
(** After a success of dir_add. *)
Lemma end_created i s1 v s3 b3 bs3 :
  new_inode s mode i s1 v -> let s2 := snd (bwrite (ei_block v) (zeros BLK) s1) in
  dir_add (ei_block d) (Some i) name s2 = (Ok tt, s3) ->
  blk_at s2 (ei_block v) = Some (zeros BLK) -> (forall j, j <> ei_block v -> blk_at s2 j = blk_at s j) ->
  dir_rep s3 (ei_block d) b3 bs3 (l ++ [(name, i)]) -> fs_icache s3 = fs_icache s2 -> fs_k s3 = fs_k s2 ->
  free_blocks (fs_sbi s3) ⊆ free_blocks (fs_sbi s2) ->
  (forall j, j <> ei_block d -> j ∉ range (ee_start (dext b3)) 8 -> blk_at s3 j = blk_at s2 j) ->
  geom s3 = geom s2 ->
  ee_start (dext b) = ee_start (dext b3) \/ range (ee_start (dext b3)) 8 ⊆ free_blocks (fs_sbi s2) ->
  exists s' d', create_end i s3 = (Ok i, s') /\ created s dir d b l name mode i s' d' b3 bs3 v.
Proof using Hcc.
  intros Hnew s2 Hadd Hz2 Hat2 Hrep3 Ei3 Ek3 HF3 Hat3 Hg3 Hprov.
  destruct Hnew as [Ei1 Eiv Hvf Hif Hi32 Hbf Ed1 Ek1 Hg1 Hbi1 Hii1 HFb HFi].
  destruct Hcc as [Hok Hd Hrep Hdata Hclear Hroom Hlive Hname Hmode].
  change (fs_sbi s2) with (fs_sbi s1) in *. rewrite HFb in *. change (fs_icache s2) with (fs_icache s1) in Ei3.
  rewrite Ei1 in Ei3. assert (dir <> i) as Hdi by (by intros ->).
  assert (fs_icache s3 !! dir = Some d) as Hd3 by (by rewrite Ei3, lookup_insert_ne).
  assert (geom s3 = geom s) as Hgs by (by rewrite Hg3).
  destruct (create_end i s3) as [r t] eqn:Hend.
  destruct (create_tail_spec s3 dir d i mode r t Hd3 (meta_ok_geom _ _ Hgs (fk_meta _ Hok)) Hend)
    as (-> & Es & Ek & (d' & Ei' & Eb' & Eid' & Hnl) & Hat' & Hrd'). exists t, d'. split; [done|].
  destruct (geom_inv _ _ Hgs) as (Eds & _ & _ & Eni). rewrite Eds in Hat'.
  destruct (new_block_apart _ _ _ _ _ b3 bs3 _ (ei_block v) s3 Hrep Hbf Hrep3 ltac:(by destruct l) Hprov) as [Hb1 Hb2].
  assert (geom t = geom s) as Hgt by (rewrite <- Hgs; unfold geom; by rewrite Es).
  assert (inode_map s3 = inode_map s1) as Him.
  { pose proof (dir_add_inodes (ei_block d) (Some i) name s2) as Hk. by rewrite Hadd in Hk. }
  assert (dir_in_data s3 (ei_block d) b3) as Hdata3.
  { destruct Hdata as [Hda Hdb]. split; rewrite Eds; [done|]. destruct Hprov as [<-|Hsub]; [done|right].
    apply (fk_free _ Hok). assert (ee_start (dext b3) ∈ range (ee_start (dext b3)) 8) as Hin by (apply elem_of_range; lia).
    clear -Hsub Hin. set_solver. }
  assert (data_start t = data_start s3) as Edt by (unfold data_start; by rewrite Es).
  split; try done; rewrite ?Es.
  - split; rewrite ?Es; [apply Hrep3| | | |by apply (meta_ok_geom s); [|apply Hok]].
    + unfold inode_inv. injection Him as -> -> ->. exact Hii1.
    + intros j w. rewrite Ei', Ei3. rewrite lookup_insert_Some. intros [[<- <-]|[_ Hw]].
      { rewrite Eid'. by apply (fk_cache _ Hok). }
      apply lookup_insert_Some in Hw as [[<- <-]|[_ Hw]]; [done|]. by apply (fk_cache _ Hok).
    + intros x Hx. rewrite Edt, Eds. apply (fk_free _ Hok). clear -Hx HF3. set_solver.
  - by rewrite Ek, Ek3.
  - rewrite <- HFi. by apply inode_map_free.
  - rewrite Eni. pose proof (map_inv_univ _ _ _ (fk_inodes _ Hok) i Hif) as Hu. unfold univ in Hu.
    rewrite elem_of_range in Hu. lia.
  - by rewrite Ei', Ei3.
  - apply (dir_rep_frame s3); try done; rewrite ?Es; try done; [apply Hrep3|].
    intros j Hj. apply Hat'. rewrite <- Eds. by apply (dir_blocks_in_data s3 (ei_block d) b3 bs3 (l ++ [(name, i)])).
  - unfold dir_in_data in *. by rewrite Edt.
  - destruct Hprov as [?|Hsub]; [by left|right]. clear -Hsub. set_solver.
  - split; [done|]. rewrite Hat' by (by apply (fk_free _ Hok)). by rewrite Hat3.
  - exact HF3.
  - intros j Hj1 Hj2 Hj3 Hj4. by rewrite Hat', Hat3, Hat2 by done.
  - intros j Hlt Hj. apply Hrd'. rewrite Hat3, Hat2; [done|..].
    + intros ->. pose proof (fk_free _ Hok _ Hbf). lia.
    + intros ->. destruct Hdata. lia.
    + intros Hin. pose proof (dr_run _ _ _ _ _ Hrep3) as Hr3.
      pose proof (dir_blocks_in_data s3 (ei_block d) b3 bs3 _ j Hrep3 Hdata3) as Hge. rewrite Eds in Hge.
      destruct (Z.eqb_spec (ee_start (dext b3)) 0) as [E0|_].
      * destruct (dir_bounds _ _ _ _ _ Hrep3) as (_ & _ & Hle & _). rewrite Hr3, length_app in Hle. cbn in Hle. lia.
      * destruct Hr3 as [_ Hl8]. rewrite Hl8 in Hge. specialize (Hge ltac:(apply elem_of_union_r; exact Hin)). lia.
Qed.

(** Once there is an inode, lolelffs_create adds the entry at the end of the
    directory, or the directory has no extent and there is no room for one. *)
Lemma create_run i s1 :
  lolelffs_new_inode dir mode s = (Ok i, s1) ->
  (~ has_room s b /\ exists s', lolelffs_create dir name mode s = (Err ENOSPC, s') /\ not_created s s') \/
  (exists s' d' b' bs' v, lolelffs_create dir name mode s = (Ok i, s') /\
     created s dir d b l name mode i s' d' b' bs' v).
Proof using Hcc.
  intros Hni. destruct Hcc as [Hok _ Hrep _ Hclear Hroom _ Hname Hmode].
  destruct (new_inode_inv s dir mode i s1 Hok Hmode Hni) as (v & Hnew).
  pose proof Hnew as [Ei1 Eiv _ _ Hi32 Hbf Ed1 _ Hg1 Hbi1 _ HFb _].
  rewrite (create_unfold i s1 v Hni) by (done || by rewrite Ei1, lookup_insert_eq).
  destruct (new_block_frame s s1 (ei_block v) _ b bs l Hrep Hclear Ed1 Hg1 Hbi1 Hbf HFb) as (Hup & Hrep2 & Hc2 & Hz2 & Hat2).
  set (s2 := snd (bwrite (ei_block v) (zeros BLK) s1)) in *.
  destruct (dir_add_spec s2 (ei_block d) b bs l name i Hrep2 Hc2 Hroom ltac:(by split))
    as [(Hadd & E0 & Hno)|(s3 & b3 & bs3 & Hadd & Hrep3 & Ei3 & Ek3 & HF3 & Hat3 & Hg3 & Hprov)].
  - left. split.
    + intros [?|[x Hx]]; [done|]. destruct (run_less_one _ _ (ei_block v) Hx) as [z Hz]. apply (Hno z).
      change (fs_sbi s2) with (fs_sbi s1). by rewrite HFb.
    + destruct (undo_not_created i s1 v Hnew) as (s' & Hundo & Hnc). exists s'. split; [|done].
      assert (create_body i (ei_block v) s1 = (Err ENOSPC, s')) as Hb
        by (unfold create_body, on_error; rewrite (bind_run _ _ _ _ _ Hup), Hadd; unfold s2; by rewrite Hundo).
      by rewrite (bind_err _ _ _ _ _ Hb).
  - right. assert (create_body i (ei_block v) s1 = (Ok tt, s3)) as Hbody
      by (unfold create_body, on_error; by rewrite (bind_run _ _ _ _ _ Hup), Hadd).
    rewrite (bind_run _ _ _ _ _ Hbody).
    destruct (end_created i s1 v s3 b3 bs3 Hnew Hadd Hz2 Hat2 Hrep3 Ei3 Ek3 HF3 Hat3 Hg3 Hprov) as (s' & d' & Hend & Hcr).
    exists s', d', b3, bs3, v. split; done.
Qed.
End Create.

(** Looking up a name whose inode, if any, is in the cache: the directory's
    access time changes and nothing else. *)
Lemma lookup_run s dir d b bs l name :
  fs_icache s !! dir = Some d -> dir_rep s (ei_block d) b bs l -> name_ok name ->
  (forall ino, d_lookup l name = Some ino -> ino < nr_inodes (sbd (fs_sbi s)) /\ is_Some (fs_icache s !! ino)) ->
  lolelffs_lookup dir name s = (Ok (d_lookup l name), set_icache (<[dir :=
    set_times (i_ctime d) (current_time (fs_k s)) (i_mtime d) d]> (fs_icache s)) s).
Proof.
  intros Hd Hrep Hname Hc. unfold lolelffs_lookup, inode_at.
  rewrite (name_len_ok _ Hname), bind_gets, Hd. cbn [default from_option id].
  rewrite (bind_run _ _ _ _ _ (bread_run _ _ _ (dr_read _ _ _ _ _ Hrep))).
  rewrite (bind_run _ _ _ _ _ (lookup_extents_spec _ _ _ _ _ name Hrep Hname)).
  set (m := match d_lookup l name with None => _ | Some ino => _ end).
  assert (m s = (Ok (d_lookup l name), s)) as Hm.
  { unfold m. destruct (d_lookup l name) as [ino|]; [|done]. destruct (Hc ino eq_refl) as [Hlt [v Hv]].
    unfold lolelffs_iget, mbind, M_bind, gets. cbn [id]. rewrite (proj2 (Z.leb_gt _ _)) by lia. by rewrite Hv. }
  rewrite (bind_run _ _ _ _ _ Hm), bind_gets. by rewrite (bind_run _ _ _ _ _ (inode_upd_run dir _ d s Hd)).
Qed.

Lemma d_lookup_app l name ino other :
  d_lookup (l ++ [(name, ino)]) other =
    match d_lookup l other with Some i => Some i | None => if bool_decide (name = other) then Some ino else None end.
Proof. induction l as [|x l IH]; [done|]. cbn [app d_lookup]. by destruct (bool_decide (fst x = other)). Qed.

(** lolelffs_create in all cases: the name is added, or there is no space and
    nothing is. *)
Lemma create_cases s dir d b bs l name mode :
  can_create s dir d b bs l name mode -> can_iget s -> S_ISDIR mode || S_ISREG mode = true ->
  (exists s', lolelffs_create dir name mode s = (Err ENOSPC, s') /\ not_created s s' /\
     (free_inodes (fs_sbi s) = ∅ \/ free_blocks (fs_sbi s) = ∅ \/ ~ has_room s b)) \/
  (exists ino s' d' b' bs' v, lolelffs_create dir name mode s = (Ok ino, s') /\
     created s dir d b l name mode ino s' d' b' bs' v).
Proof.
  intros Hcc Hig Hm. pose proof Hcc as [Hok Hd Hrep _ _ Hroom _ Hname Hmode].
  destruct (new_inode_cases s dir mode Hok Hig Hm Hmode) as [[Hni Hnone]|(i & s1 & Hni)].
  - left. exists s. split_and!; [|by apply not_created_refl|tauto]. unfold lolelffs_create, inode_at.
    rewrite (name_len_ok _ Hname), bind_gets, Hd. cbn [default from_option id].
    rewrite (bind_run _ _ _ _ _ (bread_run _ _ _ (dr_read _ _ _ _ _ Hrep))), (dr_count _ _ _ _ _ Hrep).
    rewrite (few_subfiles _ Hroom). by rewrite (bind_err _ _ _ _ _ Hni).
  - destruct (create_run s dir d b bs l name mode Hcc i s1 Hni)
      as [(Hr & s' & Hrun & Hnc)|(s' & d' & b' & bs' & v & Hrun & Hcr)].
    + left. exists s'. split_and!; [done..|tauto].
    + right. by exists i, s', d', b', bs', v.
Qed.

(** C6 Creating a name: in a directory of fewer than 120 entries that does not
    hold the name yet, with a free inode, a free block, room for the
    directory's extent and memory, lolelffs_create of a directory or a regular
    file succeeds with an inode that was free and is so no more, appends
    exactly the entry (name, inode) to the directory, gives the inode a zeroed
    block that was free and is so no more, raises the link count of the parent
    when it creates a directory, keeps every other block of the data area, and
    lolelffs_lookup of the name then finds the inode. *)
Theorem create_then_lookup s dir d b bs l name mode :
  can_create s dir d b bs l name mode -> can_iget s -> S_ISDIR mode || S_ISREG mode = true ->
  free_inodes (fs_sbi s) ≠ ∅ -> free_blocks (fs_sbi s) ≠ ∅ -> has_room s b -> d_lookup l name = None ->
  exists ino s' d' b' bs' v, lolelffs_create dir name mode s = (Ok ino, s') /\
    created s dir d b l name mode ino s' d' b' bs' v /\
    fst (lolelffs_lookup dir name s') = Ok (Some ino).
Proof.
  intros Hcc Hig Hm Hfi Hfb Hsp Hnone.
  destruct (create_cases s dir d b bs l name mode Hcc Hig Hm)
    as [(s' & _ & _ & Hno)|(ino & s' & d' & b' & bs' & v & Hrun & Hcr)]; [tauto|].
  exists ino, s', d', b', bs', v. split; [done|]. split; [done|].
  pose proof (cc_live _ _ _ _ _ _ _ _ Hcc) as Hlive. pose proof (cr_free _ _ _ _ _ _ _ _ _ _ _ _ _ Hcr) as Hfree.
  assert (dir <> ino) as Hne by (by intros ->). destruct (cr_parent _ _ _ _ _ _ _ _ _ _ _ _ _ Hcr) as (Eb & _).
  pose proof (cr_rep _ _ _ _ _ _ _ _ _ _ _ _ _ Hcr) as Hrep'. rewrite <- Eb in Hrep'.
  pose proof (cr_cache _ _ _ _ _ _ _ _ _ _ _ _ _ Hcr) as Hc.
  rewrite (lookup_run s' dir d' b' bs' (l ++ [(name, ino)]) name); try done.
  - by rewrite d_lookup_app, Hnone, bool_decide_true.
  - by rewrite Hc, lookup_insert_eq.
  - apply Hcc.
  - intros j. rewrite d_lookup_app, Hnone, bool_decide_true by done. intros [= <-]. split; [apply Hcr|].
    rewrite Hc, lookup_insert_ne, lookup_insert_eq by done. done.
Qed.

(** ** Witnesses: an image of 64 blocks with an empty root directory *)

Definition ex_sb64 : sb_disk :=
  SbDisk LOLELFFS_MAGIC 64 56 1 1 1 55 59 1 1 1 128 1 2048 524288 0 0 1 3 65536 4 (zeros 32) (zeros 32) 0 (zeros 12).
Definition ex_disk64 : gmap Z block :=
  <[0 := bytes_of_sb ex_sb64 ++ zeros (BLK - 164)]> (<[1 := put_inode_at 0 ex_root (zeros BLK)]>
    (<[2 := ex_ifree]> (<[3 := ex_bfree]>
      (list_to_map (map (fun i => (i, zeros BLK)) (seqZ 4 60)))))).
Definition ex_fs64 : fs := snd (lolelffs_fill_super (fun _ => true) [] None (Fs no_sbi ex_disk64 ∅ ex_kernel)).
Definition ex_root64 : vinode := default no_inode (fs_icache ex_fs64 !! 0).

(** A boolean check of what the theorems ask of a state, for evaluation. *)
Definition clear_block (s : fs) (x : Z) : bool :=
  match blk_at s x with
  | Some c => bool_decide (length c = BLK) && forallb (fun f => f_inode f =? 0) (dir_of_block c)
  | None => false
  end.

Lemma free_clear_check s : set_Forall (fun x => clear_block s x = true) (free_blocks (fs_sbi s)) -> free_clear s.
Proof.
  intros H x Hx. specialize (H x Hx). unfold clear_block in H. destruct (blk_at s x) as [c|]; [|done].
  apply andb_true_iff in H as [H1%bool_decide_eq_true H2]. exists c. split_and!; [done..|].
  apply Forall_forall. intros f Hf. rewrite forallb_forall in H2. apply Z.eqb_eq, H2. by apply list_elem_of_In.
Qed.

Lemma ex_fs_ok : fs_ok ex_fs64.
Proof.
  split.
  - repeat split; vm_compute; discriminate || reflexivity.
  - repeat split; vm_compute; discriminate || reflexivity.
  - assert (map_Forall (fun i v => i_ino v = i) (fs_icache ex_fs64)) as H
      by (apply (bool_decide_unpack _); vm_compute; exact I). exact H.
  - assert (set_Forall (fun x => data_start ex_fs64 <= x) (free_blocks (fs_sbi ex_fs64))) as H
      by (apply (bool_decide_unpack _); vm_compute; exact I). exact H.
  - repeat split; vm_compute; discriminate || reflexivity.
Qed.

Definition ex_name : list Z := [97].

Lemma ex_can_create : can_create ex_fs64 0 ex_root64 (zeros BLK) [] [] ex_name 0x81A4.
Proof.
  split; [exact ex_fs_ok|vm_compute; reflexivity| | | |cbn; lia| | |reflexivity].
  - split; [apply ex_fs_ok|vm_compute; reflexivity|apply block_ok_zeros|vm_compute; reflexivity..| | | | |].
    + intros k c Hk. done.
    + constructor.
    + exists []. split; [reflexivity|constructor].
    + apply (bool_decide_unpack _). vm_compute. exact I.
    + apply (bool_decide_unpack _). vm_compute. exact I.
  - split; [vm_compute; discriminate|left; vm_compute; reflexivity].
  - apply free_clear_check. apply (bool_decide_unpack _). vm_compute. exact I.
  - apply (bool_decide_unpack _). vm_compute. exact I.
  - unfold name_ok, bytes_ok. split_and!; try (vm_compute; discriminate); apply (bool_decide_unpack _); vm_compute; exact I.
Qed.

Lemma create_then_lookup_witness : exists ino s',
  lolelffs_create 0 ex_name 0x81A4 ex_fs64 = (Ok ino, s') /\ fst (lolelffs_lookup 0 ex_name s') = Ok (Some ino).
Proof.
  destruct (create_then_lookup ex_fs64 0 ex_root64 (zeros BLK) [] [] ex_name 0x81A4 ex_can_create)
    as (ino & s' & d' & b' & bs' & v & H1 & _ & H2).
  - split; [reflexivity|]. assert (set_Forall (fun i => is_Some (blk_at ex_fs64 (inode_block_of i))) (free_inodes (fs_sbi ex_fs64))) as H
      by (apply (bool_decide_unpack _); vm_compute; exact I). exact H.
  - reflexivity.
  - apply (bool_decide_unpack _). vm_compute. exact I.
  - apply (bool_decide_unpack _). vm_compute. exact I.
  - right. exists 5. apply (bool_decide_unpack _). vm_compute. exact I.
  - reflexivity.
  - exists ino, s'. split; [exact H1|exact H2].
Defined.
