(* ===== verification/Unlink.v ===== *)
(** * Deleting files

    lolelffs_unlink of a regular file with one link: the entry leaves the
    directory, the inode, the index block and every extent return to the free
    maps, and the data is scrubbed.  Then the runs in which the handlers of
    inode.c lose or corrupt something. *)
From S2P Require Import Prelude Layout Bitmap Extent State Elf Super Codec File Xattr XattrSpec Inode InodeSpec Namespace.

(** ** Scrubbing *)

(** The blocks in [X] are zeroed if they can be read, the others kept. *)
Definition scrubs (X : gset Z) (s s' : fs) : Prop :=
  forall x, blk_at s' x = if decide (x ∈ X) then (fun _ => zeros BLK) <$> blk_at s x else blk_at s x.

(** The state but for the disk. *)
Definition same_mem (s s' : fs) : Prop :=
  fs_sbi s' = fs_sbi s /\ fs_icache s' = fs_icache s /\ fs_k s' = fs_k s.

Lemma scrubs_empty s : scrubs ∅ s s.
Proof. intros x. by rewrite decide_False by set_solver. Qed.

Lemma scrubs_trans X Y s1 s2 s3 : scrubs X s1 s2 -> scrubs Y s2 s3 -> scrubs (X ∪ Y) s1 s3.
Proof.
  intros HX HY x. rewrite HY, HX. generalize (zeros BLK). intros z.
  destruct (decide (x ∈ X)), (decide (x ∈ Y)).
  - rewrite decide_True by set_solver. by destruct (blk_at s1 x).
  - by rewrite decide_True by set_solver.
  - by rewrite decide_True by set_solver.
  - by rewrite decide_False by set_solver.
Qed.

Lemma scrub_one s blk :
  exists r s', attempt (bupdate blk (fun _ => zeros BLK)) s = (Ok r, s') /\ same_mem s s' /\ scrubs {[blk]} s s'.
Proof.
  unfold attempt, bupdate, LOLELFFS_SB_BREAD, mbind, M_bind. destruct (fs_disk s !! _) as [c|] eqn:E.
  - eexists _, (snd (bwrite blk (zeros BLK) s)). split; [done|]. split; [done|]. intros x. rewrite blk_at_bwrite.
    destruct (decide (blk = x)) as [<-|Hne]; [|by rewrite decide_False by set_solver].
    rewrite decide_True by set_solver. unfold blk_at. by rewrite E.
  - eexists _, s. split; [done|]. split; [done|]. intros x. case_decide as Hx; [|done].
    apply elem_of_singleton in Hx as ->. unfold blk_at. by rewrite E.
Qed.

Lemma scrub_blocks_spec n : forall start bi s,
  0 <= start + bi -> start + bi + Z.of_nat n <= 2 ^ 32 ->
  exists s', scrub_blocks n start bi s = (Ok tt, s') /\ same_mem s s' /\ scrubs (range (start + bi) (Z.of_nat n)) s s'.
Proof.
  induction n as [|n IH]; intros start bi s H0 H32; cbn [scrub_blocks].
  { exists s. split; [done|]. split; [done|]. intros x. rewrite decide_False; [done|]. rewrite elem_of_range. lia. }
  rewrite u32_small by lia. destruct (scrub_one s (start + bi)) as (r & s1 & Hr1 & (E1 & E2 & E3) & Hs1).
  rewrite (bind_run _ _ _ _ _ Hr1). destruct (IH start (bi + 1) s1) as (s2 & Hr2 & (F1 & F2 & F3) & Hs2); [lia..|].
  exists s2. split; [done|]. split; [repeat split; congruence|].
  assert (range (start + bi) (Z.of_nat (S n)) = {[start + bi]} ∪ range (start + (bi + 1)) (Z.of_nat n)) as ->.
  { apply set_eq. intros x. rewrite elem_of_union, elem_of_singleton, !elem_of_range. lia. }
  by eapply scrubs_trans.
Qed.

(** ** Giving the extents back *)

(** The blocks of the [m] extents from slot [k] on. *)
Definition runs_from (index : lolelffs_file_ei_block) (k m : nat) : gset Z :=
  ⋃ (run_of index <$> seq k m).

Lemma elem_of_runs_from index k m x :
  x ∈ runs_from index k m <-> exists j, (k <= j < k + m)%nat /\ x ∈ run_of index j.
Proof.
  unfold runs_from. rewrite elem_of_union_list. setoid_rewrite list_elem_of_fmap. setoid_rewrite elem_of_seq.
  split; [intros (X & (j & -> & ?) & ?)|intros (j & ? & ?)]; eauto.
Qed.

Lemma runs_from_0 index k : runs_from index k 0 = ∅.
Proof. done. Qed.

Section FreeFile.
Context (b0 : block) (blk : Z) (Hvalid0 : extents_valid (ei_of_block b0)).
Context (Hdis0 : forall i j, (i < lolelffs_count_extents (ei_of_block b0))%nat ->
    (j < lolelffs_count_extents (ei_of_block b0))%nat -> i <> j ->
    run_of (ei_of_block b0) i ## run_of (ei_of_block b0) j).
#[local] Abbreviation n := (lolelffs_count_extents (ei_of_block b0)).

Lemma free_file_extents_spec m : forall k s,
  (k + m = NEXT)%nat -> (k <= n)%nat -> blk_at s blk = Some b0 -> block_inv (fs_sbi s) ->
  runs_from (ei_of_block b0) k (n - k) ⊆ univ (nr_blocks (sbd (fs_sbi s))) ∖ free_blocks (fs_sbi s) ->
  blk ∉ runs_from (ei_of_block b0) k (n - k) ->
  exists s', free_file_extents m blk k s = (Ok tt, s') /\ fs_icache s' = fs_icache s /\ fs_k s' = fs_k s /\
    geom s' = geom s /\ inode_map s' = inode_map s /\ block_inv (fs_sbi s') /\
    free_blocks (fs_sbi s') = free_blocks (fs_sbi s) ∪ runs_from (ei_of_block b0) k (n - k) /\
    scrubs (runs_from (ei_of_block b0) k (n - k)) s s'.
Proof using Hvalid0 Hdis0.
  induction m as [|m IH]; intros k s Hk Hkn Hr Hinv Huse Hap;
    destruct (count_extents_spec (ei_of_block b0)) as (Hn1 & Hn2 & Hn3); cbn [free_file_extents].
  - replace (n - k)%nat with 0%nat in * by lia. exists s.
    split_and!; [done..|by rewrite runs_from_0, union_empty_r_L|apply scrubs_empty].
  - rewrite (bind_run _ _ _ _ _ (bread_run _ _ _ Hr)). destruct (decide (k = n)) as [->|Hne].
    { rewrite Hn3 by lia. cbn [Z.eqb]. rewrite Nat.sub_diag in *. exists s.
      split_and!; [done..|by rewrite runs_from_0, union_empty_r_L|apply scrubs_empty]. }
    rewrite (proj2 (Z.eqb_neq _ _) (Hn2 k ltac:(lia))). set (e := ext (ei_of_block b0) k).
    assert (runs_from (ei_of_block b0) k (n - k) = range (ee_start e) (ee_len e) ∪ runs_from (ei_of_block b0) (S k) (n - S k))
      as Esplit by (unfold runs_from; replace (n - k)%nat with (S (n - S k)) by lia; done).
    rewrite Esplit in *. set (rest := runs_from _ (S k) _) in *.
    destruct (Hvalid0 k ltac:(lia)) as [Hlen _]. fold e in Hlen. pose proof (extent_max_blocks_le e).
    destruct (put_run (fs_sbi s) (ee_start e) (ee_len e) Hinv ltac:(lia)) as [Hinv' HF]; [set_solver|].
    destruct (univ_bounds (fs_sbi s) (ee_start e) (ee_len e) Hinv ltac:(lia)) as (? & ? & ?); [set_solver|].
    unfold upd_sbi. rewrite bind_modify. set (s1 := set_sbi (put_blocks _ _ _) s).
    destruct (put_blocks_frame (fs_sbi s) (ee_start e) (ee_len e)) as (Eo & En & _).
    assert (forall j, blk_at s1 j = blk_at s j) as Hat1 by (intros; unfold blk_at, s1; cbn [set_sbi fs_disk fs_sbi]; by rewrite Eo).
    destruct (scrub_blocks_spec (Z.to_nat (ee_len e)) (ee_start e) 0 s1) as (s2 & Hrun & (E1 & E2 & E3) & Hs2); [lia..|].
    rewrite (bind_run _ _ _ _ _ Hrun). rewrite Z.add_0_r, Z2Nat.id in Hs2 by lia.
    assert (range (ee_start e) (ee_len e) ## rest) as Hdis.
    { intros x Hx Hx'. apply elem_of_runs_from in Hx' as (j & Hj & Hx').
      exact (Hdis0 k j ltac:(lia) ltac:(lia) ltac:(lia) x Hx Hx'). }
    change (fs_sbi s1) with (put_blocks (fs_sbi s) (ee_start e) (ee_len e)) in E1.
    change (fs_icache s1) with (fs_icache s) in E2. change (fs_k s1) with (fs_k s) in E3.
    destruct (IH (S k) s2) as (s' & Hrun' & Ei & Ek & Hg & Him & Hinv2 & HF2 & Hs'); rewrite ?E1; [lia..| |done| | |].
    { rewrite Hs2, decide_False, Hat1; [done|]. clear -Hap. set_solver. }
    { fold rest. rewrite En, HF. clear -Huse Hdis. set_solver. }
    { fold rest. clear -Hap. set_solver. }
    fold rest in HF2, Hs'. exists s'. split; [exact Hrun'|]. split_and!; [congruence..| | |done| |].
    + rewrite Hg. unfold geom. rewrite E1, Eo, En. unfold put_blocks. by destruct (put_free_bits _ _ _ _).
    + rewrite Him. unfold inode_map. rewrite E1. unfold put_blocks. by destruct (put_free_bits _ _ _ _).
    + rewrite HF2, E1, HF. by rewrite (assoc_L (∪)).
    + eapply scrubs_trans; [|exact Hs']. intros x. by rewrite Hs2, !Hat1.
Qed.
End FreeFile.

(** ** The label clean_inode *)

(** The fields clean_inode leaves in the inode. *)
Definition cleaned (v : vinode) : vinode :=
  drop_nlink (set_times 0 0 0 (set_owner (0, 0, 0) (set_size 0 (set_xattr_block 0 (set_ei_block 0 (set_i_blocks 0 v)))))).

(** The inode and its block go back to the free maps. *)
Lemma clean_inode_spec s inode ino bno w :
  fs_icache s !! inode = Some w -> xattr_block w = 0 -> block_inv (fs_sbi s) -> inode_inv (fs_sbi s) ->
  bno ∈ univ (nr_blocks (sbd (fs_sbi s))) ∖ free_blocks (fs_sbi s) ->
  ino ∈ univ (nr_inodes (sbd (fs_sbi s))) ∖ free_inodes (fs_sbi s) ->
  exists s', clean_inode inode ino bno s = (Ok tt, s') /\ fs_icache s' = <[inode := cleaned w]> (fs_icache s) /\
    fs_k s' = fs_k s /\ geom s' = geom s /\ block_inv (fs_sbi s') /\ inode_inv (fs_sbi s') /\
    free_blocks (fs_sbi s') = free_blocks (fs_sbi s) ∪ {[bno]} /\
    free_inodes (fs_sbi s') = free_inodes (fs_sbi s) ∪ {[ino]} /\ forall j, blk_at s' j = blk_at s j.
Proof.
  intros Hw Hx Hbi Hii Hbno Hino. unfold clean_inode.
  assert (lolelffs_xattr_free_blocks inode s = (Ok tt, s)) as Hxf.
  { unfold lolelffs_xattr_free_blocks, inode_at. rewrite bind_gets, Hw. cbn [default from_option id]. by rewrite Hx. }
  rewrite (bind_run _ _ _ _ _ Hxf), (bind_run _ _ _ _ _ (inode_upd_run inode _ w s Hw)).
  unfold upd_sbi. rewrite bind_modify. cbn [set_icache fs_sbi].
  destruct (put_block_inode_spec s bno ino Hbi Hii Hbno Hino) as (Hbi' & Hii' & HFb & HFi & Hg).
  destruct (geom_inv _ _ Hg) as (_ & Eo & _ & _). cbn [set_sbi fs_sbi] in Eo.
  eexists. split; [done|]. cbn [set_icache set_sbi fs_icache fs_sbi]. split_and!; try done.
  intros j. unfold blk_at. cbn [set_icache set_sbi fs_disk fs_sbi]. by rewrite Eo.
Qed.

(** ** lolelffs_unlink of a regular file *)

Abbreviation file_runs fb := (runs_from (ei_of_block fb) 0 (lolelffs_count_extents (ei_of_block fb))).
Abbreviation dir_blocks d b bs := ({[ei_block d]} ∪ range (ee_start (dext b)) (Z.of_nat (length bs)) : gset Z).

Lemma file_runs_used sbi fb : index_ok sbi fb -> file_runs fb ⊆ univ (nr_blocks (sbd sbi)) ∖ free_blocks sbi.
Proof. intros Hidx x (j & Hj & Hx)%elem_of_runs_from. by apply (io_used _ _ Hidx j); [lia|]. Qed.

(** From the extents to the label clean_inode. *)
Lemma delete_file_run s inode v fb :
  block_inv (fs_sbi s) -> inode_inv (fs_sbi s) -> fs_icache s !! inode = Some v -> xattr_block v = 0 ->
  blk_at s (ei_block v) = Some fb -> index_ok (fs_sbi s) fb ->
  inode ∈ univ (nr_inodes (sbd (fs_sbi s))) ∖ free_inodes (fs_sbi s) ->
  ei_block v ∈ univ (nr_blocks (sbd (fs_sbi s))) ∖ free_blocks (fs_sbi s) -> ei_block v ∉ file_runs fb ->
  exists s', (free_file_extents NEXT (ei_block v) 0;; bwrite (ei_block v) (zeros BLK);;
      clean_inode inode inode (ei_block v)) s = (Ok tt, s') /\
    fs_icache s' = <[inode := cleaned v]> (fs_icache s) /\ fs_k s' = fs_k s /\ geom s' = geom s /\
    block_inv (fs_sbi s') /\ inode_inv (fs_sbi s') /\
    free_blocks (fs_sbi s') = free_blocks (fs_sbi s) ∪ ({[ei_block v]} ∪ file_runs fb) /\
    free_inodes (fs_sbi s') = free_inodes (fs_sbi s) ∪ {[inode]} /\
    scrubs ({[ei_block v]} ∪ file_runs fb) s s'.
Proof.
  intros Hbi Hii Hv Hx Hrd Hidx Hlive Hblk Hown. pose proof (file_runs_used _ _ Hidx) as Huse.
  set (n := lolelffs_count_extents (ei_of_block fb)) in *. set (X := runs_from _ 0 n) in *.
  destruct (free_file_extents_spec fb (ei_block v) (io_valid _ _ Hidx) (io_disjoint _ _ Hidx) NEXT 0 s)
    as (s1 & Hr1 & Ec1 & Ek1 & Hg1 & Hm1 & Hbi1 & HF1 & Hs1); try done; try lia; rewrite ?Nat.sub_0_r; try done.
  rewrite Nat.sub_0_r in HF1, Hs1. fold n in HF1, Hs1. fold X in HF1, Hs1.
  destruct (geom_inv _ _ Hg1) as (_ & Eo1 & En1 & Eni1).
  rewrite (bind_run _ _ _ _ _ Hr1). unfold bwrite. rewrite bind_modify.
  change (set_disk _ s1) with (snd (bwrite (ei_block v) (zeros BLK) s1)). set (s2 := snd (bwrite (ei_block v) (zeros BLK) s1)).
  assert (scrubs {[ei_block v]} s1 s2) as Hs2.
  { intros x. unfold s2. rewrite blk_at_bwrite. destruct (decide (ei_block v = x)) as [<-|Hne].
    - rewrite decide_True by (by apply elem_of_singleton). rewrite Hs1, decide_False, Hrd by exact Hown. reflexivity.
    - by rewrite decide_False by (intros E%elem_of_singleton; by rewrite E in Hne). }
  pose proof (inode_map_free _ _ Hm1) as HFi1. injection Hm1 as Em1 Em2 Em3.
  destruct (clean_inode_spec s2 inode inode (ei_block v) v) as (s3 & Hr3 & Ec3 & Ek3 & Hg3 & Hbi3 & Hii3 & HF3 & HFi3 & Hat3);
    try done; change (fs_sbi s2) with (fs_sbi s1) in *.
  - by change (fs_icache s2) with (fs_icache s1); rewrite Ec1.
  - unfold inode_inv. by rewrite Em1, Em2, Em3.
  - rewrite En1, HF1. clear -Hblk Hown. set_solver.
  - by rewrite Eni1, HFi1.
  - exists s3. split; [done|]. split_and!; try done.
    + by rewrite Ec3; change (fs_icache s2) with (fs_icache s1); rewrite Ec1.
    + by rewrite Ek3.
    + by rewrite Hg3.
    + rewrite HF3, HF1. clear. set_solver.
    + by rewrite HFi3, HFi1.
    + assert ({[ei_block v]} ∪ X = X ∪ {[ei_block v]}) as -> by (clear; set_solver).
      apply (scrubs_trans _ _ _ _ _ Hs1). intros x. rewrite Hat3. exact (Hs2 x).
Qed.

(** A regular file with one link and no extended attributes, whose blocks are
    its own. *)
Record can_unlink (s : fs) (dir : Z) (d : vinode) (b : block) (bs : list block) (l : list dentry)
    (inode : Z) (v : vinode) (fb : block) : Prop := {
  cu_ok : fs_ok s;
  cu_dir : fs_icache s !! dir = Some d;
  cu_rep : dir_rep s (ei_block d) b bs l;
  cu_file : file_ok s inode v fb;
  cu_ne : dir <> inode;
  cu_reg : S_ISREG (i_mode v) = true;
  cu_nlink : i_nlink v = 1;
  cu_xattr : xattr_block v = 0;
  cu_live : inode ∈ univ (nr_inodes (sbd (fs_sbi s))) ∖ free_inodes (fs_sbi s);
  cu_block : ei_block v ∈ univ (nr_blocks (sbd (fs_sbi s))) ∖ free_blocks (fs_sbi s);
  cu_own : ei_block v ∉ file_runs fb;
  cu_apart : ({[ei_block v]} ∪ file_runs fb) ## dir_blocks d b bs;
  cu_data : forall x, x ∈ {[ei_block v]} ∪ file_runs fb -> data_start s <= x
}.

Lemma reg_not_other m : S_ISREG m = true -> S_ISLNK m = false /\ S_ISDIR m = false.
Proof.
  unfold S_ISREG, S_ISLNK, S_ISDIR. intros ->%Z.eqb_eq. done.
Qed.

(** What a run of lolelffs_unlink established: the directory has index [b'] and
    blocks [bs'] now. *)
Record unlinked (s : fs) (dir : Z) (d : vinode) (b : block) (bs : list block) (l : list dentry) (inode : Z)
    (v : vinode) (fb : block) (s' : fs) (b' : block) (bs' : list block) : Prop := {
  ul_ok : fs_ok s';
  ul_geom : geom s' = geom s;
  ul_k : fs_k s' = fs_k s;
  ul_rep : dir_rep s' (ei_block d) b' bs' (d_remove l inode);
  ul_dir : dext b' = dext b /\ length bs' = length bs;
  ul_free_blocks : free_blocks (fs_sbi s') = free_blocks (fs_sbi s) ∪ ({[ei_block v]} ∪ file_runs fb);
  ul_free_inodes : free_inodes (fs_sbi s') = free_inodes (fs_sbi s) ∪ {[inode]};
  ul_cache : fs_icache s' = <[inode := cleaned v]> (<[dir := set_all_times (fs_k s) d]> (fs_icache s));
  ul_scrubbed : forall x, x ∈ {[ei_block v]} ∪ file_runs fb -> blk_at s' x = (fun _ => zeros BLK) <$> blk_at s x;
  ul_frame : forall x, x ∉ {[ei_block v]} ∪ file_runs fb -> x ∉ dir_blocks d b bs -> blk_at s' x = blk_at s x
}.

Lemma unlink_run s dir d b bs l inode v fb :
  can_unlink s dir d b bs l inode v fb ->
  exists s' b' bs', lolelffs_unlink dir inode s = (Ok tt, s') /\ unlinked s dir d b bs l inode v fb s' b' bs'.
Proof.
  intros [Hok Hd Hrep Hf Hne Hreg Hnl Hx Hlive Hblk Hown Hap Hmeta].
  destruct (reg_not_other _ Hreg) as [Hlnk Hdir]. pose proof Hf as [Hv Hrd Hbi _ Hidx].
  assert (i_ino v = inode) as Ei by (by apply (fk_cache _ Hok)).
  assert (0 < inode < 2 ^ 32) as Hi32.
  { destruct (fk_inodes _ Hok) as [? _]. apply elem_of_difference in Hlive as [Hu _].
    unfold univ in Hu. rewrite elem_of_range in Hu. lia. }
  destruct (remove_from_dir_spec s dir inode d v b bs l Hd Hv ltac:(lia) Hrep)
    as (s1 & b1 & bs1 & Hrm & Hrep1 & Eb1 & Es1 & Ec1 & Ek1 & Hat1). rewrite Ei in Hrep1.
  assert (length bs1 = length bs) as Hlb.
  { pose proof (dr_run _ _ _ _ _ Hrep) as H1. pose proof (dr_run _ _ _ _ _ Hrep1) as H2. rewrite Eb1 in H2.
    destruct (_ =? 0); [by subst|]. by destruct H1 as [_ ->], H2 as [_ ->]. }
  unfold lolelffs_unlink, inode_at. rewrite bind_gets, Hv. cbn [default from_option id].
  rewrite (bind_run _ _ _ _ _ Hrm), Hlnk, bind_gets. rewrite Ei, u32_small by lia.
  rewrite (bind_run _ _ _ _ _ (inode_upd_run dir _ d s1 ltac:(by rewrite Ec1))), Ek1, Ec1.
  set (s2 := set_icache _ s1). rewrite Hdir, bind_mret, bind_gets.
  assert (fs_icache s2 !! inode = Some v) as Hv2 by (unfold s2; cbn [set_icache fs_icache]; by rewrite lookup_insert_ne).
  rewrite Hv2. cbn [default from_option id]. rewrite Hnl, Hdir. change (1 <? 1) with false. cbn iota.
  assert (forall j, j ∉ dir_blocks d b bs -> blk_at s2 j = blk_at s j) as Hat2.
  { intros j Hj. change (blk_at s2 j) with (blk_at s1 j). apply Hat1; clear -Hj; set_solver. }
  assert (blk_at s2 (ei_block v) = Some fb) as Hrd2 by (rewrite Hat2; [done|clear -Hap; set_solver]).
  rewrite (bind_run _ _ _ _ _ (attempt_run _ _ _ _ (bread_run _ _ _ Hrd2))).
  destruct (delete_file_run s2 inode v fb) as (s3 & Hr3 & Ec3 & Ek3 & Hg3 & Hbi3 & Hii3 & HF3 & HFi3 & Hs3);
    try done; change (fs_sbi s2) with (fs_sbi s1) in *; rewrite ?Es1 in *; try done; [apply Hok|].
  assert (geom s3 = geom s) as Hg by (rewrite Hg3; unfold geom; change (fs_sbi s2) with (fs_sbi s1); by rewrite Es1).
  destruct (geom_inv _ _ Hg) as (Ed & _ & En & _).
  exists s3, b1, bs1. split; [exact Hr3|]. split; try done.
  - split; [done|done| | |by apply (meta_ok_geom s); [|apply Hok]].
    + intros j w. rewrite Ec3. intros [[<- <-]|[_ Hw]]%lookup_insert_Some; [exact Ei|].
      unfold s2 in Hw. cbn [set_icache fs_icache] in Hw. apply lookup_insert_Some in Hw as [[<- <-]|[_ Hw]]; [exact (fk_cache _ Hok _ _ Hd)|].
      by apply (fk_cache _ Hok).
    + rewrite HF3, Ed. intros x [Hx'|Hx']%elem_of_union; [by apply (fk_free _ Hok)|by apply Hmeta].
  - by rewrite Ek3.
  - apply (dir_rep_frame_gen s1); rewrite ?Es1; try done; rewrite ?Eb1, ?Hlb.
    + rewrite HF3. pose proof (dr_used _ _ _ _ _ Hrep) as Hu. clear -Hu Hap. set_solver.
    + intros j Hj. rewrite Hs3, decide_False; [done|]. clear -Hj Hap. set_solver.
  - intros x Hin. rewrite Hs3, decide_True by done. rewrite Hat2; [done|]. clear -Hin Hap. set_solver.
  - intros x Hin Hxd. rewrite Hs3, decide_False by done. by apply Hat2.
Qed.

(** C5 Deleting a file gives back everything it holds: lolelffs_unlink of a
    regular file with one link succeeds, removes exactly the first entry with
    its inode from the directory, returns the inode, its index block and all
    blocks of its extents to the free maps (and no others) with the counters
    exact, overwrites each of those blocks with zeros, keeps every other block
    outside the directory, and leaves the inode without links. *)
Theorem unlink_frees_file s dir d b bs l inode v fb :
  can_unlink s dir d b bs l inode v fb ->
  exists s' b' bs', lolelffs_unlink dir inode s = (Ok tt, s') /\ unlinked s dir d b bs l inode v fb s' b' bs' /\
    exists w, fs_icache s' !! inode = Some w /\ i_nlink w = 0.
Proof.
  intros Hcu. destruct (unlink_run _ _ _ _ _ _ _ _ _ Hcu) as (s' & b' & bs' & Hrun & Hul).
  exists s', b', bs'. split; [done|]. split; [done|]. exists (cleaned v).
  rewrite (ul_cache _ _ _ _ _ _ _ _ _ _ _ _ Hul), lookup_insert_eq. split; [done|].
  cbn. by rewrite (cu_nlink _ _ _ _ _ _ _ _ _ Hcu).
Qed.

(** ** Witnesses *)

(** The blocks of a run as the disk has them. *)
Definition read_run (s : fs) (start : Z) (n : nat) : list block :=
  (fun i => default [] (blk_at s i)) <$> seqZ start (Z.of_nat n).

Lemma read_run_ok s start n :
  Forall (fun i => exists c, blk_at s i = Some c /\ length c = BLK) (seqZ start (Z.of_nat n)) ->
  run_blocks s start (read_run s start n).
Proof.
  intros H k c Hk. unfold read_run in Hk. apply list_lookup_fmap_Some in Hk as (i & -> & Hi).
  destruct (Forall_lookup_1 _ _ _ _ H Hi) as (c & Hc & Hl). apply lookup_seqZ in Hi as [-> _].
  by rewrite Hc.
Qed.

(** The file "a" in the root directory, with its first extent. *)
Definition ex_a_new : fs := snd (lolelffs_create 0 ex_name 0x81A4 ex_fs64).
Definition ex_a_fs : fs := snd (lolelffs_file_get_block 1 0 true ex_a_new).
Definition ex_a_v : vinode := default no_inode (fs_icache ex_a_fs !! 1).
Definition ex_a_index : block := default [] (blk_at ex_a_fs 5).
Definition ex_a_root : vinode := default no_inode (fs_icache ex_a_fs !! 0).
Definition ex_a_dir : block := default [] (blk_at ex_a_fs 4).
Definition ex_a_list : list dentry := [(ex_name, 1)].

Lemma ex_a_file : file_ok ex_a_fs 1 ex_a_v ex_a_index.
Proof.
  assert (file_ok ex_a_new 1 ex_a_v (zeros BLK)) as H0.
  { split; [vm_compute; reflexivity..| |vm_compute; discriminate|apply index_ok_zeros].
    repeat split; vm_compute; discriminate || reflexivity. }
  assert (lolelffs_file_get_block 1 0 true ex_a_new = (Ok (Some 14), ex_a_fs)) as H1 by (vm_compute; reflexivity).
  apply (get_block_spec _ _ _ _ _ _ _ _ H0) in H1; [|lia].
  destruct (gb_outcome_ok _ _ _ _ _ _ _ _ H0 H1) as [b' H2].
  replace ex_a_index with b'; [exact H2|]. unfold ex_a_index. change 5 with (ei_block ex_a_v).
  rewrite (fo_read _ _ _ _ H2). reflexivity.
Qed.

Lemma ex_a_rep : dir_rep ex_a_fs 4 ex_a_dir (read_run ex_a_fs 6 8) ex_a_list.
Proof.
  split.
  - apply ex_a_file.
  - vm_compute. reflexivity.
  - unfold block_ok, bytes_ok. split; [vm_compute; reflexivity|]. apply (bool_decide_unpack _). vm_compute. exact I.
  - vm_compute. reflexivity.
  - vm_compute. reflexivity.
  - vm_compute. split; reflexivity.
  - change (ee_start (dext ex_a_dir)) with 6. apply read_run_ok.
    repeat (apply Forall_cons_2; [eexists; split; vm_compute; reflexivity|]). constructor.
  - constructor; [|constructor]. split; [|vm_compute; intuition congruence].
    unfold name_ok, bytes_ok. split_and!; try (vm_compute; discriminate); apply (bool_decide_unpack _); vm_compute; exact I.
  - exists (drop 1 (files (read_run ex_a_fs 6 8))). split; [vm_compute; reflexivity|].
    assert (Forall (fun f => f_inode f = 0) (drop 1 (files (read_run ex_a_fs 6 8)))) as H
      by (apply (bool_decide_unpack _); vm_compute; exact I). exact H.
  - apply (bool_decide_unpack _). vm_compute. exact I.
  - apply (bool_decide_unpack _). vm_compute. exact I.
Qed.

Lemma ex_a_fs_ok : fs_ok ex_a_fs.
Proof.
  split.
  - apply ex_a_file.
  - repeat split; vm_compute; discriminate || reflexivity.
  - assert (map_Forall (fun i v => i_ino v = i) (fs_icache ex_a_fs)) as H
      by (apply (bool_decide_unpack _); vm_compute; exact I). exact H.
  - assert (set_Forall (fun x => data_start ex_a_fs <= x) (free_blocks (fs_sbi ex_a_fs))) as H
      by (apply (bool_decide_unpack _); vm_compute; exact I). exact H.
  - repeat split; vm_compute; discriminate || reflexivity.
Qed.

Lemma ex_can_unlink :
  can_unlink ex_a_fs 0 ex_a_root ex_a_dir (read_run ex_a_fs 6 8) ex_a_list 1 ex_a_v ex_a_index.
Proof.
  split; [exact ex_a_fs_ok|vm_compute; reflexivity|exact ex_a_rep|exact ex_a_file|discriminate|vm_compute; reflexivity..| | | | |].
  1-4: apply (bool_decide_unpack _); vm_compute; exact I.
  assert (set_Forall (fun x => data_start ex_a_fs <= x) ({[ei_block ex_a_v]} ∪ file_runs ex_a_index)) as H
    by (apply (bool_decide_unpack _); vm_compute; exact I). exact H.
Qed.

Lemma unlink_frees_file_witness : exists s', lolelffs_unlink 0 1 ex_a_fs = (Ok tt, s') /\
  free_inodes (fs_sbi s') = free_inodes (fs_sbi ex_fs64) /\ nr_free_inodes (sbd (fs_sbi s')) = 55.
Proof.
  destruct (unlink_frees_file ex_a_fs 0 ex_a_root ex_a_dir (read_run ex_a_fs 6 8) ex_a_list 1 ex_a_v ex_a_index
    ex_can_unlink) as (s' & b' & bs' & H1 & H2 & _).
  exists s'. split; [exact H1|]. assert (free_inodes (fs_sbi s') = free_inodes (fs_sbi ex_fs64)) as E.
  { rewrite (ul_free_inodes _ _ _ _ _ _ _ _ _ _ _ _ H2). apply (bool_decide_unpack _). vm_compute. exact I. }
  split; [exact E|]. destruct (fk_inodes _ (ul_ok _ _ _ _ _ _ _ _ _ _ _ _ H2)) as (_ & _ & _ & Hc).
  change (free_set _ _) with (free_inodes (fs_sbi s')) in Hc. rewrite Hc, E. vm_compute. reflexivity.
Defined.
