(* ===== verification/Links.v ===== *)
(** * Hard and symbolic links (lolelffs_link, lolelffs_symlink and
      lolelffs_get_link of src/src/inode.c)

    Both operations add an entry with the code that lolelffs_create uses
    ([dir_add]); a symbolic link also takes an inode, whose inline data hold the
    target and survive a trip to the disk. *)
From S2P Require Import Prelude Layout Bitmap Extent State Elf Super Codec File Xattr XattrSpec Inode InodeSpec Namespace Unlink.

(** ** Adding one entry *)

(** What adding [name] to the directory is proved against. *)
Record can_link (s : fs) (dir : Z) (d : vinode) (b : block) (bs : list block) (l : list dentry)
    (name : list Z) : Prop := {
  cl_ok : fs_ok s;
  cl_dir : fs_icache s !! dir = Some d;
  cl_rep : dir_rep s (ei_block d) b bs l;
  cl_data : dir_in_data s (ei_block d) b;
  cl_clear : free_clear s;
  cl_room : (length l < 120)%nat;
  cl_name : name_ok name;
  cl_space : ee_start (dext b) <> 0 \/ exists x, range x 8 ⊆ free_blocks (fs_sbi s)
}.

(** The directory after it: one more entry, the blocks before the data area
    and the inode map as they were. *)
Record linked (s : fs) (d : vinode) (l : list dentry) (name : list Z) (ino : Z) (s' : fs) (b' : block) (bs' : list block)
    : Prop := {
  lk_rep : dir_rep s' (ei_block d) b' bs' (l ++ [(name, ino)]);
  lk_free : free_blocks (fs_sbi s') ⊆ free_blocks (fs_sbi s);
  lk_meta : forall j, j < data_start s -> blk_at s' j = blk_at s j;
  lk_keep : forall j, j <> ei_block d -> j ∉ range (ee_start (dext b')) 8 -> blk_at s' j = blk_at s j;
  lk_inodes : free_inodes (fs_sbi s') = free_inodes (fs_sbi s);
  lk_geom : geom s' = geom s;
  lk_k : fs_k s' = fs_k s
}.

Lemma dir_add_linked s dir d b bs l name ino :
  can_link s dir d b bs l name -> 0 < ino < 2 ^ 32 ->
  exists s' b' bs', dir_add (ei_block d) (Some ino) name s = (Ok tt, s') /\ linked s d l name ino s' b' bs' /\
    fs_icache s' = fs_icache s.
Proof.
  intros [Hok _ Hrep [Hdb Hdx] Hcl Hl Hn Hsp] Hino.
  destruct (dir_add_spec s (ei_block d) b bs l name ino Hrep Hcl Hl (conj Hn Hino))
    as [(_ & He & Hno)|(s' & b' & bs' & Hrun & Hrep' & Ec & Ek & HF & Hat & Hg & Hsrc)].
  { destruct Hsp as [?|[x Hx]]; [done|]. by destruct (Hno x). }
  exists s', b', bs'. split; [done|]. split; [|done]. split; try done.
  2:{ apply inode_map_free. pose proof (dir_add_inodes (ei_block d) (Some ino) name s) as E. by rewrite Hrun in E. }
  intros j Hj. apply Hat; [lia|]. intros Hin. apply elem_of_range in Hin.
  assert (data_start s <= ee_start (dext b')); [|lia].
  destruct Hsrc as [E|Hsub].
  - destruct Hdx as [E0|?]; [|lia]. pose proof (dr_run _ _ _ _ _ Hrep') as Hr. rewrite <- E, E0 in Hr. cbn in Hr. subst bs'.
    destruct (dir_bounds _ _ _ _ _ Hrep') as (_ & _ & Hlen & _). rewrite length_app in Hlen. cbn in Hlen. lia.
  - apply (fk_free _ Hok), Hsub, elem_of_range. lia.
Qed.

(** C21 A hard link is another name of the same inode: in a directory with room
    that does not have the name, lolelffs_link succeeds, appends exactly the
    entry (name, inode), raises the link count by one, changes no block outside
    the directory, and lolelffs_lookup then finds the inode under the new name
    and what it found before under every other name whose inode is cached. *)
Theorem link_then_lookup s dir d b bs l name inode v :
  can_link s dir d b bs l name -> fs_icache s !! inode = Some v -> inode <> dir ->
  0 < inode < nr_inodes (sbd (fs_sbi s)) -> d_lookup l name = None ->
  exists s' b' bs', lolelffs_link inode dir name s = (Ok tt, s') /\ linked s d l name inode s' b' bs' /\
    fs_icache s' = <[inode := inc_nlink v]> (fs_icache s) /\
    fst (lolelffs_lookup dir name s') = Ok (Some inode) /\
    forall other, name_ok other -> other <> name ->
      (forall i, d_lookup l other = Some i -> i < nr_inodes (sbd (fs_sbi s)) /\ is_Some (fs_icache s !! i)) ->
      fst (lolelffs_lookup dir other s') = fst (lolelffs_lookup dir other s).
Proof.
  intros Hcan Hv Hne Hi Hnone. pose proof (cl_ok _ _ _ _ _ _ _ Hcan) as Hok. pose proof (cl_dir _ _ _ _ _ _ _ Hcan) as Hd.
  pose proof (cl_rep _ _ _ _ _ _ _ Hcan) as Hrep. pose proof (fk_cache _ Hok inode v Hv) as Eino.
  destruct (fk_inodes _ Hok) as (Hu32 & _).
  destruct (dir_add_linked s dir d b bs l name inode Hcan ltac:(lia)) as (s1 & b' & bs' & Hadd & Hlk & Ec).
  set (s' := set_icache (<[inode := inc_nlink v]> (fs_icache s1)) s1).
  destruct Hlk as [Hrep' Hfree Hmeta Hkeep Him Hg Hk]. destruct (geom_inv _ _ Hg) as (_ & _ & _ & En).
  assert (dir_rep s' (ei_block d) b' bs' (l ++ [(name, inode)])) as Hrep2 by (by destruct Hrep'; split).
  assert (fs_icache s' = <[inode := inc_nlink v]> (fs_icache s)) as Ec' by (unfold s'; cbn; by rewrite Ec).
  assert (fs_icache s' !! dir = Some d) as Hd' by (by rewrite Ec', lookup_insert_ne).
  exists s', b', bs'. split_and!.
  - unfold lolelffs_link, inode_at. rewrite !bind_gets, Hd, Hv. cbn [default from_option id].
    rewrite (bind_run _ _ _ _ _ (bread_run _ _ _ (dr_read _ _ _ _ _ Hrep))), (dr_count _ _ _ _ _ Hrep).
    rewrite few_subfiles by apply Hcan. rewrite Eino, (bind_run _ _ _ _ _ Hadd). apply inode_upd_run. by rewrite Ec.
  - by split.
  - exact Ec'.
  - rewrite (lookup_run s' dir d b' bs' _ name Hd' Hrep2 (cl_name _ _ _ _ _ _ _ Hcan)); rewrite d_lookup_app, Hnone, bool_decide_true by done; [done|].
    intros i [= <-]. change (sbd (fs_sbi s')) with (sbd (fs_sbi s1)). rewrite En, Ec', lookup_insert_eq. split; [lia|done].
  - intros other Hon Hother Hc.
    assert (d_lookup (l ++ [(name, inode)]) other = d_lookup l other) as El
      by (rewrite d_lookup_app, bool_decide_false by congruence; by destruct (d_lookup l other)).
    rewrite (lookup_run s' dir d b' bs' _ other Hd' Hrep2 Hon), El; [by rewrite (lookup_run s dir d b bs l other Hd Hrep Hon Hc)|].
    rewrite El. intros i Ei. destruct (Hc i Ei) as [Hlt [w Hw]]. change (sbd (fs_sbi s')) with (sbd (fs_sbi s1)).
    rewrite En, Ec'. split; [done|]. destruct (decide (inode = i)) as [->|]; [by rewrite lookup_insert_eq|by rewrite lookup_insert_ne].
Qed.

(** ** Symbolic links *)

(** What lolelffs_symlink is proved against; a free inode is not in the cache,
    as the VFS drops the inode of a deleted file. *)
Record can_symlink (s : fs) (dir : Z) (d : vinode) (b : block) (bs : list block) (l : list dentry)
    (name : list Z) : Prop := {
  cs_link : can_link s dir d b bs l name;
  cs_memory : oom (fs_k s) A_inode = false;
  cs_store : forall i, i ∈ free_inodes (fs_sbi s) -> exists c, blk_at s (inode_block_of i) = Some c /\ length c = BLK;
  cs_evicted : forall i, i ∈ free_inodes (fs_sbi s) -> fs_icache s !! i = None;
  cs_slab : length (slab_i_data (fs_k s)) = 28%nat;
  cs_owner : forall p m, 0 <= m < 2 ^ 16 -> S_ISLNK m = true ->
    let m' := snd (inode_init_owner (fs_k s) p m) in 0 <= m' < 2 ^ 16 /\ S_ISLNK m' = true;
  cs_inode : free_inodes (fs_sbi s) ≠ ∅;
  cs_block : free_blocks (fs_sbi s) ≠ ∅
}.

(** The inode of a new symbolic link. *)
Record new_link (s : fs) (ino : Z) (s1 : fs) (v : vinode) : Prop := {
  nl_cache : fs_icache s1 = <[ino := v]> (fs_icache s);
  nl_ino : i_ino v = ino;
  nl_mode : 0 <= i_mode v < 2 ^ 16 /\ S_ISLNK (i_mode v) = true;
  nl_data : length (i_data v) = 28%nat;
  nl_nlink : i_nlink v = 1;
  nl_free : ino ∈ free_inodes (fs_sbi s);
  nl_disk : fs_disk s1 = fs_disk s;
  nl_k : fs_k s1 = fs_k s;
  nl_geom : geom s1 = geom s;
  nl_blocks : block_inv (fs_sbi s1) /\ free_blocks (fs_sbi s1) = free_blocks (fs_sbi s);
  nl_inodes : inode_inv (fs_sbi s1) /\ free_inodes (fs_sbi s1) = free_inodes (fs_sbi s) ∖ {[ino]}
}.

Lemma new_link_run s dir d b bs l name :
  can_symlink s dir d b bs l name ->
  exists ino s1 v, lolelffs_new_inode dir (Z.lor S_IFLNK S_IRWXUGO) s = (Ok ino, s1) /\ new_link s ino s1 v.
Proof.
  intros [[Hok Hd _ _ _ _ _ _] Hoom Hst Hev Hslab Hown Hfi Hfb]. unfold lolelffs_new_inode.
  change (negb _ && _ && _) with false at 1. cbn iota. rewrite bind_gets. cbn [id]. cbv zeta.
  destruct (fk_inodes _ Hok) as (_ & _ & _ & Eci). destruct (fk_blocks _ Hok) as (_ & _ & _ & Ecb).
  rewrite Eci, Ecb, !size_pos_neq by done. cbn [orb].
  destruct (get_free_inode (fs_sbi s)) as [i sbi1] eqn:Egi.
  rewrite (bind_run _ _ _ _ _ (with_sbi_run _ _ _ _ Egi)).
  destruct (al_get_ok (Allocator := inode_allocator) (fs_sbi s) 1 i sbi1 (fk_inodes _ Hok) eq_refl Egi)
    as (Hii & _ & [(Hnz & Hsub & HFi)|(_ & _ & Hno)]).
  2:{ apply set_choose_L in Hfi as [x Hx]. by destruct (Hno x (singleton_range x _ Hx)). }
  rewrite (proj2 (Z.eqb_neq _ _) Hnz). set (s2 := set_sbi sbi1 s) in *.
  pose proof (block_inv_get_inode (fs_sbi s) (fk_blocks _ Hok)) as [Hbi HFb]. rewrite Egi in Hbi, HFb. cbn [snd] in Hbi, HFb.
  pose proof (geom_get_inode s) as Hg1. rewrite Egi in Hg1. cbn [snd] in Hg1. fold s2 in Hg1.
  destruct (geom_inv _ _ Hg1) as (_ & Eo & _ & En).
  assert (i ∈ free_inodes (fs_sbi s)) as Hfree by (apply Hsub, elem_of_range; lia).
  pose proof (map_inv_univ _ _ _ (fk_inodes _ Hok) i Hfree) as Hu. unfold univ in Hu. rewrite elem_of_range in Hu.
  destruct (Hst i Hfree) as (c & Hc & _).
  assert (stored_inode s2 i = Some (disk_inode_at c (inode_shift_of i))) as Hdi
    by (unfold stored_inode, blk_at; rewrite Eo; unfold blk_at in Hc; change (fs_disk s2) with (fs_disk s); by rewrite Hc).
  pose proof (iget_spec s2 i _ ltac:(rewrite En; lia) (Hev i Hfree) Hoom Hdi) as Hig.
  rewrite (bind_run _ _ _ _ _ (attempt_run _ _ _ _ Hig)). set (w := vinode_of_disk _ i _) in *. set (s3 := set_icache _ s2) in *.
  assert (fs_icache s3 !! i = Some w) as Hw by apply lookup_insert_eq.
  unfold inode_at. rewrite bind_gets.
  change (S_ISLNK (Z.lor S_IFLNK S_IRWXUGO)) with true. cbn iota.
  rewrite (bind_run _ _ _ _ _ (inode_upd_run i _ w s3 Hw)).
  do 3 eexists. split; [reflexivity|]. split; cbn [fs_icache set_icache fs_disk fs_k fs_sbi].
  - unfold s3. cbn [fs_icache set_icache set_sbi]. rewrite insert_insert_eq. reflexivity.
  - reflexivity.
  - apply (Hown _ (Z.lor S_IFLNK S_IRWXUGO)); [by vm_compute|reflexivity].
  - change (length (i_data w) = 28%nat). cbn. destruct (_ && _); [apply length_strncpy|exact Hslab].
  - reflexivity.
  - exact Hfree.
  - reflexivity.
  - reflexivity.
  - exact Hg1.
  - by split.
  - split; [exact Hii|]. rewrite <- range_1. exact HFi.
Qed.

(** The target in the inline data of an inode. *)
Lemma cstr_stop l rest : (0 ∉ l) -> cstr (l ++ 0 :: rest) = l.
Proof.
  induction l as [|c l IH]; intros H; [done|]. apply not_elem_of_cons in H as [Hc Hl]. cbn [app cstr].
  rewrite (proj2 (Z.eqb_neq c 0)) by done. by rewrite IH.
Qed.

Lemma store_link_target v target :
  length (i_data v) = 28%nat -> (0 ∉ target) -> (length target <= 27)%nat ->
  cstr (i_data (store_link target v)) = target.
Proof.
  intros Hl H0 Ht. change (cstr (splice 0 (target ++ [0]) (i_data v)) = target).
  rewrite <- (take_drop (length (target ++ [0])) (i_data v)). unfold splice.
  rewrite list_inserts_0_r by (rewrite length_take, length_app, Hl; cbn [length]; lia).
  rewrite <- app_assoc. by apply cstr_stop.
Qed.

Lemma get_link_run s ino v target :
  fs_icache s !! ino = Some v -> i_link v = true -> cstr (i_data v) = target ->
  lolelffs_get_link ino s = (Ok (Some target), s).
Proof. intros Hv Hl <-. unfold lolelffs_get_link, inode_at. rewrite bind_gets, Hv. cbn. by rewrite Hl. Qed.

(** What iget makes of the on-disk inode of a symbolic link. *)
Lemma disk_link k ino v :
  0 <= i_mode v < 2 ^ 16 -> S_ISLNK (i_mode v) = true -> (length (cstr (i_data v)) <= 27)%nat ->
  let w := vinode_of_disk k ino (disk_inode_of v) in i_link w = true /\ cstr (i_data w) = cstr (i_data v).
Proof.
  intros Hm Hlnk Hlen. unfold vinode_of_disk. cbv zeta. cbn [i_link i_data].
  assert (u16 (di_mode (disk_inode_of v)) = i_mode v) as ->
    by (cbn; rewrite u32_small by lia; apply Z.mod_small; lia).
  assert (S_ISDIR (i_mode v) || S_ISREG (i_mode v) = false) as ->.
  { unfold S_ISDIR, S_ISREG, S_ISLNK in *. apply Z.eqb_eq in Hlnk. by rewrite Hlnk. }
  rewrite Hlnk. cbn [negb andb]. split; [done|]. cbn [di_data disk_inode_of]. rewrite strncpy_cstr_idem.
  unfold strncpy. rewrite cstr_zeros, take_ge by lia. apply cstr_idem.
Qed.

(** An inode with inline data that leaves the cache and comes back. *)
Lemma reload_link s ino v c target :
  fs_icache s !! ino = Some v -> i_ino v = ino -> 0 <= ino < nr_inodes (sbd (fs_sbi s)) ->
  is_u32 (nr_inodes (sbd (fs_sbi s))) -> blk_at s (inode_block_of ino) = Some c -> length c = BLK ->
  oom (fs_k s) A_inode = false -> 0 <= i_mode v < 2 ^ 16 -> S_ISLNK (i_mode v) = true ->
  cstr (i_data v) = target -> (length target <= 27)%nat ->
  exists s1 s2, lolelffs_write_inode ino s = (Ok tt, s1) /\ lolelffs_iget ino (evict ino s1) = (Ok ino, s2) /\
    lolelffs_get_link ino s2 = (Ok (Some target), s2).
Proof.
  intros Hv Hi Hr Hn Hc Hl Hoom Hm Hlnk <- Hlen.
  destruct (write_inode_spec s ino v c Hv Hi Hr Hn Hc Hl) as (dk & Hw & Hst & _ & _).
  exists (set_disk dk s). eexists. split; [exact Hw|]. split.
  { apply (iget_spec (evict ino (set_disk dk s))); [done|apply lookup_delete_eq|done|exact Hst]. }
  destruct (disk_link (fs_k s) ino v Hm Hlnk Hlen) as [H1 H2].
  exact (get_link_run _ ino _ _ (lookup_insert_eq _ _ _) H1 H2).
Qed.

(** Adding the entry is possible after the inode was taken. *)
Lemma new_link_can_link s dir d b bs l name ino s1 v :
  can_link s dir d b bs l name -> new_link s ino s1 v -> fs_icache s !! ino = None -> can_link s1 dir d b bs l name.
Proof.
  intros [Hok Hd Hrep [D1 D2] Hclr Hroom Hname Hsp] [Ec Ei _ _ _ _ Edk _ Hg [Hbi HFb] [Hii _]] Hno.
  destruct (geom_inv _ _ Hg) as (Eds & Eo & Enb & _).
  assert (forall j, blk_at s1 j = blk_at s j) as Hat by (intros j; unfold blk_at; by rewrite Eo, Edk).
  split; try done.
  - split; try done.
    + intros i w Hw. rewrite Ec in Hw. destruct (decide (ino = i)) as [<-|Hn]; [rewrite lookup_insert_eq in Hw; by injection Hw as <-|].
      rewrite lookup_insert_ne in Hw by done. exact (fk_cache _ Hok i w Hw).
    + intros x Hx. rewrite Eds. apply (fk_free _ Hok). by rewrite <- HFb.
    + exact (meta_ok_geom _ _ Hg (fk_meta _ Hok)).
  - rewrite Ec, lookup_insert_ne; [done|]. intros ->. by rewrite Hno in Hd.
  - apply (dir_rep_frame s); try done. by rewrite HFb.
  - unfold dir_in_data. by rewrite Eds.
  - intros x Hx. rewrite Hat. apply Hclr. by rewrite <- HFb.
  - by rewrite HFb.
Qed.

(** C20 A symbolic link keeps its target: in a directory with room, with a free
    inode and a target of at most 27 bytes, lolelffs_symlink succeeds with an
    inode that was free and is so no more, appends exactly the entry (name,
    inode), changes no block outside the directory, lolelffs_get_link returns
    the target, and it still does after the inode was written back, dropped
    from memory and read again. *)
Theorem symlink_keeps_target s dir d b bs l name target :
  can_symlink s dir d b bs l name -> (0 ∉ target) -> (length target <= 27)%nat ->
  exists ino s' b' bs', lolelffs_symlink dir name target s = (Ok ino, s') /\
    dir_rep s' (ei_block d) b' bs' (l ++ [(name, ino)]) /\
    (forall j, j <> ei_block d -> j ∉ range (ee_start (dext b')) 8 -> blk_at s' j = blk_at s j) /\
    ino ∈ free_inodes (fs_sbi s) /\ free_inodes (fs_sbi s') = free_inodes (fs_sbi s) ∖ {[ino]} /\
    lolelffs_get_link ino s' = (Ok (Some target), s') /\
    exists s1 s2, lolelffs_write_inode ino s' = (Ok tt, s1) /\ lolelffs_iget ino (evict ino s1) = (Ok ino, s2) /\
      lolelffs_get_link ino s2 = (Ok (Some target), s2).
Proof.
  intros Hcan H0 Hlen. destruct (new_link_run _ _ _ _ _ _ _ Hcan) as (ino & s1 & v & Hnew & Hnl).
  pose proof Hcan as [Hcl Hoom Hst Hev _ _ _ _]. pose proof (cl_ok _ _ _ _ _ _ _ Hcl) as Hok.
  pose proof (nl_free _ _ _ _ Hnl) as Hfree. pose proof (new_link_can_link _ _ _ _ _ _ _ _ _ _ Hcl Hnl (Hev ino Hfree)) as Hcl1.
  destruct (fk_inodes _ Hok) as (Hu32 & _).
  pose proof (map_inv_univ _ _ _ (fk_inodes _ Hok) ino Hfree) as Hr. unfold univ in Hr. rewrite elem_of_range in Hr.
  destruct (dir_add_linked s1 dir d b bs l name ino Hcl1 ltac:(lia)) as (s2 & b' & bs' & Hadd & Hlk & Ec2).
  destruct Hnl as [Ec Ei [Hm Hlnk] Hdata _ _ Edk Ek Hg _ [_ HFi]]. destruct Hlk as [Hrep _ Hmeta Hkeep Him Hg2 Hk2].
  destruct (geom_inv _ _ Hg) as (Eds & Eo & _ & Eni). destruct (geom_inv _ _ Hg2) as (_ & _ & _ & Eni2).
  assert (forall j, blk_at s1 j = blk_at s j) as Hat1 by (intros j; unfold blk_at; by rewrite Eo, Edk).
  assert (fs_icache s2 !! ino = Some v) as Hv by (by rewrite Ec2, Ec, lookup_insert_eq).
  set (s' := set_icache (<[ino := store_link target v]> (fs_icache s2)) s2).
  assert (fs_icache s' !! ino = Some (store_link target v)) as Hv' by apply lookup_insert_eq.
  pose proof (store_link_target v target Hdata H0 Hlen) as Ht. destruct (Hst ino Hfree) as (c & Hc & Hcl4).
  exists ino, s', b', bs'. split_and!.
  - unfold lolelffs_symlink. rewrite (bind_run _ _ _ _ _ (attempt_run _ _ _ _ Hnew)).
    rewrite (proj2 (Z.ltb_ge _ _)) by lia. unfold inode_at. rewrite bind_gets, (cl_dir _ _ _ _ _ _ _ Hcl1).
    cbn [default from_option id]. pose proof (cl_rep _ _ _ _ _ _ _ Hcl1) as Hrep1.
    rewrite (bind_run _ _ _ _ _ (bread_run _ _ _ (dr_read _ _ _ _ _ Hrep1))), (dr_count _ _ _ _ _ Hrep1).
    rewrite few_subfiles by apply Hcl1. rewrite bind_gets, Ec, lookup_insert_eq. cbn [default from_option id]. rewrite Ei.
    rewrite (bind_run _ _ _ _ _ Hadd). by rewrite (bind_run _ _ _ _ _ (inode_upd_run ino _ v s2 Hv)).
  - by destruct Hrep; split.
  - intros j H1 H2. rewrite <- Hat1. exact (Hkeep j H1 H2).
  - exact Hfree.
  - change (free_inodes (fs_sbi s2) = free_inodes (fs_sbi s) ∖ {[ino]}). by rewrite Him.
  - exact (get_link_run _ _ _ _ Hv' eq_refl Ht).
  - apply (reload_link s' ino (store_link target v) c target); try done.
    + change (0 <= ino < nr_inodes (sbd (fs_sbi s2))). rewrite Eni2, Eni. lia.
    + change (is_u32 (nr_inodes (sbd (fs_sbi s2)))). by rewrite Eni2, Eni.
    + change (blk_at s2 (inode_block_of ino) = Some c). rewrite Hmeta, Hat1; [done|]. rewrite Eds.
      apply inode_block_meta; [apply Hok|lia].
    + change (oom (fs_k s2) A_inode = false). by rewrite Hk2, Ek.
Qed.

(** ** Witnesses: the root directory that holds the file "a" *)

Lemma ex_can_link : can_link ex_a_fs 0 ex_a_root ex_a_dir (read_run ex_a_fs 6 8) ex_a_list [98].
Proof.
  split; [exact ex_a_fs_ok|vm_compute; reflexivity|exact ex_a_rep| | |cbn; lia| |].
  - split; [vm_compute; discriminate|right; vm_compute; discriminate].
  - apply free_clear_check. apply (bool_decide_unpack _). vm_compute. exact I.
  - unfold name_ok, bytes_ok. split_and!; try (vm_compute; discriminate); apply (bool_decide_unpack _); vm_compute; exact I.
  - left. vm_compute. discriminate.
Qed.

Lemma link_then_lookup_witness : exists s', lolelffs_link 1 0 [98] ex_a_fs = (Ok tt, s') /\
  fst (lolelffs_lookup 0 [98] s') = Ok (Some 1) /\ fst (lolelffs_lookup 0 ex_name s') = fst (lolelffs_lookup 0 ex_name ex_a_fs).
Proof.
  destruct (link_then_lookup ex_a_fs 0 ex_a_root ex_a_dir (read_run ex_a_fs 6 8) ex_a_list [98] 1 ex_a_v ex_can_link)
    as (s' & b' & bs' & H1 & _ & _ & H2 & H3).
  - vm_compute. reflexivity.
  - discriminate.
  - change (nr_inodes (sbd (fs_sbi ex_a_fs))) with 56. lia.
  - reflexivity.
  - exists s'. split; [exact H1|]. split; [exact H2|]. apply H3.
    + apply ex_can_create.
    + discriminate.
    + intros i Hi. injection Hi as <-. split; [vm_compute; reflexivity|]. vm_compute. eexists. reflexivity.
Defined.

Lemma symlink_keeps_target_witness : exists ino s', lolelffs_symlink 0 [98] [116; 47; 120] ex_a_fs = (Ok ino, s') /\
  lolelffs_get_link ino s' = (Ok (Some [116; 47; 120]), s').
Proof.
  destruct (symlink_keeps_target ex_a_fs 0 ex_a_root ex_a_dir (read_run ex_a_fs 6 8) ex_a_list [98] [116; 47; 120])
    as (ino & s' & b' & bs' & H1 & _ & _ & _ & _ & H2 & _).
  - split; [exact ex_can_link|reflexivity| | |reflexivity| | |].
    + assert (set_Forall (fun i => (fun o => match o with Some c => length c = BLK | None => False end)
        (blk_at ex_a_fs (inode_block_of i))) (free_inodes (fs_sbi ex_a_fs))) as H.
      { intros i Hi. apply (map_inv_univ _ _ _ (fk_inodes _ ex_a_fs_ok)) in Hi. unfold univ in Hi. rewrite elem_of_range in Hi.
        change (nr_inodes (sbd (fs_sbi ex_a_fs))) with 56 in Hi. unfold inode_block_of. change LOLELFFS_INODES_PER_BLOCK with 56.
        rewrite Z.div_small by lia. vm_compute. reflexivity. }
      intros i Hi. specialize (H i Hi). cbn beta in H. destruct (blk_at ex_a_fs (inode_block_of i)) as [c|]; [|destruct H].
      exists c. split; [reflexivity|exact H].
    + assert (set_Forall (fun i => fs_icache ex_a_fs !! i = None) (free_inodes (fs_sbi ex_a_fs))) as H
        by (apply (bool_decide_unpack _); vm_compute; exact I). exact H.
    + intros p m Hm Hl. split; [exact Hm|exact Hl].
    + apply (bool_decide_unpack _). vm_compute. exact I.
    + apply (bool_decide_unpack _). vm_compute. exact I.
  - apply (bool_decide_unpack _). vm_compute. exact I.
  - cbn. lia.
  - exists ino, s'. split; [exact H1|exact H2].
Defined.
