(* ===== verification/Volume.v ===== *)
(** * A directory of regular files as a finite map

    The handlers lookup, create and unlink of inode.c and get_block of file.c,
    called one after the other the way the VFS calls them (a lookup before each
    operation on a name), refine a finite map from names to inodes.  The
    invariant says that the directory, each of its files and the free map own
    disjoint sets of blocks. *)
From S2P Require Import Prelude Layout Bitmap Extent State Elf Super Codec File Xattr XattrSpec Inode InodeSpec Namespace Unlink.

(** ** The files of the directory *)

Abbreviation file_set v fb := ({[ei_block v]} ∪ file_runs fb : gset Z).

(** A regular file with one link, in use, whose blocks are its own. *)
Record live_file (s : fs) (ino : Z) (v : vinode) (fb : block) : Prop := {
  lf_file : file_ok s ino v fb;
  lf_reg : S_ISREG (i_mode v) = true;
  lf_nlink : i_nlink v = 1;
  lf_xattr : xattr_block v = 0;
  lf_live : ino ∈ univ (nr_inodes (sbd (fs_sbi s))) ∖ free_inodes (fs_sbi s);
  lf_block : ei_block v ∈ univ (nr_blocks (sbd (fs_sbi s))) ∖ free_blocks (fs_sbi s);
  lf_own : ei_block v ∉ file_runs fb;
  lf_data : forall x, x ∈ file_set v fb -> data_start s <= x;
  lf_read : forall x, x ∈ file_set v fb -> is_Some (blk_at s x)
}.

Lemma index_ok_frame sbi sbi' fb :
  index_ok sbi fb -> nr_blocks (sbd sbi') = nr_blocks (sbd sbi) -> file_runs fb ## free_blocks sbi' -> index_ok sbi' fb.
Proof.
  intros [? ? ? Hu ?] En Hdis. split; try done. intros i Hi x Hx. rewrite En. apply elem_of_difference.
  split; [by apply (Hu i Hi) in Hx as [? _]%elem_of_difference|]. intros Hf. apply (Hdis x); [|done].
  apply elem_of_runs_from. exists i. split; [lia|done].
Qed.

Lemma file_set_used s ino v fb :
  live_file s ino v fb -> file_set v fb ⊆ univ (nr_blocks (sbd (fs_sbi s))) ∖ free_blocks (fs_sbi s).
Proof.
  intros Hf. pose proof (file_runs_used _ _ (fo_index _ _ _ _ (lf_file _ _ _ _ Hf))) as Hr.
  pose proof (lf_block _ _ _ _ Hf) as Hb. clear -Hr Hb. set_solver.
Qed.

(** What leaves a file alone. *)
Lemma live_file_frame s s' ino v fb :
  live_file s ino v fb -> geom s' = geom s -> block_inv (fs_sbi s') -> fs_icache s' !! ino = Some v ->
  (forall x, x ∈ file_set v fb -> blk_at s' x = blk_at s x) -> file_set v fb ## free_blocks (fs_sbi s') ->
  ino ∉ free_inodes (fs_sbi s') -> live_file s' ino v fb.
Proof.
  intros Hf Hg Hinv Hc Hat Hdis Hino. pose proof (file_set_used _ _ _ _ Hf) as Hu.
  destruct Hf as [[_ Hrd _ Hlg Hidx] ? ? ? Hl Hb Ho Hd Hr]. destruct (geom_inv _ _ Hg) as (Ed & _ & En & Eni).
  split; try done.
  - split; [done|rewrite Hat; [done|clear; set_solver]|done|by rewrite (geom_large _ _ Hg)|].
    apply (index_ok_frame (fs_sbi s)); [done|done|]. clear -Hdis. set_solver.
  - rewrite Eni. clear -Hl Hino. set_solver.
  - rewrite En. clear -Hb Hdis. set_solver.
  - by rewrite Ed.
  - intros x Hx. rewrite Hat by done. by apply Hr.
Qed.

(** ** The invariant *)

(** inode_init_owner keeps the type of the file it is asked for. *)
Definition keeps_reg (k : kernel) : Prop :=
  forall p m, S_ISREG m = true -> S_ISREG (snd (inode_init_owner k p m)) = true.

(** The directory [dir] is [l]; [F] has the inode and the index block of each
    of its files. *)
Record vol (dir : Z) (s : fs) (l : list dentry) (d : vinode) (b : block) (bs : list block)
    (F : gmap Z (vinode * block)) : Prop := {
  vo_ok : fs_ok s;
  vo_memory : oom (fs_k s) A_inode = false;
  vo_store : forall i, 0 <= i < nr_inodes (sbd (fs_sbi s)) -> is_Some (blk_at s (inode_block_of i));
  vo_owner : keeps_reg (fs_k s);
  vo_large : 0 <= max_extent_blocks_large (sbd (fs_sbi s));
  vo_dir : fs_icache s !! dir = Some d;
  vo_rep : dir_rep s (ei_block d) b bs l;
  vo_data : dir_in_data s (ei_block d) b;
  vo_clear : free_clear s;
  vo_live : dir ∉ free_inodes (fs_sbi s);
  vo_dom : forall ino, is_Some (F !! ino) <-> ino ∈ l.*2;
  vo_files : forall ino v fb, F !! ino = Some (v, fb) ->
    live_file s ino v fb /\ file_set v fb ## dir_blocks d b bs /\ ino <> dir;
  vo_sep : forall i v fb j w gb, F !! i = Some (v, fb) -> F !! j = Some (w, gb) -> i <> j ->
    file_set v fb ## file_set w gb;
  vo_names : NoDup l.*1;
  vo_inos : NoDup l.*2
}.

(** The abstract directory. *)
Definition abs (l : list dentry) : gmap (list Z) Z := list_to_map l.

Lemma abs_lookup l name : abs l !! name = d_lookup l name.
Proof.
  induction l as [|[n i] l IH]; [done|]. unfold abs in *. cbn [list_to_map d_lookup fst snd foldr].
  destruct (decide (n = name)) as [->|Hne].
  - by rewrite bool_decide_true, lookup_insert_eq by done.
  - by rewrite bool_decide_false, lookup_insert_ne, IH by done.
Qed.

Lemma abs_app l name ino : d_lookup l name = None -> abs (l ++ [(name, ino)]) = <[name := ino]> (abs l).
Proof.
  intros Hn. apply map_eq. intros k. rewrite abs_lookup, d_lookup_app. destruct (decide (name = k)) as [<-|Hne].
  - by rewrite lookup_insert_eq, Hn, bool_decide_true.
  - rewrite lookup_insert_ne, abs_lookup, bool_decide_false by done. by destruct (d_lookup l k).
Qed.

Lemma d_lookup_elem l name ino : d_lookup l name = Some ino -> (name, ino) ∈ l.
Proof.
  induction l as [|[n i] l IH]; [done|]. cbn. case_bool_decide as E; cbn in E.
  - intros [= ->]. subst. constructor.
  - intros H. constructor 2. by apply IH.
Qed.

Lemma d_lookup_none l name : d_lookup l name = None <-> name ∉ l.*1.
Proof.
  induction l as [|[n i] l IH]; cbn; [split; [intros _; apply not_elem_of_nil|done]|]. rewrite not_elem_of_cons.
  case_bool_decide as E; cbn in E; [subst; split; [done|by intros [? _]]|]. rewrite IH. split; [by split|by intros [_ ?]].
Qed.

(** Deleting the entry found under a name deletes the name. *)
Lemma abs_remove l name ino :
  NoDup l.*1 -> NoDup l.*2 -> d_lookup l name = Some ino -> abs (d_remove l ino) = delete name (abs l).
Proof.
  induction l as [|[n i] l IH]; intros Hn Hi Hl; [done|]. cbn [fmap list_fmap fst snd] in Hn, Hi.
  apply NoDup_cons in Hn as [Hn1 Hn2]. apply NoDup_cons in Hi as [Hi1 Hi2]. cbn [d_lookup d_remove fst snd] in *.
  unfold abs in *. cbn [list_to_map foldr fst snd]. case_bool_decide as E.
  - injection Hl as <-. rewrite Z.eqb_refl. subst n. rewrite delete_insert_id; [done|].
    change (abs l !! name = None). rewrite abs_lookup. by apply d_lookup_none.
  - destruct (Z.eqb_spec i ino) as [->|Hne].
    + exfalso. apply Hi1. apply d_lookup_elem in Hl. apply (list_elem_of_fmap_2 snd) in Hl. exact Hl.
    + cbn [list_to_map foldr fst snd]. rewrite IH by done. by rewrite delete_insert_ne.
Qed.

(** ** Each operation keeps the invariant *)

Lemma zero_block_clear : length (zeros BLK) = BLK /\ Forall unused (dir_of_block (zeros BLK)).
Proof.
  split; [vm_compute; reflexivity|]. assert (Forall (fun f => f_inode f = 0) (dir_of_block (zeros BLK))) as H
    by (apply (bool_decide_unpack _); vm_compute; exact I). exact H.
Qed.

Lemma vol_iget dir s l d b bs F : vol dir s l d b bs F -> can_iget s.
Proof.
  intros H. split; [apply H|]. intros i Hi. apply (vo_store _ _ _ _ _ _ _ H).
  pose proof (map_inv_univ _ _ _ (fk_inodes _ (vo_ok _ _ _ _ _ _ _ H)) i Hi) as Hu. unfold univ in Hu.
  rewrite elem_of_range in Hu. lia.
Qed.

(** A change of the directory's times or link count. *)
Lemma vol_touch dir s l d b bs F d' :
  vol dir s l d b bs F -> ei_block d' = ei_block d -> i_ino d' = i_ino d ->
  vol dir (set_icache (<[dir := d']> (fs_icache s)) s) l d' b bs F.
Proof.
  intros [Hok Ho Hst Hk Hl Hd Hrep Hdat Hcl Hlive Hdom Hf Hs Hn Hi] Eb Ei.
  split; try done; rewrite ?Eb; try done.
  - destruct Hok as [? ? Hc ? ?]. split; try done. cbn [set_icache fs_icache]. intros i v [[<- <-]|[_ Hv]]%lookup_insert_Some; [|by apply Hc].
    rewrite Ei. by apply Hc.
  - apply lookup_insert_eq.
  - by apply (dir_rep_at s).
  - intros ino v fb HF. destruct (Hf ino v fb HF) as (Hlf & Hdis & Hne). split; [|done].
    pose proof (file_set_used _ _ _ _ Hlf) as Hu. pose proof (lf_live _ _ _ _ Hlf) as Hlv.
    apply (live_file_frame s); try done; cbn [set_icache fs_icache fs_sbi]; [apply Hok| | |].
    + rewrite lookup_insert_ne by done. apply Hlf.
    + clear -Hu. set_solver.
    + clear -Hlv. set_solver.
Qed.

Lemma vol_lookup dir s l d b bs F name :
  vol dir s l d b bs F -> name_ok name ->
  exists s' d', lolelffs_lookup dir name s = (Ok (d_lookup l name), s') /\ vol dir s' l d' b bs F.
Proof.
  intros H Hn. rewrite (lookup_run s dir d b bs l name (vo_dir _ _ _ _ _ _ _ H) (vo_rep _ _ _ _ _ _ _ H) Hn).
  - do 2 eexists. split; [done|]. by apply (vol_touch dir s l d).
  - intros ino Hino. apply d_lookup_elem, (list_elem_of_fmap_2 snd) in Hino. cbn [snd] in Hino. apply (vo_dom _ _ _ _ _ _ _ H) in Hino as [[v fb] HF].
    destruct (vo_files _ _ _ _ _ _ _ H _ _ _ HF) as (Hlf & _). pose proof (lf_live _ _ _ _ Hlf) as Hlv. split.
    + apply elem_of_difference in Hlv as [Hu _]. unfold univ in Hu. rewrite elem_of_range in Hu. lia.
    + rewrite (fo_inode _ _ _ _ (lf_file _ _ _ _ Hlf)). done.
Qed.

(** A failed lolelffs_create. *)
Lemma vol_not_created dir s l d b bs F s' : vol dir s l d b bs F -> not_created s s' -> vol dir s' l d b bs F.
Proof.
  intros [Hok Ho Hst Hk Hl Hd Hrep Hdat Hcl Hlive Hdom Hf Hs Hn Hi] [Hok' Hg Ek EFb EFi Hc Hat].
  destruct (geom_inv _ _ Hg) as (Ed & _ & En & Eni).
  assert (forall j, j ∉ free_blocks (fs_sbi s) -> blk_at s' j = blk_at s j) as Hat'
    by (intros j Hj; destruct (Hat j) as [?|[? _]]; done).
  split; try done; rewrite ?Ek, ?EFi, ?(geom_large _ _ Hg); try done.
  - rewrite Eni. intros i Hi'. specialize (Hst i Hi'). destruct (Hat (inode_block_of i)) as [->|[_ ->]]; done.
  - by rewrite Hc.
  - apply (dir_rep_frame s); try done; [apply Hok'|by rewrite EFb|].
    intros j Hj. apply Hat'. pose proof (dr_used _ _ _ _ _ Hrep) as Hu. clear -Hu Hj. set_solver.
  - unfold dir_in_data in *. by rewrite Ed.
  - intros x Hx. rewrite EFb in Hx. destruct (Hat x) as [->|[_ ->]]; [by apply Hcl|].
    exists (zeros BLK). split; [done|]. exact zero_block_clear.
  - intros ino v fb HF. destruct (Hf ino v fb HF) as (Hlf & Hdis & Hne). split; [|done].
    pose proof (file_set_used _ _ _ _ Hlf) as Hu. pose proof (lf_live _ _ _ _ Hlf) as Hlv.
    assert (ino ∉ free_inodes (fs_sbi s)) as Hnf by (clear -Hlv; set_solver).
    apply (live_file_frame s); try done; [apply Hok'|rewrite Hc by done; apply Hlf| | |by rewrite EFi].
    + intros x Hx. apply Hat'. clear -Hu Hx. set_solver.
    + rewrite EFb. clear -Hu. set_solver.
Qed.

Lemma file_runs_zeros : file_runs (zeros BLK) = ∅.
Proof. vm_compute. reflexivity. Qed.

(** The blocks of the directory after lolelffs_create: the old ones, or free
    ones but not the one of the new inode. *)
Lemma created_dir_blocks s dir d b bs l name mode ino s' d' b' bs' v :
  dir_rep s (ei_block d) b bs l -> created s dir d b l name mode ino s' d' b' bs' v ->
  length bs' = 8%nat /\ range (ee_start (dext b')) 8 ⊆ dir_blocks d b bs ∪ free_blocks (fs_sbi s) /\
  dir_blocks d' b' bs' = {[ei_block d]} ∪ range (ee_start (dext b')) 8.
Proof.
  intros Hrep Hcr. pose proof (cr_rep _ _ _ _ _ _ _ _ _ _ _ _ _ Hcr) as Hrep'.
  pose proof (dr_run _ _ _ _ _ Hrep') as Hr'. destruct (Z.eqb_spec (ee_start (dext b')) 0) as [E0|Hnz].
  { destruct (dir_bounds _ _ _ _ _ Hrep') as (_ & _ & Hle & _). rewrite Hr', length_app in Hle. cbn in Hle. lia. }
  destruct Hr' as [_ Hl8]. destruct (cr_parent _ _ _ _ _ _ _ _ _ _ _ _ _ Hcr) as (-> & _).
  split; [done|]. split; [|by rewrite Hl8].
  destruct (cr_ext _ _ _ _ _ _ _ _ _ _ _ _ _ Hcr) as [E|Hsub]; [|clear -Hsub; set_solver].
  pose proof (dr_run _ _ _ _ _ Hrep) as Hr. rewrite E in *. rewrite (proj2 (Z.eqb_neq _ _) Hnz) in Hr.
  destruct Hr as [_ ->]. clear. set_solver.
Qed.

Section Created.
Context (dir : Z) (s : fs) (l : list dentry) (d : vinode) (b : block) (bs : list block) (F : gmap Z (vinode * block)).
Context (name : list Z) (mode ino : Z) (s' : fs) (d' : vinode) (b' : block) (bs' : list block) (v : vinode).
Context (Hvol : vol dir s l d b bs F) (Hreg : S_ISREG mode = true).
Context (Hcr : created s dir d b l name mode ino s' d' b' bs' v).

Lemma created_new_file : live_file s' ino v (zeros BLK).
Proof using Hvol Hreg Hcr.
  destruct Hcr as [Hok' Hg Ek Hif HFi Hino Hc _ _ _ _ (Ei & Hnl & Hx & p & Em) [Hbf Hz] _ HFb _ _].
  pose proof (vo_ok _ _ _ _ _ _ _ Hvol) as Hok. destruct (geom_inv _ _ Hg) as (Ed & _ & En & Eni).
  destruct (reg_not_other _ Hreg) as [_ Hdirm]. rewrite Hdirm in Hnl.
  assert (dir <> ino) as Hne by (intros ->; by apply (vo_live _ _ _ _ _ _ _ Hvol)).
  assert (file_set v (zeros BLK) = {[ei_block v]}) as Efs by (rewrite file_runs_zeros; clear; set_solver).
  pose proof (map_inv_univ _ _ _ (fk_inodes _ Hok) ino Hif) as Hiu.
  pose proof (map_inv_univ _ _ _ (fk_blocks _ Hok) (ei_block v) Hbf) as Hbu.
  split; try done; rewrite ?Efs.
  - split; [by rewrite Hc, lookup_insert_ne, lookup_insert_eq|done|apply Hok'| |apply index_ok_zeros].
    rewrite (geom_large _ _ Hg). apply Hvol.
  - rewrite Em. by apply (vo_owner _ _ _ _ _ _ _ Hvol).
  - rewrite Eni, HFi. clear -Hiu. set_solver.
  - rewrite En. clear -Hbu HFb. set_solver.
  - intros x ->%elem_of_singleton. rewrite Ed. by apply Hok.
  - intros x ->%elem_of_singleton. by rewrite Hz.
Qed.

Lemma created_old_file j w fb : F !! j = Some (w, fb) -> live_file s' j w fb /\ j <> ino.
Proof using Hvol Hcr.
  intros HF. destruct (vo_files _ _ _ _ _ _ _ Hvol j w fb HF) as (Hlf & Hdis & Hjd).
  destruct (created_dir_blocks _ _ _ _ _ _ _ _ _ _ _ _ _ _ (vo_rep _ _ _ _ _ _ _ Hvol) Hcr) as (_ & Hsub & _).
  destruct Hcr as [Hok' Hg Ek Hif HFi Hino Hc _ _ _ _ _ [Hbf Hz] _ HFb Hframe _].
  pose proof (file_set_used _ _ _ _ Hlf) as Hu. pose proof (lf_live _ _ _ _ Hlf) as Hlv.
  assert (j <> ino) as Hji by (intros ->; clear -Hlv Hif; set_solver). split; [|done].
  apply (live_file_frame s); try done; [apply Hok'| | | |].
  - rewrite Hc, !lookup_insert_ne by done. apply Hlf.
  - intros x Hx. apply Hframe; [by apply (lf_data _ _ _ _ Hlf)|..].
    + intros ->. clear -Hu Hx Hbf. set_solver.
    + intros ->. clear -Hdis Hx. set_solver.
    + intros Hr. clear -Hdis Hx Hr Hu Hsub. set_solver.
  - clear -Hu HFb. set_solver.
  - rewrite HFi. clear -Hlv. set_solver.
Qed.

Lemma vol_created : d_lookup l name = None -> vol dir s' (l ++ [(name, ino)]) d' b' bs' (<[ino := (v, zeros BLK)]> F).
Proof using Hvol Hreg Hcr.
  intros Hnone. pose proof created_new_file as Hnew. pose proof created_old_file as Hold.
  pose proof Hvol as [Hok Ho Hst Hk Hl Hd Hrep Hdat Hcl Hlive Hdom Hf Hs Hn Hi].
  destruct (created_dir_blocks _ _ _ _ _ _ _ _ _ _ _ _ _ _ Hrep Hcr) as (Hl8 & Hsub & Edb).
  pose proof Hcr as [Hok' Hg Ek Hif HFi Hino Hc (Eb & _) Hrep' Hdat' _ _ [Hbf Hz] [Hb1 Hb2] HFb Hframe Hrd].
  destruct (geom_inv _ _ Hg) as (Ed & _ & En & Eni). rewrite Eb in Edb.
  assert (forall x, x ∈ free_blocks (fs_sbi s') -> blk_at s' x = blk_at s x) as Hfree.
  { intros x Hx. pose proof (dr_used _ _ _ _ _ Hrep') as Hu. rewrite Hl8 in Hu. change (Z.of_nat 8) with 8 in Hu.
    apply Hframe; [apply (fk_free _ Hok); clear -Hx HFb; set_solver|clear -Hx HFb|clear -Hx Hu|clear -Hx Hu]; set_solver. }
  assert (ino ∉ l.*2) as Hfresh by (intros [[w fb] HF]%Hdom; by destruct (Hold ino w fb HF)).
  assert (forall j w fb, F !! j = Some (w, fb) -> file_set v (zeros BLK) ## file_set w fb) as Hsep.
  { intros j w fb HF. destruct (Hf j w fb HF) as (Hlf & _). pose proof (file_set_used _ _ _ _ Hlf) as Hu.
    rewrite file_runs_zeros. clear -Hu Hbf. set_solver. }
  split; rewrite ?Ek, ?Eb, ?(geom_large _ _ Hg); try done.
  - rewrite Eni. intros i Hi'. apply Hrd; [|by apply Hst]. apply inode_block_meta; [apply Hok|done].
  - by rewrite Hc, lookup_insert_eq.
  - intros x Hx. rewrite Hfree by done. apply Hcl. clear -Hx HFb. set_solver.
  - rewrite HFi. clear -Hlive. set_solver.
  - intros j. rewrite fmap_app, elem_of_app. cbn [fmap list_fmap snd]. rewrite list_elem_of_singleton, lookup_insert_is_Some', Hdom.
    naive_solver.
  - intros j w fb [[<- [= <- <-]]|[Hne HF]]%lookup_insert_Some.
    + split; [done|]. split; [rewrite Edb, file_runs_zeros; clear -Hb1 Hb2; set_solver|]. by intros ->.
    + destruct (Hf j w fb HF) as (Hlf & Hdis & Hjd). split; [by apply Hold|]. split; [|done]. rewrite Edb.
      pose proof (file_set_used _ _ _ _ Hlf) as Hu. clear -Hdis Hu Hsub. set_solver.
  - intros i w fb j w' fb' [[<- [= <- <-]]|[_ H1]]%lookup_insert_Some [[<- [= <- <-]]|[_ H2]]%lookup_insert_Some Hne;
      [done|by eapply Hsep|symmetry; by eapply Hsep|by eapply Hs].
  - rewrite fmap_app. apply NoDup_app. split; [done|]. split; [|apply NoDup_singleton].
    intros x Hx ->%list_elem_of_singleton. by apply d_lookup_none in Hnone.
  - rewrite fmap_app. apply NoDup_app. split; [done|]. split; [|apply NoDup_singleton].
    intros x Hx ->%list_elem_of_singleton. done.
Qed.
End Created.

Lemma vol_can_create dir s l d b bs F name mode :
  vol dir s l d b bs F -> name_ok name -> S_ISREG mode = true -> (length l < 120)%nat ->
  can_create s dir d b bs l name mode.
Proof. intros [] Hn Hm Hl. by destruct (reg_not_other _ Hm). Qed.

(** lolelffs_create of a name that is not there. *)
Lemma vol_create dir s l d b bs F name mode :
  vol dir s l d b bs F -> name_ok name -> S_ISREG mode = true -> (length l < 120)%nat -> d_lookup l name = None ->
  (exists s', lolelffs_create dir name mode s = (Err ENOSPC, s') /\ vol dir s' l d b bs F) \/
  (exists ino s' d' b' bs' F', lolelffs_create dir name mode s = (Ok ino, s') /\ (ino ∉ l.*2) /\
     vol dir s' (l ++ [(name, ino)]) d' b' bs' F').
Proof.
  intros H Hn Hm Hl Hnone. pose proof (vol_can_create _ _ _ _ _ _ _ _ _ H Hn Hm Hl) as Hcc.
  destruct (create_cases s dir d b bs l name mode Hcc (vol_iget _ _ _ _ _ _ _ H))
    as [(s' & Hrun & Hnc & _)|(ino & s' & d' & b' & bs' & v & Hrun & Hcr)]; [by rewrite Hm, orb_true_r|left|right].
  - exists s'. split; [done|]. by apply (vol_not_created dir s).
  - exists ino, s', d', b', bs', (<[ino := (v, zeros BLK)]> F). split; [done|]. split; [|by apply (vol_created dir s l d b bs F name mode)].
    intros [[w fb] HF]%(vo_dom _ _ _ _ _ _ _ H). by destruct (created_old_file _ _ _ _ _ _ _ _ _ _ _ _ _ _ _ H Hcr _ _ _ HF).
Qed.

Lemma d_remove_elem l ino x : NoDup l.*2 -> x ∈ (d_remove l ino).*2 <-> x ∈ l.*2 /\ x <> ino.
Proof.
  induction l as [|[n i] l IH]; intros Hi; [cbn; by rewrite elem_of_nil; split; [|intros [? _]]|].
  cbn [fmap list_fmap fst snd] in Hi. apply NoDup_cons in Hi as [Hi1 Hi2]. cbn [d_remove fst snd].
  rewrite fmap_cons. destruct (Z.eqb_spec i ino) as [->|Hne].
  - rewrite elem_of_cons. cbn [snd]. split; [intros ?; split; [by right|by intros ->]|naive_solver].
  - rewrite fmap_cons, !elem_of_cons, IH by done. cbn [snd]. naive_solver.
Qed.

Lemma d_remove_sublist l ino : sublist (d_remove l ino) l.
Proof.
  induction l as [|e l IH]; [done|]. cbn [d_remove]. destruct (_ =? _); [by apply sublist_cons|by apply sublist_skip].
Qed.

Lemma vol_can_unlink dir s l d b bs F ino v fb :
  vol dir s l d b bs F -> F !! ino = Some (v, fb) -> can_unlink s dir d b bs l ino v fb.
Proof.
  intros H HF. destruct (vo_files _ _ _ _ _ _ _ H _ _ _ HF) as ([] & Hdis & Hne).
  split; try done; apply H.
Qed.

(** lolelffs_unlink of one of the files. *)
Lemma vol_unlink dir s l d b bs F ino :
  vol dir s l d b bs F -> ino ∈ l.*2 ->
  exists s' d' b' bs', lolelffs_unlink dir ino s = (Ok tt, s') /\
    vol dir s' (d_remove l ino) d' b' bs' (delete ino F).
Proof.
  intros H [[v fb] HF]%(vo_dom _ _ _ _ _ _ _ H). pose proof H as [Hok Ho Hst Hk Hl Hd Hrep Hdat Hcl Hlive Hdom Hf Hs Hn Hi].
  destruct (unlink_run _ _ _ _ _ _ _ _ _ (vol_can_unlink _ _ _ _ _ _ _ _ _ _ H HF)) as (s' & b' & bs' & Hrun & Hul).
  destruct Hul as [Hok' Hg Ek Hrep' [Edx Elb] HFb HFi Hc Hscr Hframe]. destruct (Hf _ _ _ HF) as (Hlf & Hdis & Hne).
  destruct (geom_inv _ _ Hg) as (Ed & _ & En & Eni). set (d' := set_all_times (fs_k s) d) in *.
  assert (ei_block d' = ei_block d) as Eb by done. exists s', d', b', bs'. split; [done|].
  assert (dir_blocks d' b' bs' = dir_blocks d b bs) as Edb by (rewrite Eb, Edx, Elb; done).
  split; rewrite ?Ek, ?Eb, ?(geom_large _ _ Hg), ?HFi, ?Eb in *; try done.
  - rewrite Eni. intros i Hi'. rewrite Hframe; [by apply Hst|..].
    + intros Hx. pose proof (lf_data _ _ _ _ Hlf _ Hx). pose proof (inode_block_meta s i (fk_meta _ Hok) Hi'). lia.
    + intros Hx. pose proof (dir_blocks_in_data _ _ _ _ _ _ Hrep Hdat Hx).
      pose proof (inode_block_meta s i (fk_meta _ Hok) Hi'). lia.
  - by rewrite Hc, lookup_insert_ne, lookup_insert_eq.
  - unfold dir_in_data in *. by rewrite Ed, Edx.
  - intros x Hx. rewrite HFb in Hx. destruct (decide (x ∈ file_set v fb)) as [Hin|Hout].
    + rewrite Hscr by done. destruct (lf_read _ _ _ _ Hlf x Hin) as [c ->]. exists (zeros BLK).
      split; [done|]. exact zero_block_clear.
    + rewrite Hframe; [apply Hcl; clear -Hx Hout; set_solver|done|]. pose proof (dr_used _ _ _ _ _ Hrep) as Hu.
      clear -Hx Hout Hu. set_solver.
  - clear -Hlive Hne. set_solver.
  - intros j. rewrite d_remove_elem, <- Hdom, lookup_delete_is_Some by done. naive_solver.
  - intros j w gb [Hne' HF']%lookup_delete_Some. destruct (Hf _ _ _ HF') as (Hlf' & Hdis' & Hjd).
    pose proof (file_set_used _ _ _ _ Hlf') as Hu. pose proof (lf_live _ _ _ _ Hlf') as Hlv.
    pose proof (Hs _ _ _ _ _ _ HF' HF ltac:(done)) as Hsep. split; [|by rewrite Edb].
    apply (live_file_frame s); try done; [apply Hok'| | | |].
    + rewrite Hc, !lookup_insert_ne by done. apply Hlf'.
    + intros x Hx. apply Hframe; [clear -Hx Hsep|clear -Hx Hdis']; set_solver.
    + rewrite HFb. clear -Hu Hsep. set_solver.
    + rewrite HFi. clear -Hlv Hne'. set_solver.
  - intros i w gb j w' gb' [_ H1]%lookup_delete_Some [_ H2]%lookup_delete_Some. by apply Hs.
  - eapply sublist_NoDup; [exact Hn|]. exact (fmap_sublist _ _ _ (d_remove_sublist l ino)).
  - eapply sublist_NoDup; [exact Hi|]. exact (fmap_sublist _ _ _ (d_remove_sublist l ino)).
Qed.

(** get_block leaves the superblock numbers and the inode map alone. *)
Lemma get_block_geom inode iblock create :
  keeps (fun s => (geom s, inode_map s)) (lolelffs_file_get_block inode iblock create).
Proof.
  unfold lolelffs_file_get_block, bwrite, inode_at.
  repeat first [apply keeps_bind; [|intros ?] | apply keeps_if | case_match]; auto with keeps.
  all: intros s; try done. unfold with_sbi, get_free_blocks. by destruct (get_first_free_bits _ _ _).
Qed.

(** The blocks of a file that grew: its own and free ones. *)
Lemma grown_runs s fb s' fb' :
  grown s fb s' fb' -> file_runs fb' ⊆ file_runs fb ∪ free_blocks (fs_sbi s) /\ file_runs fb ⊆ file_runs fb' /\
  free_blocks (fs_sbi s') ⊆ free_blocks (fs_sbi s).
Proof.
  intros [Hc Ho Hf]. split_and!.
  - intros x (j & Hj & Hx)%elem_of_runs_from. apply elem_of_union.
    destruct (Nat.lt_ge_cases j (lolelffs_count_extents (ei_of_block fb))).
    + left. apply elem_of_runs_from. exists j. split; [lia|]. unfold run_of in *. by rewrite Ho in Hx.
    + right. apply Hf. right. exists j. split; [lia|done].
  - intros x (j & Hj & Hx)%elem_of_runs_from. apply elem_of_runs_from. exists j. split; [lia|].
    unfold run_of in *. by rewrite Ho by lia.
  - intros x Hx. apply Hf. by left.
Qed.

(** get_block of one of the files, as a write or a page fault calls it. *)
Lemma vol_grow dir s l d b bs F ino iblock r s' :
  vol dir s l d b bs F -> ino ∈ l.*2 -> 0 <= iblock -> lolelffs_file_get_block ino iblock true s = (r, s') ->
  exists F', vol dir s' l d b bs F'.
Proof.
  intros H [[v fb] HF]%(vo_dom _ _ _ _ _ _ _ H) Hib Hrun.
  pose proof H as [Hok Ho Hst Hk Hl Hd Hrep Hdat Hcl Hlive Hdom Hf Hs Hn Hi].
  destruct (Hf _ _ _ HF) as (Hlf & Hdis & Hne). pose proof (file_set_used _ _ _ _ Hlf) as Hu.
  destruct (get_block_grown s ino v fb iblock r s' (lf_file _ _ _ _ Hlf) Hib Hrun) as (fb' & Hfo' & Hsb & Hgr).
  pose proof (get_block_geom ino iblock true s) as Hk2. rewrite Hrun in Hk2. cbn [snd] in Hk2.
  pose proof (f_equal fst Hk2) as Hg. pose proof (f_equal snd Hk2) as Him. cbn [fst snd] in Hg, Him. clear Hk2.
  destruct (geom_inv _ _ Hg) as (Ed & _ & En & Eni). pose proof (inode_map_free _ _ Him) as HFi.
  destruct Hsb as (Ec & Ek & _ & _ & _ & Hat). destruct (grown_runs _ _ _ _ Hgr) as (Hr1 & Hr2 & HFb).
  pose proof (fo_index _ _ _ _ Hfo') as Hidx'. pose proof (fo_read _ _ _ _ Hfo') as Hrd'.
  assert (forall x, is_Some (blk_at s x) -> is_Some (blk_at s' x)) as Hread.
  { intros x Hx. destruct (decide (x = ei_block v)) as [->|Hx']; [by rewrite Hrd'|by rewrite Hat]. }
  assert (block_inv (fs_sbi s')) as Hbi' by apply Hfo'.
  assert (live_file s' ino v fb') as Hlf'.
  { destruct Hlf as [_ ? ? ? Hlv Hb Hown Hdata Hr]. pose proof (file_runs_used _ _ Hidx') as Hu'. split; try done.
    - by rewrite Eni, HFi.
    - rewrite En. clear -Hb HFb. set_solver.
    - clear -Hr1 Hown Hb. set_solver.
    - intros x Hx. rewrite Ed. destruct (decide (x ∈ file_set v fb)) as [Hin|Hout]; [by apply Hdata|].
      apply (fk_free _ Hok). clear -Hx Hout Hr1. set_solver.
    - intros x Hx. apply Hread. destruct (decide (x ∈ file_set v fb)) as [Hin|Hout]; [by apply Hr|].
      destruct (Hcl x) as (c & -> & _); [|done]. clear -Hx Hout Hr1. set_solver. }
  assert (file_set v fb' ⊆ file_set v fb ∪ free_blocks (fs_sbi s)) as Hgrow by (clear -Hr1; set_solver).
  assert (file_set v fb' ## dir_blocks d b bs) as Hdis'.
  { pose proof (dr_used _ _ _ _ _ Hrep) as Hud. clear -Hgrow Hdis Hud. set_solver. }
  assert (forall j w gb, F !! j = Some (w, gb) -> j <> ino -> file_set w gb ## file_set v fb') as Hsep.
  { intros j w gb HF' Hj. pose proof (Hs _ _ _ _ _ _ HF' HF Hj) as Hd'. destruct (Hf _ _ _ HF') as (Hlj & _).
    pose proof (file_set_used _ _ _ _ Hlj) as Huj. clear -Hd' Huj Hgrow. set_solver. }
  exists (<[ino := (v, fb')]> F). split; rewrite ?Ek, ?(geom_large _ _ Hg), ?Ec, ?HFi; try done.
  - split; [done| | | |by apply (meta_ok_geom s); [|apply Hok]].
    + unfold inode_inv. injection Him as -> -> ->. apply Hok.
    + rewrite Ec. apply Hok.
    + intros x Hx. rewrite Ed. apply (fk_free _ Hok). by apply HFb.
  - rewrite Eni. intros i Hi'. by apply Hread, Hst.
  - apply (dir_rep_frame s); try done. intros j Hj. apply Hat. intros ->. clear -Hj Hdis. set_solver.
  - unfold dir_in_data in *. by rewrite Ed.
  - intros x Hx. rewrite Hat; [by apply Hcl, HFb|]. intros ->. apply HFb in Hx. clear -Hx Hu. set_solver.
  - intros j. rewrite lookup_insert_is_Some', Hdom. split; [|by right]. intros [<-|?]; [|done]. apply Hdom. by rewrite HF.
  - intros j w gb [[<- [= <- <-]]|[Hj HF']]%lookup_insert_Some; [by split|].
    destruct (Hf _ _ _ HF') as (Hlj & Hdj & Hjd). split; [|done]. pose proof (file_set_used _ _ _ _ Hlj) as Huj.
    apply (live_file_frame s); try done; [by rewrite Ec; apply Hlj| | |].
    + intros x Hx. apply Hat. intros ->. pose proof (Hs _ _ _ _ _ _ HF' HF ltac:(done)) as Hd'. clear -Hd' Hx. set_solver.
    + clear -Huj HFb. set_solver.
    + rewrite HFi. pose proof (lf_live _ _ _ _ Hlj) as Hlv. clear -Hlv. set_solver.
  - intros i w gb j w' gb' [[<- [= <- <-]]|[Hi1 H1]]%lookup_insert_Some [[<- [= <- <-]]|[Hj1 H2]]%lookup_insert_Some Hij;
      [done|symmetry; by eapply Hsep|by eapply Hsep|by eapply Hs].
Qed.

(** ** The calls the VFS makes, and the abstract directory *)

Inductive op :=
  | Lookup (name : list Z)
  | Create (name : list Z) (mode : Z)
  | Unlink (name : list Z)
  | Grow (name : list Z) (iblock : Z).   (* get_block with create set *)

Definition outcome : Type := result (option Z).

Definition out_inode (r : result Z) : outcome := match r with Ok i => Ok (Some i) | Err e => Err e end.
Definition out_done (r : result unit) : outcome := match r with Ok _ => Ok None | Err e => Err e end.

(** The number of entries the index block of the directory records. *)
Definition dir_count (dir : Z) (s : fs) : Z :=
  match fs_icache s !! dir with
  | Some d => match blk_at s (ei_block d) with Some b => nr_files (ei_of_block b) | None => 0 end
  | None => 0
  end.

(** One call on the directory: create after a lookup that found nothing, the
    others after a lookup that found the file. *)
Inductive fs_step (dir : Z) : fs -> op -> outcome -> fs -> Prop :=
  | step_lookup s name r s' :
      name_ok name -> lolelffs_lookup dir name s = (r, s') -> fs_step dir s (Lookup name) r s'
  | step_create s name mode s1 r s' :
      name_ok name -> S_ISREG mode = true -> dir_count dir s < 120 ->
      lolelffs_lookup dir name s = (Ok None, s1) -> lolelffs_create dir name mode s1 = (r, s') ->
      fs_step dir s (Create name mode) (out_inode r) s'
  | step_unlink s name ino s1 r s' :
      name_ok name -> lolelffs_lookup dir name s = (Ok (Some ino), s1) -> lolelffs_unlink dir ino s1 = (r, s') ->
      fs_step dir s (Unlink name) (out_done r) s'
  | step_grow s name iblock ino s1 r s' :
      name_ok name -> 0 <= iblock -> lolelffs_lookup dir name s = (Ok (Some ino), s1) ->
      lolelffs_file_get_block ino iblock true s1 = (r, s') -> fs_step dir s (Grow name iblock) r s'.

(** A directory is a map from names to inodes. *)
Inductive dir_step : gmap (list Z) Z -> op -> outcome -> gmap (list Z) Z -> Prop :=
  | dir_lookup m name : dir_step m (Lookup name) (Ok (m !! name)) m
  | dir_create m name mode ino :
      m !! name = None -> (forall n i, m !! n = Some i -> i <> ino) ->
      dir_step m (Create name mode) (Ok (Some ino)) (<[name := ino]> m)
  | dir_create_full m name mode :
      m !! name = None -> dir_step m (Create name mode) (Err ENOSPC) m
  | dir_unlink m name ino :
      m !! name = Some ino -> dir_step m (Unlink name) (Ok None) (delete name m)
  | dir_grow m name iblock ino r :
      m !! name = Some ino -> dir_step m (Grow name iblock) r m.

(** Sequences of calls with their outcomes. *)
Inductive run {S} (step : S -> op -> outcome -> S -> Prop) : S -> list (op * outcome) -> S -> Prop :=
  | run_nil s : run step s [] s
  | run_cons s o r s1 tr s' : step s o r s1 -> run step s1 tr s' -> run step s ((o, r) :: tr) s'.

(** The invariant, with what it hides. *)
Definition vol_rep (dir : Z) (s : fs) (m : gmap (list Z) Z) : Prop :=
  exists l d b bs F, vol dir s l d b bs F /\ m = abs l.

Lemma vol_count dir s l d b bs F : vol dir s l d b bs F -> dir_count dir s = Z.of_nat (length l).
Proof.
  intros H. unfold dir_count. rewrite (vo_dir _ _ _ _ _ _ _ H), (dr_read _ _ _ _ _ (vo_rep _ _ _ _ _ _ _ H)).
  apply (dr_count _ _ _ _ _ (vo_rep _ _ _ _ _ _ _ H)).
Qed.

Lemma abs_range l n i : abs l !! n = Some i -> i ∈ l.*2.
Proof. rewrite abs_lookup. intros H%d_lookup_elem. by apply (list_elem_of_fmap_2 snd) in H. Qed.

(** One call of the VFS is one step of the abstract directory. *)
Lemma step_refines dir s m o r s' :
  vol_rep dir s m -> fs_step dir s o r s' -> exists m', dir_step m o r m' /\ vol_rep dir s' m'.
Proof.
  intros (l & d & b & bs & F & H & ->) Hstep. inversion Hstep as
    [? name r0 ? Hn Hl|? name mode s1 r0 ? Hn Hm Hcnt Hl Hc|? name ino s1 r0 ? Hn Hl Hu|? name ib ino s1 r0 ? Hn Hib Hl Hg]; subst;
    destruct (vol_lookup dir s l d b bs F name H Hn) as (t & d1 & Ht & H1); rewrite Ht in Hl; injection Hl as El <-.
  - exists (abs l). split; [|by exists l, d1, b, bs, F]. rewrite <- El, <- abs_lookup. constructor.
  - rewrite (vol_count _ _ _ _ _ _ _ H) in Hcnt.
    destruct (vol_create dir t l d1 b bs F name mode H1 Hn Hm ltac:(lia) El)
      as [(t' & Hrun & H2)|(ino & t' & d' & b' & bs' & F' & Hrun & Hfresh & H2)]; rewrite Hrun in Hc; injection Hc as <- <-.
    + exists (abs l). split; [constructor; by rewrite abs_lookup|by exists l, d1, b, bs, F].
    + exists (abs (l ++ [(name, ino)])). split; [|by exists (l ++ [(name, ino)]), d', b', bs', F'].
      rewrite abs_app by done. constructor; [by rewrite abs_lookup|]. intros n i Hni ->. by apply abs_range in Hni.
  - pose proof (abs_lookup l name) as Ea. rewrite El in Ea.
    destruct (vol_unlink dir t l d1 b bs F ino H1 (abs_range _ _ _ Ea)) as (t' & d' & b' & bs' & Hrun & H2).
    rewrite Hrun in Hu. injection Hu as <- <-. exists (abs (d_remove l ino)). split; [|by exists (d_remove l ino), d', b', bs', (delete ino F)].
    rewrite (abs_remove l name ino (vo_names _ _ _ _ _ _ _ H) (vo_inos _ _ _ _ _ _ _ H) El). by econstructor.
  - pose proof (abs_lookup l name) as Ea. rewrite El in Ea.
    destruct (vol_grow dir t l d1 b bs F ino ib r s' H1 (abs_range _ _ _ Ea) Hib Hg) as (F' & H2).
    exists (abs l). split; [by econstructor|by exists l, d1, b, bs, F'].
Qed.

(** C1 A directory of regular files is a finite map from names to inodes: every
    sequence of lookups, creations, deletions and block allocations that the
    VFS makes on it (directories of up to 120 entries) has, call by call, an
    outcome the map allows: a lookup finds exactly the names created and not
    deleted since, with the inode their creation returned, a creation returns
    an inode no other name has or fails for lack of space without effect, and
    a deletion succeeds.  The invariant, in which the directory, each file and
    the free map own disjoint blocks and the counters are exact, holds after
    every call. *)
Theorem directory_refines_map dir s m tr s' :
  vol_rep dir s m -> run (fs_step dir) s tr s' -> exists m', run dir_step m tr m' /\ vol_rep dir s' m'.
Proof.
  intros H Hrun. revert m H. induction Hrun as [s|s o r s1 tr s' Hstep _ IH]; intros m H.
  - exists m. split; [constructor|done].
  - destruct (step_refines dir s m o r s1 H Hstep) as (m1 & Hd & H1). destruct (IH m1 H1) as (m' & Hr & H').
    exists m'. split; [by econstructor|done].
Qed.

(** C7 No call gets stuck: in a state that represents the map, a lookup returns
    what the map holds, the deletion of a name that is there succeeds, and the
    creation of a name that is not there returns an inode or ENOSPC. *)
Theorem directory_calls_return dir s m name mode :
  vol_rep dir s m -> name_ok name -> S_ISREG mode = true ->
  (exists s', fs_step dir s (Lookup name) (Ok (m !! name)) s') /\
  match m !! name with
  | Some _ => exists s', fs_step dir s (Unlink name) (Ok None) s'
  | None => dir_count dir s < 120 ->
      exists r s', fs_step dir s (Create name mode) r s' /\ (r = Err ENOSPC \/ exists ino, r = Ok (Some ino))
  end.
Proof.
  intros (l & d & b & bs & F & H & ->) Hn Hm. destruct (vol_lookup dir s l d b bs F name H Hn) as (t & d1 & Ht & H1).
  rewrite abs_lookup. split; [exists t; by constructor|]. destruct (d_lookup l name) as [ino|] eqn:El.
  - pose proof (abs_lookup l name) as Ea. rewrite El in Ea.
    destruct (vol_unlink dir t l d1 b bs F ino H1 (abs_range _ _ _ Ea)) as (t' & d' & b' & bs' & Hrun & _).
    exists t'. exact (step_unlink dir s name ino t (Ok tt) t' Hn Ht Hrun).
  - intros Hcnt. pose proof Hcnt as Hl. rewrite (vol_count _ _ _ _ _ _ _ H) in Hl.
    destruct (vol_create dir t l d1 b bs F name mode H1 Hn Hm ltac:(lia) El)
      as [(t' & Hrun & _)|(ino & t' & ? & ? & ? & ? & Hrun & _)].
    + exists (Err ENOSPC), t'. split; [exact (step_create dir s name mode t _ t' Hn Hm Hcnt Ht Hrun)|by left].
    + exists (Ok (Some ino)), t'. split; [exact (step_create dir s name mode t _ t' Hn Hm Hcnt Ht Hrun)|by right; exists ino].
Qed.

(** ** Witnesses: the empty root directory of the image of 64 blocks *)

Lemma ex_vol : vol_rep 0 ex_fs64 ∅.
Proof.
  exists [], ex_root64, (zeros BLK), [], ∅. split; [|reflexivity].
  destruct ex_can_create as [Hok Hd Hrep Hdat Hcl _ Hlive _ _]. split; try assumption.
  - reflexivity.
  - change (nr_inodes (sbd (fs_sbi ex_fs64))) with 56. intros i Hi.
    assert (Forall (fun i => is_Some (blk_at ex_fs64 (inode_block_of i))) (seqZ 0 56)) as Hst
      by (apply (bool_decide_unpack _); vm_compute; exact I).
    rewrite Forall_forall in Hst. apply Hst, elem_of_seqZ. lia.
  - intros p m Hm. exact Hm.
  - vm_compute. discriminate.
  - intros ino. rewrite lookup_empty. split; intros Hx; exfalso; [exact (is_Some_None Hx)|exact (not_elem_of_nil _ Hx)].
  - intros ino v fb HF. rewrite lookup_empty in HF. discriminate HF.
  - intros i v fb j w gb HF. rewrite lookup_empty in HF. discriminate HF.
  - constructor.
  - constructor.
Qed.

(** Create "a", find it, give it a block, delete it, miss it. *)
Definition ex_t1 : fs := snd (lolelffs_lookup 0 ex_name ex_fs64).
Definition ex_t2 : fs := snd (lolelffs_create 0 ex_name 0x81A4 ex_t1).
Definition ex_t3 : fs := snd (lolelffs_lookup 0 ex_name ex_t2).
Definition ex_t4 : fs := snd (lolelffs_lookup 0 ex_name ex_t3).
Definition ex_t5 : fs := snd (lolelffs_file_get_block 1 0 true ex_t4).
Definition ex_t6 : fs := snd (lolelffs_lookup 0 ex_name ex_t5).
Definition ex_t7 : fs := snd (lolelffs_unlink 0 1 ex_t6).
Definition ex_t8 : fs := snd (lolelffs_lookup 0 ex_name ex_t7).
Definition ex_trace : list (op * outcome) :=
  [(Create ex_name 0x81A4, Ok (Some 1)); (Lookup ex_name, Ok (Some 1)); (Grow ex_name 0, Ok (Some 14));
   (Unlink ex_name, Ok None); (Lookup ex_name, Ok None)].

(** A call seen through its result: the state after it is not evaluated. *)
Lemma run_result {S A} (m : M S A) s r : fst (m s) = r -> m s = (r, snd (m s)).
Proof. intros <-. apply surjective_pairing. Qed.

Ltac run_call :=
  match goal with |- ?m ?s = (?r, ?t) => unfold t; refine (run_result m s r _); vm_compute; reflexivity end.

Lemma ex_run : run (fs_step 0) ex_fs64 ex_trace ex_t8.
Proof.
  assert (name_ok ex_name) as Hn by apply ex_can_create.
  apply (run_cons _ _ _ _ ex_t2).
  { apply (step_create 0 _ _ _ ex_t1 (Ok 1)); [exact Hn|reflexivity|vm_compute; reflexivity|run_call..]. }
  apply (run_cons _ _ _ _ ex_t3). { apply step_lookup; [exact Hn|run_call]. }
  apply (run_cons _ _ _ _ ex_t5).
  { apply (step_grow 0 _ _ _ 1 ex_t4); [exact Hn|discriminate|run_call..]. }
  apply (run_cons _ _ _ _ ex_t7).
  { apply (step_unlink 0 _ _ 1 ex_t6 (Ok tt)); [exact Hn|run_call..]. }
  apply (run_cons _ _ _ _ ex_t8). { apply step_lookup; [exact Hn|run_call]. }
  constructor.
Qed.

Lemma directory_refines_map_witness : exists m', run dir_step ∅ ex_trace m' /\ vol_rep 0 ex_t8 m'.
Proof. exact (directory_refines_map 0 ex_fs64 ∅ ex_trace ex_t8 ex_vol ex_run). Defined.

Lemma directory_calls_return_witness : exists s', fs_step 0 ex_fs64 (Lookup ex_name) (Ok None) s'.
Proof.
  assert (name_ok ex_name) as Hn by apply ex_can_create.
  exact (proj1 (directory_calls_return 0 ex_fs64 ∅ ex_name 0x81A4 ex_vol Hn eq_refl)).
Defined.
