(* ===== verification/Dir.v ===== *)
(** * Directory files (src/src/dir.c): listing and ioctl

    lolelffs_iterate over an abstract consumer of entries, with the theorem
    that repeated calls list a directory completely, and lolelffs_ioctl with
    the unlocking of an encrypted file system. *)
From S2P Require Import Prelude Layout Bitmap Extent State Elf Super Codec File Xattr XattrSpec Inode InodeSpec Namespace Unlink.

(** ** struct dir_context *)

(** [ctx_actor] is the state of the consumer behind ctx->actor, and [ctx_log]
    the entries it has accepted so far. *)
Record dir_context (E : Type) := DirContext { ctx_pos : Z; ctx_actor : E; ctx_log : list dentry }.
Arguments DirContext {E} _ _ _.
Arguments ctx_pos {E} _.
Arguments ctx_actor {E} _.
Arguments ctx_log {E} _.

Definition set_pos {E} (pos : Z) (c : dir_context E) : dir_context E := DirContext pos (ctx_actor c) (ctx_log c).

Section Iterate.
(** The consumer: whether it takes the entry, and its next state. *)
Context {E : Type} (actor : E -> dentry -> bool * E).
(** The kernel's dir_emit_dots: the entries "." and "..". *)
Context (dir_emit_dots : dir_context E -> bool * dir_context E).

Definition dir_emit (c : dir_context E) (e : dentry) : bool * dir_context E :=
  let '(ok, a) := actor (ctx_actor c) e in
  (ok, DirContext (ctx_pos c) a (if ok then ctx_log c ++ [e] else ctx_log c)).

(** f->filename with strnlen(f->filename, LOLELFFS_FILENAME_LEN), and f->inode *)
Definition entry_of (f : lolelffs_file) : dentry := (cstr (take 255 (filename f)), f_inode f).

(** for (; fi < LOLELFFS_FILES_PER_BLOCK; fi++) over the slots from [fi] on; the
    result has the context and the value of fi at the end. *)
Fixpoint iterate_files (files : list lolelffs_file) (fi : nat) (c : dir_context E) : dir_context E * nat :=
  match files with
  | [] => (c, fi)
  | f :: files =>
      if f_inode f =? 0 then iterate_files files (S fi) (set_pos (ctx_pos c + 1) c)
      else
        let '(ok, c) := dir_emit c (entry_of f) in
        if ok then iterate_files files (S fi) (set_pos (ctx_pos c + 1) c) else (c, fi)
  end.

(** for (; bi < eblock->extents[ei].ee_len; bi++): [n] blocks are left.  Neither
    bi nor fi is reset. *)
Fixpoint iterate_blocks (s : fs) (n : nat) (start bi : Z) (fi : nat) (c : dir_context E)
    : result (Z * nat) * dir_context E :=
  match n with
  | O => (Ok (bi, fi), c)
  | S n =>
      match LOLELFFS_SB_BREAD (start +₃₂ bi) s with
      | (Err _, _) => (Err EIO, c)
      | (Ok b, _) =>
          if f_inode (default zero_file (dir_of_block b !! 0%nat)) =? 0 then (Ok (bi, fi), c)
          else
            let '(c, fi) := iterate_files (drop fi (dir_of_block b)) fi c in
            iterate_blocks s n start (bi + 1) fi c
      end
  end.

(** for (; ei < LOLELFFS_MAX_EXTENTS; ei++) over the extents from [ei] on. *)
Fixpoint iterate_extents (s : fs) (es : list lolelffs_extent) (bi : Z) (fi : nat) (c : dir_context E)
    : result unit * dir_context E :=
  match es with
  | [] => (Ok tt, c)
  | e :: es =>
      if ee_start e =? 0 then (Ok tt, c)
      else
        match iterate_blocks s (Z.to_nat (ee_len e - bi)) (ee_start e) bi fi c with
        | (Err e, c) => (Err e, c)
        | (Ok (bi, fi), c) => iterate_extents s es bi fi c
        end
  end.

(** The VFS calls with a position that is not negative; before the start of the
    entries the indices would be. *)
Definition lolelffs_iterate (s : fs) (inode : Z) (c : dir_context E) : result unit * dir_context E :=
  let v := default no_inode (fs_icache s !! inode) in
  if negb (S_ISDIR (i_mode v)) then (Err ENOTDIR, c)
  else if LOLELFFS_MAX_SUBFILES + 2 <? ctx_pos c then (Ok tt, c)
  else
    let '(ok, c) := dir_emit_dots c in
    if negb ok then (Ok tt, c)
    else
      match LOLELFFS_SB_BREAD (ei_block v) s with
      | (Err _, _) => (Err EIO, c)
      | (Ok b, _) =>
          let k := ctx_pos c - 2 in
          if k <? 0 then (Err MEMFAULT, c)
          else iterate_extents s (drop (Z.to_nat (slot_ei k)) (extents (ei_of_block b))) (slot_bi k) (slot_fi k) c
      end.

(** [n] calls as getdents makes them, each with the position the last one left
    and with its own buffer: [refill] gives the consumer of a new call. *)
Fixpoint readdir (refill : E -> E) (n : nat) (s : fs) (inode : Z) (c : dir_context E)
    : result unit * dir_context E :=
  match n with
  | O => (Ok tt, c)
  | S n =>
      match lolelffs_iterate s inode (DirContext (ctx_pos c) (refill (ctx_actor c)) (ctx_log c)) with
      | (Ok _, c) => readdir refill n s inode c
      | r => r
      end
  end.
End Iterate.

(** ** Listing a directory *)

Lemma entry_of_file d : dentry_ok d -> entry_of (file_of d) = d.
Proof.
  intros [((_ & H255) & Hnul & _) _]. destruct d as [name ino]. unfold entry_of, file_of. cbn [filename f_inode fst snd] in *.
  rewrite take_ge by (rewrite length_strncpy; lia). unfold strncpy. rewrite take_ge by lia.
  by rewrite cstr_zeros, cstr_no_nul.
Qed.

(** A block of a directory is a segment of its slots. *)
Lemma files_block bs : forall j c, bs !! j = Some c -> dir_of_block c = take NFILES (drop (NFILES * j) (files bs)).
Proof.
  induction bs as [|x bs IH]; intros [|j] c Hj; try done; cbn in Hj.
  - injection Hj as ->. unfold files. cbn [map concat]. rewrite Nat.mul_0_r, drop_0.
    by rewrite take_app_length' by (by rewrite length_dir_of_block).
  - unfold files. cbn [map concat]. rewrite (IH j c Hj). f_equal. rewrite drop_app_ge by (rewrite length_dir_of_block; lia).
    f_equal. rewrite length_dir_of_block. unfold NFILES. lia.
Qed.

Section Listing.
Context {E : Type} (actor : E -> dentry -> bool * E).

(** The consumer accepts the next [n] entries, whatever they are. *)
Fixpoint takes (n : nat) (a : E) : Prop :=
  match n with
  | O => True
  | S n => forall e, fst (actor a e) = true /\ takes n (snd (actor a e))
  end.

(** Entries handed to the consumer one after the other, up to the first it
    refuses, the position advancing with each. *)
Fixpoint emit_all (l : list dentry) (c : dir_context E) : bool * dir_context E :=
  match l with
  | [] => (true, c)
  | e :: l =>
      let '(ok, c) := dir_emit actor c e in
      if ok then emit_all l (set_pos (ctx_pos c + 1) c) else (false, c)
  end.

Lemma takes_le n m a : (n <= m)%nat -> takes m a -> takes n a.
Proof.
  revert m a. induction n as [|n IH]; intros m a Hle Hm; [done|]. destruct m as [|m]; [lia|].
  intros e. destruct (Hm e) as [? ?]. split; [done|]. apply (IH m); [lia|done].
Qed.

(** What the consumer gets is a prefix; all of it if it has room, and at least
    one entry if it takes one. *)
Lemma emit_all_spec l : forall c : dir_context E, exists ok m a,
  emit_all l c = (ok, DirContext (ctx_pos c + Z.of_nat m) a (ctx_log c ++ take m l)) /\ (m <= length l)%nat /\
  (ok = true -> m = length l) /\ (forall n, takes (length l + n) (ctx_actor c) -> ok = true /\ takes n a) /\
  (takes 1 (ctx_actor c) -> l <> [] -> (1 <= m)%nat).
Proof.
  induction l as [|e l IH]; intros c; cbn [emit_all].
  - exists true, 0%nat, (ctx_actor c). rewrite app_nil_r, Z.add_0_r. destruct c. split_and!; done || (intros; lia) || auto.
  - unfold dir_emit. destruct (actor (ctx_actor c) e) as [ok a1] eqn:Ea. destruct ok.
    + destruct (IH (set_pos (ctx_pos c + 1) (DirContext (ctx_pos c) a1 (ctx_log c ++ [e])))) as (ok & m & a & Ha & Hm & Hok & Hn & _).
      exists ok, (S m), a. cbn [set_pos ctx_pos ctx_actor ctx_log] in *. rewrite Ha. cbn [take length].
      split_and!; [rewrite <- app_assoc; cbn [app]; f_equal; f_equal; lia|lia|intros; f_equal; auto| |lia].
      intros n Ht. destruct (Ht e) as [_ Ht']. rewrite Ea in Ht'. by apply Hn.
    + exists false, 0%nat, a1. rewrite app_nil_r, Z.add_0_r. cbn [ctx_pos ctx_log length].
      split_and!; [done|lia|done| |].
      * intros n Ht. destruct (Ht e) as [Ht' _]. by rewrite Ea in Ht'.
      * intros Ht _. destruct (Ht e) as [Ht' _]. by rewrite Ea in Ht'.
Qed.

(** The slots of entries, then unused ones. *)
Lemma iterate_files_emits l1 R : Forall dentry_ok l1 -> Forall unused R -> forall fi (c : dir_context E),
  iterate_files actor (map file_of l1 ++ R) fi c =
    let '(ok, c1) := emit_all l1 c in
    if ok then (set_pos (ctx_pos c1 + Z.of_nat (length R)) c1, (fi + (length l1 + length R))%nat)
    else (c1, (fi + Z.to_nat (ctx_pos c1 - ctx_pos c))%nat).
Proof.
  intros Hl HR. induction Hl as [|e l1 He _ IH]; cbn [map app iterate_files length Nat.add emit_all].
  - induction HR as [|f R Hf _ IHR]; intros fi c; cbn [iterate_files length].
    + rewrite Nat.add_0_r, Z.add_0_r. by destruct c.
    + rewrite Hf. cbn [Z.eqb]. rewrite IHR. cbn [set_pos ctx_pos]. f_equal; [|lia]. unfold set_pos. cbn. f_equal. lia.
  - intros fi c. pose proof He as [_ Hino]. cbn [file_of f_inode]. rewrite (proj2 (Z.eqb_neq _ _)) by lia.
    rewrite (entry_of_file e He). unfold dir_emit. destruct (actor _ _) as [ok a1]. destruct ok.
    + rewrite IH. set (c0 := set_pos _ _).
      destruct (emit_all_spec l1 c0) as (ok & m & a & -> & Hm & _). cbn [c0 set_pos ctx_pos].
      destruct ok; [f_equal; lia|]. f_equal. lia.
    + cbn [ctx_pos]. f_equal. lia.
Qed.

(** Once fi is past the last slot, the other blocks are only read. *)
Lemma iterate_blocks_idle s bs : forall start bi (c : dir_context E),
  run_blocks s (start + bi) bs -> 0 <= start + bi -> start + bi + Z.of_nat (length bs) <= 2 ^ 32 ->
  exists bi', iterate_blocks actor s (length bs) start bi NFILES c = (Ok (bi', NFILES), c).
Proof.
  induction bs as [|b bs IH]; intros start bi c Hr H0 H32; cbn [length iterate_blocks]; [by exists bi|].
  destruct (run_blocks_head _ _ _ _ Hr) as [Hb _]. cbn [length] in H32. rewrite u32_small by lia.
  rewrite (bread_run _ _ _ Hb). destruct (_ =? 0); [by exists bi|].
  rewrite drop_ge by (by rewrite length_dir_of_block). cbn [iterate_files].
  apply IH; [rewrite Z.add_assoc; by eapply run_blocks_tail|lia..].
Qed.

(** The entries a call emits from slot [k] on: the rest of the block. *)
Definition block_rest (l : list dentry) (k : nat) : list dentry := take (NFILES - k mod NFILES) (drop k l).

Lemma slots_120 k : (k <= 120)%nat ->
  slot_ei (Z.of_nat k) = 0 /\ slot_bi (Z.of_nat k) = Z.of_nat (k / 15) /\ slot_fi (Z.of_nat k) = (k mod 15)%nat /\
  k = (15 * (k / 15) + k mod 15)%nat /\ (k mod 15 < 15)%nat.
Proof.
  intros Hk. unfold slot_ei, slot_bi, slot_fi. change LOLELFFS_FILES_PER_EXT with 30720.
  change LOLELFFS_FILES_PER_BLOCK with 15. rewrite (Z.mod_small _ 30720), (Z.div_small _ 30720) by lia.
  pose proof (Nat.div_mod_eq k 15). pose proof (Nat.mod_upper_bound k 15).
  replace (Z.of_nat k / 15) with (Z.of_nat (k / 15)) by (by rewrite Nat2Z.inj_div).
  replace (Z.of_nat k mod 15) with (Z.of_nat (k mod 15)) by (by rewrite Nat2Z.inj_mod). rewrite Nat2Z.id. lia.
Qed.

Lemma run_blocks_drop s start bs j : run_blocks s start bs -> run_blocks s (start + Z.of_nat j) (drop j bs).
Proof. intros H i c Hi. rewrite lookup_drop in Hi. replace (start + Z.of_nat j + Z.of_nat i) with (start + Z.of_nat (j + i)) by lia. by apply H. Qed.

(** The slots of a block from slot [k] of the directory on. *)
Lemma block_slots bs l R k x :
  files bs = map file_of l ++ R -> Forall unused R -> bs !! (k / 15)%nat = Some x ->
  exists R', drop (k mod 15) (dir_of_block x) = map file_of (block_rest l k) ++ R' /\ Forall unused R'.
Proof.
  intros Hf HR Hx. rewrite (files_block bs _ x Hx), Hf, skipn_firstn_comm, drop_drop.
  replace (NFILES * (k / 15) + k mod 15)%nat with k by (pose proof (Nat.div_mod_eq k 15); unfold NFILES; lia).
  rewrite drop_app, take_app, skipn_map, firstn_map. eexists. split; [reflexivity|].
  by apply Forall_take, Forall_drop.
Qed.

Lemma first_slot bs l R j x :
  files bs = map file_of l ++ R -> Forall unused R -> Forall dentry_ok l -> bs !! j = Some x ->
  (f_inode (default zero_file (dir_of_block x !! 0%nat)) =? 0) = negb (15 * j <? length l)%nat.
Proof.
  intros Hf HR Hl Hx. rewrite (files_block bs _ x Hx), Hf, lookup_take_lt, lookup_drop, Nat.add_0_r by (unfold NFILES; lia).
  change (NFILES * j)%nat with (15 * j)%nat. destruct (Nat.ltb_spec (15 * j) (length l)) as [Hlt|Hge].
  - rewrite lookup_app_l by (by rewrite length_map). destruct (lookup_lt_is_Some_2 l _ Hlt) as [e He].
    change (map file_of l !! (15 * j)%nat) with ((file_of <$> l) !! (15 * j)%nat). rewrite list_lookup_fmap, He. cbn.
    destruct (Forall_lookup_1 _ _ _ _ Hl He) as [_ Hi]. apply Z.eqb_neq. lia.
  - rewrite lookup_app_r by (by rewrite length_map). destruct (R !! _) as [f|] eqn:Ef; cbn; [|done].
    by rewrite (Forall_lookup_1 _ _ _ _ HR Ef).
Qed.

(** With no entry in the second block, the walk ends behind the first. *)
Lemma iterate_blocks_stop s bs x n start bi fi (c : dir_context E) :
  run_blocks s (start + bi) (x :: bs) -> 0 <= start + bi < 2 ^ 32 ->
  (f_inode (default zero_file (dir_of_block x !! 0%nat)) =? 0) = true ->
  iterate_blocks actor s n start bi fi c = (Ok (bi, fi), c).
Proof.
  intros Hr H32 H0. destruct n; cbn [iterate_blocks]; [done|]. destruct (run_blocks_head _ _ _ _ Hr) as [Hb _].
  rewrite u32_small by lia. by rewrite (bread_run _ _ _ Hb), H0.
Qed.

(** The blocks from that of slot [k] on, when it has entries: the consumer gets
    the rest of the block, or a prefix of it when it refuses an entry, which
    only a directory of one block tolerates. *)
Lemma blocks_emit s start bs l R x k (c : dir_context E) :
  run_blocks s start bs -> 0 <= start -> start + Z.of_nat (length bs) <= 2 ^ 32 -> length bs = 8%nat ->
  files bs = map file_of l ++ R -> Forall unused R -> Forall dentry_ok l -> bs !! (k / 15)%nat = Some x ->
  (15 * (k / 15) < length l)%nat -> ctx_pos c = 2 + Z.of_nat k -> (length l <= 15)%nat \/ takes 15 (ctx_actor c) ->
  exists bi fi c', iterate_blocks actor s (8 - k / 15) start (Z.of_nat (k / 15)) (k mod 15) c = (Ok (bi, fi), c') /\
    ctx_pos c <= ctx_pos c' <= 2 + Z.of_nat (15 * (k / 15 + 1)) /\
    ctx_log c' = ctx_log c ++ take (Z.to_nat (ctx_pos c' - ctx_pos c)) (drop k l) /\
    (takes 1 (ctx_actor c) -> (k < length l)%nat -> ctx_pos c < ctx_pos c') /\
    (takes 15 (ctx_actor c) -> ctx_pos c' = 2 + Z.of_nat (15 * (k / 15 + 1))).
Proof.
  intros Hbl H0 H32 H8 Hf HR Hen Hx Hlt Hpos Hroom. pose proof (lookup_lt_Some _ _ _ Hx) as Hj. rewrite H8 in Hj.
  pose proof (Nat.div_mod_eq k 15) as Ek. pose proof (Nat.mod_upper_bound k 15 ltac:(lia)) as Hm.
  replace (8 - k / 15)%nat with (S (length (drop (S (k / 15)) bs))) by (rewrite length_drop; lia).
  pose proof (run_blocks_drop _ _ _ (k / 15) Hbl) as Hbl'. rewrite (drop_S bs x (k / 15) Hx) in Hbl'. cbn [iterate_blocks].
  destruct (run_blocks_head _ _ _ _ Hbl') as [Hrd _]. rewrite u32_small by lia. rewrite (bread_run _ _ _ Hrd).
  rewrite (first_slot bs l R _ x Hf HR Hen Hx), (proj2 (Nat.ltb_lt _ _) Hlt). cbn [negb].
  destruct (block_slots bs l R k x Hf HR Hx) as (R' & Hslots & HR').
  assert (length (block_rest l k) + length R' = 15 - k mod 15)%nat as Hsum.
  { rewrite <- (length_map file_of), <- length_app, <- Hslots, length_drop, length_dir_of_block. done. }
  rewrite Hslots, (iterate_files_emits (block_rest l k) R' ltac:(by apply Forall_take, Forall_drop) HR').
  apply run_blocks_tail in Hbl'.
  destruct (emit_all_spec (block_rest l k) c) as (ok & m & a & -> & Hml & Hok & Hall & Hone). destruct ok.
  - specialize (Hok eq_refl). subst m. rewrite Hsum. replace (k mod 15 + (15 - k mod 15))%nat with NFILES by (unfold NFILES; lia).
    match goal with |- context [iterate_blocks actor s _ start _ NFILES ?c1] =>
      destruct (iterate_blocks_idle s (drop (S (k / 15)) bs) start (Z.of_nat (k / 15) + 1) c1) as [bi' ->] end;
      [replace (start + (Z.of_nat (k / 15) + 1)) with (start + Z.of_nat (k / 15) + 1) by lia; done|lia|rewrite length_drop; lia|].
    do 3 eexists. split; [reflexivity|]. cbn [set_pos ctx_pos ctx_log]. split_and!; [lia..| |lia|lia].
    rewrite firstn_all. f_equal. replace (Z.to_nat _) with (NFILES - k mod NFILES)%nat by (unfold NFILES; lia). done.
  - assert (length l <= 15)%nat as Hl15.
    { destruct Hroom as [?|Ht]; [done|]. destruct (Hall 0%nat) as [? _]; [|done].
      apply (takes_le _ 15); [lia|done]. }
    replace (k / 15)%nat with 0%nat in * by lia.
    destruct (bs !! 1%nat) as [y|] eqn:Hy; [|apply lookup_ge_None in Hy; lia].
    rewrite (drop_S bs y 1 Hy) in Hbl' |- *.
    rewrite (iterate_blocks_stop s (drop 2 bs) y); cycle 1.
    { by replace (start + (Z.of_nat 0 + 1)) with (start + Z.of_nat 0 + 1) by lia. }
    { lia. }
    { rewrite (first_slot bs l R 1 y Hf HR Hen Hy). apply negb_true_iff, Nat.ltb_ge. lia. }
    assert (length (block_rest l k) <= 15 - k mod 15)%nat by lia.
    do 3 eexists. split; [reflexivity|]. cbn [ctx_pos ctx_log]. split_and!; [lia..| | |].
    + f_equal. replace (Z.to_nat _) with m by lia. unfold block_rest in *. rewrite take_take. f_equal. unfold NFILES. lia.
    + intros H1 Hk. specialize (Hone H1). assert (block_rest l k <> []) as Hne; [|specialize (Hone Hne); lia].
      unfold block_rest. intros E0%(f_equal length). rewrite length_take, length_drop in E0. cbn [length] in E0. unfold NFILES in E0. lia.
    + intros Ht. destruct (Hall 0%nat) as [? _]; [|done]. apply (takes_le _ 15); [lia|done].
Qed.

(** One call, from slot [k] on. *)
Lemma call_emits s dirblk b bs l (c : dir_context E) k :
  dir_rep s dirblk b bs l -> ctx_pos c = 2 + Z.of_nat k -> (k <= 120)%nat ->
  (length l <= 15)%nat \/ takes 15 (ctx_actor c) ->
  exists c', iterate_extents actor s (drop (Z.to_nat (slot_ei (Z.of_nat k))) (extents (ei_of_block b)))
      (slot_bi (Z.of_nat k)) (slot_fi (Z.of_nat k)) c = (Ok tt, c') /\
    ctx_pos c <= ctx_pos c' <= 122 /\
    ctx_log c' = ctx_log c ++ take (Z.to_nat (ctx_pos c' - ctx_pos c)) (drop k l) /\
    (takes 1 (ctx_actor c) -> (k < length l)%nat -> ctx_pos c < ctx_pos c') /\
    (takes 15 (ctx_actor c) -> (k < length l)%nat -> 2 + Z.of_nat (15 * (k / 15 + 1)) <= ctx_pos c').
Proof.
  intros Hd Hpos Hk Hroom. destruct (slots_120 k Hk) as (-> & -> & -> & Ek & Hm).
  change (Z.to_nat 0) with 0%nat. rewrite drop_0. destruct (extents_cons2 b) as (e1 & es & -> & ->). cbn [iterate_extents].
  destruct (dir_bounds _ _ _ _ _ Hd) as (H0 & H32 & Hle & _). pose proof Hd as [_ _ _ _ Hs1 Hrun Hbl Hen (R & Hf & HR) _ _].
  assert ((length l <= k)%nat -> exists c', (Ok tt, c) = (Ok tt, c') /\
    ctx_pos c <= ctx_pos c' <= 122 /\ ctx_log c' = ctx_log c ++ take (Z.to_nat (ctx_pos c' - ctx_pos c)) (drop k l) /\
    (takes 1 (ctx_actor c) -> (k < length l)%nat -> ctx_pos c < ctx_pos c') /\
    (takes 15 (ctx_actor c) -> (k < length l)%nat -> 2 + Z.of_nat (15 * (k / 15 + 1)) <= ctx_pos c')) as Hdone.
  { intros Hge. exists c. split_and!; [done|lia|lia| |lia|lia]. by rewrite drop_ge, take_nil, app_nil_r. }
  destruct (Z.eqb_spec (ee_start (dext b)) 0) as [E0|Hnz].
  { subst bs. cbn [length] in Hle. apply Hdone. unfold NFILES in Hle. lia. }
  destruct Hrun as [Hlen H8]. rewrite Hlen, Hs1. cbn [Z.eqb]. rewrite H8 in Hle. unfold NFILES in Hle.
  replace (Z.to_nat (8 - Z.of_nat (k / 15))) with (8 - k / 15)%nat by lia.
  destruct (bs !! (k / 15)%nat) as [x|] eqn:Hx.
  2:{ apply lookup_ge_None in Hx. replace (8 - k / 15)%nat with 0%nat by lia. apply Hdone. lia. }
  destruct (Nat.lt_ge_cases (15 * (k / 15)) (length l)) as [Hlt|Hge].
  - destruct (blocks_emit s (ee_start (dext b)) bs l R x k c) as (bi & fi & c' & -> & Hp & Hlog & H1 & H15); try done.
    apply lookup_lt_Some in Hx. exists c'. split_and!; [done|lia|lia|done|done|].
    intros Ht _. rewrite (H15 Ht). lia.
  - replace (8 - k / 15)%nat with (S (length (drop (S (k / 15)) bs))) by (apply lookup_lt_Some in Hx; rewrite length_drop; lia).
    pose proof (run_blocks_drop _ _ _ (k / 15) Hbl) as Hbl'. rewrite (drop_S bs x (k / 15) Hx) in Hbl'.
    rewrite (iterate_blocks_stop s _ x _ _ _ _ _ Hbl'); [apply Hdone; lia| |].
    + apply lookup_lt_Some in Hx. lia.
    + rewrite (first_slot bs l R _ x Hf HR Hen Hx). apply negb_true_iff, Nat.ltb_ge. lia.
Qed.

(** The kernel's dir_emit_dots hands "." at position 0 and ".." at position 1 to
    the consumer, stops if it refuses, and does nothing further on. *)
Context (dir_emit_dots : dir_context E -> bool * dir_context E).
Definition emits_dots (dots : list dentry) : Prop := length dots = 2%nat /\
  forall c, 0 <= ctx_pos c -> dir_emit_dots c = emit_all (drop (Z.to_nat (ctx_pos c)) dots) c.

Section Calls.
Context (dots : list dentry) (Hdots : emits_dots dots).
Context (s : fs) (inode : Z) (v : vinode) (b : block) (bs : list block) (l : list dentry).
Context (Hv : fs_icache s !! inode = Some v) (Hdir : S_ISDIR (i_mode v) = true) (Hd : dir_rep s (ei_block v) b bs l).

(** The block of the directory in which a position lies. *)
Definition block_of (pos : Z) : Z := (Z.max 2 pos - 2) / 15.

(** A call of lolelffs_iterate from any position. *)
Lemma iterate_call (c : dir_context E) :
  0 <= ctx_pos c <= 122 -> (length l <= 15)%nat \/ takes 17 (ctx_actor c) ->
  exists c', lolelffs_iterate actor dir_emit_dots s inode c = (Ok tt, c') /\
    ctx_pos c <= ctx_pos c' <= 122 /\
    ctx_log c' = ctx_log c ++ take (Z.to_nat (ctx_pos c' - ctx_pos c)) (drop (Z.to_nat (ctx_pos c)) (dots ++ l)) /\
    (takes 1 (ctx_actor c) -> ctx_pos c < 2 + Z.of_nat (length l) -> ctx_pos c < ctx_pos c') /\
    (takes 17 (ctx_actor c) -> ctx_pos c < 2 + Z.of_nat (length l) ->
       2 + 15 * (block_of (ctx_pos c) + 1) <= Z.max 17 (ctx_pos c') /\ (l <> [] -> 17 <= ctx_pos c')).
Proof using Hdots Hv Hdir Hd.
  intros Hpos Hroom. destruct Hdots as [Hlen Hspec]. unfold lolelffs_iterate. rewrite Hv. cbn [default from_option id].
  rewrite Hdir. cbn [negb]. assert (122 <= LOLELFFS_MAX_SUBFILES + 2) by (by vm_compute).
  destruct (Z.ltb_spec (LOLELFFS_MAX_SUBFILES + 2) (ctx_pos c)); [lia|].
  rewrite (Hspec c) by lia. set (p := Z.to_nat (ctx_pos c)) in *.
  assert (length (drop p dots) = 2 - p)%nat as Hld by (rewrite length_drop; lia).
  destruct (emit_all_spec (drop p dots) c) as (ok & m & a & -> & Hml & Hok & Hall & Hone).
  assert (drop p (dots ++ l) = drop p dots ++ drop (p - 2) l) as Hdrop by (by rewrite drop_app, Hlen).
  destruct ok; cbn [negb].
  2:{ eexists. split; [reflexivity|]. cbn [ctx_pos ctx_log]. split_and!; [lia..| | |].
      - rewrite Hdrop. replace (Z.to_nat _) with m by lia. by rewrite take_app_le by lia.
      - intros H1 _. assert (drop p dots <> []) as Hne; [|specialize (Hone H1 Hne); lia].
        intros E0. rewrite E0 in Hall. by destruct (Hall 0%nat I).
      - intros H17 _. destruct (Hall 0%nat) as [? _]; [|done]. apply (takes_le _ 17); [lia|done]. }
  specialize (Hok eq_refl). rewrite (bread_run _ _ _ (dr_read _ _ _ _ _ Hd)). cbn [ctx_pos].
  set (c1 := DirContext _ a _). set (k := (p - 2)%nat).
  assert (ctx_pos c + Z.of_nat m = 2 + Z.of_nat k) as Hp1 by lia. rewrite Hp1.
  replace (2 + Z.of_nat k - 2) with (Z.of_nat k) by lia. destruct (Z.ltb_spec (Z.of_nat k) 0); [lia|].
  assert (forall n, takes (2 + n) (ctx_actor c) -> takes n a) as Hroom1.
  { intros n Ht. apply Hall, (takes_le _ (2 + n)); [lia|done]. }
  destruct (call_emits s (ei_block v) b bs l c1 k Hd Hp1 ltac:(lia)) as (c' & -> & Hb & Hlog & Hc1 & H15).
  { destruct Hroom as [?|Ht]; [by left|right; by apply Hroom1]. }
  cbn [c1 ctx_pos ctx_log ctx_actor] in *. exists c'. split; [done|]. split_and!; [lia..| | |].
  - rewrite Hlog, Hdrop, <- app_assoc, Hok, firstn_all. f_equal.
    replace (Z.to_nat (ctx_pos c' - ctx_pos c)) with (length (drop p dots) + Z.to_nat (ctx_pos c' - (ctx_pos c + Z.of_nat m)))%nat by lia.
    rewrite take_app_add. by rewrite Hok.
  - intros Ht Hlt. destruct (Nat.eq_dec (2 - p) 0) as [Hz|Hz].
    + specialize (Hc1 ltac:(apply Hall; rewrite Hld, Hz; done) ltac:(lia)). lia.
    + assert (drop p dots <> []) as Hne by (intros E0%(f_equal length); rewrite Hld in E0; done).
      specialize (Hone Ht Hne). lia.
  - intros Ht Hlt. unfold block_of. replace (Z.max 2 (ctx_pos c) - 2) with (Z.of_nat k) by lia.
    replace (Z.of_nat k / 15) with (Z.of_nat (k / 15)) by (by rewrite Nat2Z.inj_div).
    destruct (Nat.lt_ge_cases k (length l)) as [Hkl|Hkl].
    + specialize (H15 ltac:(by apply Hroom1) Hkl). lia.
    + assert (k = 0)%nat as Hk0 by lia. rewrite Hk0 in *. destruct l; [|cbn in Hkl; lia].
      change (0 / 15)%nat with 0%nat. split; [lia|done].
Qed.

(** [n] calls from any position. *)
Lemma readdir_from refill :
  (length l <= 15)%nat \/ (forall a, takes 17 (refill a)) -> (forall a, takes 1 (refill a)) ->
  forall n (c : dir_context E), 0 <= ctx_pos c <= 122 ->
  exists c', readdir actor dir_emit_dots refill n s inode c = (Ok tt, c') /\
    ctx_pos c <= ctx_pos c' <= 122 /\
    ctx_log c' = ctx_log c ++ take (Z.to_nat (ctx_pos c' - ctx_pos c)) (drop (Z.to_nat (ctx_pos c)) (dots ++ l)) /\
    Z.min (ctx_pos c + Z.of_nat n) (2 + Z.of_nat (length l)) <= Z.max (ctx_pos c) (ctx_pos c') /\
    ((forall a, takes 17 (refill a)) ->
       Z.min (2 + 15 * (block_of (ctx_pos c) + Z.of_nat n)) (2 + Z.of_nat (length l)) <= Z.max 2 (ctx_pos c')).
Proof using Hdots Hv Hdir Hd.
  intros Hroom Hone. induction n as [|n IH]; intros c Hpos; cbn [readdir].
  { exists c. split_and!; [done|lia|lia| |lia|].
    - rewrite Z.sub_diag. by rewrite app_nil_r.
    - intros _. unfold block_of. dlia. }
  set (c0 := DirContext _ _ _).
  destruct (iterate_call c0) as (c1 & -> & Hb1 & Hlog1 & H1 & H17); [done|destruct Hroom as [?|Ht]; [by left|right; apply Ht]|].
  cbn [c0 ctx_pos ctx_log ctx_actor] in *. destruct (IH c1 ltac:(lia)) as (c' & -> & Hb & Hlog & Hn & Hn17).
  exists c'. split; [done|]. specialize (H1 (Hone _)). split_and!; [lia..| | |].
  - rewrite Hlog, Hlog1, <- app_assoc. f_equal.
    replace (Z.to_nat (ctx_pos c1)) with (Z.to_nat (ctx_pos c) + Z.to_nat (ctx_pos c1 - ctx_pos c))%nat by lia.
    rewrite <- drop_drop, take_take_drop. f_equal. lia.
  - lia.
  - intros Ht. specialize (Hn17 Ht). specialize (H17 (Ht _)).
    destruct (Z.lt_ge_cases (ctx_pos c) (2 + Z.of_nat (length l))) as [Hlt|]; [|lia].
    destruct (H17 Hlt) as [H17a H17b]. destruct l as [|x l']; [cbn [length] in *; lia|].
    specialize (H17b ltac:(done)). unfold block_of in *. dlia.
Qed.
End Calls.
End Listing.

(** C4 Listing a directory: for a directory of up to 120 entries, from the start,
    with a new buffer for every call that takes at least one entry, and, when
    the directory has more than one block of 15 entries, at least 17: whatever
    the buffer refuses beyond that, [n] calls of lolelffs_iterate return without
    error and deliver ".", ".." and the entries in order and once each, as far as
    the position they leave, which is [n] or past the last entry; so as many
    calls as entries deliver all of them, and with room for 17 entries 8 calls.
    Further calls deliver nothing. *)
Theorem readdir_lists_directory {E} (actor : E -> dentry -> bool * E) refill dir_emit_dots dots s inode v b bs l n
    (c : dir_context E) :
  emits_dots actor dir_emit_dots dots ->
  fs_icache s !! inode = Some v -> S_ISDIR (i_mode v) = true -> dir_rep s (ei_block v) b bs l -> ctx_pos c = 0 ->
  (forall a, takes actor 1 (refill a)) -> (length l <= 15)%nat \/ (forall a, takes actor 17 (refill a)) ->
  exists c', readdir actor dir_emit_dots refill n s inode c = (Ok tt, c') /\
    ctx_log c' = ctx_log c ++ take (Z.to_nat (ctx_pos c')) (dots ++ l) /\
    Z.min (Z.of_nat n) (2 + Z.of_nat (length l)) <= ctx_pos c' /\
    ((length l + 2 <= n)%nat \/ ((8 <= n)%nat /\ forall a, takes actor 17 (refill a)) ->
       ctx_log c' = ctx_log c ++ dots ++ l).
Proof.
  intros Hdots Hv Hdir Hd Hpos Hone Hroom. pose proof Hdots as [Hlen _].
  destruct (readdir_from actor dir_emit_dots dots Hdots s inode v b bs l Hv Hdir Hd refill Hroom Hone n c ltac:(lia))
    as (c' & Hrun & Hb & Hlog & Hn & H17). rewrite Hpos in *. exists c'. rewrite Z.sub_0_r, drop_0 in Hlog.
  destruct (dir_bounds _ _ _ _ _ Hd) as (_ & _ & Hle & H8). unfold NFILES in Hle.
  split_and!; [done|done|lia|]. intros Hcase. rewrite Hlog, take_ge; [done|]. rewrite length_app, Hlen.
  destruct Hcase as [?|[? Ht]]; [lia|]. specialize (H17 Ht). change (block_of 0) with 0 in H17. lia.
Qed.

(** A consumer with room for [n] entries. *)
Definition counted (n : nat) (e : dentry) : bool * nat := match n with O => (false, O) | S n => (true, n) end.
Definition ex_dot_names : list dentry := [([46], 0); ([46; 46], 0)].
Definition ex_dots (c : dir_context nat) : bool * dir_context nat :=
  emit_all counted (drop (Z.to_nat (ctx_pos c)) ex_dot_names) c.

(** One entry per call. *)
Lemma readdir_lists_directory_witness : exists c',
  readdir counted ex_dots (fun _ => 1%nat) 3 ex_a_fs 0 (DirContext 0 0%nat []) = (Ok tt, c') /\
  ctx_log c' = [([46], 0); ([46; 46], 0); (ex_name, 1)].
Proof.
  destruct (readdir_lists_directory counted (fun _ => 1%nat) ex_dots ex_dot_names ex_a_fs 0 ex_a_root ex_a_dir
    (read_run ex_a_fs 6 8) ex_a_list 3 (DirContext 0 0%nat [])) as (c' & H1 & _ & _ & H2).
  - split; [reflexivity|]. intros c _. reflexivity.
  - vm_compute. reflexivity.
  - vm_compute. reflexivity.
  - exact ex_a_rep.
  - reflexivity.
  - intros a e. split; [reflexivity|exact I].
  - left. vm_compute. lia.
  - exists c'. split; [exact H1|]. apply H2. left. vm_compute. lia.
Defined.

(** ** lolelffs_ioctl *)

(** struct lolelffs_ioctl_enc_status *)
Record enc_status := EncStatus { st_enabled : Z; st_unlocked : Z; st_algorithm : Z }.

(** The command with what the process passes: for LOLELFFS_IOC_UNLOCK the
    struct lolelffs_ioctl_unlock at arg (256 bytes and a length), [None] when it
    cannot be copied from user space; for LOLELFFS_IOC_ENC_STATUS whether the
    answer can be copied there. *)
Inductive ioctl_cmd :=
  | LOLELFFS_IOC_UNLOCK (req : option (list Z * Z))
  | LOLELFFS_IOC_ENC_STATUS (writable : bool)
  | IOC_OTHER.

(** What the process has when the call returned 0. *)
Inductive ioctl_answer := NoAnswer | Status (st : enc_status).

Definition set_unlocked (key : list Z) (s : lolelffs_sb_info) : lolelffs_sb_info :=
  SbInfo (sbd s) (ifree_bitmap s) (bfree_bitmap s) (fs_offset s) key true.

(** req.password[sizeof(req.password) - 1] = 0 *)
Definition terminate (password : list Z) : list Z := <[255%nat := 0]> password.

(** The first section under enc_lock, after the test that encryption is on:
    whether the file system is unlocked already. *)
Definition unlock_test (csb : sb_disk) : M fs bool :=
  if enc_enabled csb =? 0 then fail EINVAL else gets (fun s => enc_unlocked (fs_sbi s)).

(** Without the lock: copy the request, derive the user key, decrypt the master
    key. *)
Definition unlock_key (cr : crypto) (csb : sb_disk) (req : option (list Z * Z)) : result (list Z) :=
  match req with
  | None => Err EFAULT
  | Some (password, password_len) =>
      let password := terminate password in
      if Z.of_nat (length password) <? password_len then Err MEMFAULT
      else
        match lolelffs_derive_key cr (u8 (enc_kdf_algo csb)) (take (Z.to_nat password_len) password)
                (enc_salt csb) (enc_kdf_iterations csb) with
        | Err e => Err e
        | Ok user_key => lolelffs_decrypt_master_key cr (enc_master_key csb) user_key
        end
  end.

(** The second section under enc_lock. *)
Definition unlock_store (master_key : list Z) : M fs unit := upd_sbi (set_unlocked (take 32 master_key)).

Definition ioctl_unlock (cr : crypto) (csb : sb_disk) (req : option (list Z * Z)) : M fs ioctl_answer :=
  unlocked ← unlock_test csb;
  if (unlocked : bool) then mret NoAnswer
  else
    match unlock_key cr csb req with
    | Err e => fail e
    | Ok master_key => unlock_store master_key;; mret NoAnswer
    end.

Definition lolelffs_ioctl (cr : crypto) (cmd : ioctl_cmd) : M fs ioctl_answer :=
  b ← LOLELFFS_SB_BREAD 0;
  let csb := sb_of_block b in
  match cmd with
  | LOLELFFS_IOC_UNLOCK req => ioctl_unlock cr csb req
  | LOLELFFS_IOC_ENC_STATUS writable =>
      sbi ← gets fs_sbi;
      if writable
      then mret (Status (EncStatus (enc_enabled csb) (if enc_unlocked sbi then 1 else 0) (enc_default_algo csb)))
      else fail EFAULT
  | IOC_OTHER => fail ENOTTY
  end.

(** ** Unlocking happens once *)

(** The key a request gives, if it gives one. *)
Definition key_of_request (cr : crypto) (csb : sb_disk) (password : list Z) (password_len : Z) (key : list Z) : Prop :=
  password_len <= Z.of_nat (length password) /\
  exists user_key master_key,
    lolelffs_derive_key cr (u8 (enc_kdf_algo csb)) (take (Z.to_nat password_len) (terminate password)) (enc_salt csb)
      (enc_kdf_iterations csb) = Ok user_key /\
    lolelffs_decrypt_master_key cr (enc_master_key csb) user_key = Ok master_key /\ key = take 32 master_key.

(** One command: it changes nothing, or it unlocks with the key of its request. *)
Lemma ioctl_effect cr cmd s r s' :
  lolelffs_ioctl cr cmd s = (r, s') ->
  s' = s \/
  (exists b password password_len key, blk_at s 0 = Some b /\ enc_enabled (sb_of_block b) <> 0 /\
     enc_unlocked (fs_sbi s) = false /\ cmd = LOLELFFS_IOC_UNLOCK (Some (password, password_len)) /\
     key_of_request cr (sb_of_block b) password password_len key /\ r = Ok NoAnswer /\
     s' = set_sbi (set_unlocked key (fs_sbi s)) s).
Proof.
  unfold lolelffs_ioctl. intros H. destruct (blk_at s 0) as [b|] eqn:Hb.
  2:{ rewrite (bind_err _ _ _ _ _ (bread_err _ _ Hb)) in H. injection H as _ <-. by left. }
  rewrite (bind_run _ _ _ _ _ (bread_run _ _ _ Hb)) in H. cbv zeta in H.
  destruct cmd as [req|writable|].
  2:{ rewrite bind_gets in H. destruct writable; injection H as _ <-; by left. }
  2:{ injection H as _ <-. by left. }
  unfold ioctl_unlock, unlock_test, unlock_key, unlock_store in H.
  destruct (Z.eqb_spec (enc_enabled (sb_of_block b)) 0) as [|Hen]; [injection H as _ <-; by left|].
  rewrite bind_gets in H. destruct (enc_unlocked (fs_sbi s)) eqn:El; [injection H as _ <-; by left|].
  destruct req as [[password len]|]; [|injection H as _ <-; by left].
  assert (length (terminate password) = length password) as Hlen by apply length_insert. rewrite Hlen in H.
  destruct (Z.ltb_spec (Z.of_nat (length password)) len) as [|Hle]; [injection H as _ <-; by left|].
  destruct (lolelffs_derive_key _ _ _ _ _) as [uk|] eqn:Ed; [|injection H as _ <-; by left].
  destruct (lolelffs_decrypt_master_key _ _ _) as [mk|] eqn:Em; [|injection H as _ <-; by left].
  unfold upd_sbi in H. rewrite bind_modify in H. injection H as <- <-. right.
  exists b, password, len, (take 32 mk). do 4 (split; [done|]).
  split; [split; [done|by exists uk, mk]|done].
Qed.

(** Any sequence of commands, from any processes. *)
Inductive ioctl_run (cr : crypto) : fs -> list (ioctl_cmd * result ioctl_answer) -> fs -> Prop :=
  | ioctl_nil s : ioctl_run cr s [] s
  | ioctl_cons s cmd r s1 tr s' :
      lolelffs_ioctl cr cmd s = (r, s1) -> ioctl_run cr s1 tr s' -> ioctl_run cr s ((cmd, r) :: tr) s'.

(** C13 Unlocking: whatever commands processes issue, in any order, the file
    system either is exactly as before, or it was locked and encrypted and is
    now unlocked with the key that one successful unlock request of the
    sequence gives (derived from its password, the salt and the encrypted
    master key of the superblock on disk), and nothing else of it changed: no
    failed command has an effect, and no later command replaces the key. *)
Theorem ioctl_unlocks_at_most_once cr s tr s' :
  ioctl_run cr s tr s' ->
  s' = s \/
  (exists b password password_len key, blk_at s 0 = Some b /\ enc_enabled (sb_of_block b) <> 0 /\
     enc_unlocked (fs_sbi s) = false /\
     (LOLELFFS_IOC_UNLOCK (Some (password, password_len)), Ok NoAnswer) ∈ tr /\
     key_of_request cr (sb_of_block b) password password_len key /\
     s' = set_sbi (set_unlocked key (fs_sbi s)) s).
Proof.
  induction 1 as [s|s cmd r s1 tr s' Hc Hrun IH]; [by left|].
  destruct (ioctl_effect cr cmd s r s1 Hc) as [->|(b & pw & n & key & Hb & Hen & El & -> & Hkey & -> & ->)].
  - destruct IH as [->|(b & pw & n & key & Hb & Hen & El & Hin & Hkey & ->)]; [by left|right].
    exists b, pw, n, key. split_and!; try done. by constructor 2.
  - destruct IH as [->|(b2 & pw2 & n2 & key2 & _ & _ & El2 & _)]; [|done].
    right. exists b, pw, n, key. split_and!; try done. constructor.
Qed.

(** Two requests one after the other leave the key of the first.  The lock is
    released between the test and the store, so when both pass the test before
    either stores, the key of the second replaces it, and both return 0. *)
Theorem unlock_race_replaces_key cr csb r1 r2 k1 k2 s :
  enc_enabled csb <> 0 -> enc_unlocked (fs_sbi s) = false ->
  unlock_key cr csb r1 = Ok k1 -> unlock_key cr csb r2 = Ok k2 ->
  (ioctl_unlock cr csb r1;; ioctl_unlock cr csb r2) s =
    (Ok NoAnswer, set_sbi (set_unlocked (take 32 k1) (fs_sbi s)) s) /\
  (t1 ← unlock_test csb; t2 ← unlock_test csb; unlock_store k1;; unlock_store k2;; mret (t1, t2)) s =
    (Ok (false, false), set_sbi (set_unlocked (take 32 k2) (fs_sbi s)) s).
Proof.
  intros Hen El H1 H2. assert (unlock_test csb s = (Ok false, s)) as Ht.
  { unfold unlock_test, gets. by rewrite (proj2 (Z.eqb_neq _ _) Hen), El. }
  split.
  - assert (ioctl_unlock cr csb r1 s = (Ok NoAnswer, set_sbi (set_unlocked (take 32 k1) (fs_sbi s)) s)) as E1.
    { unfold ioctl_unlock. by rewrite (bind_run _ _ _ _ _ Ht), H1. }
    rewrite (bind_run _ _ _ _ _ E1). unfold ioctl_unlock, unlock_test. by rewrite (proj2 (Z.eqb_neq _ _) Hen).
  - rewrite (bind_run _ _ _ _ _ Ht). by rewrite (bind_run _ _ _ _ _ Ht).
Qed.

(** The decrypted key is not checked against anything: where the block cipher
    decrypts, every password that a key can be derived from unlocks. *)
Theorem any_password_unlocks cr csb password password_len user_key s :
  enc_enabled csb <> 0 -> enc_unlocked (fs_sbi s) = false -> password_len <= Z.of_nat (length password) ->
  lolelffs_derive_key cr (u8 (enc_kdf_algo csb)) (take (Z.to_nat password_len) (terminate password)) (enc_salt csb)
    (enc_kdf_iterations csb) = Ok user_key ->
  ecb_alloc cr = None -> ecb_setkey cr user_key = None -> request_alloc cr = true ->
  (forall key src, exists dst, ecb_decrypt cr key src = Ok dst) ->
  exists key, ioctl_unlock cr csb (Some (password, password_len)) s =
    (Ok NoAnswer, set_sbi (set_unlocked key (fs_sbi s)) s).
Proof.
  intros Hen El Hlen Hd Ha Hk Hr He. destruct (He user_key (enc_master_key csb)) as [dst Hdst].
  exists (take 32 dst). unfold ioctl_unlock, unlock_test. rewrite (proj2 (Z.eqb_neq _ _) Hen), bind_gets, El.
  unfold unlock_key. assert (length (terminate password) = length password) as -> by apply length_insert.
  rewrite (proj2 (Z.ltb_ge _ _) Hlen), Hd. unfold lolelffs_decrypt_master_key. by rewrite Ha, Hk, Hr, Hdst.
Qed.

(** An encrypted image with the toy ciphers, and a request for the password "p". *)
Definition ex_enc_sb : sb_disk :=
  SbDisk LOLELFFS_MAGIC 16 56 1 1 1 55 11 1 1 1 128 1 2048 524288 1 1 LOLELFFS_KDF_PBKDF2 3 65536 4
    (zeros 32) (zeros 32) 0 (zeros 12).
Definition ex_enc_fs : fs :=
  set_disk (<[0 := bytes_of_sb ex_enc_sb ++ zeros (BLK - 164)]> (fs_disk ex_fs)) ex_fs.
Definition ex_request : ioctl_cmd := LOLELFFS_IOC_UNLOCK (Some (112 :: zeros 255, 1)).
Definition ex_unlocked_fs : fs := snd (lolelffs_ioctl ex_crypto ex_request ex_enc_fs).

Lemma ioctl_unlocks_at_most_once_witness :
  exists key, ex_unlocked_fs = set_sbi (set_unlocked key (fs_sbi ex_enc_fs)) ex_enc_fs.
Proof.
  assert (ioctl_run ex_crypto ex_enc_fs [(ex_request, Ok NoAnswer)] ex_unlocked_fs) as Hrun.
  { apply (ioctl_cons _ _ _ _ ex_unlocked_fs); [vm_compute; reflexivity|constructor]. }
  destruct (ioctl_unlocks_at_most_once _ _ _ _ Hrun) as [E|(b & pw & n & key & _ & _ & _ & _ & _ & E)].
  - exfalso. assert (enc_unlocked (fs_sbi ex_unlocked_fs) = true) as H1 by (vm_compute; reflexivity).
    rewrite E in H1. vm_compute in H1. discriminate H1.
  - exists key. exact E.
Defined.
