(* ===== verification/Runs.v ===== *)
(** * Runs in which the handlers of inode.c and dir.c go wrong

    One theorem for every directory of 120 entries, and closed runs of the
    handlers, evaluated. *)
From S2P Require Import Prelude Layout Bitmap Extent State Elf Super Codec File Xattr XattrSpec Inode InodeSpec Namespace Unlink Dir.

(** ** Deleting a symbolic link *)

Definition run_symlink : fs := snd (lolelffs_symlink 0 [108] [116] ex_fs64).
Definition run_symlink_gone : fs := snd (lolelffs_unlink 0 1 run_symlink).

(** lolelffs_unlink of a symbolic link goes to clean_inode with bno = 0 and
    gives back block 0, the superblock; the lowest free block is then block 0,
    which get_free_blocks returns as a failure, so no file can be created any
    more although blocks are free. *)
Theorem unlink_symlink_frees_superblock :
  fst (lolelffs_symlink 0 [108] [116] ex_fs64) = Ok 1 /\ fst (lolelffs_unlink 0 1 run_symlink) = Ok tt /\
  0 ∈ free_blocks (fs_sbi run_symlink_gone) /\
  fst (get_free_blocks (fs_sbi run_symlink_gone) 1) = 0 /\
  fst (lolelffs_create 0 [99] 0x81A4 run_symlink_gone) = Err ENOSPC /\ 50 < nr_free_blocks (sbd (fs_sbi run_symlink_gone)).
Proof.
  split; [vm_compute; reflexivity|]. split; [vm_compute; reflexivity|].
  split; [apply (bool_decide_unpack _); vm_compute; exact I|]. split; [vm_compute; reflexivity|].
  split; vm_compute; reflexivity.
Qed.

(** ** The 121st entry *)

(** The extent of a directory has 8 blocks, 120 slots, but the slot of an entry
    is computed for extents of 2048 blocks: in every directory of 120 entries a
    further link succeeds, writes its entry to the block after the extent,
    whatever that block holds, and leaves the 8 blocks of the directory as they
    were, so that no lookup finds the entry. *)
Theorem entry_121_outside_extent s dir d b bs l inode v name db :
  fs_icache s !! dir = Some d -> fs_icache s !! inode = Some v -> dir_rep s (ei_block d) b bs l -> length l = 120%nat ->
  let next := ee_start (dext b) + 8 in
  next < 2 ^ 32 -> next <> ei_block d -> blk_at s next = Some db ->
  exists s', lolelffs_link inode dir name s = (Ok tt, s') /\
    blk_at s' next = Some (put_file 0 (i_ino v) name db) /\
    (forall j, j ∈ range (ee_start (dext b)) 8 -> blk_at s' j = blk_at s j) /\
    run_blocks s' (ee_start (dext b)) bs.
Proof.
  intros Hd Hv Hrep Hl next H32 Hnd Hdb. pose proof Hrep as [_ Hr Hb Hcnt _ Hrun Hbl _ (rest & Hf & _) _ Ha].
  assert (ee_start (dext b) <> 0) as Hnz.
  { intros E. rewrite E in Hrun. cbn in Hrun. subst bs. apply (f_equal length) in Hf.
    rewrite length_app, length_map, Hl in Hf. cbn in Hf. lia. }
  destruct (dir_bounds _ _ _ _ _ Hrep) as (H0 & _ & _ & _).
  rewrite (proj2 (Z.eqb_neq _ _) Hnz) in Hrun. destruct Hrun as [_ Hl8]. rewrite Hl8 in Ha.
  rewrite Hl in Hcnt. set (c := put_file 0 (i_ino v) name db). set (s1 := snd (bwrite next c s)).
  assert (blk_at s1 (ei_block d) = Some b) as Hr1 by (unfold s1; by rewrite blk_at_bwrite, decide_False).
  set (s2 := snd (bwrite (ei_block d) (put_nr_files (Z.of_nat 120 +₃₂ 1) b) s1)).
  assert (dir_extent (ei_block d) 0 s = (Ok false, s)) as Hext.
  { unfold dir_extent. rewrite (bind_run _ _ _ _ _ (bread_run _ _ _ Hr)). cbv zeta. by rewrite (proj2 (Z.eqb_neq _ _) Hnz). }
  assert (dir_add (ei_block d) (Some (i_ino v)) name s = (Ok tt, s2)) as Hadd.
  { unfold dir_add. rewrite (bind_run _ _ _ _ _ (bread_run _ _ _ Hr)), Hcnt. cbv zeta.
    change (slot_ei (Z.of_nat 120)) with 0. change (slot_bi (Z.of_nat 120)) with 8. change (slot_fi (Z.of_nat 120)) with 0%nat.
    change (LOLELFFS_MAX_EXTENTS <=? 0) with false. cbn iota. change (Z.to_nat 0) with 0%nat.
    rewrite (bind_run _ _ _ _ _ Hext), (bind_run _ _ _ _ _ (bread_run _ _ _ Hr)). fold next. rewrite u32_small by (unfold next; lia).
    rewrite (bind_run _ _ _ _ _ (attempt_run _ _ _ _ (bread_run _ _ _ Hdb))).
    unfold bwrite at 1. rewrite bind_modify. change (set_disk _ s) with s1.
    unfold bupdate. rewrite (bind_run _ _ _ _ _ (bread_run _ _ _ Hr1)), Hcnt. reflexivity. }
  assert (forall j, j ∈ range (ee_start (dext b)) 8 -> blk_at s2 j = blk_at s j) as Hkeep.
  { intros j Hj. unfold s2, s1. rewrite !blk_at_bwrite, !decide_False; [done|intros E; subst j..].
    - apply elem_of_range in Hj. unfold next in Hj. lia.
    - exact (Ha Hj). }
  exists (snd (inode_upd inode inc_nlink s2)). split_and!.
  - unfold lolelffs_link, inode_at. rewrite !bind_gets, Hd, Hv. cbn [default from_option id].
    rewrite (bind_run _ _ _ _ _ (bread_run _ _ _ Hr)), Hcnt. change (_ =? _) with false at 1. cbn iota.
    by rewrite (bind_run _ _ _ _ _ Hadd).
  - change (blk_at s2 next = Some c). unfold s2, s1. by rewrite !blk_at_bwrite, decide_False, decide_True.
  - exact Hkeep.
  - intros k blk Hk. destruct (Hbl k blk Hk) as [Hread Hlen]. split; [|done].
    change (blk_at s2 (ee_start (dext b) + Z.of_nat k) = Some blk). rewrite Hkeep; [done|].
    apply elem_of_range. apply lookup_lt_Some in Hk. lia.
Qed.

(** ** Rename into another directory *)

Definition run_mkdir : fs := snd (lolelffs_mkdir 0 [100] 0x1FF ex_a_new).
Definition run_renamed : fs := snd (lolelffs_rename 0 [97] 1 2 [98] 0 run_mkdir).
Definition run_created : fs := snd (lolelffs_create 2 [99] 0x81A4 run_renamed).

(** lolelffs_rename stores the entry in the new directory without counting it,
    so the next file created there overwrites it: the renamed file is in no
    directory any more. *)
Theorem rename_then_create_loses_file :
  fst (lolelffs_rename 0 [97] 1 2 [98] 0 run_mkdir) = Ok tt /\ fst (lolelffs_lookup 2 [98] run_renamed) = Ok (Some 1) /\
  fst (lolelffs_create 2 [99] 0x81A4 run_renamed) = Ok 3 /\
  fst (lolelffs_lookup 2 [98] run_created) = Ok None /\ fst (lolelffs_lookup 0 [97] run_created) = Ok None.
Proof. split_and!; vm_compute; reflexivity. Qed.

(** ** Removing a directory *)

Definition run_subfile : fs := snd (lolelffs_create 2 [120] 0x81A4 run_mkdir).
Definition run_emptied : fs := snd (lolelffs_unlink 2 3 run_subfile).

(** The extents of a directory are not given back: after mkdir, a file in it,
    its deletion and rmdir, 8 blocks are lost. *)
Theorem rmdir_leaks_extent :
  fst (lolelffs_unlink 2 3 run_subfile) = Ok tt /\ fst (lolelffs_rmdir 0 2 run_emptied) = Ok tt /\
  nr_free_blocks (sbd (fs_sbi ex_a_new)) = 50 /\
  nr_free_blocks (sbd (fs_sbi (snd (lolelffs_rmdir 0 2 run_emptied)))) = 42.
Proof. split_and!; vm_compute; reflexivity. Qed.

(** ** New directory blocks *)

Definition run_stale : fs := snd (bwrite 6 (replicate BLK 1) ex_fs64).

(** The blocks of a new directory extent are not cleared: with old data in the
    block that becomes the first one, the directory has entries nobody made. *)
Theorem create_keeps_stale_entries :
  fst (lolelffs_lookup 0 (replicate 255 1) run_stale) = Ok None /\
  fst (lolelffs_lookup 0 (replicate 255 1) (snd (lolelffs_create 0 [97] 0x81A4 run_stale))) = Err EINVAL.
Proof. split_and!; vm_compute; reflexivity. Qed.

(** ** Listing with a small buffer *)

(** The root directory with 20 entries, as 20 calls of lolelffs_link leave it. *)
Definition run_entry (c : Z) : list Z := le_enc 4 1 ++ strncpy [98; c] 255 ++ [0].
Definition run_names (n : nat) (first : Z) : block :=
  concat (map run_entry (seqZ first (Z.of_nat n))) ++ zeros (BLK - 260 * n).
Definition run_twenty : fs :=
  snd (bwrite 7 (run_names 5 16) (snd (bwrite 6 (run_names 15 1)
    (snd (bwrite 4 (put_nr_files 20 (put_ext 0 (set_run 0 8 6 zero_extent) (zeros BLK))) ex_a_new))))).

(** When the buffer is full the loops go on with the other blocks and, past the
    entries of a later block, still advance the position: of 20 entries read
    seven at a time (".", ".." and five in the first call), the 10 after the
    first five are never delivered. *)
Theorem iterate_skips_entries :
  ctx_log (snd (readdir counted ex_dots (fun _ => 7%nat) 4 run_twenty 0 (DirContext 0 0%nat []))) =
    ex_dot_names ++
    map (fun c => ([98; c], 1)) [1; 2; 3; 4; 5; 16; 17; 18; 19; 20] /\
  fst (lolelffs_lookup 0 [98; 10] run_twenty) = Ok (Some 1).
Proof. split; vm_compute; reflexivity. Qed.
