(* ===== verification/Tools.v ===== *)
(** * The programs outside the kernel

    unlock_lolelffs, which asks the module to unlock a file system, against the
    model of lolelffs_ioctl, and the superblock reader of the examples. *)
From stdpp Require Import strings.
From S2P Require Import Prelude Layout Bitmap Extent State Elf Super Mkfs Codec File Xattr XattrSpec Inode InodeSpec Namespace Unlink Dir.

(** ** unlock_lolelffs (src/src/unlock_lolelffs.c) *)

(** check_status: -1, or status.enc_unlocked. *)
Definition check_status (cr : crypto) : M fs Z :=
  r ← attempt (lolelffs_ioctl cr (LOLELFFS_IOC_ENC_STATUS true));
  mret match r with
       | Ok (Status st) => st_unlocked st
       | Ok NoAnswer => 0
       | Err _ => -1
       end.

(** memset(&req, 0, sizeof(req)); strncpy(req.password, argv[2], 255);
    req.password_len = strnlen(req.password, 256) *)
Definition unlock_request (password : list Z) : list Z * Z :=
  let buf := strncpy password 255 ++ [0] in
  (buf, Z.of_nat (length (cstr buf))).

(** main, with the arguments after the name of the program; [opened] is whether
    open(argv[1]) succeeded.  The result is the exit code. *)
Definition unlock_main (cr : crypto) (args : list (list Z)) (opened : bool) : M fs Z :=
  match args with
  | [_; password] =>
      if negb opened then mret 1
      else
        ret ← check_status cr;
        if ret <? 0 then mret 1
        else if ret =? 1 then mret 0
        else
          r ← attempt (lolelffs_ioctl cr (LOLELFFS_IOC_UNLOCK (Some (unlock_request password))));
          match r with
          | Err _ => mret 1
          | Ok _ => check_status cr;; mret 0
          end
  | _ => mret 1
  end.

(** What the request carries: the password, cut at 255 bytes. *)
Lemma unlock_request_password password :
  (0 ∉ password) ->
  let '(buf, n) := unlock_request password in
  length buf = 256%nat /\ n <= 256 /\ take (Z.to_nat n) (terminate buf) = take 255 password.
Proof.
  intros Hp. unfold unlock_request, strncpy. set (p := take 255 password).
  assert (0 ∉ p) as Hp' by (intros Hin; apply Hp; exact (subseteq_take 255 password _ Hin)).
  assert (length p = Nat.min 255 (length password)) as Hlp by apply length_take.
  assert ((p ++ zeros (255 - length password)) ++ [0] = p ++ zeros (256 - length p)) as ->.
  { rewrite <- app_assoc. f_equal. unfold zeros. change [0] with (replicate 1 0). rewrite <- replicate_add. f_equal. lia. }
  rewrite cstr_zeros, cstr_no_nul by done. rewrite Nat2Z.id.
  assert (length (p ++ zeros (256 - length p)) = 256%nat) as Hl by (rewrite length_app; unfold zeros; rewrite length_replicate; lia).
  split; [done|]. split; [lia|]. unfold terminate. rewrite list_insert_id.
  - by rewrite take_app_length.
  - rewrite lookup_app_r by lia. unfold zeros. apply lookup_replicate_2. lia.
Qed.

(** The key of a password, from the superblock. *)
Definition password_key (cr : crypto) (csb : sb_disk) (password : list Z) : result (list Z) :=
  match lolelffs_derive_key cr (u8 (enc_kdf_algo csb)) (take 255 password) (enc_salt csb) (enc_kdf_iterations csb) with
  | Err e => Err e
  | Ok user_key =>
      match lolelffs_decrypt_master_key cr (enc_master_key csb) user_key with
      | Err e => Err e
      | Ok master_key => Ok (take 32 master_key)
      end
  end.

Lemma check_status_run cr s b :
  blk_at s 0 = Some b -> check_status cr s = (Ok (if enc_unlocked (fs_sbi s) then 1 else 0), s).
Proof.
  intros Hb. unfold check_status. assert (lolelffs_ioctl cr (LOLELFFS_IOC_ENC_STATUS true) s =
    (Ok (Status (EncStatus (enc_enabled (sb_of_block b)) (if enc_unlocked (fs_sbi s) then 1 else 0)
      (enc_default_algo (sb_of_block b)))), s)) as Hio.
  { unfold lolelffs_ioctl. by rewrite (bind_run _ _ _ _ _ (bread_run _ _ _ Hb)). }
  by rewrite (bind_run _ _ _ _ _ (attempt_run _ _ _ _ Hio)).
Qed.

(** The request of the tool, handled by the module. *)
Lemma unlock_ioctl_run cr s b password :
  blk_at s 0 = Some b -> (0 ∉ password) -> enc_unlocked (fs_sbi s) = false ->
  lolelffs_ioctl cr (LOLELFFS_IOC_UNLOCK (Some (unlock_request password))) s =
    if enc_enabled (sb_of_block b) =? 0 then (Err EINVAL, s)
    else match password_key cr (sb_of_block b) password with
         | Ok key => (Ok NoAnswer, set_sbi (set_unlocked key (fs_sbi s)) s)
         | Err e => (Err e, s)
         end.
Proof.
  intros Hb Hp El. unfold lolelffs_ioctl. rewrite (bind_run _ _ _ _ _ (bread_run _ _ _ Hb)). cbv zeta. unfold ioctl_unlock, unlock_test.
  destruct (_ =? 0); [done|]. rewrite bind_gets, El. unfold unlock_key.
  pose proof (unlock_request_password password Hp) as Hreq. destruct (unlock_request password) as [buf n].
  destruct Hreq as (Hl & Hn & Htake). assert (length (terminate buf) = 256%nat) as -> by (unfold terminate; by rewrite length_insert).
  rewrite (proj2 (Z.ltb_ge _ _)) by lia. rewrite Htake. unfold password_key.
  destruct (lolelffs_derive_key _ _ _ _ _); [|done]. by destruct (lolelffs_decrypt_master_key _ _ _).
Qed.

(** C25 The unlock tool and the module together: run with a mount point it can
    open and a password, unlock_lolelffs exits with 0 and leaves the file system
    alone when it is unlocked already; otherwise it exits with 0 exactly when
    the file system is encrypted and the password (its first 255 bytes) gives a
    key, which is then the key in memory, and exits with 1 with the file system
    exactly as before in every other case; with the wrong number of arguments
    or no mount point it exits with 1. *)
Theorem unlock_tool_correct cr s b mount password :
  blk_at s 0 = Some b -> (0 ∉ password) ->
  unlock_main cr [mount; password] true s =
    (if enc_unlocked (fs_sbi s) then (Ok 0, s)
     else if enc_enabled (sb_of_block b) =? 0 then (Ok 1, s)
     else match password_key cr (sb_of_block b) password with
          | Ok key => (Ok 0, set_sbi (set_unlocked key (fs_sbi s)) s)
          | Err _ => (Ok 1, s)
          end) /\
  unlock_main cr [mount; password] false s = (Ok 1, s) /\
  forall args, length args <> 2%nat -> unlock_main cr args true s = (Ok 1, s).
Proof.
  intros Hb Hp. split; [|split; [done|]].
  - unfold unlock_main. cbn [negb]. rewrite (bind_run _ _ _ _ _ (check_status_run cr s b Hb)).
    destruct (enc_unlocked (fs_sbi s)) eqn:El; cbn [Z.ltb Z.eqb Z.compare]; [done|].
    pose proof (unlock_ioctl_run cr s b password Hb Hp El) as Hio. destruct (_ =? 0).
    { by rewrite (bind_run _ _ _ _ _ (attempt_run _ _ _ _ Hio)). }
    destruct (password_key cr (sb_of_block b) password) as [key|e].
    + rewrite (bind_run _ _ _ _ _ (attempt_run _ _ _ _ Hio)).
      by rewrite (bind_run _ _ _ _ _ (check_status_run cr (set_sbi (set_unlocked key (fs_sbi s)) s) b Hb)).
    + by rewrite (bind_run _ _ _ _ _ (attempt_run _ _ _ _ Hio)).
  - intros [|a1 [|a2 [|a3 args]]] Hl; done.
Qed.

Lemma unlock_tool_correct_witness :
  fst (unlock_main ex_crypto [[47]; [112]] true ex_enc_fs) = Ok 0 /\
  enc_unlocked (fs_sbi (snd (unlock_main ex_crypto [[47]; [112]] true ex_enc_fs))) = true.
Proof.
  assert (blk_at ex_enc_fs 0 = Some (bytes_of_sb ex_enc_sb ++ zeros (BLK - 164))) as Hb by (vm_compute; reflexivity).
  assert (0 ∉ [112]) as Hp by (apply (bool_decide_unpack _); vm_compute; exact I).
  destruct (unlock_tool_correct ex_crypto ex_enc_fs _ [47] [112] Hb Hp) as [E _]. rewrite E.
  vm_compute. split; reflexivity.
Defined.

(** ** read-superblock (src/examples/03-programmatic/c-examples) *)

(** Its own declaration of struct lolelffs_sb_info, packed, 160 bytes: it has no
    max_extent_blocks_large. *)
Record reader_sb := ReaderSb {
  r_magic : Z; r_nr_blocks : Z; r_nr_inodes : Z;
  r_nr_istore_blocks : Z; r_nr_ifree_blocks : Z; r_nr_bfree_blocks : Z;
  r_nr_free_inodes : Z; r_nr_free_blocks : Z;
  r_version : Z; r_comp_default_algo : Z; r_comp_enabled : Z; r_comp_min_block_size : Z;
  r_comp_features : Z; r_max_extent_blocks : Z;
  r_enc_enabled : Z; r_enc_default_algo : Z; r_enc_kdf_algo : Z; r_enc_kdf_iterations : Z;
  r_enc_kdf_memory : Z; r_enc_kdf_parallelism : Z; r_enc_salt : list Z; r_enc_master_key : list Z; r_enc_features : Z
}.

Definition reader_size : nat := 160.

Definition reader_parse (b : list Z) : reader_sb :=
  ReaderSb (rd32 b 0) (rd32 b 4) (rd32 b 8) (rd32 b 12) (rd32 b 16) (rd32 b 20) (rd32 b 24) (rd32 b 28)
    (rd32 b 32) (rd32 b 36) (rd32 b 40) (rd32 b 44) (rd32 b 48) (rd32 b 52)
    (rd32 b 56) (rd32 b 60) (rd32 b 64) (rd32 b 68) (rd32 b 72) (rd32 b 76) (slice 80 32 b) (slice 112 32 b) (rd32 b 144).

Definition comp_algo_name (algo : Z) : string :=
  if algo =? 0 then "none" else if algo =? 1 then "lz4" else if algo =? 2 then "zlib" else if algo =? 3 then "zstd"
  else "unknown".

Definition enc_algo_name (algo : Z) : string :=
  if algo =? 0 then "none" else if algo =? 1 then "aes256-xts" else if algo =? 2 then "chacha20-poly1305" else "unknown".

Definition kdf_algo_name (algo : Z) : string :=
  if algo =? 0 then "none" else if algo =? 1 then "argon2id" else if algo =? 2 then "pbkdf2" else "unknown".

(** The numbers main prints, in its order (the percentages and the megabytes
    with decimals, which are floating point, are left out). *)
Record sb_report := SbReport {
  rp_version_ok : bool;
  rp_total_mb : Z;
  rp_metadata_blocks : Z; rp_data_blocks : Z;
  rp_used_inodes : Z; rp_free_inodes : Z;
  rp_used_blocks : Z; rp_free_blocks : Z;
  rp_total_size : Z; rp_used_size : Z; rp_free_size : Z;
  rp_compression : option (string * Z * Z * Z);
  rp_encryption : option (string * string * Z * Z * Z * list Z * list Z * Z);
  rp_ranges : list (Z * Z)
}.

Definition reader_report (sb : reader_sb) : sb_report :=
  let metadata_blocks := 1 +₃₂ r_nr_istore_blocks sb +₃₂ r_nr_ifree_blocks sb +₃₂ r_nr_bfree_blocks sb in
  let used_blocks := r_nr_blocks sb -₃₂ r_nr_free_blocks sb in
  SbReport (r_version sb =? LOLELFFS_VERSION)
    (r_nr_blocks sb *₃₂ 4096 / 1024 / 1024)
    metadata_blocks (r_nr_blocks sb -₃₂ metadata_blocks)
    (r_nr_inodes sb -₃₂ r_nr_free_inodes sb) (r_nr_free_inodes sb)
    used_blocks (r_nr_free_blocks sb)
    (u64 (r_nr_blocks sb * 4096)) (u64 (used_blocks * 4096)) (u64 (r_nr_free_blocks sb * 4096))
    (if r_comp_enabled sb =? 0 then None
     else Some (comp_algo_name (r_comp_default_algo sb), r_comp_min_block_size sb, r_max_extent_blocks sb, r_comp_features sb))
    (if r_enc_enabled sb =? 0 then None
     else Some (enc_algo_name (r_enc_default_algo sb), kdf_algo_name (r_enc_kdf_algo sb), r_enc_kdf_iterations sb,
       r_enc_kdf_memory sb, r_enc_kdf_parallelism sb, r_enc_salt sb, r_enc_master_key sb, r_enc_features sb))
    [(1, r_nr_istore_blocks sb);
     (r_nr_istore_blocks sb +₃₂ 1, r_nr_istore_blocks sb +₃₂ r_nr_ifree_blocks sb);
     (r_nr_istore_blocks sb +₃₂ r_nr_ifree_blocks sb +₃₂ 1,
      r_nr_istore_blocks sb +₃₂ r_nr_ifree_blocks sb +₃₂ r_nr_bfree_blocks sb);
     (metadata_blocks, r_nr_blocks sb -₃₂ 1)].

(** main: the number of arguments, whether open and fstat succeed, and what read
    delivers; the exit code and the report. *)
Definition reader_main (argc : Z) (opened stated : bool) (bytes : list Z) : Z * option sb_report :=
  if negb (argc =? 2) then (1, None)
  else if negb opened then (1, None)
  else if negb stated then (1, None)
  else if (length (take reader_size bytes) <? reader_size)%nat then (1, None)
  else
    let sb := reader_parse bytes in
    if r_magic sb =? LOLELFFS_MAGIC then (0, Some (reader_report sb)) else (1, None).

(** The report on any superblock with the magic whose counts are consistent. *)
Lemma reader_values b :
  (reader_size <= length b)%nat -> let d := sb_of_block b in
  magic d = LOLELFFS_MAGIC -> Forall (fun v => is_u32 v) (sb_counts d) ->
  let meta := 1 + nr_istore_blocks d + nr_ifree_blocks d + nr_bfree_blocks d in
  meta <= nr_blocks d -> nr_free_blocks d <= nr_blocks d -> nr_free_inodes d <= nr_inodes d ->
  exists mb enc, reader_main 2 true true b = (0, Some (SbReport (version d =? LOLELFFS_VERSION) mb
    meta (nr_blocks d - meta) (nr_inodes d - nr_free_inodes d) (nr_free_inodes d)
    (nr_blocks d - nr_free_blocks d) (nr_free_blocks d)
    (4096 * nr_blocks d) (4096 * (nr_blocks d - nr_free_blocks d)) (4096 * nr_free_blocks d)
    (if comp_enabled d =? 0 then None
     else Some (comp_algo_name (comp_default_algo d), comp_min_block_size d, max_extent_blocks d, comp_features d))
    enc
    [(1, nr_istore_blocks d); (nr_istore_blocks d + 1, nr_istore_blocks d + nr_ifree_blocks d);
     (nr_istore_blocks d + nr_ifree_blocks d + 1, nr_istore_blocks d + nr_ifree_blocks d + nr_bfree_blocks d);
     (meta, nr_blocks d - 1)])).
Proof.
  intros Hl d Hm Hf meta Hfit Hfb Hfi. unfold sb_counts in Hf. rewrite !Forall_cons in Hf.
  destruct Hf as (?&?&?&?&?&?&?&_). unfold reader_main. cbn [negb Z.eqb Pos.eqb]. rewrite length_take.
  destruct (Nat.ltb_spec (Nat.min reader_size (length b)) reader_size); [lia|].
  change (r_magic (reader_parse b)) with (magic d). rewrite Hm, Z.eqb_refl. unfold reader_report.
  change (r_nr_blocks (reader_parse b)) with (nr_blocks d). change (r_nr_inodes (reader_parse b)) with (nr_inodes d).
  change (r_nr_istore_blocks (reader_parse b)) with (nr_istore_blocks d).
  change (r_nr_ifree_blocks (reader_parse b)) with (nr_ifree_blocks d).
  change (r_nr_bfree_blocks (reader_parse b)) with (nr_bfree_blocks d).
  change (r_nr_free_inodes (reader_parse b)) with (nr_free_inodes d).
  change (r_nr_free_blocks (reader_parse b)) with (nr_free_blocks d).
  exists (nr_blocks d *₃₂ 4096 / 1024 / 1024). eexists. do 2 f_equal.
  set (mb := nr_blocks d *₃₂ 4096). clearbody mb. unfold meta, u64 in *.
  rewrite (u32_small (1 + nr_istore_blocks d)) by lia.
  rewrite (u32_small (1 + nr_istore_blocks d + nr_ifree_blocks d)) by lia.
  rewrite (u32_small (1 + nr_istore_blocks d + nr_ifree_blocks d + nr_bfree_blocks d)) by lia.
  rewrite (u32_small (nr_istore_blocks d + nr_ifree_blocks d)) by lia.
  rewrite !(u32_small (nr_blocks d - _)), !(u32_small (nr_inodes d - _)) by lia.
  rewrite !(Z.mul_comm _ 4096), !Z.mod_small, !u32_small by lia. reflexivity.
Qed.

(** What sync_fs keeps of a superblock: everything behind the counters. *)
Lemma sync_superblock_settings d b :
  length b = BLK -> Forall (fun v => is_u32 v) (sb_counts d) ->
  let d1 := sb_of_block (sync_superblock d b) in let d0 := sb_of_block b in
  version d1 = version d0 /\ comp_enabled d1 = comp_enabled d0 /\ comp_default_algo d1 = comp_default_algo d0 /\
  comp_min_block_size d1 = comp_min_block_size d0 /\ max_extent_blocks d1 = max_extent_blocks d0 /\
  comp_features d1 = comp_features d0.
Proof.
  intros Hl Hf. destruct (sync_superblock_spec d b Hl Hf) as (_ & _ & Hs).
  cbn [sb_of_block version comp_enabled comp_default_algo comp_min_block_size max_extent_blocks comp_features].
  unfold rd32. by rewrite !Hs by lia.
Qed.

(** C40 What the superblock reader prints of an image is what the file system on
    it has: after sync_fs of a mounted file system that is not embedded and whose
    counters match its maps, the reader, run on the image, exits with 0 and
    prints as free blocks and inodes the number of free ones in the maps, as used
    ones the others, the three byte sizes that belong to them, the numbers of
    metadata and data blocks, the version and the compression settings of the
    superblock, and the boundaries of the parts, where the two maps are: the
    blocks of the second and third range are those of the inode and block map. *)
Theorem reader_reports_layout s b :
  let sbi := fs_sbi s in let d := sbd sbi in let d0 := sb_of_block b in
  let meta := 1 + nr_istore_blocks d + nr_ifree_blocks d + nr_bfree_blocks d in
  let nfree := Z.of_nat (size (free_blocks sbi)) in let ifree := Z.of_nat (size (free_inodes sbi)) in
  sbi_wf sbi -> block_inv sbi -> inode_inv sbi -> fs_offset sbi = 0 -> meta <= nr_blocks d ->
  blk_at s 0 = Some b -> length b = BLK -> magic d0 = LOLELFFS_MAGIC ->
  (forall j, 0 <= j < nr_istore_blocks d + nr_ifree_blocks d + nr_bfree_blocks d + 1 -> is_Some (blk_at s j)) ->
  exists s1 bytes r ist_end i0 i1 b0 b1 d1, lolelffs_sync_fs s = (Ok tt, s1) /\ fs_disk s1 !! 0 = Some bytes /\
    reader_main 2 true true bytes = (0, Some r) /\
    rp_free_blocks r = nfree /\ rp_used_blocks r = nr_blocks d - nfree /\
    rp_free_inodes r = ifree /\ rp_used_inodes r = nr_inodes d - ifree /\
    rp_total_size r = 4096 * nr_blocks d /\ rp_used_size r = 4096 * (nr_blocks d - nfree) /\
    rp_free_size r = 4096 * nfree /\ rp_metadata_blocks r = meta /\ rp_data_blocks r = nr_blocks d - meta /\
    rp_version_ok r = (version d0 =? LOLELFFS_VERSION) /\
    rp_compression r = (if comp_enabled d0 =? 0 then None
      else Some (comp_algo_name (comp_default_algo d0), comp_min_block_size d0, max_extent_blocks d0, comp_features d0)) /\
    rp_ranges r = [(1, ist_end); (i0, i1); (b0, b1); (d1, nr_blocks d - 1)] /\
    ist_end = nr_istore_blocks d /\ i0 = ist_end + 1 /\ i1 = ist_end + nr_ifree_blocks d /\
    b0 = i1 + 1 /\ b1 = i1 + nr_bfree_blocks d /\ d1 = meta /\
    (forall j, i0 <= j <= i1 -> fs_disk s1 !! j = Some (bitmap_block (ifree_bitmap sbi) (Z.to_nat (j - i0)))) /\
    (forall j, b0 <= j <= b1 -> fs_disk s1 !! j = Some (bitmap_block (bfree_bitmap sbi) (Z.to_nat (j - b0)))).
Proof.
  intros sbi d d0 meta nfree ifree Hwf Hbi Hii Hoff Hfit H0 Hl Hm Hblk.
  destruct (sync_fs_spec s b Hwf H0 Hl Hblk) as (dk & Hrun & Hsb & HI & HB & _). fold sbi d in HI, HB, Hsb.
  assert (Forall (fun v => is_u32 v) (sb_counts d)) as Hc by exact (wf_counts _ Hwf). destruct (sync_superblock_spec d b Hl Hc) as (Hcnt & Hmag & _).
  destruct (sync_superblock_settings d b Hl Hc) as (V1 & V2 & V3 & V4 & V5 & V6).
  destruct Hbi as (_ & _ & _ & Ebf). destruct Hii as (_ & _ & _ & Eif). fold d (free_blocks sbi) nfree in Ebf.
  fold d (free_inodes sbi) ifree in Eif.
  assert (nfree <= nr_blocks d /\ ifree <= nr_inodes d) as [Hnf Hif].
  { unfold sb_counts in Hc. rewrite !Forall_cons in Hc. destruct Hc as (?&?&_). split; apply free_set_bound; lia. }
  unfold blk_at in Hsb, HI, HB. cbn [set_disk fs_disk fs_sbi] in Hsb, HI, HB. fold sbi in Hsb, HI, HB. rewrite Hoff in Hsb, HI, HB.
  pose proof (reader_values (sync_superblock d b)) as Hr. cbv zeta in *.
  set (csb := sb_of_block (sync_superblock d b)) in *. clearbody csb.
  rewrite Hcnt, Hmag in Hr. injection Hcnt as E1 E2 E3 E4 E5 E6 E7. rewrite E1, E2, E3, E4, E5, E6, E7 in Hr.
  destruct Hr as (mb & enc & Hr); [|done..|by rewrite Ebf|by rewrite Eif|].
  { unfold sync_superblock, wr32. autorewrite with mem. rewrite Hl. apply Nat.leb_le. by vm_compute. }
  rewrite V1, V2, V3, V4, V5, V6, Ebf, Eif in Hr. fold d0 meta in Hr.
  exists (set_disk dk s), (sync_superblock d b). do 7 eexists. split; [exact Hrun|]. split; [exact Hsb|].
  split; [exact Hr|]. split_and!; try reflexivity.
  - intros j Hj. rewrite <- (HI (Z.to_nat (j - (nr_istore_blocks d + 1)))) by lia. cbn [set_disk fs_disk]. f_equal. lia.
  - intros j Hj. rewrite <- (HB (Z.to_nat (j - (nr_istore_blocks d + nr_ifree_blocks d + 1)))) by lia.
    cbn [set_disk fs_disk]. f_equal. lia.
Qed.

(** The small image after allocating two blocks: 9 of 16 blocks are free. *)
Lemma reader_reports_layout_witness : exists s1 bytes r,
  lolelffs_sync_fs ex_fs2 = (Ok tt, s1) /\ fs_disk s1 !! 0 = Some bytes /\
  reader_main 2 true true bytes = (0, Some r) /\ rp_used_blocks r = 7.
Proof.
  destruct (reader_reports_layout ex_fs2 (bytes_of_sb ex_sb ++ zeros (BLK - 164)))
    as (s1 & bytes & r & _ & _ & _ & _ & _ & _ & H1 & H2 & H3 & _ & H4 & _).
  - split; apply (bool_decide_unpack _); vm_compute; exact I.
  - split_and!; apply (bool_decide_unpack _); vm_compute; exact I.
  - split_and!; apply (bool_decide_unpack _); vm_compute; exact I.
  - reflexivity.
  - vm_compute. discriminate.
  - vm_compute. reflexivity.
  - vm_compute. reflexivity.
  - vm_compute. reflexivity.
  - intros j Hj. assert (0 <= j < 4) as Hj' by exact Hj.
    assert (j = 0 \/ j = 1 \/ j = 2 \/ j = 3) as [->|[->|[->| ->]]] by lia; (eexists; vm_compute; reflexivity).
  - exists s1, bytes, r. split; [exact H1|]. split; [exact H2|]. split; [exact H3|].
    rewrite H4. vm_compute. reflexivity.
Defined.

(** The reader takes the field after max_extent_blocks for enc_enabled: of an
    image that mkfs makes, which is not encrypted, it says encryption is
    enabled. *)
Theorem reader_misreads_encryption : exists r,
  reader_main 2 true true (superblock_block (mkfs_sb (120 * 4096))) = (0, Some r) /\
  enc_enabled (mkfs_sb (120 * 4096)) = 0 /\ rp_encryption r <> None.
Proof. eexists. split; [vm_compute; reflexivity|]. split; [reflexivity|]. cbn. discriminate. Qed.
