(* ===== verification/Module.v ===== *)
(** * Loading and unloading the module (src/src/fs.c)

    lolelffs_init acquires four things in order and releases what it has when
    one of them fails; lolelffs_exit releases all four. *)
From S2P Require Import Prelude Layout State Codec.

(** What the module holds: the compression and encryption contexts, the inode
    slab cache and the registration of the file system type. *)
Record module := Mod {
  m_comp : comp_ctx;
  m_enc : enc_ctx;
  m_inode_cache : bool;
  m_registered : bool
}.

Definition set_comp (c : comp_ctx) (m : module) : module := Mod c (m_enc m) (m_inode_cache m) (m_registered m).
Definition set_enc (c : enc_ctx) (m : module) : module := Mod (m_comp m) c (m_inode_cache m) (m_registered m).
Definition set_inode_cache (c : bool) (m : module) : module := Mod (m_comp m) (m_enc m) c (m_registered m).
Definition set_registered (c : bool) (m : module) : module := Mod (m_comp m) (m_enc m) (m_inode_cache m) c.

(** What the kernel answers while the module is loaded: the two work spaces, the
    two ciphers and the tag length, kmem_cache_create and register_filesystem. *)
Record answers := Answers {
  lz4_workspace : bool; zlib_workspace : bool;
  aes_alloc : bool; chacha_alloc : bool; setauthsize : bool;
  cache_alloc : bool;
  register_err : option errno
}.

Section Load.
Context (k : answers).

Definition comp_init : M module unit := fun m =>
  let '(r, c) := lolelffs_comp_init (lz4_workspace k) (zlib_workspace k) (m_comp m) in (r, set_comp c m).

(** lolelffs_enc_init returns 0 on every path. *)
Definition enc_init : M module unit :=
  modify (fun m => set_enc (lolelffs_enc_init (aes_alloc k) (chacha_alloc k) (setauthsize k) (m_enc m)) m).

Definition lolelffs_init_inode_cache : M module unit :=
  if cache_alloc k then modify (set_inode_cache true) else fail ENOMEM.
Definition lolelffs_destroy_inode_cache : M module unit := modify (set_inode_cache false).

Definition register_filesystem : M module unit :=
  match register_err k with Some e => fail e | None => modify (set_registered true) end.

(** EINVAL when the type is not registered. *)
Definition unregister_filesystem : M module unit :=
  r ← gets m_registered;
  if negb r then fail EINVAL else modify (set_registered false).

Definition cleanup_comp : M module unit := modify (fun m => set_comp (lolelffs_comp_exit (m_comp m)) m).
Definition cleanup_enc : M module unit := modify (fun m => set_enc (lolelffs_enc_exit (m_enc m)) m);; cleanup_comp.
Definition cleanup_cache : M module unit := lolelffs_destroy_inode_cache;; cleanup_enc.

Definition lolelffs_init : M module unit :=
  comp_init;;
  on_error enc_init cleanup_comp;;
  on_error lolelffs_init_inode_cache cleanup_enc;;
  on_error register_filesystem cleanup_cache.

(** An error of unregister_filesystem is only printed. *)
Definition lolelffs_exit : M module unit :=
  attempt unregister_filesystem;; cleanup_cache.
End Load.

(** The state before the module is loaded. *)
Definition unloaded : module := Mod comp_ctx0 enc_ctx0 false false.

(** C32 Loading is all or nothing: whatever the kernel refuses, a lolelffs_init
    that fails has released everything it had acquired, and one that succeeds
    has the cache and the registration and at least one compression algorithm,
    all of which lolelffs_exit gives back; it fails exactly when both work
    spaces, the slab cache or the registration is refused, and a lack of ciphers
    does not stop it. *)
Theorem init_all_or_nothing k :
  match lolelffs_init k unloaded with
  | (Ok _, m) =>
      m_registered m = true /\ m_inode_cache m = true /\
      (lz4_available (m_comp m) || zlib_available (m_comp m)) = true /\
      lolelffs_exit m = (Ok tt, unloaded) /\
      (lz4_workspace k || zlib_workspace k) && cache_alloc k = true /\ register_err k = None
  | (Err e, m) =>
      m = unloaded /\ (e = ENOMEM \/ register_err k = Some e) /\
      ((lz4_workspace k || zlib_workspace k) && cache_alloc k = false \/ register_err k <> None)
  end.
Proof.
  destruct k as [lz zl aes cha auth cache reg].
  unfold lolelffs_init, comp_init, lolelffs_comp_init, on_error, register_filesystem, lolelffs_init_inode_cache.
  destruct lz, zl, aes, cha, auth, cache, reg as [e|]; cbn; split_and!; auto.
Qed.
